(** * Emulator cores: CHIP-8 and Game Boy (DMG)

    A shallow embedding of the interpreter cores of the repository
    (the CHIP-8 machine of [chip81.0.py] and the Game Boy MMU, CPU, PPU and
    system classes of [CAT'SGB.py]) together with the properties of the
    specification that concern them.

    Python integers are unbounded, so every integer is a [Z] and each
    mask ([& 0xFF], [& 0xFFFF], ...) is written where the source writes
    it.  A [bytearray] or a Python list is a [list Z]; indexing follows
    Python (an index out of range raises [IndexError], a negative index
    counts from the end).  A raised exception is the result [None]. *)

From stdpp Require Import base option list list_numbers gmap.
From Stdlib Require Import ZArith Lia.

Open Scope Z_scope.

(** ** Python values and containers *)

Module Py.

(** [len(l)] *)
Definition len {A} (l : list A) : Z := Z.of_nat (length l).

(** Position designated by index [i] in a sequence of length [len l]:
    [None] is Python's [IndexError]. *)
Definition index {A} (l : list A) (i : Z) : option nat :=
  if bool_decide (0 ≤ i < len l) then Some (Z.to_nat i)
  else if bool_decide (- len l ≤ i < 0) then Some (Z.to_nat (len l + i))
  else None.

(** [l[i]] *)
Definition getitem {A} (l : list A) (i : Z) : option A :=
  k ← index l i; l !! k.

(** [l[i] = v] *)
Definition setitem {A} (l : list A) (i : Z) (v : A) : option (list A) :=
  k ← index l i; Some (<[k := v]> l).

(** [l[lo:hi]] for bounds [0 <= lo <= hi] (the only slices of the source);
    like Python, the slice is cut short at the end of [l]. *)
Definition slice {A} (l : list A) (lo hi : Z) : list A :=
  take (Z.to_nat (hi - lo)) (drop (Z.to_nat lo) l).

(** [range(n)] *)
Definition range (n : Z) : list Z := seqZ 0 n.

(** [bytearray(n)], [[0] * n] *)
Definition zeros (n : Z) : list Z := replicate (Z.to_nat n) 0.

(** Truth value of an integer: [bool(n)], [if n:], [not n]. *)
Definition truthy (n : Z) : bool := negb (n =? 0).

(** [any(l)] on a list of integers. *)
Definition any (l : list Z) : bool := existsb truthy l.

(** [1 if b else 0] *)
Definition of_bool (b : bool) : Z := if b then 1 else 0.

(** A byte, as a [bytearray] or [bytes] element. *)
Definition is_byte (v : Z) : bool := bool_decide (0 ≤ v ≤ 255).

(** *** Computations that update a state [S] and may raise

    A method of an object of state [S] returning an [A] is a function
    [S → option (A * S)]: [None] when an exception escapes. *)
Definition M (S A : Type) : Type := S → option (A * S).

Definition ret {S A} (x : A) : M S A := λ s, Some (x, s).

Definition bind {S A B} (m : M S A) (k : A → M S B) : M S B :=
  λ s, match m s with
       | Some (x, s') => k x s'
       | None => None
       end.

Definition raise {S A} : M S A := λ _, None.
Definition gets {S A} (g : S → A) : M S A := λ s, Some (g s, s).
Definition modify {S} (g : S → S) : M S unit := λ s, Some (tt, g s).

(** An [option] computed from the state ([None] raises). *)
Definition try_ {S A} (g : S → option A) : M S A :=
  λ s, match g s with Some x => Some (x, s) | None => None end.

(** A fallible state update. *)
Definition update {S} (g : S → option S) : M S unit :=
  λ s, match g s with Some s' => Some (tt, s') | None => None end.

(** [for x in l: body(x)] *)
Fixpoint for_ {S A} (l : list A) (body : A → M S unit) : M S unit :=
  match l with
  | [] => ret tt
  | x :: l' => bind (body x) (λ _, for_ l' body)
  end.

(** [if c: body] *)
Definition when {S} (c : bool) (body : M S unit) : M S unit :=
  if c then body else ret tt.

(** Final state of a computation. *)
Definition exec {S A} (m : M S A) (s : S) : option S := snd <$> m s.

End Py.

Declare Scope py_scope.
Delimit Scope py_scope with py.
Notation "x <- m ;; k" := (Py.bind m (λ x, k))
  (at level 100, m at next level, k at level 200, right associativity,
   only parsing) : py_scope.
Notation "m ;; k" := (Py.bind m (λ _, k))
  (at level 100, k at level 200, right associativity, only parsing) : py_scope.

(** ** Game Boy memory map: class [MMU] *)

Module MMU.

Record t := mk {
  rom : list Z;
  rom_banks : list (list Z);
  vram : list Z;
  eram : list Z;
  wram : list Z;
  oam : list Z;
  io : list Z;
  hram : list Z;
  ie : Z;
  rom_bank : Z;
  ram_enabled : bool
}.

Definition set_rom v m := mk v (rom_banks m) (vram m) (eram m) (wram m) (oam m) (io m) (hram m) (ie m) (rom_bank m) (ram_enabled m).
Definition set_rom_banks v m := mk (rom m) v (vram m) (eram m) (wram m) (oam m) (io m) (hram m) (ie m) (rom_bank m) (ram_enabled m).
Definition set_vram v m := mk (rom m) (rom_banks m) v (eram m) (wram m) (oam m) (io m) (hram m) (ie m) (rom_bank m) (ram_enabled m).
Definition set_eram v m := mk (rom m) (rom_banks m) (vram m) v (wram m) (oam m) (io m) (hram m) (ie m) (rom_bank m) (ram_enabled m).
Definition set_wram v m := mk (rom m) (rom_banks m) (vram m) (eram m) v (oam m) (io m) (hram m) (ie m) (rom_bank m) (ram_enabled m).
Definition set_oam v m := mk (rom m) (rom_banks m) (vram m) (eram m) (wram m) v (io m) (hram m) (ie m) (rom_bank m) (ram_enabled m).
Definition set_io v m := mk (rom m) (rom_banks m) (vram m) (eram m) (wram m) (oam m) v (hram m) (ie m) (rom_bank m) (ram_enabled m).
Definition set_hram v m := mk (rom m) (rom_banks m) (vram m) (eram m) (wram m) (oam m) (io m) v (ie m) (rom_bank m) (ram_enabled m).
Definition set_ie v m := mk (rom m) (rom_banks m) (vram m) (eram m) (wram m) (oam m) (io m) (hram m) v (rom_bank m) (ram_enabled m).
Definition set_rom_bank v m := mk (rom m) (rom_banks m) (vram m) (eram m) (wram m) (oam m) (io m) (hram m) (ie m) v (ram_enabled m).
Definition set_ram_enabled v m := mk (rom m) (rom_banks m) (vram m) (eram m) (wram m) (oam m) (io m) (hram m) (ie m) (rom_bank m) v.

(** [MMU.reset]: the two stores into the fresh [io] array are at the
    constant indices [0x40] and [0x47] of a 128-byte array. *)
Definition reset : t :=
  {| rom := Py.zeros 0x8000;
     rom_banks := [];
     vram := Py.zeros 0x2000;
     eram := Py.zeros 0x2000;
     wram := Py.zeros 0x2000;
     oam := Py.zeros 0xA0;
     io := <[Z.to_nat 0x47 := 0xFC]> (<[Z.to_nat 0x40 := 0x91]> (Py.zeros 0x80));
     hram := Py.zeros 0x7F;
     ie := 0;
     rom_bank := 1;
     ram_enabled := false |}.

(** [MMU.load_rom(data)]; the method always returns [True]. *)
Definition load_rom (data : list Z) : Py.M t bool :=
  (Py.modify (λ _, reset) ;;
   Py.for_ (Py.range (Z.min (Py.len data) 0x8000)) (λ i,
     Py.update (λ m, v ← Py.getitem data i;
                     r ← Py.setitem (rom m) i v;
                     Some (set_rom r m))) ;;
   Py.when (bool_decide (Py.len data > 0x8000))
     (Py.for_ (Py.range (Py.len data / 0x4000)) (λ b,
        Py.modify (λ m, set_rom_banks
          (rom_banks m ++ [Py.slice data (b * 0x4000) ((b + 1) * 0x4000)]) m))) ;;
   Py.ret true)%py.

(** [MMU.read(addr)] *)
Definition read (m : t) (addr : Z) : option Z :=
  let addr := Z.land addr 0xFFFF in
  if addr <? 0x4000 then Py.getitem (rom m) addr
  else if addr <? 0x8000 then
    if negb (bool_decide (rom_banks m = [])) && (rom_bank m <? Py.len (rom_banks m))
    then bank ← Py.getitem (rom_banks m) (rom_bank m);
         Py.getitem bank (addr - 0x4000)
    else Py.getitem (rom m) addr
  else if addr <? 0xA000 then Py.getitem (vram m) (addr - 0x8000)
  else if addr <? 0xC000 then
    if ram_enabled m then Py.getitem (eram m) (addr - 0xA000) else Some 0xFF
  else if addr <? 0xE000 then Py.getitem (wram m) (addr - 0xC000)
  else if addr <? 0xFE00 then Py.getitem (wram m) (addr - 0xE000)
  else if addr <? 0xFEA0 then Py.getitem (oam m) (addr - 0xFE00)
  else if addr <? 0xFF00 then Some 0xFF
  else if addr <? 0xFF80 then Py.getitem (io m) (addr - 0xFF00)
  else if addr <? 0xFFFF then Py.getitem (hram m) (addr - 0xFF80)
  else Some (ie m).

(** One iteration of the OAM DMA loop: [self.oam[i] = self.read(src + i)]. *)
Definition dma_copy (src i : Z) (m : t) : option t :=
  v ← read m (src + i);
  o ← Py.setitem (oam m) i v;
  Some (set_oam o m).

(** [MMU.write(addr, val)] *)
Definition write (addr val : Z) : Py.M t unit :=
  let addr := Z.land addr 0xFFFF in
  let val := Z.land val 0xFF in
  if addr <? 0x2000 then
    Py.modify (set_ram_enabled (Z.land val 0x0F =? 0x0A))
  else if addr <? 0x4000 then
    (Py.modify (set_rom_bank (Z.land val 0x1F)) ;;
     Py.modify (λ m, if rom_bank m =? 0 then set_rom_bank 1 m else m))%py
  else if addr <? 0x8000 then Py.ret tt
  else if addr <? 0xA000 then
    Py.update (λ m, r ← Py.setitem (vram m) (addr - 0x8000) val; Some (set_vram r m))
  else if addr <? 0xC000 then
    Py.update (λ m, if ram_enabled m
                    then r ← Py.setitem (eram m) (addr - 0xA000) val; Some (set_eram r m)
                    else Some m)
  else if addr <? 0xE000 then
    Py.update (λ m, r ← Py.setitem (wram m) (addr - 0xC000) val; Some (set_wram r m))
  else if addr <? 0xFE00 then
    Py.update (λ m, r ← Py.setitem (wram m) (addr - 0xE000) val; Some (set_wram r m))
  else if addr <? 0xFEA0 then
    Py.update (λ m, r ← Py.setitem (oam m) (addr - 0xFE00) val; Some (set_oam r m))
  else if addr <? 0xFF00 then Py.ret tt
  else if addr <? 0xFF80 then
    (Py.when (addr =? 0xFF46)
       (let src := Z.shiftl val 8 in
        Py.for_ (Py.range 0xA0) (λ i, Py.update (dma_copy src i))) ;;
     Py.update (λ m, r ← Py.setitem (io m) (addr - 0xFF00) val; Some (set_io r m)))%py
  else if addr <? 0xFFFF then
    Py.update (λ m, r ← Py.setitem (hram m) (addr - 0xFF80) val; Some (set_hram r m))
  else Py.modify (set_ie val).

End MMU.

(** ** Game Boy object graph

    [GameBoy.__init__] creates one [MMU] and hands the same object to the
    [CPU] and to the [PPU]; the three classes therefore act on one store,
    [Sys.t], in which the MMU occurs once. *)

(** Attributes of a [CPU] object. *)
Module Regs.

Record t := mk {
  a : Z; f : Z; b : Z; c : Z; d : Z; e : Z; h : Z; l : Z;
  sp : Z; pc : Z;
  ime : bool; halted : bool;
  cycles : Z
}.

Definition set_a v r := mk v (f r) (b r) (c r) (d r) (e r) (h r) (l r) (sp r) (pc r) (ime r) (halted r) (cycles r).
Definition set_f v r := mk (a r) v (b r) (c r) (d r) (e r) (h r) (l r) (sp r) (pc r) (ime r) (halted r) (cycles r).
Definition set_b v r := mk (a r) (f r) v (c r) (d r) (e r) (h r) (l r) (sp r) (pc r) (ime r) (halted r) (cycles r).
Definition set_c v r := mk (a r) (f r) (b r) v (d r) (e r) (h r) (l r) (sp r) (pc r) (ime r) (halted r) (cycles r).
Definition set_d v r := mk (a r) (f r) (b r) (c r) v (e r) (h r) (l r) (sp r) (pc r) (ime r) (halted r) (cycles r).
Definition set_e v r := mk (a r) (f r) (b r) (c r) (d r) v (h r) (l r) (sp r) (pc r) (ime r) (halted r) (cycles r).
Definition set_h v r := mk (a r) (f r) (b r) (c r) (d r) (e r) v (l r) (sp r) (pc r) (ime r) (halted r) (cycles r).
Definition set_l v r := mk (a r) (f r) (b r) (c r) (d r) (e r) (h r) v (sp r) (pc r) (ime r) (halted r) (cycles r).
Definition set_sp v r := mk (a r) (f r) (b r) (c r) (d r) (e r) (h r) (l r) v (pc r) (ime r) (halted r) (cycles r).
Definition set_pc v r := mk (a r) (f r) (b r) (c r) (d r) (e r) (h r) (l r) (sp r) v (ime r) (halted r) (cycles r).
Definition set_ime v r := mk (a r) (f r) (b r) (c r) (d r) (e r) (h r) (l r) (sp r) (pc r) v (halted r) (cycles r).
Definition set_halted v r := mk (a r) (f r) (b r) (c r) (d r) (e r) (h r) (l r) (sp r) (pc r) (ime r) v (cycles r).

End Regs.

(** Attributes of a [PPU] object (besides the shared MMU). *)
Module Video.

Record t := mk {
  framebuffer : list Z;
  scanline_counter : Z;
  frame_ready : bool
}.

Definition set_framebuffer v p := mk v (scanline_counter p) (frame_ready p).
Definition set_scanline_counter v p := mk (framebuffer p) v (frame_ready p).
Definition set_frame_ready v p := mk (framebuffer p) (scanline_counter p) v.

End Video.

(** A [GameBoy] object with the objects it owns.  The [rom_info] attribute
    (title and labels shown by the shell) is not part of the core. *)
Module Sys.

Record t := mk {
  mmu : MMU.t;
  cpu : Regs.t;
  ppu : Video.t;
  running : bool;
  paused : bool;
  buttons : Z
}.

Definition set_mmu v s := mk v (cpu s) (ppu s) (running s) (paused s) (buttons s).
Definition set_cpu v s := mk (mmu s) v (ppu s) (running s) (paused s) (buttons s).
Definition set_ppu v s := mk (mmu s) (cpu s) v (running s) (paused s) (buttons s).
Definition set_running v s := mk (mmu s) (cpu s) (ppu s) v (paused s) (buttons s).
Definition set_paused v s := mk (mmu s) (cpu s) (ppu s) (running s) v (buttons s).
Definition set_buttons v s := mk (mmu s) (cpu s) (ppu s) (running s) (paused s) v.

(** A method of the MMU called on the shared object. *)
Definition on_mmu {A} (m : Py.M MMU.t A) : Py.M t A :=
  λ s, match m (mmu s) with
       | Some (x, m') => Some (x, set_mmu m' s)
       | None => None
       end.

End Sys.

(** ** Game Boy CPU: class [CPU] *)

Module CPU.

Abbreviation M := (Py.M Sys.t).

(** [self.r] and [self.r = v] for an attribute [r] of the CPU. *)
Definition get {A} (r : Regs.t → A) : M A := Py.gets (λ s, r (Sys.cpu s)).
Definition set {A} (u : A → Regs.t → Regs.t) (v : A) : M unit :=
  Py.modify (λ s, Sys.set_cpu (u v (Sys.cpu s)) s).

(** [self.mmu.read(addr)], [self.mmu.write(addr, val)] *)
Definition mmu_read (addr : Z) : M Z := Py.try_ (λ s, MMU.read (Sys.mmu s) addr).
Definition mmu_write (addr val : Z) : M unit := Sys.on_mmu (MMU.write addr val).

(** [CPU.reset] *)
Definition reset : Regs.t :=
  {| Regs.a := 0x01; Regs.f := 0xB0;
     Regs.b := 0x00; Regs.c := 0x13;
     Regs.d := 0x00; Regs.e := 0xD8;
     Regs.h := 0x01; Regs.l := 0x4D;
     Regs.sp := 0xFFFE;
     Regs.pc := 0x0100;
     Regs.ime := false;
     Regs.halted := false;
     Regs.cycles := 0 |}.

(** Flag properties and their setters. *)
Definition zf : M bool := (f <- get Regs.f ;; Py.ret (Py.truthy (Z.land f 0x80)))%py.
Definition set_zf (v : bool) : M unit :=
  (f <- get Regs.f ;; set Regs.set_f (Z.lor (Z.land f 0x7F) (if v then 0x80 else 0)))%py.
Definition nf : M bool := (f <- get Regs.f ;; Py.ret (Py.truthy (Z.land f 0x40)))%py.
Definition set_nf (v : bool) : M unit :=
  (f <- get Regs.f ;; set Regs.set_f (Z.lor (Z.land f 0xBF) (if v then 0x40 else 0)))%py.
Definition hf : M bool := (f <- get Regs.f ;; Py.ret (Py.truthy (Z.land f 0x20)))%py.
Definition set_hf (v : bool) : M unit :=
  (f <- get Regs.f ;; set Regs.set_f (Z.lor (Z.land f 0xDF) (if v then 0x20 else 0)))%py.
Definition cf : M bool := (f <- get Regs.f ;; Py.ret (Py.truthy (Z.land f 0x10)))%py.
Definition set_cf (v : bool) : M unit :=
  (f <- get Regs.f ;; set Regs.set_f (Z.lor (Z.land f 0xEF) (if v then 0x10 else 0)))%py.

(** Register pairs. *)
Definition af : M Z :=
  (a <- get Regs.a ;; f <- get Regs.f ;; Py.ret (Z.lor (Z.shiftl a 8) (Z.land f 0xF0)))%py.
Definition set_af (v : Z) : M unit :=
  (set Regs.set_a (Z.land (Z.shiftr v 8) 0xFF) ;; set Regs.set_f (Z.land v 0xF0))%py.
Definition bc : M Z :=
  (b <- get Regs.b ;; c <- get Regs.c ;; Py.ret (Z.lor (Z.shiftl b 8) c))%py.
Definition set_bc (v : Z) : M unit :=
  (set Regs.set_b (Z.land (Z.shiftr v 8) 0xFF) ;; set Regs.set_c (Z.land v 0xFF))%py.
Definition de : M Z :=
  (d <- get Regs.d ;; e <- get Regs.e ;; Py.ret (Z.lor (Z.shiftl d 8) e))%py.
Definition set_de (v : Z) : M unit :=
  (set Regs.set_d (Z.land (Z.shiftr v 8) 0xFF) ;; set Regs.set_e (Z.land v 0xFF))%py.
Definition hl : M Z :=
  (h <- get Regs.h ;; l <- get Regs.l ;; Py.ret (Z.lor (Z.shiftl h 8) l))%py.
Definition set_hl (v : Z) : M unit :=
  (set Regs.set_h (Z.land (Z.shiftr v 8) 0xFF) ;; set Regs.set_l (Z.land v 0xFF))%py.

Definition fetch : M Z :=
  (pc <- get Regs.pc ;;
   v <- mmu_read pc ;;
   pc <- get Regs.pc ;;
   set Regs.set_pc (Z.land (pc + 1) 0xFFFF) ;;
   Py.ret v)%py.

Definition fetch16 : M Z :=
  (lo <- fetch ;; hi <- fetch ;; Py.ret (Z.lor (Z.shiftl hi 8) lo))%py.

Definition push (val : Z) : M unit :=
  (sp <- get Regs.sp ;;
   set Regs.set_sp (Z.land (sp - 1) 0xFFFF) ;;
   sp <- get Regs.sp ;;
   mmu_write sp (Z.land (Z.shiftr val 8) 0xFF) ;;
   sp <- get Regs.sp ;;
   set Regs.set_sp (Z.land (sp - 1) 0xFFFF) ;;
   sp <- get Regs.sp ;;
   mmu_write sp (Z.land val 0xFF))%py.

Definition pop : M Z :=
  (sp <- get Regs.sp ;;
   lo <- mmu_read sp ;;
   sp <- get Regs.sp ;;
   set Regs.set_sp (Z.land (sp + 1) 0xFFFF) ;;
   sp <- get Regs.sp ;;
   hi <- mmu_read sp ;;
   sp <- get Regs.sp ;;
   set Regs.set_sp (Z.land (sp + 1) 0xFFFF) ;;
   Py.ret (Z.lor (Z.shiftl hi 8) lo))%py.

Definition _inc (v : Z) : M Z :=
  (let r := Z.land (v + 1) 0xFF in
   set_zf (r =? 0) ;; set_nf false ;; set_hf (Z.land v 0x0F =? 0x0F) ;;
   Py.ret r)%py.

Definition _dec (v : Z) : M Z :=
  (let r := Z.land (v - 1) 0xFF in
   set_zf (r =? 0) ;; set_nf true ;; set_hf (Z.land v 0x0F =? 0x00) ;;
   Py.ret r)%py.

Definition _add_hl (v : Z) : M unit :=
  (x <- hl ;;
   let r := x + v in
   set_nf false ;;
   x <- hl ;;
   set_hf (Z.land x 0xFFF + Z.land v 0xFFF >? 0xFFF) ;;
   set_cf (r >? 0xFFFF) ;;
   set_hl (Z.land r 0xFFFF))%py.

(** [_get_r] builds the list of the eight operands (reading the byte at
    [HL] whatever [r] is) and indexes it with [r]. *)
Definition _get_r (r : Z) : M Z :=
  (b <- get Regs.b ;; c <- get Regs.c ;; d <- get Regs.d ;; e <- get Regs.e ;;
   h <- get Regs.h ;; l <- get Regs.l ;;
   x <- hl ;; m <- mmu_read x ;;
   a <- get Regs.a ;;
   Py.try_ (λ _, Py.getitem [b; c; d; e; h; l; m; a] r))%py.

Definition _set_r (r v : Z) : M unit :=
  (let v := Z.land v 0xFF in
   if r =? 0 then set Regs.set_b v
   else if r =? 1 then set Regs.set_c v
   else if r =? 2 then set Regs.set_d v
   else if r =? 3 then set Regs.set_e v
   else if r =? 4 then set Regs.set_h v
   else if r =? 5 then set Regs.set_l v
   else if r =? 6 then (x <- hl ;; mmu_write x v)
   else set Regs.set_a v)%py.


Definition _alu (op v : Z) : M unit :=
  (if op =? 0 then (* ADD *)
     a <- get Regs.a ;;
     let r := a + v in
     a <- get Regs.a ;;
     set_hf (Z.land a 0x0F + Z.land v 0x0F >? 0x0F) ;;
     set_cf (r >? 0xFF) ;;
     set Regs.set_a (Z.land r 0xFF) ;;
     a <- get Regs.a ;;
     set_zf (a =? 0) ;; set_nf false
   else if op =? 1 then (* ADC *)
     cy <- cf ;;
     let c := if cy then 1 else 0 in
     a <- get Regs.a ;;
     let r := a + v + c in
     a <- get Regs.a ;;
     set_hf (Z.land a 0x0F + Z.land v 0x0F + c >? 0x0F) ;;
     set_cf (r >? 0xFF) ;;
     set Regs.set_a (Z.land r 0xFF) ;;
     a <- get Regs.a ;;
     set_zf (a =? 0) ;; set_nf false
   else if op =? 2 then (* SUB *)
     a <- get Regs.a ;;
     let r := a - v in
     a <- get Regs.a ;;
     set_hf (Z.land a 0x0F <? Z.land v 0x0F) ;;
     set_cf (r <? 0) ;;
     set Regs.set_a (Z.land r 0xFF) ;;
     a <- get Regs.a ;;
     set_zf (a =? 0) ;; set_nf true
   else if op =? 3 then (* SBC *)
     cy <- cf ;;
     let c := if cy then 1 else 0 in
     a <- get Regs.a ;;
     let r := a - v - c in
     a <- get Regs.a ;;
     set_hf (Z.land a 0x0F <? Z.land v 0x0F + c) ;;
     set_cf (r <? 0) ;;
     set Regs.set_a (Z.land r 0xFF) ;;
     a <- get Regs.a ;;
     set_zf (a =? 0) ;; set_nf true
   else if op =? 4 then (* AND *)
     a <- get Regs.a ;;
     set Regs.set_a (Z.land a v) ;;
     a <- get Regs.a ;;
     set_zf (a =? 0) ;; set_nf false ;; set_hf true ;; set_cf false
   else if op =? 5 then (* XOR *)
     a <- get Regs.a ;;
     set Regs.set_a (Z.lxor a v) ;;
     a <- get Regs.a ;;
     set_zf (a =? 0) ;; set_nf false ;; set_hf false ;; set_cf false
   else if op =? 6 then (* OR *)
     a <- get Regs.a ;;
     set Regs.set_a (Z.lor a v) ;;
     a <- get Regs.a ;;
     set_zf (a =? 0) ;; set_nf false ;; set_hf false ;; set_cf false
   else if op =? 7 then (* CP *)
     a <- get Regs.a ;;
     let r := a - v in
     set_zf (Z.land r 0xFF =? 0) ;; set_nf true ;;
     a <- get Regs.a ;;
     set_hf (Z.land a 0x0F <? Z.land v 0x0F) ;;
     set_cf (r <? 0)
   else Py.ret tt)%py.

(** The signed displacement of a relative jump:
    [if off > 127: off -= 256]. *)
Definition signed8 (off : Z) : Z := if off >? 127 then off - 256 else off.

(** [self.pc = (self.pc + off) & 0xFFFF] after the sign adjustment. *)
Definition jump_rel (off : Z) : M unit :=
  (let off := signed8 off in
   pc <- get Regs.pc ;;
   set Regs.set_pc (Z.land (pc + off) 0xFFFF))%py.

(** [self.push(self.pc); self.pc = target] (CALL and RST). *)
Definition call (target : Z) : M unit :=
  (pc <- get Regs.pc ;; push pc ;; set Regs.set_pc target)%py.

(** [self.pc = self.pop()] *)
Definition return_ : M unit := (x <- pop ;; set Regs.set_pc x)%py.

Definition _exec_cb (op : Z) : M Z :=
  (let r := Z.land op 7 in
   v <- _get_r r ;;
   let cyc := if r =? 6 then 16 else 8 in
   if op <? 0x08 then
     let c := Z.land (Z.shiftr v 7) 1 in
     let v := Z.land (Z.lor (Z.shiftl v 1) c) 0xFF in
     set_zf (v =? 0) ;; set_nf false ;; set_hf false ;; set_cf (Py.truthy c) ;;
     _set_r r v ;; Py.ret cyc
   else if op <? 0x10 then
     let c := Z.land v 1 in
     let v := Z.land (Z.lor (Z.shiftr v 1) (Z.shiftl c 7)) 0xFF in
     set_zf (v =? 0) ;; set_nf false ;; set_hf false ;; set_cf (Py.truthy c) ;;
     _set_r r v ;; Py.ret cyc
   else if op <? 0x18 then
     cy <- cf ;;
     let c := if cy then 1 else 0 in
     let nc := Z.land (Z.shiftr v 7) 1 in
     let v := Z.land (Z.lor (Z.shiftl v 1) c) 0xFF in
     set_zf (v =? 0) ;; set_nf false ;; set_hf false ;; set_cf (Py.truthy nc) ;;
     _set_r r v ;; Py.ret cyc
   else if op <? 0x20 then
     cy <- cf ;;
     let c := if cy then 1 else 0 in
     let nc := Z.land v 1 in
     let v := Z.land (Z.lor (Z.shiftr v 1) (Z.shiftl c 7)) 0xFF in
     set_zf (v =? 0) ;; set_nf false ;; set_hf false ;; set_cf (Py.truthy nc) ;;
     _set_r r v ;; Py.ret cyc
   else if op <? 0x28 then
     let c := Z.land (Z.shiftr v 7) 1 in
     let v := Z.land (Z.shiftl v 1) 0xFF in
     set_zf (v =? 0) ;; set_nf false ;; set_hf false ;; set_cf (Py.truthy c) ;;
     _set_r r v ;; Py.ret cyc
   else if op <? 0x30 then
     let c := Z.land v 1 in
     let v := Z.land (Z.lor (Z.shiftr v 1) (Z.land v 0x80)) 0xFF in
     set_zf (v =? 0) ;; set_nf false ;; set_hf false ;; set_cf (Py.truthy c) ;;
     _set_r r v ;; Py.ret cyc
   else if op <? 0x38 then
     let v := Z.land (Z.lor (Z.shiftr v 4) (Z.shiftl v 4)) 0xFF in
     set_zf (v =? 0) ;; set_nf false ;; set_hf false ;; set_cf false ;;
     _set_r r v ;; Py.ret cyc
   else if op <? 0x40 then
     let c := Z.land v 1 in
     let v := Z.land (Z.shiftr v 1) 0xFF in
     set_zf (v =? 0) ;; set_nf false ;; set_hf false ;; set_cf (Py.truthy c) ;;
     _set_r r v ;; Py.ret cyc
   else if op <? 0x80 then
     let bit := Z.land (Z.shiftr op 3) 7 in
     set_zf (negb (Py.truthy (Z.land v (Z.shiftl 1 bit)))) ;;
     set_nf false ;; set_hf true ;;
     Py.ret (if r =? 6 then 12 else 8)
   else if op <? 0xC0 then
     let v := Z.land v (Z.lnot (Z.shiftl 1 (Z.land (Z.shiftr op 3) 7))) in
     _set_r r v ;; Py.ret cyc
   else
     let v := Z.lor v (Z.shiftl 1 (Z.land (Z.shiftr op 3) 7)) in
     _set_r r v ;; Py.ret cyc)%py.

Definition _exec (op : Z) : M Z :=
  (if op =? 0x00 then Py.ret 4
   else if op =? 0x01 then (x <- fetch16 ;; set_bc x ;; Py.ret 12)
   else if op =? 0x02 then (x <- bc ;; a <- get Regs.a ;; mmu_write x a ;; Py.ret 8)
   else if op =? 0x03 then (x <- bc ;; set_bc (Z.land (x + 1) 0xFFFF) ;; Py.ret 8)
   else if op =? 0x04 then (b <- get Regs.b ;; r <- _inc b ;; set Regs.set_b r ;; Py.ret 4)
   else if op =? 0x05 then (b <- get Regs.b ;; r <- _dec b ;; set Regs.set_b r ;; Py.ret 4)
   else if op =? 0x06 then (x <- fetch ;; set Regs.set_b x ;; Py.ret 8)
   else if op =? 0x07 then
     a <- get Regs.a ;;
     let c := Z.land (Z.shiftr a 7) 1 in
     a <- get Regs.a ;;
     set Regs.set_a (Z.land (Z.lor (Z.shiftl a 1) c) 0xFF) ;;
     set_zf false ;; set_nf false ;; set_hf false ;; set_cf (Py.truthy c) ;;
     Py.ret 4
   else if op =? 0x08 then
     addr <- fetch16 ;;
     sp <- get Regs.sp ;;
     mmu_write addr (Z.land sp 0xFF) ;;
     sp <- get Regs.sp ;;
     mmu_write (addr + 1) (Z.land (Z.shiftr sp 8) 0xFF) ;;
     Py.ret 20
   else if op =? 0x09 then (x <- bc ;; _add_hl x ;; Py.ret 8)
   else if op =? 0x0A then (x <- bc ;; v <- mmu_read x ;; set Regs.set_a v ;; Py.ret 8)
   else if op =? 0x0B then (x <- bc ;; set_bc (Z.land (x - 1) 0xFFFF) ;; Py.ret 8)
   else if op =? 0x0C then (c <- get Regs.c ;; r <- _inc c ;; set Regs.set_c r ;; Py.ret 4)
   else if op =? 0x0D then (c <- get Regs.c ;; r <- _dec c ;; set Regs.set_c r ;; Py.ret 4)
   else if op =? 0x0E then (x <- fetch ;; set Regs.set_c x ;; Py.ret 8)
   else if op =? 0x0F then
     a <- get Regs.a ;;
     let c := Z.land a 1 in
     a <- get Regs.a ;;
     set Regs.set_a (Z.land (Z.lor (Z.shiftr a 1) (Z.shiftl c 7)) 0xFF) ;;
     set_zf false ;; set_nf false ;; set_hf false ;; set_cf (Py.truthy c) ;;
     Py.ret 4
   else if op =? 0x11 then (x <- fetch16 ;; set_de x ;; Py.ret 12)
   else if op =? 0x12 then (x <- de ;; a <- get Regs.a ;; mmu_write x a ;; Py.ret 8)
   else if op =? 0x13 then (x <- de ;; set_de (Z.land (x + 1) 0xFFFF) ;; Py.ret 8)
   else if op =? 0x14 then (d <- get Regs.d ;; r <- _inc d ;; set Regs.set_d r ;; Py.ret 4)
   else if op =? 0x15 then (d <- get Regs.d ;; r <- _dec d ;; set Regs.set_d r ;; Py.ret 4)
   else if op =? 0x16 then (x <- fetch ;; set Regs.set_d x ;; Py.ret 8)
   else if op =? 0x17 then
     cy <- cf ;;
     let c := if cy then 1 else 0 in
     a <- get Regs.a ;;
     let nc := Z.land (Z.shiftr a 7) 1 in
     a <- get Regs.a ;;
     set Regs.set_a (Z.land (Z.lor (Z.shiftl a 1) c) 0xFF) ;;
     set_zf false ;; set_nf false ;; set_hf false ;; set_cf (Py.truthy nc) ;;
     Py.ret 4
   else if op =? 0x18 then (off <- fetch ;; jump_rel off ;; Py.ret 12)
   else if op =? 0x19 then (x <- de ;; _add_hl x ;; Py.ret 8)
   else if op =? 0x1A then (x <- de ;; v <- mmu_read x ;; set Regs.set_a v ;; Py.ret 8)
   else if op =? 0x1B then (x <- de ;; set_de (Z.land (x - 1) 0xFFFF) ;; Py.ret 8)
   else if op =? 0x1C then (e <- get Regs.e ;; r <- _inc e ;; set Regs.set_e r ;; Py.ret 4)
   else if op =? 0x1D then (e <- get Regs.e ;; r <- _dec e ;; set Regs.set_e r ;; Py.ret 4)
   else if op =? 0x1E then (x <- fetch ;; set Regs.set_e x ;; Py.ret 8)
   else if op =? 0x1F then
     cy <- cf ;;
     let c := if cy then 1 else 0 in
     a <- get Regs.a ;;
     let nc := Z.land a 1 in
     a <- get Regs.a ;;
     set Regs.set_a (Z.land (Z.lor (Z.shiftr a 1) (Z.shiftl c 7)) 0xFF) ;;
     set_zf false ;; set_nf false ;; set_hf false ;; set_cf (Py.truthy nc) ;;
     Py.ret 4
   else if op =? 0x20 then
     off <- fetch ;;
     z <- zf ;;
     if negb z then (jump_rel off ;; Py.ret 12) else Py.ret 8
   else if op =? 0x21 then (x <- fetch16 ;; set_hl x ;; Py.ret 12)
   else if op =? 0x22 then
     x <- hl ;; a <- get Regs.a ;; mmu_write x a ;;
     x <- hl ;; set_hl (Z.land (x + 1) 0xFFFF) ;; Py.ret 8
   else if op =? 0x23 then (x <- hl ;; set_hl (Z.land (x + 1) 0xFFFF) ;; Py.ret 8)
   else if op =? 0x24 then (h <- get Regs.h ;; r <- _inc h ;; set Regs.set_h r ;; Py.ret 4)
   else if op =? 0x25 then (h <- get Regs.h ;; r <- _dec h ;; set Regs.set_h r ;; Py.ret 4)
   else if op =? 0x26 then (x <- fetch ;; set Regs.set_h x ;; Py.ret 8)
   else if op =? 0x27 then (* DAA *)
     a <- get Regs.a ;;
     n <- nf ;;
     a <- (if negb n then
             cy <- cf ;;
             a <- (if cy || (a >? 0x99) then (set_cf true ;; Py.ret (a + 0x60))
                   else Py.ret a) ;;
             hc <- hf ;;
             Py.ret (if hc || (Z.land a 0x0F >? 0x09) then a + 0x06 else a)
           else
             cy <- cf ;;
             let a := if cy then a - 0x60 else a in
             hc <- hf ;;
             Py.ret (if hc then a - 0x06 else a)) ;;
     set Regs.set_a (Z.land a 0xFF) ;;
     a <- get Regs.a ;;
     set_zf (a =? 0) ;; set_hf false ;;
     Py.ret 4
   else if op =? 0x28 then
     off <- fetch ;;
     z <- zf ;;
     if z then (jump_rel off ;; Py.ret 12) else Py.ret 8
   else if op =? 0x29 then (x <- hl ;; _add_hl x ;; Py.ret 8)
   else if op =? 0x2A then
     x <- hl ;; v <- mmu_read x ;; set Regs.set_a v ;;
     x <- hl ;; set_hl (Z.land (x + 1) 0xFFFF) ;; Py.ret 8
   else if op =? 0x2B then (x <- hl ;; set_hl (Z.land (x - 1) 0xFFFF) ;; Py.ret 8)
   else if op =? 0x2C then (l <- get Regs.l ;; r <- _inc l ;; set Regs.set_l r ;; Py.ret 4)
   else if op =? 0x2D then (l <- get Regs.l ;; r <- _dec l ;; set Regs.set_l r ;; Py.ret 4)
   else if op =? 0x2E then (x <- fetch ;; set Regs.set_l x ;; Py.ret 8)
   else if op =? 0x2F then
     a <- get Regs.a ;;
     set Regs.set_a (Z.land (Z.lnot a) 0xFF) ;;
     set_nf true ;; set_hf true ;; Py.ret 4
   else if op =? 0x30 then
     off <- fetch ;;
     cy <- cf ;;
     if negb cy then (jump_rel off ;; Py.ret 12) else Py.ret 8
   else if op =? 0x31 then (x <- fetch16 ;; set Regs.set_sp x ;; Py.ret 12)
   else if op =? 0x32 then
     x <- hl ;; a <- get Regs.a ;; mmu_write x a ;;
     x <- hl ;; set_hl (Z.land (x - 1) 0xFFFF) ;; Py.ret 8
   else if op =? 0x33 then (sp <- get Regs.sp ;; set Regs.set_sp (Z.land (sp + 1) 0xFFFF) ;; Py.ret 8)
   else if op =? 0x34 then
     x <- hl ;; y <- hl ;; v <- mmu_read y ;; r <- _inc v ;; mmu_write x r ;; Py.ret 12
   else if op =? 0x35 then
     x <- hl ;; y <- hl ;; v <- mmu_read y ;; r <- _dec v ;; mmu_write x r ;; Py.ret 12
   else if op =? 0x36 then (x <- hl ;; v <- fetch ;; mmu_write x v ;; Py.ret 12)
   else if op =? 0x37 then (set_nf false ;; set_hf false ;; set_cf true ;; Py.ret 4)
   else if op =? 0x38 then
     off <- fetch ;;
     cy <- cf ;;
     if cy then (jump_rel off ;; Py.ret 12) else Py.ret 8
   else if op =? 0x39 then (sp <- get Regs.sp ;; _add_hl sp ;; Py.ret 8)
   else if op =? 0x3A then
     x <- hl ;; v <- mmu_read x ;; set Regs.set_a v ;;
     x <- hl ;; set_hl (Z.land (x - 1) 0xFFFF) ;; Py.ret 8
   else if op =? 0x3B then (sp <- get Regs.sp ;; set Regs.set_sp (Z.land (sp - 1) 0xFFFF) ;; Py.ret 8)
   else if op =? 0x3C then (a <- get Regs.a ;; r <- _inc a ;; set Regs.set_a r ;; Py.ret 4)
   else if op =? 0x3D then (a <- get Regs.a ;; r <- _dec a ;; set Regs.set_a r ;; Py.ret 4)
   else if op =? 0x3E then (x <- fetch ;; set Regs.set_a x ;; Py.ret 8)
   else if op =? 0x3F then
     cy <- cf ;;
     set_nf false ;; set_hf false ;; set_cf (negb cy) ;; Py.ret 4
   else if (0x40 <=? op) && (op <=? 0x7F) then
     if op =? 0x76 then (set Regs.set_halted true ;; Py.ret 4)
     else
       v <- _get_r (Z.land op 7) ;;
       _set_r (Z.land (Z.shiftr op 3) 7) v ;;
       Py.ret (if (Z.land op 7 =? 6) || (Z.land (Z.shiftr op 3) 7 =? 6) then 8 else 4)
   else if (0x80 <=? op) && (op <=? 0xBF) then
     v <- _get_r (Z.land op 7) ;;
     _alu (Z.land (Z.shiftr op 3) 7) v ;;
     Py.ret (if Z.land op 7 =? 6 then 8 else 4)
   else if op =? 0xC0 then
     z <- zf ;;
     if negb z then (return_ ;; Py.ret 20) else Py.ret 8
   else if op =? 0xC1 then (x <- pop ;; set_bc x ;; Py.ret 12)
   else if op =? 0xC2 then
     a <- fetch16 ;;
     z <- zf ;;
     Py.when (negb z) (set Regs.set_pc a) ;;
     z <- zf ;;
     Py.ret (if negb z then 16 else 12)
   else if op =? 0xC3 then (x <- fetch16 ;; set Regs.set_pc x ;; Py.ret 16)
   else if op =? 0xC4 then
     a <- fetch16 ;;
     z <- zf ;;
     if negb z then (call a ;; Py.ret 24) else Py.ret 12
   else if op =? 0xC5 then (x <- bc ;; push x ;; Py.ret 16)
   else if op =? 0xC6 then (x <- fetch ;; _alu 0 x ;; Py.ret 8)
   else if op =? 0xC7 then (call 0x00 ;; Py.ret 16)
   else if op =? 0xC8 then
     z <- zf ;;
     if z then (return_ ;; Py.ret 20) else Py.ret 8
   else if op =? 0xC9 then (return_ ;; Py.ret 16)
   else if op =? 0xCA then
     a <- fetch16 ;;
     z <- zf ;;
     Py.when z (set Regs.set_pc a) ;;
     z <- zf ;;
     Py.ret (if z then 16 else 12)
   else if op =? 0xCB then (x <- fetch ;; _exec_cb x)
   else if op =? 0xCC then
     a <- fetch16 ;;
     z <- zf ;;
     if z then (call a ;; Py.ret 24) else Py.ret 12
   else if op =? 0xCD then (a <- fetch16 ;; call a ;; Py.ret 24)
   else if op =? 0xCE then (x <- fetch ;; _alu 1 x ;; Py.ret 8)
   else if op =? 0xCF then (call 0x08 ;; Py.ret 16)
   else if op =? 0xD0 then
     cy <- cf ;;
     if negb cy then (return_ ;; Py.ret 20) else Py.ret 8
   else if op =? 0xD1 then (x <- pop ;; set_de x ;; Py.ret 12)
   else if op =? 0xD2 then
     a <- fetch16 ;;
     cy <- cf ;;
     Py.when (negb cy) (set Regs.set_pc a) ;;
     cy <- cf ;;
     Py.ret (if negb cy then 16 else 12)
   else if op =? 0xD4 then
     a <- fetch16 ;;
     cy <- cf ;;
     if negb cy then (call a ;; Py.ret 24) else Py.ret 12
   else if op =? 0xD5 then (x <- de ;; push x ;; Py.ret 16)
   else if op =? 0xD6 then (x <- fetch ;; _alu 2 x ;; Py.ret 8)
   else if op =? 0xD7 then (call 0x10 ;; Py.ret 16)
   else if op =? 0xD8 then
     cy <- cf ;;
     if cy then (return_ ;; Py.ret 20) else Py.ret 8
   else if op =? 0xD9 then (return_ ;; set Regs.set_ime true ;; Py.ret 16)
   else if op =? 0xDA then
     a <- fetch16 ;;
     cy <- cf ;;
     Py.when cy (set Regs.set_pc a) ;;
     cy <- cf ;;
     Py.ret (if cy then 16 else 12)
   else if op =? 0xDC then
     a <- fetch16 ;;
     cy <- cf ;;
     if cy then (call a ;; Py.ret 24) else Py.ret 12
   else if op =? 0xDE then (x <- fetch ;; _alu 3 x ;; Py.ret 8)
   else if op =? 0xDF then (call 0x18 ;; Py.ret 16)
   else if op =? 0xE0 then
     n <- fetch ;; a <- get Regs.a ;; mmu_write (0xFF00 + n) a ;; Py.ret 12
   else if op =? 0xE1 then (x <- pop ;; set_hl x ;; Py.ret 12)
   else if op =? 0xE2 then
     c <- get Regs.c ;; a <- get Regs.a ;; mmu_write (0xFF00 + c) a ;; Py.ret 8
   else if op =? 0xE5 then (x <- hl ;; push x ;; Py.ret 16)
   else if op =? 0xE6 then (x <- fetch ;; _alu 4 x ;; Py.ret 8)
   else if op =? 0xE7 then (call 0x20 ;; Py.ret 16)
   else if op =? 0xE8 then
     n <- fetch ;;
     let n := signed8 n in
     sp <- get Regs.sp ;;
     let r := Z.land (sp + n) 0xFFFF in
     set_zf false ;; set_nf false ;;
     sp <- get Regs.sp ;;
     set_hf (Z.land sp 0x0F + Z.land n 0x0F >? 0x0F) ;;
     sp <- get Regs.sp ;;
     set_cf (Z.land sp 0xFF + Z.land n 0xFF >? 0xFF) ;;
     set Regs.set_sp r ;;
     Py.ret 16
   else if op =? 0xE9 then (x <- hl ;; set Regs.set_pc x ;; Py.ret 4)
   else if op =? 0xEA then
     addr <- fetch16 ;; a <- get Regs.a ;; mmu_write addr a ;; Py.ret 16
   else if op =? 0xEE then (x <- fetch ;; _alu 5 x ;; Py.ret 8)
   else if op =? 0xEF then (call 0x28 ;; Py.ret 16)
   else if op =? 0xF0 then
     n <- fetch ;; v <- mmu_read (0xFF00 + n) ;; set Regs.set_a v ;; Py.ret 12
   else if op =? 0xF1 then (x <- pop ;; set_af x ;; Py.ret 12)
   else if op =? 0xF2 then
     c <- get Regs.c ;; v <- mmu_read (0xFF00 + c) ;; set Regs.set_a v ;; Py.ret 8
   else if op =? 0xF3 then (set Regs.set_ime false ;; Py.ret 4)
   else if op =? 0xF5 then (x <- af ;; push x ;; Py.ret 16)
   else if op =? 0xF6 then (x <- fetch ;; _alu 6 x ;; Py.ret 8)
   else if op =? 0xF7 then (call 0x30 ;; Py.ret 16)
   else if op =? 0xF8 then
     n <- fetch ;;
     let n := signed8 n in
     sp <- get Regs.sp ;;
     let r := Z.land (sp + n) 0xFFFF in
     set_zf false ;; set_nf false ;;
     sp <- get Regs.sp ;;
     set_hf (Z.land sp 0x0F + Z.land n 0x0F >? 0x0F) ;;
     sp <- get Regs.sp ;;
     set_cf (Z.land sp 0xFF + Z.land n 0xFF >? 0xFF) ;;
     set_hl r ;;
     Py.ret 12
   else if op =? 0xF9 then (x <- hl ;; set Regs.set_sp x ;; Py.ret 8)
   else if op =? 0xFA then
     addr <- fetch16 ;; v <- mmu_read addr ;; set Regs.set_a v ;; Py.ret 16
   else if op =? 0xFB then (set Regs.set_ime true ;; Py.ret 4)
   else if op =? 0xFE then (x <- fetch ;; _alu 7 x ;; Py.ret 8)
   else if op =? 0xFF then (call 0x38 ;; Py.ret 16)
   else Py.ret 4)%py.

(** [CPU.step] *)
Definition step : M Z :=
  (halted <- get Regs.halted ;;
   if halted then Py.ret 4
   else op <- fetch ;; _exec op)%py.

End CPU.

(** ** Game Boy PPU: class [PPU] *)

Module PPU.

Abbreviation M := (Py.M Sys.t).

Definition GB_W : Z := 160.
Definition GB_H : Z := 144.

(** [self.mmu.io[i]], [self.mmu.io[i] = v], [self.mmu.vram[i]]: the PPU
    indexes the arrays of the shared MMU directly. *)
Definition io_get (i : Z) : M Z := Py.try_ (λ s, Py.getitem (MMU.io (Sys.mmu s)) i).
Definition io_set (i v : Z) : M unit :=
  Py.update (λ s, r ← Py.setitem (MMU.io (Sys.mmu s)) i v;
                  Some (Sys.set_mmu (MMU.set_io r (Sys.mmu s)) s)).
Definition vram_get (i : Z) : M Z := Py.try_ (λ s, Py.getitem (MMU.vram (Sys.mmu s)) i).

(** [self.framebuffer[i] = v] *)
Definition fb_set (i v : Z) : M unit :=
  Py.update (λ s, r ← Py.setitem (Video.framebuffer (Sys.ppu s)) i v;
                  Some (Sys.set_ppu (Video.set_framebuffer r (Sys.ppu s)) s)).

Definition get {A} (r : Video.t → A) : M A := Py.gets (λ s, r (Sys.ppu s)).
Definition set {A} (u : A → Video.t → Video.t) (v : A) : M unit :=
  Py.modify (λ s, Sys.set_ppu (u v (Sys.ppu s)) s).

(** [PPU.__init__] *)
Definition init : Video.t :=
  {| Video.framebuffer := Py.zeros (GB_W * GB_H);
     Video.scanline_counter := 0;
     Video.frame_ready := false |}.

(** Offset in [vram] of the pattern of the tile whose map entry is the
    byte [idx], as [_render_scanline] computes it:
<<
    tile_data = 0x0000 if (lcdc & 0x10) else 0x1000
    signed = not (lcdc & 0x10)
    if signed and idx > 127: idx -= 256
    addr = (tile_data + (idx + 128) * 16) if signed else (tile_data + idx * 16)
>> *)
Definition tile_addr (lcdc idx : Z) : Z :=
  let tile_data := if Py.truthy (Z.land lcdc 0x10) then 0x0000 else 0x1000 in
  let signed := negb (Py.truthy (Z.land lcdc 0x10)) in
  let idx := if signed && (idx >? 127) then idx - 256 else idx in
  if signed then tile_data + (idx + 128) * 16 else tile_data + idx * 16.

(** Body of the loop over the columns [x] of a background scanline. *)
Definition render_pixel (lcdc scx : Z) (pal : list Z) (tile_map tile_row tile_y ly x : Z)
  : M unit :=
  (let mx := Z.land (x + scx) 0xFF in
   let tile_col := mx / 8 in
   let tile_x := mx mod 8 in
   idx <- vram_get (tile_map + tile_row * 32 + tile_col) ;;
   let addr := tile_addr lcdc idx in
   b1 <- vram_get (addr + tile_y * 2) ;;
   b2 <- vram_get (addr + tile_y * 2 + 1) ;;
   let bit := 7 - tile_x in
   let col := Z.lor (Z.shiftl (Z.land (Z.shiftr b2 bit) 1) 1) (Z.land (Z.shiftr b1 bit) 1) in
   p <- Py.try_ (λ _, Py.getitem pal col) ;;
   fb_set (ly * GB_W + x) p)%py.

(** [PPU._render_scanline(ly)] *)
Definition _render_scanline (ly : Z) : M unit :=
  (lcdc <- io_get 0x40 ;;
   if negb (Py.truthy (Z.land lcdc 0x80)) then Py.ret tt
   else
     scy <- io_get 0x42 ;;
     scx <- io_get 0x43 ;;
     bgp <- io_get 0x47 ;;
     let pal := (λ i, Z.land (Z.shiftr bgp i) 3) <$> [0; 2; 4; 6] in
     if Py.truthy (Z.land lcdc 0x01) then
       let tile_map := if Py.truthy (Z.land lcdc 0x08) then 0x1C00 else 0x1800 in
       let y := Z.land (ly + scy) 0xFF in
       let tile_row := y / 8 in
       let tile_y := y mod 8 in
       Py.for_ (Py.range GB_W) (render_pixel lcdc scx pal tile_map tile_row tile_y ly)
     else
       Py.for_ (Py.range GB_W) (λ x, fb_set (ly * GB_W + x) 0))%py.

(** [PPU.step(cycles)] *)
Definition step (cycles : Z) : M unit :=
  (lcdc <- io_get 0x40 ;;
   if negb (Py.truthy (Z.land lcdc 0x80)) then Py.ret tt
   else
     sc <- get Video.scanline_counter ;;
     set Video.set_scanline_counter (sc + cycles) ;;
     sc <- get Video.scanline_counter ;;
     Py.when (sc >=? 456)
       (sc <- get Video.scanline_counter ;;
        set Video.set_scanline_counter (sc - 456) ;;
        ly <- io_get 0x44 ;;
        Py.when (ly <? 144) (_render_scanline ly) ;;
        let ly := (ly + 1) mod 154 in
        io_set 0x44 ly ;;
        Py.when (ly =? 144)
          (set Video.set_frame_ready true ;;
           v <- io_get 0x0F ;;
           io_set 0x0F (Z.lor v 0x01))))%py.

End PPU.

(** ** Game Boy system: class [GameBoy] *)

Module GameBoy.

Abbreviation M := (Py.M Sys.t).

(** [GameBoy.__init__] *)
Definition init : Sys.t :=
  {| Sys.mmu := MMU.reset;
     Sys.cpu := CPU.reset;
     Sys.ppu := PPU.init;
     Sys.running := false;
     Sys.paused := false;
     Sys.buttons := 0xFF |}.

(** [GameBoy.reset] *)
Definition reset (s : Sys.t) : Sys.t :=
  Sys.set_paused false (Sys.set_running false (Sys.set_cpu CPU.reset (Sys.set_mmu MMU.reset s))).

(** [GameBoy.load_rom(path)].  The file system is outside the core:
    [file] is what [open(path, 'rb').read()] yields, [None] when it
    raises.  Every exception is caught and turned into the result
    [False]; [MMU.load_rom] itself raises on no input (lemma
    [load_rom_returns]), so its handler branch below is never taken. *)
Definition load_rom (file : option (list Z)) (s : Sys.t) : bool * Sys.t :=
  let s := reset s in
  match file with
  | None => (false, s)
  | Some data =>
      match MMU.load_rom data (Sys.mmu s) with
      | Some (ok, m) => (ok, Sys.set_mmu m s)
      | None => (false, s)
      end
  end.

(** [GameBoy.set_button(btn, pressed)]; a negative shift count raises. *)
Definition set_button (btn : Z) (pressed : bool) : M unit :=
  (if btn <? 0 then Py.raise
   else
     Py.modify (λ s,
       if pressed then Sys.set_buttons (Z.land (Sys.buttons s) (Z.lnot (Z.shiftl 1 btn))) s
       else Sys.set_buttons (Z.lor (Sys.buttons s) (Z.shiftl 1 btn)) s) ;;
     joyp <- PPU.io_get 0x00 ;;
     Py.when (negb (Py.truthy (Z.land joyp 0x10)))
       (buttons <- Py.gets Sys.buttons ;;
        PPU.io_set 0x00 (Z.lor (Z.land joyp 0xF0) (Z.land buttons 0x0F))) ;;
     Py.when (negb (Py.truthy (Z.land joyp 0x20)))
       (buttons <- Py.gets Sys.buttons ;;
        PPU.io_set 0x00 (Z.lor (Z.land joyp 0xF0) (Z.land (Z.shiftr buttons 4) 0x0F))))%py.

(** [GameBoy.step_frame]: once [frame_ready] is set the loop is left, so
    the remaining iterations do nothing. *)
Definition step_frame : M unit :=
  (running <- Py.gets Sys.running ;;
   paused <- Py.gets Sys.paused ;;
   if negb running || paused then Py.ret tt
   else
     PPU.set Video.set_frame_ready false ;;
     Py.for_ (Py.range (70224 / 4)) (λ _,
       ready <- PPU.get Video.frame_ready ;;
       if ready then Py.ret tt
       else cyc <- CPU.step ;; PPU.step cyc))%py.

End GameBoy.

(** ** CHIP-8 machine: class [Chip8] of [chip81.0.py] *)

Module Chip8.

Definition W : Z := 64.
Definition H : Z := 32.
Definition FONT_START : Z := 0x050.

Definition FONT : list Z :=
  [ 0xF0; 0x90; 0x90; 0x90; 0xF0;
    0x20; 0x60; 0x20; 0x20; 0x70;
    0xF0; 0x10; 0xF0; 0x80; 0xF0;
    0xF0; 0x10; 0xF0; 0x10; 0xF0;
    0x90; 0x90; 0xF0; 0x10; 0x10;
    0xF0; 0x80; 0xF0; 0x10; 0xF0;
    0xF0; 0x80; 0xF0; 0x90; 0xF0;
    0xF0; 0x10; 0x20; 0x40; 0x40;
    0xF0; 0x90; 0xF0; 0x90; 0xF0;
    0xF0; 0x90; 0xF0; 0x10; 0xF0;
    0xF0; 0x90; 0xF0; 0x90; 0x90;
    0xE0; 0x90; 0xE0; 0x90; 0xE0;
    0xF0; 0x80; 0x80; 0x80; 0xF0;
    0xE0; 0x90; 0x90; 0x90; 0xE0;
    0xF0; 0x80; 0xF0; 0x80; 0xF0;
    0xF0; 0x80; 0xF0; 0x80; 0x80 ].

(** The attributes of the machine (those of the Tk shell are left out). *)
Record t := mk {
  memory : list Z;
  V : list Z;
  I : Z;
  pc : Z;
  stack : list Z;
  sp : Z;
  delay_timer : Z;
  sound_timer : Z;
  keys : list Z;
  gfx : list Z;
  dirty : gset Z;
  waiting_for_key : bool;
  wait_reg : Z;
  shift_uses_vy : bool;
  fx55_fx65_increment_i : bool
}.

Definition set_memory v s := mk v (V s) (I s) (pc s) (stack s) (sp s) (delay_timer s) (sound_timer s) (keys s) (gfx s) (dirty s) (waiting_for_key s) (wait_reg s) (shift_uses_vy s) (fx55_fx65_increment_i s).
Definition set_V v s := mk (memory s) v (I s) (pc s) (stack s) (sp s) (delay_timer s) (sound_timer s) (keys s) (gfx s) (dirty s) (waiting_for_key s) (wait_reg s) (shift_uses_vy s) (fx55_fx65_increment_i s).
Definition set_I v s := mk (memory s) (V s) v (pc s) (stack s) (sp s) (delay_timer s) (sound_timer s) (keys s) (gfx s) (dirty s) (waiting_for_key s) (wait_reg s) (shift_uses_vy s) (fx55_fx65_increment_i s).
Definition set_pc v s := mk (memory s) (V s) (I s) v (stack s) (sp s) (delay_timer s) (sound_timer s) (keys s) (gfx s) (dirty s) (waiting_for_key s) (wait_reg s) (shift_uses_vy s) (fx55_fx65_increment_i s).
Definition set_stack v s := mk (memory s) (V s) (I s) (pc s) v (sp s) (delay_timer s) (sound_timer s) (keys s) (gfx s) (dirty s) (waiting_for_key s) (wait_reg s) (shift_uses_vy s) (fx55_fx65_increment_i s).
Definition set_sp v s := mk (memory s) (V s) (I s) (pc s) (stack s) v (delay_timer s) (sound_timer s) (keys s) (gfx s) (dirty s) (waiting_for_key s) (wait_reg s) (shift_uses_vy s) (fx55_fx65_increment_i s).
Definition set_delay_timer v s := mk (memory s) (V s) (I s) (pc s) (stack s) (sp s) v (sound_timer s) (keys s) (gfx s) (dirty s) (waiting_for_key s) (wait_reg s) (shift_uses_vy s) (fx55_fx65_increment_i s).
Definition set_sound_timer v s := mk (memory s) (V s) (I s) (pc s) (stack s) (sp s) (delay_timer s) v (keys s) (gfx s) (dirty s) (waiting_for_key s) (wait_reg s) (shift_uses_vy s) (fx55_fx65_increment_i s).
Definition set_keys v s := mk (memory s) (V s) (I s) (pc s) (stack s) (sp s) (delay_timer s) (sound_timer s) v (gfx s) (dirty s) (waiting_for_key s) (wait_reg s) (shift_uses_vy s) (fx55_fx65_increment_i s).
Definition set_gfx v s := mk (memory s) (V s) (I s) (pc s) (stack s) (sp s) (delay_timer s) (sound_timer s) (keys s) v (dirty s) (waiting_for_key s) (wait_reg s) (shift_uses_vy s) (fx55_fx65_increment_i s).
Definition set_dirty v s := mk (memory s) (V s) (I s) (pc s) (stack s) (sp s) (delay_timer s) (sound_timer s) (keys s) (gfx s) v (waiting_for_key s) (wait_reg s) (shift_uses_vy s) (fx55_fx65_increment_i s).
Definition set_waiting_for_key v s := mk (memory s) (V s) (I s) (pc s) (stack s) (sp s) (delay_timer s) (sound_timer s) (keys s) (gfx s) (dirty s) v (wait_reg s) (shift_uses_vy s) (fx55_fx65_increment_i s).
Definition set_wait_reg v s := mk (memory s) (V s) (I s) (pc s) (stack s) (sp s) (delay_timer s) (sound_timer s) (keys s) (gfx s) (dirty s) (waiting_for_key s) v (shift_uses_vy s) (fx55_fx65_increment_i s).

Abbreviation M := (Py.M t).

(** Indexed reads and stores of the four arrays. *)
Definition mem_get (i : Z) : M Z := Py.try_ (λ s, Py.getitem (memory s) i).
Definition mem_set (i v : Z) : M unit :=
  Py.update (λ s, r ← Py.setitem (memory s) i v; Some (set_memory r s)).
Definition V_get (i : Z) : M Z := Py.try_ (λ s, Py.getitem (V s) i).
Definition V_set (i v : Z) : M unit :=
  Py.update (λ s, r ← Py.setitem (V s) i v; Some (set_V r s)).
Definition gfx_get (i : Z) : M Z := Py.try_ (λ s, Py.getitem (gfx s) i).
Definition gfx_set (i v : Z) : M unit :=
  Py.update (λ s, r ← Py.setitem (gfx s) i v; Some (set_gfx r s)).
Definition stack_get (i : Z) : M Z := Py.try_ (λ s, Py.getitem (stack s) i).
Definition stack_set (i v : Z) : M unit :=
  Py.update (λ s, r ← Py.setitem (stack s) i v; Some (set_stack r s)).
Definition keys_get (i : Z) : M Z := Py.try_ (λ s, Py.getitem (keys s) i).

(** [Chip8.reset]: the machine after [__init__], which sets the two
    quirk flags and the key-wait state before it calls [reset].  The font
    bytes are stored at the offsets [FONT_START + i] of the fresh memory. *)
Definition reset : t :=
  {| memory := list_inserts (Z.to_nat FONT_START) FONT (Py.zeros 4096);
     V := Py.zeros 16;
     I := 0;
     pc := 0x200;
     stack := Py.zeros 16;
     sp := 0;
     delay_timer := 0;
     sound_timer := 0;
     keys := Py.zeros 16;
     gfx := Py.zeros (W * H);
     dirty := ∅;
     waiting_for_key := false;
     wait_reg := 0;
     shift_uses_vy := true;
     fx55_fx65_increment_i := true |}.

Definition _call (addr : Z) : M unit :=
  (p <- Py.gets sp ;;
   if p >=? 16 then Py.ret tt
   else
     ra <- Py.gets pc ;;
     stack_set p ra ;;
     Py.modify (set_sp (p + 1)) ;;
     Py.modify (set_pc addr))%py.

Definition _ret : M unit :=
  (p <- Py.gets sp ;;
   if p <=? 0 then Py.ret tt
   else
     Py.modify (set_sp (p - 1)) ;;
     p <- Py.gets sp ;;
     v <- stack_get p ;;
     Py.modify (set_pc (Z.land v 0x0FFF)))%py.

Definition _cls : M unit :=
  (g <- Py.gets gfx ;;
   Py.when (Py.any g) (Py.modify (set_gfx (Py.zeros (W * H)))) ;;
   Py.modify (set_dirty (list_to_set (Py.range (W * H)))))%py.

(** Body of the inner loop of [_draw] for one [bit] of a sprite row. *)
Definition draw_bit (x0 y sprite bit : Z) : M unit :=
  (if Z.land sprite (Z.shiftr 0x80 bit) =? 0 then Py.ret tt
   else
     let x := (x0 + bit) mod W in
     let idx := x + y * W in
     g <- gfx_get idx ;;
     Py.when (g =? 1) (V_set 0xF 1) ;;
     g <- gfx_get idx ;;
     gfx_set idx (Z.lxor g 1) ;;
     Py.modify (λ s, set_dirty ({[ idx ]} ∪ dirty s) s))%py.

(** Body of the outer loop of [_draw] for one sprite [row]. *)
Definition draw_row (x0 y0 row : Z) : M unit :=
  (i <- Py.gets I ;;
   sprite <- mem_get (Z.land (i + row) 0x0FFF) ;;
   let y := (y0 + row) mod H in
   Py.for_ (Py.range 8) (draw_bit x0 y sprite))%py.

(** [Chip8._draw(vx, vy, n)] *)
Definition _draw (vx vy n : Z) : M unit :=
  (let x0 := vx mod W in
   let y0 := vy mod H in
   V_set 0xF 0 ;;
   Py.for_ (Py.range n) (draw_row x0 y0))%py.

(** [self.pc = (self.pc + 2) & 0x0FFF] *)
Definition skip : M unit :=
  (p <- Py.gets pc ;; Py.modify (set_pc (Z.land (p + 2) 0x0FFF)))%py.

Definition _op_8xy_ (x y n : Z) : M unit :=
  (if n =? 0x0 then (vy <- V_get y ;; V_set x vy)
   else if n =? 0x1 then (vx <- V_get x ;; vy <- V_get y ;; V_set x (Z.lor vx vy))
   else if n =? 0x2 then (vx <- V_get x ;; vy <- V_get y ;; V_set x (Z.land vx vy))
   else if n =? 0x3 then (vx <- V_get x ;; vy <- V_get y ;; V_set x (Z.lxor vx vy))
   else if n =? 0x4 then
     vx <- V_get x ;; vy <- V_get y ;;
     let s := vx + vy in
     V_set 0xF (if s >? 0xFF then 1 else 0) ;;
     V_set x (Z.land s 0xFF)
   else if n =? 0x5 then
     vx <- V_get x ;; vy <- V_get y ;;
     V_set 0xF (if vx >=? vy then 1 else 0) ;;
     vx <- V_get x ;; vy <- V_get y ;;
     V_set x (Z.land (vx - vy) 0xFF)
   else if n =? 0x6 then
     uses_vy <- Py.gets shift_uses_vy ;;
     src <- (if uses_vy then V_get y else V_get x) ;;
     V_set 0xF (Z.land src 0x1) ;;
     V_set x (Z.land (Z.shiftr src 1) 0xFF)
   else if n =? 0x7 then
     vy <- V_get y ;; vx <- V_get x ;;
     V_set 0xF (if vy >=? vx then 1 else 0) ;;
     vy <- V_get y ;; vx <- V_get x ;;
     V_set x (Z.land (vy - vx) 0xFF)
   else if n =? 0xE then
     uses_vy <- Py.gets shift_uses_vy ;;
     src <- (if uses_vy then V_get y else V_get x) ;;
     V_set 0xF (Z.land (Z.shiftr src 7) 0x1) ;;
     V_set x (Z.land (Z.shiftl src 1) 0xFF)
   else Py.ret tt)%py.

Definition _op_ex__ (x nn : Z) : M unit :=
  (vx <- V_get x ;;
   let key := Z.land vx 0xF in
   if nn =? 0x9E then
     k <- keys_get key ;; Py.when (Py.truthy k) skip
   else if nn =? 0xA1 then
     k <- keys_get key ;; Py.when (negb (Py.truthy k)) skip
   else Py.ret tt)%py.

Definition _op_fx__ (x nn : Z) : M unit :=
  (if nn =? 0x07 then (dt <- Py.gets delay_timer ;; V_set x dt)
   else if nn =? 0x0A then
     Py.modify (set_waiting_for_key true) ;;
     Py.modify (set_wait_reg x) ;;
     p <- Py.gets pc ;; Py.modify (set_pc (Z.land (p - 2) 0x0FFF))
   else if nn =? 0x15 then (vx <- V_get x ;; Py.modify (set_delay_timer vx))
   else if nn =? 0x18 then (vx <- V_get x ;; Py.modify (set_sound_timer vx))
   else if nn =? 0x1E then
     i <- Py.gets I ;; vx <- V_get x ;; Py.modify (set_I (Z.land (i + vx) 0x0FFF))
   else if nn =? 0x29 then
     vx <- V_get x ;;
     let digit := Z.land vx 0xF in
     Py.modify (set_I (FONT_START + digit * 5))
   else if nn =? 0x33 then
     v <- V_get x ;;
     i <- Py.gets I ;;
     mem_set i (v / 100) ;;
     mem_set (Z.land (i + 1) 0x0FFF) ((v / 10) mod 10) ;;
     mem_set (Z.land (i + 2) 0x0FFF) (v mod 10)
   else if nn =? 0x55 then
     Py.for_ (Py.range (x + 1)) (λ k,
       i <- Py.gets I ;; vk <- V_get k ;; mem_set (Z.land (i + k) 0x0FFF) vk) ;;
     inc <- Py.gets fx55_fx65_increment_i ;;
     Py.when inc (i <- Py.gets I ;; Py.modify (set_I (Z.land (i + x + 1) 0x0FFF)))
   else if nn =? 0x65 then
     Py.for_ (Py.range (x + 1)) (λ k,
       i <- Py.gets I ;; v <- mem_get (Z.land (i + k) 0x0FFF) ;; V_set k v) ;;
     inc <- Py.gets fx55_fx65_increment_i ;;
     Py.when inc (i <- Py.gets I ;; Py.modify (set_I (Z.land (i + x + 1) 0x0FFF)))
   else Py.ret tt)%py.

(** [Chip8._cycle]; [rnd] is the value that [random.randint(0, 255)]
    yields should the instruction be [CXNN]. *)
Definition _cycle (rnd : Z) : M unit :=
  (p <- Py.gets pc ;;
   hi <- mem_get p ;;
   lo <- mem_get (p + 1) ;;
   let op := Z.lor (Z.shiftl hi 8) lo in
   Py.modify (set_pc (Z.land (p + 2) 0x0FFF)) ;;
   let x := Z.shiftr (Z.land op 0x0F00) 8 in
   let y := Z.shiftr (Z.land op 0x00F0) 4 in
   let n := Z.land op 0x000F in
   let nn := Z.land op 0x00FF in
   let nnn := Z.land op 0x0FFF in
   let top := Z.land op 0xF000 in
   if op =? 0x00E0 then _cls
   else if op =? 0x00EE then _ret
   else if top =? 0x0000 then Py.ret tt
   else if top =? 0x1000 then Py.modify (set_pc nnn)
   else if top =? 0x2000 then _call nnn
   else if top =? 0x3000 then
     vx <- V_get x ;; Py.when (vx =? nn) skip
   else if top =? 0x4000 then
     vx <- V_get x ;; Py.when (negb (vx =? nn)) skip
   else if top =? 0x5000 then
     if n =? 0 then (vx <- V_get x ;; vy <- V_get y ;; Py.when (vx =? vy) skip)
     else Py.ret tt
   else if top =? 0x6000 then V_set x nn
   else if top =? 0x7000 then (vx <- V_get x ;; V_set x (Z.land (vx + nn) 0xFF))
   else if top =? 0x8000 then _op_8xy_ x y n
   else if top =? 0x9000 then
     if n =? 0 then (vx <- V_get x ;; vy <- V_get y ;; Py.when (negb (vx =? vy)) skip)
     else Py.ret tt
   else if top =? 0xA000 then Py.modify (set_I nnn)
   else if top =? 0xB000 then (v0 <- V_get 0 ;; Py.modify (set_pc (Z.land (nnn + v0) 0x0FFF)))
   else if top =? 0xC000 then V_set x (Z.land rnd nn)
   else if top =? 0xD000 then (vx <- V_get x ;; vy <- V_get y ;; _draw vx vy n)
   else if top =? 0xE000 then _op_ex__ x nn
   else if top =? 0xF000 then _op_fx__ x nn
   else Py.ret tt)%py.

End Chip8.

(** ** CHIP-8 machine: class [Chip8] of [#$catschip8emu1.x1.5.26.py]

    The second CHIP-8 core of the repository.  Its memory is a Python list
    and its indices are not masked. *)

Module Chip8b.

Definition SCR_W : Z := 64.
Definition SCR_H : Z := 32.

Definition FONTSET : list Z := Chip8.FONT.

Record t := mk {
  mem : list Z;
  V : list Z;
  I : Z;
  pc : Z;
  sp : Z;
  stack : list Z;
  delay : Z;
  sound : Z;
  draw_flag : bool;
  gfx : list Z;
  keys : list Z
}.

Definition set_mem v s := mk v (V s) (I s) (pc s) (sp s) (stack s) (delay s) (sound s) (draw_flag s) (gfx s) (keys s).
Definition set_V v s := mk (mem s) v (I s) (pc s) (sp s) (stack s) (delay s) (sound s) (draw_flag s) (gfx s) (keys s).
Definition set_I v s := mk (mem s) (V s) v (pc s) (sp s) (stack s) (delay s) (sound s) (draw_flag s) (gfx s) (keys s).
Definition set_pc v s := mk (mem s) (V s) (I s) v (sp s) (stack s) (delay s) (sound s) (draw_flag s) (gfx s) (keys s).
Definition set_sp v s := mk (mem s) (V s) (I s) (pc s) v (stack s) (delay s) (sound s) (draw_flag s) (gfx s) (keys s).
Definition set_stack v s := mk (mem s) (V s) (I s) (pc s) (sp s) v (delay s) (sound s) (draw_flag s) (gfx s) (keys s).
Definition set_delay v s := mk (mem s) (V s) (I s) (pc s) (sp s) (stack s) v (sound s) (draw_flag s) (gfx s) (keys s).
Definition set_sound v s := mk (mem s) (V s) (I s) (pc s) (sp s) (stack s) (delay s) v (draw_flag s) (gfx s) (keys s).
Definition set_draw_flag v s := mk (mem s) (V s) (I s) (pc s) (sp s) (stack s) (delay s) (sound s) v (gfx s) (keys s).
Definition set_gfx v s := mk (mem s) (V s) (I s) (pc s) (sp s) (stack s) (delay s) (sound s) (draw_flag s) v (keys s).

Abbreviation M := (Py.M t).

Definition mem_get (i : Z) : M Z := Py.try_ (λ s, Py.getitem (mem s) i).
Definition mem_set (i v : Z) : M unit :=
  Py.update (λ s, r ← Py.setitem (mem s) i v; Some (set_mem r s)).
Definition V_get (i : Z) : M Z := Py.try_ (λ s, Py.getitem (V s) i).
Definition V_set (i v : Z) : M unit :=
  Py.update (λ s, r ← Py.setitem (V s) i v; Some (set_V r s)).
Definition gfx_get (i : Z) : M Z := Py.try_ (λ s, Py.getitem (gfx s) i).
Definition gfx_set (i v : Z) : M unit :=
  Py.update (λ s, r ← Py.setitem (gfx s) i v; Some (set_gfx r s)).
Definition stack_get (i : Z) : M Z := Py.try_ (λ s, Py.getitem (stack s) i).
Definition stack_set (i v : Z) : M unit :=
  Py.update (λ s, r ← Py.setitem (stack s) i v; Some (set_stack r s)).
Definition keys_get (i : Z) : M Z := Py.try_ (λ s, Py.getitem (keys s) i).

(** [Chip8.__init__]: the font is stored from offset 0. *)
Definition init : t :=
  {| mem := list_inserts 0 FONTSET (Py.zeros 4096);
     V := Py.zeros 16;
     I := 0;
     pc := 0x200;
     sp := 0;
     stack := Py.zeros 16;
     delay := 0;
     sound := 0;
     draw_flag := false;
     gfx := Py.zeros (SCR_W * SCR_H);
     keys := Py.zeros 16 |}.

(** [self.pc += 2] *)
Definition skip : M unit := (p <- Py.gets pc ;; Py.modify (set_pc (p + 2)))%py.

(** Body of the inner loop of the [DXYN] branch for one column [col]. *)
Definition drw_col (vx vy sprite_byte row col : Z) : M unit :=
  (if negb (Z.land sprite_byte (Z.shiftr 0x80 col) =? 0) then
     let X := (vx + col) mod SCR_W in
     let Y := (vy + row) mod SCR_H in
     let idx := Y * SCR_W + X in
     g <- gfx_get idx ;;
     Py.when (g =? 1) (V_set 0xF 1) ;;
     g <- gfx_get idx ;;
     gfx_set idx (Z.lxor g 1)
   else Py.ret tt)%py.

(** Body of its outer loop for one sprite [row]. *)
Definition drw_row (vx vy row : Z) : M unit :=
  (i <- Py.gets I ;;
   sprite_byte <- mem_get (i + row) ;;
   Py.for_ (Py.range 8) (drw_col vx vy sprite_byte row))%py.

(** The [DXYN] branch of [cycle]. *)
Definition drw (x y n : Z) : M unit :=
  (vx <- V_get x ;;
   vy <- V_get y ;;
   V_set 0xF 0 ;;
   Py.for_ (Py.range n) (drw_row vx vy) ;;
   Py.modify (set_draw_flag true))%py.

(** [next((i for i, v in enumerate(self.keys) if v), None)] *)
Definition first_pressed (keys : list Z) : option Z :=
  fst <$> head (filter (λ iv, Py.truthy (snd iv) = true)
                       (zip (Py.range (Py.len keys)) keys)).

(** [Chip8.cycle]; [rnd] is the value that [self.rng.randrange(256)]
    yields should the instruction be [CXNN].  The message printed for an
    unknown opcode goes to the console and leaves the machine alone. *)
Definition cycle (rnd : Z) : M unit :=
  (p <- Py.gets pc ;;
   hi <- mem_get p ;;
   lo <- mem_get (p + 1) ;;
   let opcode := Z.lor (Z.shiftl hi 8) lo in
   Py.modify (set_pc (p + 2)) ;;
   let nnn := Z.land opcode 0x0FFF in
   let n := Z.land opcode 0x000F in
   let x := Z.land (Z.shiftr opcode 8) 0xF in
   let y := Z.land (Z.shiftr opcode 4) 0xF in
   let kk := Z.land opcode 0x00FF in
   if opcode =? 0x00E0 then
     Py.modify (set_gfx (Py.zeros (SCR_W * SCR_H))) ;;
     Py.modify (set_draw_flag true)
   else if opcode =? 0x00EE then
     q <- Py.gets sp ;; Py.modify (set_sp (q - 1)) ;;
     q <- Py.gets sp ;; ra <- stack_get q ;; Py.modify (set_pc ra)
   else if Z.land opcode 0xF000 =? 0x1000 then Py.modify (set_pc nnn)
   else if Z.land opcode 0xF000 =? 0x2000 then
     q <- Py.gets sp ;; ra <- Py.gets pc ;; stack_set q ra ;;
     Py.modify (set_sp (q + 1)) ;;
     Py.modify (set_pc nnn)
   else if Z.land opcode 0xF000 =? 0x3000 then
     vx <- V_get x ;; Py.when (vx =? kk) skip
   else if Z.land opcode 0xF000 =? 0x4000 then
     vx <- V_get x ;; Py.when (negb (vx =? kk)) skip
   else if Z.land opcode 0xF00F =? 0x5000 then
     vx <- V_get x ;; vy <- V_get y ;; Py.when (vx =? vy) skip
   else if Z.land opcode 0xF000 =? 0x6000 then V_set x kk
   else if Z.land opcode 0xF000 =? 0x7000 then
     vx <- V_get x ;; V_set x (Z.land (vx + kk) 0xFF)
   else if Z.land opcode 0xF00F =? 0x8000 then (vy <- V_get y ;; V_set x vy)
   else if Z.land opcode 0xF00F =? 0x8001 then
     vx <- V_get x ;; vy <- V_get y ;; V_set x (Z.lor vx vy)
   else if Z.land opcode 0xF00F =? 0x8002 then
     vx <- V_get x ;; vy <- V_get y ;; V_set x (Z.land vx vy)
   else if Z.land opcode 0xF00F =? 0x8003 then
     vx <- V_get x ;; vy <- V_get y ;; V_set x (Z.lxor vx vy)
   else if Z.land opcode 0xF00F =? 0x8004 then
     vx <- V_get x ;; vy <- V_get y ;;
     let s := vx + vy in
     V_set 0xF (if s >? 0xFF then 1 else 0) ;;
     V_set x (Z.land s 0xFF)
   else if Z.land opcode 0xF00F =? 0x8005 then
     vx <- V_get x ;; vy <- V_get y ;;
     V_set 0xF (if vx >=? vy then 1 else 0) ;;
     vx <- V_get x ;; vy <- V_get y ;;
     V_set x (Z.land (vx - vy) 0xFF)
   else if Z.land opcode 0xF00F =? 0x8006 then
     vx <- V_get x ;; V_set 0xF (Z.land vx 1) ;;
     vx <- V_get x ;; V_set x (Z.land (Z.shiftr vx 1) 0xFF)
   else if Z.land opcode 0xF00F =? 0x8007 then
     vy <- V_get y ;; vx <- V_get x ;;
     V_set 0xF (if vy >=? vx then 1 else 0) ;;
     vy <- V_get y ;; vx <- V_get x ;;
     V_set x (Z.land (vy - vx) 0xFF)
   else if Z.land opcode 0xF00F =? 0x800E then
     vx <- V_get x ;; V_set 0xF (Z.land (Z.shiftr vx 7) 1) ;;
     vx <- V_get x ;; V_set x (Z.land (Z.shiftl vx 1) 0xFF)
   else if Z.land opcode 0xF00F =? 0x9000 then
     vx <- V_get x ;; vy <- V_get y ;; Py.when (negb (vx =? vy)) skip
   else if Z.land opcode 0xF000 =? 0xA000 then Py.modify (set_I nnn)
   else if Z.land opcode 0xF000 =? 0xB000 then
     v0 <- V_get 0 ;; Py.modify (set_pc (nnn + v0))
   else if Z.land opcode 0xF000 =? 0xC000 then V_set x (Z.land rnd kk)
   else if Z.land opcode 0xF000 =? 0xD000 then drw x y n
   else if Z.land opcode 0xF0FF =? 0xE09E then
     vx <- V_get x ;; k <- keys_get (Z.land vx 0xF) ;; Py.when (Py.truthy k) skip
   else if Z.land opcode 0xF0FF =? 0xE0A1 then
     vx <- V_get x ;; k <- keys_get (Z.land vx 0xF) ;; Py.when (negb (Py.truthy k)) skip
   else if Z.land opcode 0xF0FF =? 0xF007 then (dt <- Py.gets delay ;; V_set x dt)
   else if Z.land opcode 0xF0FF =? 0xF00A then
     ks <- Py.gets keys ;;
     match first_pressed ks with
     | None => q <- Py.gets pc ;; Py.modify (set_pc (q - 2))
     | Some pressed => V_set x pressed
     end
   else if Z.land opcode 0xF0FF =? 0xF015 then (vx <- V_get x ;; Py.modify (set_delay vx))
   else if Z.land opcode 0xF0FF =? 0xF018 then (vx <- V_get x ;; Py.modify (set_sound vx))
   else if Z.land opcode 0xF0FF =? 0xF01E then
     i <- Py.gets I ;; vx <- V_get x ;; Py.modify (set_I (Z.land (i + vx) 0xFFF))
   else if Z.land opcode 0xF0FF =? 0xF029 then
     vx <- V_get x ;; Py.modify (set_I (Z.land vx 0xF * 5))
   else if Z.land opcode 0xF0FF =? 0xF033 then
     v <- V_get x ;;
     i <- Py.gets I ;; mem_set i (v / 100) ;;
     i <- Py.gets I ;; mem_set (i + 1) ((v / 10) mod 10) ;;
     i <- Py.gets I ;; mem_set (i + 2) (v mod 10)
   else if Z.land opcode 0xF0FF =? 0xF055 then
     Py.for_ (Py.range (x + 1)) (λ k,
       vk <- V_get k ;; i <- Py.gets I ;; mem_set (i + k) vk)
   else if Z.land opcode 0xF0FF =? 0xF065 then
     Py.for_ (Py.range (x + 1)) (λ k,
       i <- Py.gets I ;; v <- mem_get (i + k) ;; V_set k v)
   else Py.ret tt)%py.

End Chip8b.

(** ** Well-formed states

    The arrays of a machine never change length and hold bytes; these are
    the states the constructors build and the methods maintain. *)

(** A [bytearray] of [n] bytes. *)
Definition bytes_ok (n : Z) (l : list Z) : bool :=
  bool_decide (Py.len l = n) && forallb Py.is_byte l.

Definition mmu_ok (m : MMU.t) : bool :=
  bytes_ok 0x8000 (MMU.rom m)
  && forallb (bytes_ok 0x4000) (MMU.rom_banks m)
  && bytes_ok 0x2000 (MMU.vram m)
  && bytes_ok 0x2000 (MMU.eram m)
  && bytes_ok 0x2000 (MMU.wram m)
  && bytes_ok 0xA0 (MMU.oam m)
  && bytes_ok 0x80 (MMU.io m)
  && bytes_ok 0x7F (MMU.hram m)
  && Py.is_byte (MMU.ie m)
  && bool_decide (1 ≤ MMU.rom_bank m ≤ 0x1F).

Definition memory_ok (m : MMU.t) : Prop := mmu_ok m = true.

(** [F & 0x0F == 0] *)
Definition flags_ok (s : Sys.t) : Prop := Z.land (Regs.f (Sys.cpu s)) 0x0F = 0.

(** The invariant of the CPU: a well-formed memory and a clean [F].  The
    CPU does not act on the attributes of the PPU, so whatever [R] they
    satisfy is maintained along. *)
Definition cpu_inv (R : Video.t → Prop) (s : Sys.t) : Prop :=
  memory_ok (Sys.mmu s) ∧ flags_ok s ∧ R (Sys.ppu s).

(** The framebuffer of the PPU has one cell per pixel. *)
Definition frame_ok (p : Video.t) : Prop :=
  Py.len (Video.framebuffer p) = PPU.GB_W * PPU.GB_H.

(** The invariant of the whole machine. *)
Definition machine_ok (s : Sys.t) : Prop := cpu_inv frame_ok s.

(** Total correctness of a computation: from a state in [P] it returns,
    with a result and a final state in [Q]. *)
Definition hoare {S A} (P : S → Prop) (m : Py.M S A) (Q : A → S → Prop) : Prop :=
  ∀ s, P s → ∃ x s', m s = Some (x, s') ∧ Q x s'.

(** [m] returns and maintains [P]. *)
Definition preserves {S A} (P : S → Prop) (m : Py.M S A) : Prop :=
  hoare P m (λ _, P).


(** ** Runs and sample states used in the statements *)

(** [n] successive calls of [CPU.step], with the cycle counts returned. *)
Fixpoint steps (n : nat) : Py.M Sys.t (list Z) :=
  match n with
  | O => Py.ret []
  | S n' => (cyc <- CPU.step ;; rest <- steps n' ;; Py.ret (cyc :: rest))%py
  end.

(** [IF & IE != 0]: an interrupt request is pending. *)
Definition interrupt_pending (s : Sys.t) : bool :=
  match Py.getitem (MMU.io (Sys.mmu s)) 0x0F with
  | Some v => negb (Z.land v (MMU.ie (Sys.mmu s)) =? 0)
  | None => false
  end.

(** A fresh machine whose CPU is halted while the VBlank interrupt is both
    requested ([IF = 0x01]) and enabled ([IE = 0x01]). *)
Definition halted_with_request : Sys.t :=
  Sys.set_cpu (Regs.set_halted true CPU.reset)
    (Sys.set_mmu
       (MMU.set_ie 0x01 (MMU.set_io (<[Z.to_nat 0x0F := 0x01]> (MMU.io MMU.reset)) MMU.reset))
       GameBoy.init).

(** The memory that [MMU.load_rom(data)] builds, in closed form: the first
    32 KiB of [data], padded with zeros, in [rom]; and, when [data] is
    longer than 32 KiB, one bank per complete 16 KiB of [data], bank [b]
    being [data[b*0x4000:(b+1)*0x4000]]. *)
Definition loaded_rom (data : list Z) : list Z :=
  take (Z.to_nat 0x8000) data ++ Py.zeros (0x8000 - Z.min (Py.len data) 0x8000).

Definition loaded_banks (data : list Z) : list (list Z) :=
  if bool_decide (Py.len data > 0x8000)
  then (λ b, Py.slice data (b * 0x4000) ((b + 1) * 0x4000)) <$> Py.range (Py.len data / 0x4000)
  else [].

Definition loaded (data : list Z) : MMU.t :=
  MMU.set_rom_banks (loaded_banks data) (MMU.set_rom (loaded_rom data) MMU.reset).

(** A sequence of calls [write(addr, val)]. *)
Definition writes (ws : list (Z * Z)) : Py.M MMU.t unit :=
  Py.for_ ws (λ w, MMU.write (fst w) (snd w)).

(** The memory after [load_rom(data)] followed by the writes [ws]. *)
Definition load_then_write (data : list Z) (ws : list (Z * Z)) : option MMU.t :=
  Py.exec (MMU.load_rom data ;; writes ws)%py MMU.reset.

(** The button latch after [set_button(btn, pressed)]: bit [btn] low means
    pressed. *)
Definition latch (btn : Z) (pressed : bool) (buttons : Z) : Z :=
  if pressed then Z.land buttons (Z.lnot (Z.shiftl 1 btn))
  else Z.lor buttons (Z.shiftl 1 btn).

(** What [set_button] leaves in [io[0x00]] when it held [joyp]: the high
    nibble is kept; the low nibble becomes the action half of the latch
    when bit 5 is clear, else the direction half when bit 4 is clear; with
    both selector bits set the register is left alone. *)
Definition joyp_refresh (joyp buttons : Z) : Z :=
  if Z.land joyp 0x20 =? 0
  then Z.lor (Z.land joyp 0xF0) (Z.land (Z.shiftr buttons 4) 0x0F)
  else if Z.land joyp 0x10 =? 0
  then Z.lor (Z.land joyp 0xF0) (Z.land buttons 0x0F)
  else joyp.

(** The tile index that a map byte denotes in the signed addressing mode
    ([-128 .. 127]). *)
Definition signed_index (idx : Z) : Z := if idx >? 127 then idx - 256 else idx.

(** A program fragment for the background renderer: the CPU writes [lcdc]
    to [LCDC], stores the pattern row [0xFF, 0xFF] (colour 3 in all eight
    pixels) at [pattern], and the PPU renders scanline 0.  The tile map is
    all zeros, as after reset.  The result is the colour of the first
    pixel of the scanline. *)
Definition first_pixel (lcdc pattern : Z) : option Z :=
  s ← Py.exec (CPU.mmu_write 0xFF40 lcdc ;;
               CPU.mmu_write pattern 0xFF ;;
               CPU.mmu_write (pattern + 1) 0xFF ;;
               PPU._render_scanline 0)%py GameBoy.init;
  Py.getitem (Video.framebuffer (Sys.ppu s)) 0.

(** A computation maintains [P] whenever it returns (it may raise). *)
Definition maintains {S A} (P : S → Prop) (m : Py.M S A) : Prop :=
  ∀ s x s', P s → m s = Some (x, s') → P s'.

(** ** CHIP-8: the display and a sprite *)

(** The opcode that [_cycle] fetches: [(memory[pc] << 8) | memory[pc + 1]]. *)
Definition opcode_at (s : Chip8.t) : option Z :=
  hi ← Py.getitem (Chip8.memory s) (Chip8.pc s);
  lo ← Py.getitem (Chip8.memory s) (Chip8.pc s + 1);
  Some (Z.lor (Z.shiftl hi 8) lo).

(** The machine once the opcode is fetched: [pc = (pc + 2) & 0x0FFF]. *)
Definition fetched (s : Chip8.t) : Chip8.t :=
  Chip8.set_pc (Z.land (Chip8.pc s + 2) 0x0FFF) s.


(** The arrays of a CHIP-8 machine have their fixed lengths. *)
Definition chip8_ok (s : Chip8.t) : bool :=
  bool_decide (Py.len (Chip8.memory s) = 4096)
  && bool_decide (Py.len (Chip8.V s) = 16)
  && bool_decide (Py.len (Chip8.gfx s) = Chip8.W * Chip8.H).

Definition lengths_ok (s : Chip8.t) : Prop := chip8_ok s = true.

(** The display cell [gfx[idx]] (0 outside the display). *)
Definition pixel (s : Chip8.t) (idx : Z) : Z := default 0 (Chip8.gfx s !! Z.to_nat idx).

(** Row [row] of the sprite at [I]: [memory[(I + row) & 0x0FFF]]. *)
Definition sprite_row (s : Chip8.t) (row : Z) : Z :=
  default 0 (Chip8.memory s !! Z.to_nat (Z.land (Chip8.I s + row) 0x0FFF)).

(** Bit [bit] (from the left) of that row is set. *)
Definition sprite_bit (s : Chip8.t) (row bit : Z) : bool :=
  negb (Z.land (sprite_row s row) (Z.shiftr 0x80 bit) =? 0).

(** The index in [gfx] where [_draw(vx, vy, n)] puts bit [bit] of row
    [row]: both coordinates are reduced before the iteration and again at
    every step of it. *)
Definition cell (vx vy row bit : Z) : Z :=
  (vx mod Chip8.W + bit) mod Chip8.W + (vy mod Chip8.H + row) mod Chip8.H * Chip8.W.

(** The same index when the iteration clips instead: [None] for a row or
    a column past the bottom or the right edge. *)
Definition clipped_cell (vx vy row bit : Z) : option Z :=
  if (vx mod Chip8.W + bit <? Chip8.W) && (vy mod Chip8.H + row <? Chip8.H)
  then Some ((vx mod Chip8.W + bit) + (vy mod Chip8.H + row) * Chip8.W)
  else None.

(** Some set bit of the [n]-row sprite lands on the cell [idx]. *)
Definition lit (s : Chip8.t) (vx vy n idx : Z) : bool :=
  existsb (λ row,
    existsb (λ bit, sprite_bit s row bit && (cell vx vy row bit =? idx)) (Py.range 8))
    (Py.range n).

(** Some set bit of the sprite lands on a cell that is set. *)
Definition collision (s : Chip8.t) (vx vy n : Z) : bool :=
  existsb (λ row,
    existsb (λ bit, sprite_bit s row bit && (pixel s (cell vx vy row bit) =? 1)) (Py.range 8))
    (Py.range n).

(** What [draw_bit] does to the machine for a set bit landing on [idx]. *)
Definition plot (idx : Z) (s : Chip8.t) : Chip8.t :=
  let g := pixel s idx in
  let s1 := if g =? 1 then Chip8.set_V (<[Z.to_nat 0xF := 1]> (Chip8.V s)) s else s in
  Chip8.set_dirty ({[ idx ]} ∪ Chip8.dirty s1)
    (Chip8.set_gfx (<[Z.to_nat idx := Z.lxor g 1]> (Chip8.gfx s1)) s1).

(** The cells that the set bits of one row, and of the whole sprite, land
    on, in the order of the iteration. *)
Definition row_cells (s : Chip8.t) (vx vy row : Z) : list Z :=
  cell vx vy row <$> filter (λ bit, sprite_bit s row bit = true) (Py.range 8).

Definition sprite_cells (s : Chip8.t) (vx vy n : Z) : list Z :=
  Py.range n ≫= row_cells s vx vy.

(** The number of times [idx] occurs in [l] is odd. *)
Fixpoint odd_hits (idx : Z) (l : list Z) : bool :=
  match l with
  | [] => false
  | j :: l' => xorb (bool_decide (j = idx)) (odd_hits idx l')
  end.

(** A fresh machine with [I] at the font sprite of the digit 0
    ([0xF0, 0x90, 0x90, 0x90, 0xF0]). *)
Definition font_zero : Chip8.t := Chip8.set_I Chip8.FONT_START Chip8.reset.

(** The same machine about to execute [D015] (draw five rows at
    ([V0], [V1])) with [V0 = 62] and [V1 = 30]. *)
Definition about_to_draw : Chip8.t :=
  Chip8.set_V (<[0%nat := 62]> (<[1%nat := 30]> (Chip8.V font_zero)))
    (Chip8.set_memory
       (<[Z.to_nat 0x200 := 0xD0]> (<[Z.to_nat 0x201 := 0x15]> (Chip8.memory font_zero)))
       font_zero).

(** The operands of an opcode. *)
Definition op_x (op : Z) : Z := Z.shiftr (Z.land op 0x0F00) 8.
Definition op_y (op : Z) : Z := Z.shiftr (Z.land op 0x00F0) 4.
Definition op_n (op : Z) : Z := Z.land op 0x000F.

(** Some set bit of the sprite lands on [idx] when the iteration clips. *)
Definition lit_clipped (s : Chip8.t) (vx vy n idx : Z) : bool :=
  existsb (λ row,
    existsb (λ bit, sprite_bit s row bit
                    && bool_decide (clipped_cell vx vy row bit = Some idx)) (Py.range 8))
    (Py.range n).

(** ** The states of a [GameBoy] object

    The states that the shell can bring a [GameBoy] object into: it is
    constructed, reset, loaded with the bytes of a file, told about
    buttons, started, paused and stopped, and stepped frame by frame; the
    CPU and the PPU are also stepped on their own. *)
Inductive reachable : Sys.t → Prop :=
| reach_init : reachable GameBoy.init
| reach_reset s : reachable s → reachable (GameBoy.reset s)
| reach_load_rom s file :
    reachable s →
    (∀ data, file = Some data → forallb Py.is_byte data = true) →
    reachable (snd (GameBoy.load_rom file s))
| reach_set_button s btn pressed s' :
    reachable s → GameBoy.set_button btn pressed s = Some (tt, s') → reachable s'
| reach_step_frame s s' :
    reachable s → GameBoy.step_frame s = Some (tt, s') → reachable s'
| reach_cpu_step s cyc s' :
    reachable s → CPU.step s = Some (cyc, s') → reachable s'
| reach_ppu_step s cycles s' :
    reachable s → PPU.step cycles s = Some (tt, s') → reachable s'
| reach_run s running paused :
    reachable s → reachable (Sys.set_paused paused (Sys.set_running running s)).

(** ** The second CHIP-8 core through the first

    The machine of the first core that has the memory, registers and
    display of a machine of the second. *)
Definition as_chip8 (t : Chip8b.t) : Chip8.t :=
  {| Chip8.memory := Chip8b.mem t;
     Chip8.V := Chip8b.V t;
     Chip8.I := Chip8b.I t;
     Chip8.pc := Chip8b.pc t;
     Chip8.stack := Chip8b.stack t;
     Chip8.sp := Chip8b.sp t;
     Chip8.delay_timer := Chip8b.delay t;
     Chip8.sound_timer := Chip8b.sound t;
     Chip8.keys := Chip8b.keys t;
     Chip8.gfx := Chip8b.gfx t;
     Chip8.dirty := ∅;
     Chip8.waiting_for_key := false;
     Chip8.wait_reg := 0;
     Chip8.shift_uses_vy := true;
     Chip8.fx55_fx65_increment_i := true |}.

(** The two machines show the same sprite memory, registers and display. *)
Definition same_display (t : Chip8b.t) (s : Chip8.t) : Prop :=
  Chip8b.mem t = Chip8.memory s ∧ Chip8b.V t = Chip8.V s
  ∧ Chip8b.I t = Chip8.I s ∧ Chip8b.gfx t = Chip8.gfx s.

(** What [drw_col] does to the second machine for a set bit landing on
    [idx]. *)
Definition plot_b (idx : Z) (t : Chip8b.t) : Chip8b.t :=
  let g := default 0 (Chip8b.gfx t !! Z.to_nat idx) in
  let t1 := if g =? 1 then Chip8b.set_V (<[Z.to_nat 0xF := 1]> (Chip8b.V t)) t else t in
  Chip8b.set_gfx (<[Z.to_nat idx := Z.lxor g 1]> (Chip8b.gfx t1)) t1.

(** The second machine about to execute [D015] with [V0 = 62],
    [V1 = 30] and [I] at its font sprite of the digit 0. *)
Definition about_to_draw_b : Chip8b.t :=
  Chip8b.set_V (<[0%nat := 62]> (<[1%nat := 30]> (Chip8b.V Chip8b.init)))
    (Chip8b.set_mem
       (<[Z.to_nat 0x200 := 0xD0]> (<[Z.to_nat 0x201 := 0x15]> (Chip8b.mem Chip8b.init)))
       Chip8b.init).

(** The opcode that [cycle] of the second core fetches:
    [(self.mem[self.pc] << 8) | self.mem[self.pc + 1]]. *)
Definition opcode_at_b (t : Chip8b.t) : option Z :=
  hi ← Py.getitem (Chip8b.mem t) (Chip8b.pc t);
  lo ← Py.getitem (Chip8b.mem t) (Chip8b.pc t + 1);
  Some (Z.lor (Z.shiftl hi 8) lo).

(** The second machine once the opcode is fetched: [self.pc += 2]. *)
Definition fetched_b (t : Chip8b.t) : Chip8b.t :=
  Chip8b.set_pc (Chip8b.pc t + 2) t.

(** ** Beyond the specification: the memory map

    Definitions used to state further properties of [MMU.read] and
    [MMU.write]. *)

(** The 16-bit addresses whose byte [MMU.write] stores: everything from
    [0x8000] up except the external RAM while it is disabled and the
    unmapped range [0xFEA0-0xFEFF]. *)
Definition stored (m : MMU.t) (a : Z) : bool :=
  (0x8000 <=? a) && (a <=? 0xFFFF)
  && negb ((0xA000 <=? a) && (a <? 0xC000) && negb (MMU.ram_enabled m))
  && negb ((0xFEA0 <=? a) && (a <? 0xFF00)).

(** Two 16-bit addresses that designate the same byte of work RAM: both
    lie in [0xC000-0xFDFF] (work RAM and its echo) at the same offset
    modulo 8 KiB. *)
Definition mirrored (a a' : Z) : bool :=
  (0xC000 <=? a) && (a <? 0xFE00) && (0xC000 <=? a') && (a' <? 0xFE00)
  && ((a' - a) mod 0x2000 =? 0).

(** ** Beyond the specification: the CPU registers *)

(** The four flags of a machine, as the properties [zf], [nf], [hf] and
    [cf] read them. *)
Definition flags : Py.M Sys.t (bool * bool * bool * bool) :=
  (z <- CPU.zf ;; n <- CPU.nf ;; h <- CPU.hf ;; c <- CPU.cf ;; Py.ret (z, n, h, c))%py.

(** The 16-bit addresses of the RAM that is always mapped: video RAM, work
    RAM with its echo, OAM and high RAM. *)
Definition plain_ram (a : Z) : bool :=
  ((0x8000 <=? a) && (a <? 0xA000)) || ((0xC000 <=? a) && (a <? 0xFEA0))
  || ((0xFF80 <=? a) && (a <? 0xFFFF)).

(** ** Beyond the specification: what one CPU step does and returns *)

(** The cycle counts that [CPU.step] reports. *)
Definition cycle_counts : list Z := [4; 8; 12; 16; 20; 24].

(** Every result of a computation satisfies [Q]. *)
Definition returns {S A} (Q : A → Prop) (m : Py.M S A) : Prop :=
  ∀ s x s', m s = Some (x, s') → Q x.

(** What the CPU leaves alone: the cartridge ROM with its banks, the state
    of the PPU and the attributes of the [GameBoy] object. *)
Definition cpu_frame (s0 s : Sys.t) : Prop :=
  MMU.rom (Sys.mmu s) = MMU.rom (Sys.mmu s0)
  ∧ MMU.rom_banks (Sys.mmu s) = MMU.rom_banks (Sys.mmu s0)
  ∧ Sys.ppu s = Sys.ppu s0
  ∧ Sys.running s = Sys.running s0
  ∧ Sys.paused s = Sys.paused s0
  ∧ Sys.buttons s = Sys.buttons s0.



(** ** Beyond the specification: the PPU and the frame loop *)

(** Every cell of the framebuffer is a colour of the four-entry palette,
    an index that [_render] of the shell can look up. *)
Definition colours_ok (s : Sys.t) : Prop :=
  Forall (λ c, 0 ≤ c ≤ 3) (Video.framebuffer (Sys.ppu s)).

(** The frame flag is raised only with the beam on line 144 and the
    VBlank request (bit 0 of [IF]) pending. *)
Definition at_vblank (s : Sys.t) : Prop :=
  Video.frame_ready (Sys.ppu s) = true →
  Py.getitem (MMU.io (Sys.mmu s)) 0x44 = Some 144
  ∧ ∃ v, Py.getitem (MMU.io (Sys.mmu s)) 0x0F = Some v ∧ Z.testbit v 0 = true.

(** Partial correctness: from a state in [P], a computation that returns
    does so with a result and a state in [Q]. *)
Definition ptriple {S A} (P : S → Prop) (m : Py.M S A) (Q : A → S → Prop) : Prop :=
  ∀ s x s', P s → m s = Some (x, s') → Q x s'.
(** The frame flag is down and the I/O page has its length. *)
Definition flag_down (s : Sys.t) : Prop :=
  Video.frame_ready (Sys.ppu s) = false ∧ Py.len (MMU.io (Sys.mmu s)) = 0x80.

(** What the PPU leaves alone: the registers of the CPU, the attributes
    of the [GameBoy] object and the whole memory except the two I/O
    registers [LY] ([0xFF44]) and [IF] ([0xFF0F]). *)
Definition ppu_frame (s0 s : Sys.t) : Prop :=
  Sys.cpu s = Sys.cpu s0
  ∧ Sys.running s = Sys.running s0 ∧ Sys.paused s = Sys.paused s0
  ∧ Sys.buttons s = Sys.buttons s0
  ∧ MMU.rom (Sys.mmu s) = MMU.rom (Sys.mmu s0)
  ∧ MMU.rom_banks (Sys.mmu s) = MMU.rom_banks (Sys.mmu s0)
  ∧ MMU.vram (Sys.mmu s) = MMU.vram (Sys.mmu s0)
  ∧ MMU.eram (Sys.mmu s) = MMU.eram (Sys.mmu s0)
  ∧ MMU.wram (Sys.mmu s) = MMU.wram (Sys.mmu s0)
  ∧ MMU.oam (Sys.mmu s) = MMU.oam (Sys.mmu s0)
  ∧ MMU.hram (Sys.mmu s) = MMU.hram (Sys.mmu s0)
  ∧ MMU.ie (Sys.mmu s) = MMU.ie (Sys.mmu s0)
  ∧ MMU.rom_bank (Sys.mmu s) = MMU.rom_bank (Sys.mmu s0)
  ∧ MMU.ram_enabled (Sys.mmu s) = MMU.ram_enabled (Sys.mmu s0)
  ∧ ∀ k, k ≠ Z.to_nat 0x44 → k ≠ Z.to_nat 0x0F →
         MMU.io (Sys.mmu s) !! k = MMU.io (Sys.mmu s0) !! k.

(** ** Beyond the specification: the CHIP-8 machine of [chip81.0.py] *)

(** A well-formed machine: the arrays have their lengths, the memory (a
    [bytearray]) and the registers hold bytes, [I] and [pc] are 12-bit
    addresses, the stack pointer is between 0 and 16, the timers are
    bytes and [wait_reg] is a register number.  These are the states that
    [reset] builds. *)
Definition chip8_wf (s : Chip8.t) : bool :=
  bytes_ok 4096 (Chip8.memory s)
  && bytes_ok 16 (Chip8.V s)
  && bool_decide (Py.len (Chip8.stack s) = 16)
  && bool_decide (Py.len (Chip8.keys s) = 16)
  && bool_decide (Py.len (Chip8.gfx s) = Chip8.W * Chip8.H)
  && bool_decide (0 ≤ Chip8.I s ≤ 0xFFF)
  && bool_decide (0 ≤ Chip8.pc s ≤ 0xFFF)
  && bool_decide (0 ≤ Chip8.sp s ≤ 16)
  && Py.is_byte (Chip8.delay_timer s)
  && Py.is_byte (Chip8.sound_timer s)
  && bool_decide (0 ≤ Chip8.wait_reg s ≤ 15).

Definition wf (s : Chip8.t) : Prop := chip8_wf s = true.

(** A state that is well formed with its program counter below the last
    byte of the memory. *)
Definition can_fetch (s : Chip8.t) : Prop := wf s ∧ Chip8.pc s ≠ 0xFFF.

(** The register [V[i]] and the memory byte [memory[a]] of a CHIP-8
    machine (0 outside the array). *)
Definition reg (s : Chip8.t) (i : Z) : Z := default 0 (Chip8.V s !! Z.to_nat i).
Definition byte_at (s : Chip8.t) (a : Z) : Z := default 0 (Chip8.memory s !! Z.to_nat a).



(** ** The second CHIP-8 core: loading and timers *)

(** [Chip8.load_rom] of the second core; [data] is the content of the
    file, [enumerate(data)] the list of its bytes with their positions. *)
Definition load_rom_b (data : list Z) : Chip8b.M unit :=
  (Py.for_ (seqZ 0x200 (4096 - 0x200)) (λ i, Chip8b.mem_set i 0) ;;
   Py.for_ (zip (Py.range (Py.len data)) data) (λ ib,
     let i := ib.1 in
     let b := ib.2 in
     Py.when (0x200 + i <? 4096) (Chip8b.mem_set (0x200 + i) b)))%py.

(** [Chip8.tick_timers] of the second core. *)
Definition tick_timers_b : Chip8b.M unit :=
  (d <- Py.gets Chip8b.delay ;;
   Py.when (d >? 0) (d <- Py.gets Chip8b.delay ;; Py.modify (Chip8b.set_delay (d - 1))) ;;
   s <- Py.gets Chip8b.sound ;;
   Py.when (s >? 0) (s <- Py.gets Chip8b.sound ;; Py.modify (Chip8b.set_sound (s - 1))))%py.

(** [n] calls of [tick_timers] in a row. *)
Definition ticks_b (n : nat) : Chip8b.M unit :=
  Py.for_ (replicate n tt) (λ _, tick_timers_b).

(** ** The shell of the first CHIP-8 machine

    The methods of the class [Chip8] of [chip81.0.py] around the
    interpreter: loading, the 60 Hz tick, rendering and the keyboard.  Of
    the Tk side the model keeps the fill colour of the rectangle of each
    display cell ([screen], [true] for the colour of a lit pixel) and the
    flags [running] and [paused]; the status line, the frame-rate estimate
    and the scheduling of the next tick have no effect on these. *)

From Stdlib Require String.

Module Shell.

Import String.StringSyntax.
#[local] Open Scope string_scope.

Record t := mk {
  vm : Chip8.t;
  screen : list bool;
  running : bool;
  paused : bool
}.

Definition set_vm v sh := mk v (screen sh) (running sh) (paused sh).
Definition set_screen v sh := mk (vm sh) v (running sh) (paused sh).
Definition set_running v sh := mk (vm sh) (screen sh) v (paused sh).
Definition set_paused v sh := mk (vm sh) (screen sh) (running sh) v.

Abbreviation M := (Py.M t).

(** A computation of the machine, run on the machine of the shell. *)
Definition on_vm {A} (m : Chip8.M A) : M A :=
  λ sh, match m (vm sh) with
        | Some (x, s') => Some (x, set_vm s' sh)
        | None => None
        end.

Definition KEYMAP : list (String.string * Z) :=
  [ ("1", 0x1); ("2", 0x2); ("3", 0x3); ("4", 0xC);
    ("q", 0x4); ("w", 0x5); ("e", 0x6); ("r", 0xD);
    ("a", 0x7); ("s", 0x8); ("d", 0x9); ("f", 0xE);
    ("z", 0xA); ("x", 0x0); ("c", 0xB); ("v", 0xF) ].

(** [KEYMAP[ch]] when [ch in KEYMAP]. *)
Fixpoint lookup_key (ch : String.string) (m : list (String.string * Z)) : option Z :=
  match m with
  | [] => None
  | (k, v) :: m' => if String.eqb k ch then Some v else lookup_key ch m'
  end.

(** The machine that [Chip8.reset] builds: every component is fresh;
    the quirk flags and the key-wait state are not touched. *)
Definition reset_vm (s : Chip8.t) : Chip8.t :=
  {| Chip8.memory := list_inserts (Z.to_nat Chip8.FONT_START) Chip8.FONT (Py.zeros 4096);
     Chip8.V := Py.zeros 16;
     Chip8.I := 0;
     Chip8.pc := 0x200;
     Chip8.stack := Py.zeros 16;
     Chip8.sp := 0;
     Chip8.delay_timer := 0;
     Chip8.sound_timer := 0;
     Chip8.keys := Py.zeros 16;
     Chip8.gfx := Py.zeros (Chip8.W * Chip8.H);
     Chip8.dirty := ∅;
     Chip8.waiting_for_key := Chip8.waiting_for_key s;
     Chip8.wait_reg := Chip8.wait_reg s;
     Chip8.shift_uses_vy := Chip8.shift_uses_vy s;
     Chip8.fx55_fx65_increment_i := Chip8.fx55_fx65_increment_i s |}.

(** [Chip8.reset] *)
Definition reset : M unit := on_vm (Py.modify reset_vm).

(** [canvas.itemconfig(self._pixel_ids[idx], fill=color, outline=color)] *)
Definition paint (idx : Z) (color : bool) : M unit :=
  Py.update (λ sh, r ← Py.setitem (screen sh) idx color; Some (set_screen r sh)).

(** [Chip8._render_dirty]; the cells of [dirty] are visited in the order
    of [elements], each one is painted from its own cell of [gfx]. *)
Definition _render_dirty : M unit :=
  (d <- Py.gets (λ sh, Chip8.dirty (vm sh)) ;;
   Py.for_ (elements d) (λ idx,
     g <- on_vm (Chip8.gfx_get idx) ;;
     paint idx (Py.truthy g)) ;;
   on_vm (Py.modify (Chip8.set_dirty ∅)))%py.

(** [Chip8._render_full_clear] *)
Definition _render_full_clear : M unit :=
  (on_vm (Py.modify (Chip8.set_gfx (Py.zeros (Chip8.W * Chip8.H)))) ;;
   on_vm (Py.modify (Chip8.set_dirty (list_to_set (Py.range (Chip8.W * Chip8.H))))) ;;
   _render_dirty)%py.

(** [Chip8.toggle_pause] *)
Definition toggle_pause : M unit :=
  (p <- Py.gets paused ;; Py.modify (set_paused (negb p)))%py.

(** [Chip8.load_rom], for the bytes [data] read from the file. *)
Definition load_rom (data : list Z) : M unit :=
  (let max_len := 4096 - 0x200 in
   if Py.len data >? max_len then Py.raise
   else
     reset ;;
     Py.for_ (zip (Py.range (Py.len data)) data) (λ ib,
       on_vm (Chip8.mem_set (0x200 + ib.1) ib.2)) ;;
     Py.modify (set_paused false) ;;
     on_vm (Py.modify (Chip8.set_waiting_for_key false)) ;;
     _render_full_clear)%py.

(** The loop of [_tick] over the remaining rounds [ks]: a round ends the
    loop ([break]) when the machine waits for a key, and runs one
    instruction otherwise.  [rnd k] is the random byte of round [k]. *)
Fixpoint run_cycles (rnd : Z → Z) (ks : list Z) : M unit :=
  match ks with
  | [] => Py.ret tt
  | k :: ks' =>
      (w <- Py.gets (λ sh, Chip8.waiting_for_key (vm sh)) ;;
       if w then Py.ret tt
       else on_vm (Chip8._cycle (rnd k)) ;; run_cycles rnd ks')%py
  end.

(** [Chip8._tick]: nine instructions, the two timers, then the
    rendering of the cells that changed. *)
Definition _tick (rnd : Z → Z) : M unit :=
  (r <- Py.gets running ;;
   if negb r then Py.ret tt
   else
     p <- Py.gets paused ;;
     Py.when (negb p)
       (run_cycles rnd (Py.range 9) ;;
        dt <- Py.gets (λ sh, Chip8.delay_timer (vm sh)) ;;
        Py.when (dt >? 0) (on_vm (Py.modify (Chip8.set_delay_timer (dt - 1)))) ;;
        st <- Py.gets (λ sh, Chip8.sound_timer (vm sh)) ;;
        Py.when (st >? 0) (on_vm (Py.modify (Chip8.set_sound_timer (st - 1))))) ;;
     d <- Py.gets (λ sh, Chip8.dirty (vm sh)) ;;
     Py.when (negb (bool_decide (d = ∅))) _render_dirty)%py.

(** [self.keys[key] = v] *)
Definition keys_set (key v : Z) : Chip8.M unit :=
  Py.update (λ s, r ← Py.setitem (Chip8.keys s) key v; Some (Chip8.set_keys r s)).

(** [Chip8.on_key_press]; [ks] and [ch] are the lowered [keysym] and
    [char] of the event. *)
Definition on_key_press (ks ch : String.string) : M unit :=
  (if String.eqb ks "space" then toggle_pause
   else
     match lookup_key ch KEYMAP with
     | Some key =>
         on_vm (keys_set key 1) ;;
         w <- Py.gets (λ sh, Chip8.waiting_for_key (vm sh)) ;;
         Py.when w
           (on_vm (r <- Py.gets Chip8.wait_reg ;; Chip8.V_set r key) ;;
            on_vm (Py.modify (Chip8.set_waiting_for_key false)) ;;
            on_vm (p <- Py.gets Chip8.pc ;; Py.modify (Chip8.set_pc (Z.land (p + 2) 0x0FFF))))
     | None => Py.ret tt
     end)%py.

(** [Chip8.on_key_release] *)
Definition on_key_release (ch : String.string) : M unit :=
  match lookup_key ch KEYMAP with
  | Some key => on_vm (keys_set key 0)
  | None => Py.ret tt
  end.

(** The shell after [__init__]: the machine is reset, the rectangles are
    created in the colour of an unlit pixel, the emulation is paused. *)
Definition init : t :=
  {| vm := Chip8.reset;
     screen := replicate (Z.to_nat (Chip8.W * Chip8.H)) false;
     running := true;
     paused := true |}.

End Shell.

(** The screen [scr] shows the display of [s] but for the cells still
    marked dirty, which all lie on the display. *)
Definition covered_b (scr : list bool) (s : Chip8.t) : bool :=
  bool_decide (Py.len scr = Chip8.W * Chip8.H)
  && bool_decide (Py.len (Chip8.gfx s) = Chip8.W * Chip8.H)
  && forallb (λ idx, bool_decide (0 ≤ idx < Chip8.W * Chip8.H)) (elements (Chip8.dirty s))
  && forallb (λ idx, bool_decide (idx ∈ Chip8.dirty s)
                     || bool_decide (scr !! Z.to_nat idx = Some (Py.truthy (pixel s idx))))
             (Py.range (Chip8.W * Chip8.H)).

Definition covered (scr : list bool) (s : Chip8.t) : Prop := covered_b scr s = true.

Definition synced (sh : Shell.t) : Prop := covered (Shell.screen sh) (Shell.vm sh).

(** The screen shows the whole display and no cell is marked dirty. *)
Definition shows (sh : Shell.t) : Prop :=
  Chip8.dirty (Shell.vm sh) = ∅
  ∧ ∀ idx, 0 ≤ idx < Chip8.W * Chip8.H →
           Shell.screen sh !! Z.to_nat idx = Some (Py.truthy (pixel (Shell.vm sh) idx)).




(** ** Python containers *)

Section containers.
Context {A : Type}.
Implicit Types (l : list A) (i : Z).

Lemma index_in_range l i : 0 ≤ i < Py.len l → Py.index l i = Some (Z.to_nat i).
Proof. intros Hi. unfold Py.index. by rewrite bool_decide_eq_true_2. Qed.

Lemma getitem_in_range l i :
  0 ≤ i < Py.len l → Py.getitem l i = l !! Z.to_nat i ∧ is_Some (l !! Z.to_nat i).
Proof.
  intros Hi. unfold Py.getitem. rewrite index_in_range by done. simpl.
  split; [done|]. apply lookup_lt_is_Some. unfold Py.len in Hi. lia.
Qed.

Lemma setitem_in_range l i v :
  0 ≤ i < Py.len l → Py.setitem l i v = Some (<[Z.to_nat i := v]> l).
Proof. intros Hi. unfold Py.setitem. by rewrite index_in_range. Qed.

Lemma len_insert l k v : Py.len (<[k := v]> l) = Py.len l.
Proof. unfold Py.len. by rewrite length_insert. Qed.

Lemma index_Some l i k : Py.index l i = Some k → (k < length l)%nat.
Proof.
  unfold Py.index, Py.len. intros Hk.
  repeat case_bool_decide; simplify_eq; [lia|lia].
Qed.

Lemma setitem_len l i v l' : Py.setitem l i v = Some l' → Py.len l' = Py.len l.
Proof.
  unfold Py.setitem. intros Hs.
  destruct (Py.index l i); simplify_eq/=. apply len_insert.
Qed.
End containers.

Lemma len_zeros n : 0 ≤ n → Py.len (Py.zeros n) = n.
Proof. intros. unfold Py.len, Py.zeros. rewrite length_replicate. lia. Qed.

Lemma len_range n : 0 ≤ n → Py.len (Py.range n) = n.
Proof. intros. unfold Py.len, Py.range. rewrite length_seqZ. lia. Qed.

Lemma is_byte_spec v : Py.is_byte v = true ↔ 0 ≤ v ≤ 255.
Proof. unfold Py.is_byte. apply bool_decide_eq_true. Qed.

Lemma is_byte_land v : Py.is_byte (Z.land v 0xFF) = true.
Proof.
  apply is_byte_spec. pose proof (Z.land_ones v 8) as Hm.
  change (Z.ones 8) with 0xFF in Hm. change (2 ^ 8) with 256 in Hm.
  rewrite Hm by lia. pose proof (Z.mod_pos_bound v 256). lia.
Qed.

Lemma bytes_ok_spec n l :
  bytes_ok n l = true ↔ Py.len l = n ∧ ∀ k v, l !! k = Some v → 0 ≤ v ≤ 255.
Proof.
  unfold bytes_ok. rewrite andb_true_iff, bool_decide_eq_true, forallb_forall.
  split; intros [Hl Hb]; (split; [done|]).
  - intros k v Hk. apply is_byte_spec, Hb, list_elem_of_In. by eapply list_elem_of_lookup_2.
  - intros v Hv. apply list_elem_of_In, list_elem_of_lookup_1 in Hv as [k Hk].
    apply is_byte_spec. eauto.
Qed.

Lemma bytes_ok_insert n l k v :
  bytes_ok n l = true → Py.is_byte v = true → bytes_ok n (<[k := v]> l) = true.
Proof.
  rewrite !bytes_ok_spec, is_byte_spec. intros [Hl Hb] Hv. split.
  - by rewrite len_insert.
  - intros j w Hj. destruct (decide (k = j)) as [->|Hne].
    + destruct (decide (j < length l)%nat).
      * rewrite list_lookup_insert_eq in Hj by done. by simplify_eq.
      * rewrite list_insert_ge in Hj by lia. eauto.
    + rewrite list_lookup_insert_ne in Hj by done. eauto.
Qed.

Lemma bytes_ok_setitem n l i v l' :
  bytes_ok n l = true → Py.is_byte v = true → Py.setitem l i v = Some l' →
  bytes_ok n l' = true.
Proof.
  unfold Py.setitem. intros Hl Hv Hs.
  destruct (Py.index l i); simplify_eq/=. by apply bytes_ok_insert.
Qed.

Lemma bytes_ok_getitem n l i :
  bytes_ok n l = true → 0 ≤ i < n →
  ∃ v, Py.getitem l i = Some v ∧ 0 ≤ v ≤ 255.
Proof.
  rewrite bytes_ok_spec. intros [Hl Hb] Hi.
  destruct (getitem_in_range l i) as [-> [v Hv]]; [lia|].
  exists v. split; [done|]. eauto.
Qed.

Lemma bytes_ok_zeros n : 0 ≤ n → bytes_ok n (Py.zeros n) = true.
Proof.
  intros Hn. apply bytes_ok_spec. split; [by apply len_zeros|].
  intros k v Hk. unfold Py.zeros in Hk.
  apply lookup_replicate in Hk as [-> _]. lia.
Qed.

(** Closed statements are settled by evaluation, conjunct by conjunct. *)
Ltac evaluate :=
  repeat match goal with |- _ ∧ _ => split end; vm_compute; reflexivity.

(** ** Rules for computations *)

Section rules.
Context {St : Type}.
Implicit Types (P : St → Prop).

Lemma hoare_ret {A} P (x : A) (Q : A → St → Prop) :
  (∀ s, P s → Q x s) → hoare P (Py.ret x) Q.
Proof. intros HQ s Hs. exists x, s. eauto. Qed.

Lemma hoare_bind {A B} P (m : Py.M St A) (k : A → Py.M St B) Q R :
  hoare P m Q → (∀ x, hoare (Q x) (k x) R) → hoare P (Py.bind m k) R.
Proof.
  intros Hm Hk s Hs. destruct (Hm s Hs) as (x & s' & Hx & Hs').
  destruct (Hk x s' Hs') as (y & s'' & Hy & Hs'').
  exists y, s''. unfold Py.bind. by rewrite Hx.
Qed.

Lemma hoare_conseq {A} P P' (m : Py.M St A) (Q Q' : A → St → Prop) :
  hoare P' m Q' → (∀ s, P s → P' s) → (∀ x s, Q' x s → Q x s) → hoare P m Q.
Proof.
  intros Hm HP HQ s Hs. destruct (Hm s (HP s Hs)) as (x & s' & Hx & Hs').
  exists x, s'. eauto.
Qed.

Lemma hoare_gets {A} P (g : St → A) (Q : A → St → Prop) :
  (∀ s, P s → Q (g s) s) → hoare P (Py.gets g) Q.
Proof. intros HQ s Hs. exists (g s), s. eauto. Qed.

Lemma hoare_modify P (g : St → St) (Q : unit → St → Prop) :
  (∀ s, P s → Q tt (g s)) → hoare P (Py.modify g) Q.
Proof. intros HQ s Hs. exists tt, (g s). eauto. Qed.

Lemma hoare_try {A} P (g : St → option A) (Q : A → St → Prop) :
  (∀ s, P s → ∃ x, g s = Some x ∧ Q x s) → hoare P (Py.try_ g) Q.
Proof.
  intros HQ s Hs. destruct (HQ s Hs) as (x & Hx & Hq).
  exists x, s. unfold Py.try_. by rewrite Hx.
Qed.

Lemma hoare_update P (g : St → option St) (Q : unit → St → Prop) :
  (∀ s, P s → ∃ s', g s = Some s' ∧ Q tt s') → hoare P (Py.update g) Q.
Proof.
  intros HQ s Hs. destruct (HQ s Hs) as (s' & Hx & Hq).
  exists tt, s'. unfold Py.update. by rewrite Hx.
Qed.

Lemma preserves_ret {A} P (x : A) : preserves P (Py.ret (S:=St) x).
Proof. by apply hoare_ret. Qed.

Lemma preserves_bind {A B} P (m : Py.M St A) (k : A → Py.M St B) :
  preserves P m → (∀ x, preserves P (k x)) → preserves P (Py.bind m k).
Proof. intros Hm Hk. by eapply hoare_bind. Qed.

Lemma preserves_gets {A} P (g : St → A) : preserves P (Py.gets g).
Proof. by apply hoare_gets. Qed.

Lemma preserves_when P (c : bool) (m : Py.M St unit) :
  preserves P m → preserves P (Py.when c m).
Proof. intros Hm. destruct c; [done|]. apply preserves_ret. Qed.

Lemma preserves_if {A} P (c : bool) (m1 m2 : Py.M St A) :
  preserves P m1 → preserves P m2 → preserves P (if c then m1 else m2).
Proof. by destruct c. Qed.

Lemma preserves_for {A} P (l : list A) (body : A → Py.M St unit) :
  (∀ x, x ∈ l → preserves P (body x)) → preserves P (Py.for_ l body).
Proof.
  induction l as [|x l IH]; intros Hb; simpl.
  - apply preserves_ret.
  - apply preserves_bind.
    + apply Hb. by left.
    + intros _. apply IH. intros y Hy. apply Hb. by right.
Qed.

(** A computation that returns from every state in [P] has a final
    state there. *)
Lemma preserves_exec {A} P (m : Py.M St A) s :
  preserves P m → P s → ∃ s', Py.exec m s = Some s' ∧ P s'.
Proof.
  intros Hm Hs. destruct (Hm s Hs) as (x & s' & Hx & Hs').
  exists s'. unfold Py.exec. by rewrite Hx.
Qed.
End rules.

(** ** The memory map *)

Lemma mmu_ok_elim m :
  mmu_ok m = true →
  bytes_ok 0x8000 (MMU.rom m) = true
  ∧ (∀ k bank, MMU.rom_banks m !! k = Some bank → bytes_ok 0x4000 bank = true)
  ∧ bytes_ok 0x2000 (MMU.vram m) = true
  ∧ bytes_ok 0x2000 (MMU.eram m) = true
  ∧ bytes_ok 0x2000 (MMU.wram m) = true
  ∧ bytes_ok 0xA0 (MMU.oam m) = true
  ∧ bytes_ok 0x80 (MMU.io m) = true
  ∧ bytes_ok 0x7F (MMU.hram m) = true
  ∧ 0 ≤ MMU.ie m ≤ 255
  ∧ 1 ≤ MMU.rom_bank m ≤ 0x1F.
Proof.
  unfold mmu_ok. rewrite !andb_true_iff, bool_decide_eq_true, is_byte_spec, forallb_forall.
  intros [[[[[[[[[? Hb] ?] ?] ?] ?] ?] ?] ?] ?]. repeat split; try done; try lia.
  intros k bank Hk. apply Hb, list_elem_of_In. by eapply list_elem_of_lookup_2.
Qed.

Lemma land_16_range a : 0 ≤ Z.land a 0xFFFF < 0x10000.
Proof.
  pose proof (Z.land_ones a 16) as Hm.
  change (Z.ones 16) with 0xFFFF in Hm. change (2 ^ 16) with 0x10000 in Hm.
  rewrite Hm by lia. apply Z.mod_pos_bound. lia.
Qed.

Lemma land_16_id a : 0 ≤ a < 0x10000 → Z.land a 0xFFFF = a.
Proof.
  intros Ha. pose proof (Z.land_ones a 16) as Hm.
  change (Z.ones 16) with 0xFFFF in Hm. change (2 ^ 16) with 0x10000 in Hm.
  rewrite Hm by lia. apply Z.mod_small. lia.
Qed.

Lemma land_16_idemp a : Z.land (Z.land a 0xFFFF) 0xFFFF = Z.land a 0xFFFF.
Proof. apply land_16_id, land_16_range. Qed.

(** [MMU.read] returns a byte from every well-formed memory. *)
Lemma read_byte m addr :
  mmu_ok m = true → ∃ v, MMU.read m addr = Some v ∧ 0 ≤ v ≤ 255.
Proof.
  intros Hm. apply mmu_ok_elim in Hm
    as (Hrom & Hbanks & Hvram & Heram & Hwram & Hoam & Hio & Hhram & Hie & Hbank).
  unfold MMU.read. pose proof (land_16_range addr) as Ha.
  set (a := Z.land addr 0xFFFF) in *.
  repeat match goal with
         | |- context [?x <? ?y] => destruct (Z.ltb_spec x y)
         end.
  all: try (eapply bytes_ok_getitem; [eassumption|lia]).
  - (* switchable bank, selected bank loaded *)
    destruct (negb _); simpl; [|eapply bytes_ok_getitem; [eassumption|lia]].
    destruct (getitem_in_range (MMU.rom_banks m) (MMU.rom_bank m)) as [-> [bank Hbk]];
      [lia|]. rewrite Hbk. simpl.
    eapply bytes_ok_getitem; [by eapply Hbanks|lia].
  - (* switchable bank, selected bank not loaded *)
    rewrite andb_false_r. eapply bytes_ok_getitem; [eassumption|lia].
  - destruct (MMU.ram_enabled m).
    + eapply bytes_ok_getitem; [eassumption|lia].
    + exists 0xFF. split; [done|lia].
  - exists 0xFF. split; [done|lia].
  - eauto.
Qed.
Lemma mmu_ok_intro r bs vr er wr oa i hr e rb en :
  bytes_ok 0x8000 r = true →
  (∀ k bank, bs !! k = Some bank → bytes_ok 0x4000 bank = true) →
  bytes_ok 0x2000 vr = true → bytes_ok 0x2000 er = true → bytes_ok 0x2000 wr = true →
  bytes_ok 0xA0 oa = true → bytes_ok 0x80 i = true → bytes_ok 0x7F hr = true →
  0 ≤ e ≤ 255 → 1 ≤ rb ≤ 0x1F →
  mmu_ok (MMU.mk r bs vr er wr oa i hr e rb en) = true.
Proof.
  intros. unfold mmu_ok; simpl.
  rewrite !andb_true_iff, bool_decide_eq_true, is_byte_spec, forallb_forall.
  repeat split; try done; try lia.
  intros bank Hb. apply list_elem_of_In, list_elem_of_lookup_1 in Hb as [k Hk]. eauto.
Qed.

(** Unpack the invariant of the memory [m] from [Hm], with the lengths of
    its arrays. *)
Ltac mmu_facts Hm :=
  let H := fresh "Hfacts" in
  pose proof Hm as H; apply mmu_ok_elim in H
    as (?Hrom & ?Hbanks & ?Hvram & ?Heram & ?Hwram & ?Hoam & ?Hio & ?Hhram & ?Hie & ?Hbank);
  repeat match goal with
         | H : bytes_ok ?n ?l = true |- _ =>
             lazymatch goal with
             | _ : Py.len l = n |- _ => fail
             | _ => pose proof (proj1 (proj1 (bytes_ok_spec n l) H))
             end
         end.

(** Close the invariant of a memory rebuilt from the fields of [m]. *)
Ltac mmu_rebuild m :=
  destruct m; simpl in *; apply mmu_ok_intro; try done;
  try (apply bytes_ok_insert; [done|]; first [done | by apply is_byte_spec]).

Lemma dma_copy_ok src i m :
  0 ≤ i < 0xA0 → memory_ok m → ∃ m', MMU.dma_copy src i m = Some m' ∧ memory_ok m'.
Proof.
  intros Hi Hm. unfold MMU.dma_copy.
  destruct (read_byte m (src + i) Hm) as (v & -> & Hv). simpl.
  mmu_facts Hm.
  rewrite setitem_in_range by lia. simpl. eexists; split; [done|].
  unfold memory_ok. mmu_rebuild m.
Qed.

(** A store of a byte into one of the arrays, at an index in range. *)
Ltac store_ok :=
  apply hoare_update; intros m Hm; mmu_facts Hm;
  rewrite setitem_in_range by lia; simpl; eexists; split; [done|];
  unfold memory_ok; mmu_rebuild m.

Lemma land_31_range v : 0 ≤ Z.land v 0x1F ≤ 0x1F.
Proof.
  pose proof (Z.land_ones v 5) as Hm.
  change (Z.ones 5) with 0x1F in Hm. change (2 ^ 5) with 32 in Hm.
  rewrite Hm by lia. pose proof (Z.mod_pos_bound v 32). lia.
Qed.

(** The bank-select latch: [rom_bank = val & 0x1F], zero remapped to one. *)
Lemma bank_select m v :
  Py.bind (Py.modify (MMU.set_rom_bank (Z.land v 0x1F)))
    (λ _, Py.modify (λ m, if MMU.rom_bank m =? 0 then MMU.set_rom_bank 1 m else m)) m
  = Some (tt, MMU.set_rom_bank (if Z.land v 0x1F =? 0 then 1 else Z.land v 0x1F) m).
Proof.
  unfold Py.bind, Py.modify; simpl. by destruct (Z.land v 0x1F =? 0).
Qed.

Lemma write_ok addr val : preserves memory_ok (MMU.write addr val).
Proof.
  unfold MMU.write. pose proof (land_16_range addr) as Ha.
  set (a := Z.land addr 0xFFFF) in *.
  pose proof (is_byte_land val) as Hv. set (v := Z.land val 0xFF) in *.
  repeat match goal with
         | |- context [?x <? ?y] => destruct (Z.ltb_spec x y)
         end.
  all: try store_ok.
  all: try apply preserves_ret.
  - (* RAM enable latch *)
    apply hoare_modify. intros m Hm. mmu_facts Hm. unfold memory_ok. mmu_rebuild m.
  - (* bank select latch *)
    intros m Hm. rewrite bank_select. eexists _, _. split; [done|].
    mmu_facts Hm. pose proof (land_31_range v).
    unfold memory_ok. mmu_rebuild m.
    destruct (Z.eqb_spec (Z.land v 0x1F) 0); lia.
  - (* external RAM *)
    apply hoare_update. intros m Hm. destruct (MMU.ram_enabled m) eqn:Hen; [|eauto].
    mmu_facts Hm. rewrite setitem_in_range by lia. simpl. eexists; split; [done|].
    unfold memory_ok. mmu_rebuild m.
  - (* I/O, with the OAM DMA *)
    apply preserves_bind; [|intros _; store_ok].
    apply preserves_when, preserves_for. intros i Hi%elem_of_seqZ.
    apply hoare_update. intros m Hm. apply dma_copy_ok; [lia|done].
  - (* IE *)
    apply hoare_modify. intros m Hm. mmu_facts Hm. apply is_byte_spec in Hv.
    unfold memory_ok. mmu_rebuild m.
Qed.
(** ** The CPU maintains its invariant *)

Lemma land_low_nibble_clear x k : Z.land k 0x0F = 0 → Z.land (Z.land x k) 0x0F = 0.
Proof. intros Hk. by rewrite <- Z.land_assoc, Hk, Z.land_0_r. Qed.

Lemma flag_update f mask bit :
  Z.land f 0x0F = 0 → Z.land bit 0x0F = 0 →
  Z.land (Z.lor (Z.land f mask) bit) 0x0F = 0.
Proof.
  intros Hf Hb. rewrite Z.land_lor_distr_l, Hb, Z.lor_0_r.
  by rewrite <- Z.land_assoc, (Z.land_comm mask), Z.land_assoc, Hf.
Qed.

Create HintDb cpu discriminated.

Section cpu_invariant.
Context (R : Video.t → Prop).

Lemma get_ok {A} (r : Regs.t → A) : preserves (cpu_inv R) (CPU.get r).
Proof. apply preserves_gets. Qed.

(** Assigning a register other than [F]. *)
Lemma set_ok {A} (u : A → Regs.t → Regs.t) v :
  (∀ r, Regs.f (u v r) = Regs.f r) → preserves (cpu_inv R) (CPU.set u v).
Proof.
  intros Hu. apply hoare_modify. intros s (Hm & Hf & Hp). split; [done|].
  split; [|done]. unfold flags_ok in *. simpl. by rewrite Hu.
Qed.

Lemma set_f_ok v : Z.land v 0x0F = 0 → preserves (cpu_inv R) (CPU.set Regs.set_f v).
Proof. intros Hv. apply hoare_modify. by intros s (Hm & Hf & Hp). Qed.

Lemma set_flag_ok mask bit (v : bool) :
  Z.land bit 0x0F = 0 →
  preserves (cpu_inv R)
    (Py.bind (CPU.get Regs.f)
       (λ f, CPU.set Regs.set_f (Z.lor (Z.land f mask) (if v then bit else 0)))).
Proof.
  intros Hb s (Hm & Hf & Hp). eexists tt, _. split; [done|]. split; [done|].
  split; [|done]. unfold flags_ok in *. simpl. apply flag_update; [done|]. by destruct v.
Qed.

Lemma set_zf_ok v : preserves (cpu_inv R) (CPU.set_zf v).
Proof. by apply set_flag_ok. Qed.
Lemma set_nf_ok v : preserves (cpu_inv R) (CPU.set_nf v).
Proof. by apply set_flag_ok. Qed.
Lemma set_hf_ok v : preserves (cpu_inv R) (CPU.set_hf v).
Proof. by apply set_flag_ok. Qed.
Lemma set_cf_ok v : preserves (cpu_inv R) (CPU.set_cf v).
Proof. by apply set_flag_ok. Qed.

Lemma mmu_read_ok addr : preserves (cpu_inv R) (CPU.mmu_read addr).
Proof.
  apply hoare_try. intros s (Hm & Hf & Hp).
  destruct (read_byte _ addr Hm) as (v & Hv & _). exists v. by repeat split.
Qed.

Lemma mmu_write_ok addr val : preserves (cpu_inv R) (CPU.mmu_write addr val).
Proof.
  intros s (Hm & Hf & Hp). destruct (write_ok addr val _ Hm) as ([] & m' & Hw & Hm').
  exists tt, (Sys.set_mmu m' s). unfold CPU.mmu_write, Sys.on_mmu. rewrite Hw.
  split; [done|]. by repeat split.
Qed.

#[local] Hint Resolve preserves_ret preserves_bind preserves_if preserves_when : cpu.
#[local] Hint Resolve get_ok set_zf_ok set_nf_ok set_hf_ok set_cf_ok
  mmu_read_ok mmu_write_ok : cpu.
#[local] Hint Extern 1 (preserves (cpu_inv _) (CPU.set _ _)) =>
  (apply set_ok; intros; reflexivity) : cpu.

(** Prove that a computation built from the binds, conditionals and
    methods registered in [cpu] maintains the invariant. *)
Ltac cpu_ok := cbv zeta; repeat apply preserves_if; auto 40 with cpu.

Lemma zf_ok : preserves (cpu_inv R) CPU.zf.  Proof. unfold CPU.zf. cpu_ok. Qed.
Lemma nf_ok : preserves (cpu_inv R) CPU.nf.  Proof. unfold CPU.nf. cpu_ok. Qed.
Lemma hf_ok : preserves (cpu_inv R) CPU.hf.  Proof. unfold CPU.hf. cpu_ok. Qed.
Lemma cf_ok : preserves (cpu_inv R) CPU.cf.  Proof. unfold CPU.cf. cpu_ok. Qed.
#[local] Hint Resolve zf_ok nf_ok hf_ok cf_ok : cpu.

Lemma af_ok : preserves (cpu_inv R) CPU.af.  Proof. unfold CPU.af. cpu_ok. Qed.
Lemma bc_ok : preserves (cpu_inv R) CPU.bc.  Proof. unfold CPU.bc. cpu_ok. Qed.
Lemma de_ok : preserves (cpu_inv R) CPU.de.  Proof. unfold CPU.de. cpu_ok. Qed.
Lemma hl_ok : preserves (cpu_inv R) CPU.hl.  Proof. unfold CPU.hl. cpu_ok. Qed.

(** [POP AF] and every other assignment to [AF] mask the low nibble. *)
Lemma set_af_ok v : preserves (cpu_inv R) (CPU.set_af v).
Proof.
  unfold CPU.set_af. apply preserves_bind; [cpu_ok|intros _].
  apply set_f_ok. apply land_low_nibble_clear. reflexivity.
Qed.
Lemma set_bc_ok v : preserves (cpu_inv R) (CPU.set_bc v).
Proof. unfold CPU.set_bc. cpu_ok. Qed.
Lemma set_de_ok v : preserves (cpu_inv R) (CPU.set_de v).
Proof. unfold CPU.set_de. cpu_ok. Qed.
Lemma set_hl_ok v : preserves (cpu_inv R) (CPU.set_hl v).
Proof. unfold CPU.set_hl. cpu_ok. Qed.
#[local] Hint Resolve af_ok bc_ok de_ok hl_ok set_af_ok set_bc_ok set_de_ok set_hl_ok : cpu.

Lemma fetch_ok : preserves (cpu_inv R) CPU.fetch.
Proof. unfold CPU.fetch. cpu_ok. Qed.
#[local] Hint Resolve fetch_ok : cpu.
Lemma fetch16_ok : preserves (cpu_inv R) CPU.fetch16.
Proof. unfold CPU.fetch16. cpu_ok. Qed.
Lemma push_ok v : preserves (cpu_inv R) (CPU.push v).
Proof. unfold CPU.push. cpu_ok. Qed.
Lemma pop_ok : preserves (cpu_inv R) CPU.pop.
Proof. unfold CPU.pop. cpu_ok. Qed.
Lemma _inc_ok v : preserves (cpu_inv R) (CPU._inc v).
Proof. unfold CPU._inc. cpu_ok. Qed.
Lemma _dec_ok v : preserves (cpu_inv R) (CPU._dec v).
Proof. unfold CPU._dec. cpu_ok. Qed.
#[local] Hint Resolve fetch16_ok push_ok pop_ok _inc_ok _dec_ok : cpu.
Lemma _add_hl_ok v : preserves (cpu_inv R) (CPU._add_hl v).
Proof. unfold CPU._add_hl. cpu_ok. Qed.

Lemma land_7_range op : 0 ≤ Z.land op 7 < 8.
Proof.
  pose proof (Z.land_ones op 3) as Hm.
  change (Z.ones 3) with 7 in Hm. change (2 ^ 3) with 8 in Hm.
  rewrite Hm by lia. apply Z.mod_pos_bound. lia.
Qed.

Lemma _get_r_ok r : 0 ≤ r < 8 → preserves (cpu_inv R) (CPU._get_r r).
Proof.
  intros Hr. unfold CPU._get_r.
  do 9 (apply preserves_bind; [cpu_ok|intros ?]).
  apply hoare_try. intros s Hs.
  match goal with |- context [Py.getitem ?l r] =>
    destruct (getitem_in_range l r) as [-> [v ->]]; [done|] end.
  eauto.
Qed.

Lemma _set_r_ok r v : preserves (cpu_inv R) (CPU._set_r r v).
Proof. unfold CPU._set_r. cpu_ok. Qed.
Lemma _alu_ok op v : preserves (cpu_inv R) (CPU._alu op v).
Proof. unfold CPU._alu. cpu_ok. Qed.
Lemma jump_rel_ok off : preserves (cpu_inv R) (CPU.jump_rel off).
Proof. unfold CPU.jump_rel. cpu_ok. Qed.
Lemma call_ok target : preserves (cpu_inv R) (CPU.call target).
Proof. unfold CPU.call. cpu_ok. Qed.
Lemma return_ok : preserves (cpu_inv R) CPU.return_.
Proof. unfold CPU.return_. cpu_ok. Qed.
#[local] Hint Resolve _add_hl_ok _set_r_ok _alu_ok jump_rel_ok call_ok return_ok : cpu.
#[local] Hint Extern 1 (preserves (cpu_inv _) (CPU._get_r (Z.land _ 7))) =>
  (apply _get_r_ok, land_7_range) : cpu.

Lemma _exec_cb_ok op : preserves (cpu_inv R) (CPU._exec_cb op).
Proof. unfold CPU._exec_cb. cpu_ok. Qed.
#[local] Hint Resolve _exec_cb_ok : cpu.

Lemma _exec_ok op : preserves (cpu_inv R) (CPU._exec op).
Proof. unfold CPU._exec. cpu_ok. Qed.

Lemma step_ok : preserves (cpu_inv R) CPU.step.
Proof. unfold CPU.step. pose proof _exec_ok. cpu_ok. Qed.

End cpu_invariant.

(** ** HALT *)

Lemma exec_halt s :
  CPU._exec 0x76 s = Some (4, Sys.set_cpu (Regs.set_halted true (Sys.cpu s)) s).
Proof. reflexivity. Qed.

Lemma step_halted s : Regs.halted (Sys.cpu s) = true → CPU.step s = Some (4, s).
Proof. intros Hh. unfold CPU.step, Py.bind, CPU.get, Py.gets. by rewrite Hh. Qed.

Lemma steps_halted n s :
  Regs.halted (Sys.cpu s) = true → steps n s = Some (replicate n 4, s).
Proof.
  intros Hh. induction n as [|n IH]; [done|].
  simpl. unfold Py.bind. by rewrite step_halted, IH.
Qed.

(** C3, as the code has it.  Opcode [0x76] sets [halted] and returns 4
    cycles; from then on every [step] returns 4 cycles and executes no
    opcode: the whole machine, the [halted] flag included, is left as it
    is, whatever [IF] and [IE] hold.  No step clears the flag. *)
Theorem C3_halt_is_absorbing :
  (∀ s, CPU._exec 0x76 s = Some (4, Sys.set_cpu (Regs.set_halted true (Sys.cpu s)) s))
  ∧ (∀ n s, Regs.halted (Sys.cpu s) = true → steps n s = Some (replicate n 4, s)).
Proof. split; [apply exec_halt|apply steps_halted]. Qed.

Lemma C3_witness :
  steps 3%nat halted_with_request = Some ([4; 4; 4], halted_with_request).
Proof. apply (proj2 C3_halt_is_absorbing 3%nat halted_with_request). reflexivity. Defined.

(** C3 fails as stated: with [IF & IE != 0] a halted CPU does not go back
    to running; after the step it is still halted. *)
Lemma C3_counterexample :
  interrupt_pending halted_with_request = true
  ∧ (Regs.halted ∘ Sys.cpu ∘ snd <$> CPU.step halted_with_request) = Some true.
Proof. evaluate. Qed.
(** ** Reads and ROM-region writes *)

Lemma read_masks m addr : MMU.read m (Z.land addr 0xFFFF) = MMU.read m addr.
Proof. unfold MMU.read. by rewrite land_16_idemp. Qed.

(** C9.  On a well-formed memory [MMU.read] returns a byte for every
    integer address.  The address is masked to 16 bits; the unmapped range
    [0xFEA0–0xFEFF] and the disabled external RAM read as [0xFF]; when
    [rom_bank] is not smaller than the number of loaded banks, the
    switchable region reads the fixed 32 KiB ROM. *)
Theorem C9_read_total m addr :
  memory_ok m →
  ∃ v, MMU.read m addr = Some v
    ∧ 0 ≤ v ≤ 255
    ∧ MMU.read m (Z.land addr 0xFFFF) = Some v
    ∧ (0xFEA0 ≤ Z.land addr 0xFFFF ≤ 0xFEFF → v = 0xFF)
    ∧ (0xA000 ≤ Z.land addr 0xFFFF < 0xC000 → MMU.ram_enabled m = false → v = 0xFF)
    ∧ (0x4000 ≤ Z.land addr 0xFFFF < 0x8000 →
       Py.len (MMU.rom_banks m) ≤ MMU.rom_bank m →
       Py.getitem (MMU.rom m) (Z.land addr 0xFFFF) = Some v).
Proof.
  intros Hm. destruct (read_byte m addr Hm) as (v & Hv & Hb).
  exists v. split; [done|]. split; [done|]. split; [by rewrite read_masks|].
  revert Hv. unfold MMU.read. set (a := Z.land addr 0xFFFF).
  repeat match goal with
         | |- context [?x <? ?y] => destruct (Z.ltb_spec x y)
         end; intros Hv; repeat split; try lia; try congruence.
  - intros _ _. by rewrite andb_false_r in Hv.
  - intros _ Hen. rewrite Hen in Hv. congruence.
Qed.

Lemma C9_witness :
  ∃ v, MMU.read MMU.reset 0x1FEA0 = Some v
    ∧ 0 ≤ v ≤ 255
    ∧ MMU.read MMU.reset (Z.land 0x1FEA0 0xFFFF) = Some v
    ∧ (0xFEA0 ≤ Z.land 0x1FEA0 0xFFFF ≤ 0xFEFF → v = 0xFF)
    ∧ (0xA000 ≤ Z.land 0x1FEA0 0xFFFF < 0xC000 → MMU.ram_enabled MMU.reset = false → v = 0xFF)
    ∧ (0x4000 ≤ Z.land 0x1FEA0 0xFFFF < 0x8000 →
       Py.len (MMU.rom_banks MMU.reset) ≤ MMU.rom_bank MMU.reset →
       Py.getitem (MMU.rom MMU.reset) (Z.land 0x1FEA0 0xFFFF) = Some v).
Proof. apply (C9_read_total MMU.reset 0x1FEA0). vm_compute. reflexivity. Defined.

(** C10.  A write to an address below [0x8000] changes no stored byte:
    every array and [ie] are as before.  Only the [ram_enabled] latch
    (address below [0x2000]) or the [rom_bank] selector (address in
    [0x2000, 0x4000)) may differ. *)
Theorem C10_rom_write_frame m addr val :
  0 ≤ addr < 0x8000 →
  ∃ m', Py.exec (MMU.write addr val) m = Some m'
    ∧ MMU.rom m' = MMU.rom m
    ∧ MMU.rom_banks m' = MMU.rom_banks m
    ∧ MMU.vram m' = MMU.vram m
    ∧ MMU.eram m' = MMU.eram m
    ∧ MMU.wram m' = MMU.wram m
    ∧ MMU.oam m' = MMU.oam m
    ∧ MMU.io m' = MMU.io m
    ∧ MMU.hram m' = MMU.hram m
    ∧ MMU.ie m' = MMU.ie m
    ∧ (0x2000 ≤ addr → MMU.ram_enabled m' = MMU.ram_enabled m)
    ∧ (addr < 0x2000 ∨ 0x4000 ≤ addr → MMU.rom_bank m' = MMU.rom_bank m).
Proof.
  intros Ha. unfold Py.exec, MMU.write. rewrite land_16_id by lia.
  repeat match goal with
         | |- context [?x <? ?y] => destruct (Z.ltb_spec x y)
         end; try lia.
  - eexists. split; [reflexivity|]. simpl. repeat split; try done; lia.
  - rewrite bank_select. eexists. split; [reflexivity|]. simpl.
    repeat split; try done; lia.
  - exists m. repeat split; done.
Qed.

Lemma C10_witness :
  ∃ m', Py.exec (MMU.write 0x2000 0x00) MMU.reset = Some m'
    ∧ MMU.rom m' = MMU.rom MMU.reset
    ∧ MMU.rom_banks m' = MMU.rom_banks MMU.reset
    ∧ MMU.vram m' = MMU.vram MMU.reset
    ∧ MMU.eram m' = MMU.eram MMU.reset
    ∧ MMU.wram m' = MMU.wram MMU.reset
    ∧ MMU.oam m' = MMU.oam MMU.reset
    ∧ MMU.io m' = MMU.io MMU.reset
    ∧ MMU.hram m' = MMU.hram MMU.reset
    ∧ MMU.ie m' = MMU.ie MMU.reset
    ∧ (0x2000 ≤ 0x2000 → MMU.ram_enabled m' = MMU.ram_enabled MMU.reset)
    ∧ (0x2000 < 0x2000 ∨ 0x4000 ≤ 0x2000 → MMU.rom_bank m' = MMU.rom_bank MMU.reset).
Proof. apply (C10_rom_write_frame MMU.reset 0x2000 0x00). lia. Defined.
(** ** Loading a ROM *)

Lemma for_app {St A} (l1 l2 : list A) (body : A → Py.M St unit) s :
  Py.for_ (l1 ++ l2) body s
  = match Py.for_ l1 body s with
    | Some (_, s') => Py.for_ l2 body s'
    | None => None
    end.
Proof.
  revert s. induction l1 as [|x l1 IH]; intros s; simpl; [done|].
  unfold Py.bind. destruct (body x s) as [[[] s']|]; [apply IH|done].
Qed.

Lemma for_range_S {St} (n : nat) (body : Z → Py.M St unit) s :
  Py.for_ (Py.range (Z.of_nat (S n))) body s
  = match Py.for_ (Py.range (Z.of_nat n)) body s with
    | Some (_, s') => body (Z.of_nat n) s'
    | None => None
    end.
Proof.
  unfold Py.range. rewrite seqZ_S, for_app. simpl.
  destruct (Py.for_ _ body s) as [[[] s']|]; [|done].
  unfold Py.bind, Py.ret. by destruct (body _ s') as [[[] s'']|].
Qed.

(** The copy loop of [load_rom] after [n] iterations. *)
Lemma copy_loop data (n : nat) m :
  Z.of_nat n ≤ Py.len data → Z.of_nat n ≤ Py.len (MMU.rom m) →
  Py.for_ (Py.range (Z.of_nat n)) (λ i,
    Py.update (λ m, v ← Py.getitem data i;
                    r ← Py.setitem (MMU.rom m) i v;
                    Some (MMU.set_rom r m))) m
  = Some (tt, MMU.set_rom (take n data ++ drop n (MMU.rom m)) m).
Proof.
  intros Hd Hr. induction n as [|n IH].
  - simpl. unfold Py.ret. by destruct m.
  - rewrite for_range_S, IH by lia. unfold Py.update. simpl.
    destruct (getitem_in_range data (Z.of_nat n)) as [-> [v Hv]]; [lia|].
    rewrite Hv. rewrite Nat2Z.id in Hv. simpl.
    assert (length (take n data) = n) as Hlen.
    { rewrite length_take. unfold Py.len in Hd. lia. }
    rewrite setitem_in_range.
    2:{ unfold Py.len in *. rewrite length_app, length_drop, Hlen. lia. }
    rewrite Nat2Z.id. simpl. unfold MMU.set_rom; simpl. do 3 f_equal.
    rewrite insert_app_r_alt by lia. rewrite Hlen, Nat.sub_diag.
    rewrite (take_S_r _ _ _ Hv), <- app_assoc. f_equal.
    destruct (drop n (MMU.rom m)) as [|w tl] eqn:Hdrop.
    + apply (f_equal length) in Hdrop. rewrite length_drop in Hdrop.
      unfold Py.len in Hr. simpl in Hdrop. lia.
    + replace (S n) with (n + 1)%nat by lia.
      by rewrite <- (drop_drop _ 1 n), Hdrop.
Qed.

(** The bank loop of [load_rom] after [n] iterations. *)
Lemma bank_loop data (n : nat) m :
  Py.for_ (Py.range (Z.of_nat n)) (λ b,
    Py.modify (λ m, MMU.set_rom_banks
      (MMU.rom_banks m ++ [Py.slice data (b * 0x4000) ((b + 1) * 0x4000)]) m)) m
  = Some (tt, MMU.set_rom_banks
      (MMU.rom_banks m ++
       ((λ b, Py.slice data (b * 0x4000) ((b + 1) * 0x4000)) <$> Py.range (Z.of_nat n))) m).
Proof.
  induction n as [|n IH].
  - simpl. unfold Py.ret. rewrite app_nil_r. by destruct m.
  - rewrite for_range_S, IH. unfold Py.modify, Py.range. simpl.
    by rewrite seqZ_S, fmap_app, app_assoc.
Qed.

Lemma drop_zeros k n : drop k (Py.zeros n) = Py.zeros (n - Z.of_nat k).
Proof.
  unfold Py.zeros. rewrite drop_replicate. f_equal. lia.
Qed.

Lemma rom_banks_set_rom v m : MMU.rom_banks (MMU.set_rom v m) = MMU.rom_banks m.
Proof. done. Qed.

Lemma rom_banks_reset : MMU.rom_banks MMU.reset = [].
Proof. done. Qed.

Lemma set_rom_banks_nil v : MMU.set_rom_banks [] (MMU.set_rom v MMU.reset) = MMU.set_rom v MMU.reset.
Proof. done. Qed.

Lemma take_min_32k (data : list Z) :
  take (Z.to_nat (Z.min (Py.len data) 0x8000)) data = take (Z.to_nat 0x8000) data.
Proof.
  destruct (decide (Py.len data ≤ 0x8000)).
  - rewrite !take_ge; [done| |]; unfold Py.len in *; lia.
  - f_equal. lia.
Qed.

(** [MMU.load_rom] returns [True] on every input, whatever its length, and
    builds the memory [loaded data]. *)
Lemma load_rom_returns data m0 : MMU.load_rom data m0 = Some (true, loaded data).
Proof.
  unfold MMU.load_rom. unfold Py.bind at 1. unfold Py.modify at 1.
  set (n := Z.to_nat (Z.min (Py.len data) 0x8000)).
  assert (Z.min (Py.len data) 0x8000 = Z.of_nat n) as Hn by (subst n; unfold Py.len; lia).
  rewrite Hn. unfold Py.bind at 1. rewrite copy_loop.
  2:{ lia. }
  2:{ change (MMU.rom MMU.reset) with (Py.zeros 0x8000). rewrite len_zeros; lia. }
  change (MMU.rom MMU.reset) with (Py.zeros 0x8000).
  rewrite drop_zeros, <- Hn. subst n. rewrite take_min_32k.
  unfold loaded, loaded_banks, loaded_rom, Py.bind, Py.when.
  case_bool_decide as Hlen.
  - assert (Py.len data / 0x4000 = Z.of_nat (Z.to_nat (Py.len data / 0x4000))) as Hk.
    { assert (0 ≤ Py.len data / 0x4000) by (apply Z.div_pos; unfold Py.len; lia). lia. }
    rewrite Hk, bank_loop. rewrite <- Hk.
    rewrite rom_banks_set_rom, rom_banks_reset, app_nil_l. done.
  - unfold Py.ret. by rewrite set_rom_banks_nil.
Qed.
Lemma bytes_ok_Forall n l :
  bytes_ok n l = true ↔ Py.len l = n ∧ Forall (λ v, 0 ≤ v ≤ 255) l.
Proof.
  rewrite bytes_ok_spec, Forall_lookup. done.
Qed.

Lemma is_bytes_Forall l : forallb Py.is_byte l = true ↔ Forall (λ v, 0 ≤ v ≤ 255) l.
Proof.
  rewrite forallb_forall, Forall_forall. setoid_rewrite is_byte_spec.
  by setoid_rewrite list_elem_of_In.
Qed.

Lemma reset_ok : memory_ok MMU.reset.
Proof. vm_compute. reflexivity. Qed.

Lemma loaded_rom_ok data :
  Forall (λ v, 0 ≤ v ≤ 255) data → bytes_ok 0x8000 (loaded_rom data) = true.
Proof.
  intros Hd. apply bytes_ok_Forall. split.
  - unfold loaded_rom, Py.len, Py.zeros.
    rewrite length_app, length_take, length_replicate. lia.
  - apply Forall_app. split; [by apply Forall_take|].
    apply Forall_replicate. lia.
Qed.

Lemma loaded_banks_ok data k bank :
  Forall (λ v, 0 ≤ v ≤ 255) data →
  loaded_banks data !! k = Some bank → bytes_ok 0x4000 bank = true.
Proof.
  intros Hd. unfold loaded_banks. case_bool_decide; [|done].
  rewrite list_lookup_fmap. intros Hk.
  destruct (Py.range _ !! k) as [b|] eqn:Hb; [|done].
  injection Hk as <-.
  apply lookup_seqZ in Hb as [-> Hb]. apply bytes_ok_Forall. split.
  - unfold Py.slice, Py.len in *. rewrite length_take, length_drop.
    assert (0x4000 * (Z.of_nat (length data) / 0x4000) ≤ Z.of_nat (length data))
      by (apply Z.mul_div_le; lia).
    lia.
  - unfold Py.slice. by apply Forall_take, Forall_drop.
Qed.

Lemma loaded_ok data : forallb Py.is_byte data = true → memory_ok (loaded data).
Proof.
  intros Hd%is_bytes_Forall. unfold memory_ok, loaded.
  pose proof reset_ok as Hr. apply mmu_ok_elim in Hr
    as (Hrom & Hbanks & Hvram & Heram & Hwram & Hoam & Hio & Hhram & Hie & Hbank).
  unfold MMU.set_rom_banks, MMU.set_rom.
  cbn [MMU.rom MMU.rom_banks MMU.vram MMU.eram MMU.wram MMU.oam MMU.io MMU.hram
       MMU.ie MMU.rom_bank MMU.ram_enabled].
  apply mmu_ok_intro; try assumption.
  - by apply loaded_rom_ok.
  - intros k bank. by apply loaded_banks_ok.
Qed.

Lemma writes_ok ws : preserves memory_ok (writes ws).
Proof. apply preserves_for. intros w _. apply write_ok. Qed.

Lemma load_then_write_eq data ws :
  load_then_write data ws = Py.exec (writes ws) (loaded data).
Proof.
  unfold load_then_write, Py.exec, Py.bind. by rewrite load_rom_returns.
Qed.

(** C4, as the code has it.  After [load_rom] and any sequence of writes,
    [1 <= rom_bank <= 0x1F] (the selector is not bounded by the number of
    loaded banks), and writing [0x00] to an address in [0x2000, 0x4000)
    forces [rom_bank = 1]. *)
Theorem C4_rom_bank_range data ws :
  forallb Py.is_byte data = true →
  ∃ m, load_then_write data ws = Some m
    ∧ 1 ≤ MMU.rom_bank m ≤ 0x1F
    ∧ ∀ addr, 0x2000 ≤ addr < 0x4000 →
        MMU.rom_bank <$> Py.exec (MMU.write addr 0x00) m = Some 1.
Proof.
  intros Hd. rewrite load_then_write_eq.
  destruct (preserves_exec memory_ok (writes ws) (loaded data)) as (m & Hm & Hok);
    [apply writes_ok|by apply loaded_ok|].
  exists m. split; [done|]. split.
  - by apply mmu_ok_elim in Hok as (_ & _ & _ & _ & _ & _ & _ & _ & _ & ?).
  - intros addr Ha. unfold Py.exec, MMU.write. rewrite land_16_id by lia.
    destruct (Z.ltb_spec addr 0x2000); [lia|].
    destruct (Z.ltb_spec addr 0x4000); [|lia].
    by rewrite bank_select.
Qed.

Lemma C4_witness :
  ∃ m, load_then_write [0xC3; 0x50; 0x01] [(0x2100, 0x05); (0xC000, 0x42)] = Some m
    ∧ 1 ≤ MMU.rom_bank m ≤ 0x1F
    ∧ ∀ addr, 0x2000 ≤ addr < 0x4000 →
        MMU.rom_bank <$> Py.exec (MMU.write addr 0x00) m = Some 1.
Proof.
  apply (C4_rom_bank_range [0xC3; 0x50; 0x01] [(0x2100, 0x05); (0xC000, 0x42)]).
  reflexivity.
Defined.

(** C4 fails as stated: a 64 KiB ROM has four banks, and after writing
    [0x1F] to [0x2000] the selector is 31. *)
Lemma C4_counterexample :
  MMU.rom_bank <$> load_then_write (Py.zeros 0x10000) [(0x2000, 0x1F)] = Some 31
  ∧ Py.len ∘ MMU.rom_banks <$> load_then_write (Py.zeros 0x10000) [(0x2000, 0x1F)] = Some 4.
Proof. rewrite load_then_write_eq. evaluate. Qed.
(** The fixed region of a loaded ROM reads the first bytes of [data]. *)
Lemma loaded_rom_lookup (data : list Z) k :
  (k < length data)%nat → (k < Z.to_nat 0x8000)%nat → loaded_rom data !! k = data !! k.
Proof.
  intros Hk Hk'. unfold loaded_rom.
  rewrite lookup_app_l by (rewrite length_take; lia).
  by rewrite lookup_take_lt.
Qed.

Lemma len_loaded_rom data : Py.len (loaded_rom data) = 0x8000.
Proof.
  unfold loaded_rom, Py.len, Py.zeros.
  rewrite length_app, length_take, length_replicate. lia.
Qed.

Lemma len_loaded_banks data :
  Py.len data > 0x8000 → Py.len (loaded_banks data) = Py.len data / 0x4000.
Proof.
  intros Hl. unfold loaded_banks. rewrite bool_decide_eq_true_2 by done.
  unfold Py.len at 1. rewrite length_fmap. apply len_range.
  apply Z.div_pos; unfold Py.len; lia.
Qed.

Lemma loaded_banks_lookup data k :
  Py.len data > 0x8000 → 0 ≤ k < Py.len data / 0x4000 →
  loaded_banks data !! Z.to_nat k = Some (Py.slice data (k * 0x4000) ((k + 1) * 0x4000)).
Proof.
  intros Hl Hk. unfold loaded_banks. rewrite bool_decide_eq_true_2 by done.
  rewrite list_lookup_fmap. unfold Py.range.
  rewrite lookup_seqZ_lt by lia. simpl. do 3 f_equal; lia.
Qed.

Lemma slice_lookup (data : list Z) lo hi k :
  0 ≤ lo → (k < Z.to_nat (hi - lo))%nat →
  Py.slice data lo hi !! k = data !! (Z.to_nat lo + k)%nat.
Proof.
  intros Hlo Hk. unfold Py.slice. rewrite lookup_take_lt by done. apply lookup_drop.
Qed.

(** Reading the switchable region of a memory that holds the banks of
    [data] when bank [k] is selected. *)
Lemma read_bank m data k off :
  MMU.rom_banks m = loaded_banks data → MMU.rom_bank m = k →
  Py.len data > 0x8000 → 1 ≤ k < Py.len data / 0x4000 → 0 ≤ off < 0x4000 →
  MMU.read m (0x4000 + off) = data !! Z.to_nat (k * 0x4000 + off).
Proof.
  intros Hbs Hb Hl Hk Hoff. unfold MMU.read. rewrite land_16_id by lia.
  destruct (Z.ltb_spec (0x4000 + off) 0x4000); [lia|].
  destruct (Z.ltb_spec (0x4000 + off) 0x8000); [|lia].
  rewrite Hbs, Hb.
  assert (loaded_banks data ≠ []) as Hne.
  { intros Hnil. pose proof (len_loaded_banks data Hl) as Hlen.
    rewrite Hnil in Hlen. unfold Py.len at 1 in Hlen. simpl in Hlen. lia. }
  rewrite bool_decide_eq_false_2 by done.
  rewrite len_loaded_banks by done.
  destruct (Z.ltb_spec k (Py.len data / 0x4000)); [|lia]. cbn [negb andb].
  assert (0x4000 * (Py.len data / 0x4000) ≤ Py.len data)
    by (apply Z.mul_div_le; lia).
  destruct (getitem_in_range (loaded_banks data) k) as [-> _].
  { rewrite len_loaded_banks by done. lia. }
  rewrite loaded_banks_lookup by (done || lia). cbn [mbind option_bind].
  replace (0x4000 + off - 0x4000) with off by lia.
  destruct (getitem_in_range (Py.slice data (k * 0x4000) ((k + 1) * 0x4000)) off) as [-> _].
  { unfold Py.slice, Py.len in *. rewrite length_take, length_drop. lia. }
  rewrite slice_lookup by lia. f_equal. lia.
Qed.

(** Reading the first 32 KiB of a memory that holds [data], with the
    selector at 1 as [load_rom] leaves it. *)
Lemma read_first_32k m data addr :
  MMU.rom m = loaded_rom data → MMU.rom_banks m = loaded_banks data →
  MMU.rom_bank m = 1 →
  0 ≤ addr < Z.min (Py.len data) 0x8000 →
  MMU.read m addr = data !! Z.to_nat addr.
Proof.
  intros Hr Hbs Hb Ha.
  assert (Py.getitem (loaded_rom data) addr = data !! Z.to_nat addr) as Hfixed.
  { destruct (getitem_in_range (loaded_rom data) addr) as [-> _].
    { rewrite len_loaded_rom. lia. }
    apply loaded_rom_lookup; unfold Py.len in *; lia. }
  destruct (decide (addr < 0x4000)) as [Hlo|Hhi].
  { unfold MMU.read. rewrite land_16_id by lia.
    destruct (Z.ltb_spec addr 0x4000); [|lia]. by rewrite Hr. }
  destruct (decide (Py.len data > 0x8000)) as [Hl|Hl].
  - assert (0x4000 * 2 ≤ 0x4000 * (Py.len data / 0x4000)).
    { apply Z.mul_le_mono_nonneg_l; [lia|]. apply Z.div_le_lower_bound; lia. }
    pose proof (read_bank m data 1 (addr - 0x4000) Hbs Hb Hl) as Hrd.
    replace (0x4000 + (addr - 0x4000)) with addr in Hrd by lia.
    replace (1 * 0x4000 + (addr - 0x4000)) with addr in Hrd by lia.
    apply Hrd; lia.
  - unfold MMU.read. rewrite land_16_id by lia.
    destruct (Z.ltb_spec addr 0x4000); [lia|].
    destruct (Z.ltb_spec addr 0x8000); [|lia].
    rewrite Hbs, Hr. unfold loaded_banks.
    rewrite (bool_decide_eq_false_2 (Py.len data > 0x8000)) by done.
    rewrite bool_decide_eq_true_2 by done. cbn [negb andb]. done.
Qed.

Lemma rom_loaded data : MMU.rom (loaded data) = loaded_rom data.
Proof. reflexivity. Qed.
Lemma rom_banks_loaded data : MMU.rom_banks (loaded data) = loaded_banks data.
Proof. reflexivity. Qed.
Lemma rom_bank_loaded data : MMU.rom_bank (loaded data) = 1.
Proof. reflexivity. Qed.
Lemma rom_banks_set_rom_bank k m : MMU.rom_banks (MMU.set_rom_bank k m) = MMU.rom_banks m.
Proof. reflexivity. Qed.
Lemma rom_bank_set_rom_bank k m : MMU.rom_bank (MMU.set_rom_bank k m) = k.
Proof. reflexivity. Qed.

(** [GameBoy.load_rom] returns [True] exactly when the file could be read. *)
Lemma gameboy_load_rom_result file s :
  fst (GameBoy.load_rom file s) = bool_decide (is_Some file).
Proof.
  unfold GameBoy.load_rom. destruct file as [data|]; [|done].
  by rewrite load_rom_returns.
Qed.

(** C5, as the code has it.  Loading never fails on the size of the ROM or
    on its header: [MMU.load_rom] returns [True] for every input and
    [GameBoy.load_rom] returns [False] only when the file could not be
    read.  The first [min(len, 32 KiB)] bytes are mapped directly at
    [0 .. 0x7FFF]; when the data is longer than 32 KiB it is cut into
    [len // 16 KiB] banks, and selecting bank [k >= 1] maps
    [data[k*0x4000 : (k+1)*0x4000]] at [0x4000 .. 0x7FFF]. *)
Theorem C5_load_rom_accepts_any_size data :
  (∀ m0, MMU.load_rom data m0 = Some (true, loaded data))
  ∧ (∀ s, fst (GameBoy.load_rom (Some data) s) = true)
  ∧ (∀ s, fst (GameBoy.load_rom None s) = false)
  ∧ (∀ addr, 0 ≤ addr < Z.min (Py.len data) 0x8000 →
       MMU.read (loaded data) addr = data !! Z.to_nat addr)
  ∧ (Py.len data > 0x8000 → Py.len (MMU.rom_banks (loaded data)) = Py.len data / 0x4000)
  ∧ (Py.len data ≤ 0x8000 → MMU.rom_banks (loaded data) = [])
  ∧ (∀ k off, Py.len data > 0x8000 → 1 ≤ k < Py.len data / 0x4000 → 0 ≤ off < 0x4000 →
       MMU.read (MMU.set_rom_bank k (loaded data)) (0x4000 + off)
       = data !! Z.to_nat (k * 0x4000 + off)).
Proof.
  split; [intros; apply load_rom_returns|].
  split; [intros; by rewrite gameboy_load_rom_result|].
  split; [intros; by rewrite gameboy_load_rom_result|].
  split.
  { intros addr Ha. apply read_first_32k; [apply rom_loaded|apply rom_banks_loaded|
      apply rom_bank_loaded|done]. }
  split.
  { intros Hl. rewrite rom_banks_loaded. by apply len_loaded_banks. }
  split.
  { intros Hl. rewrite rom_banks_loaded. unfold loaded_banks.
    rewrite bool_decide_eq_false_2; [done|lia]. }
  intros k off Hl Hk Hoff. apply read_bank with (k := k); [|done..].
  by rewrite rom_banks_set_rom_bank, rom_banks_loaded.
Qed.

Lemma C5_witness :
  MMU.read (loaded [0x00; 0xC3; 0x50; 0x01]) 1 = Some 0xC3.
Proof.
  apply (proj1 (proj2 (proj2 (proj2 (C5_load_rom_accepts_any_size [0x00; 0xC3; 0x50; 0x01])))) 1).
  vm_compute. split; [discriminate|reflexivity].
Defined.

(** C5 fails as stated: the empty input, shorter than 32 KiB and without
    a header, is loaded with result [True]. *)
Lemma C5_counterexample :
  fst <$> MMU.load_rom [] MMU.reset = Some true
  ∧ fst (GameBoy.load_rom (Some []) GameBoy.init) = true.
Proof. evaluate. Qed.
(** ** The joypad register *)

(** A write to an I/O register other than the DMA trigger stores the
    byte. *)
Lemma write_io m addr val :
  0xFF00 ≤ addr < 0xFF80 → addr ≠ 0xFF46 → Py.len (MMU.io m) = 0x80 →
  MMU.write addr val m
  = Some (tt, MMU.set_io (<[Z.to_nat (addr - 0xFF00) := Z.land val 0xFF]> (MMU.io m)) m).
Proof.
  intros Ha Hd Hl. unfold MMU.write. rewrite land_16_id by lia.
  repeat match goal with
         | |- context [?x <? ?y] => destruct (Z.ltb_spec x y)
         end; try lia.
  destruct (Z.eqb_spec addr 0xFF46); [done|].
  unfold Py.bind, Py.when, Py.ret, Py.update.
  by rewrite setitem_in_range by lia.
Qed.

Lemma io_get_in_range (s : Sys.t) i :
  0 ≤ i < Py.len (MMU.io (Sys.mmu s)) →
  PPU.io_get i s = match MMU.io (Sys.mmu s) !! Z.to_nat i with
                   | Some v => Some (v, s)
                   | None => None
                   end.
Proof.
  intros Hi. unfold PPU.io_get, Py.try_.
  by destruct (getitem_in_range (MMU.io (Sys.mmu s)) i Hi) as [-> _].
Qed.

Lemma io_set_in_range (s : Sys.t) i v :
  0 ≤ i < Py.len (MMU.io (Sys.mmu s)) →
  PPU.io_set i v s
  = Some (tt, Sys.set_mmu (MMU.set_io (<[Z.to_nat i := v]> (MMU.io (Sys.mmu s))) (Sys.mmu s)) s).
Proof.
  intros Hi. unfold PPU.io_set, Py.update. by rewrite setitem_in_range.
Qed.

(** [set_button] on a machine whose joypad register holds [joyp]. *)
Lemma set_button_joyp s btn pressed joyp :
  0 ≤ btn → Py.len (MMU.io (Sys.mmu s)) = 0x80 →
  MMU.io (Sys.mmu s) !! 0%nat = Some joyp →
  ∃ s', GameBoy.set_button btn pressed s = Some (tt, s')
    ∧ Sys.buttons s' = latch btn pressed (Sys.buttons s)
    ∧ MMU.io (Sys.mmu s') !! 0%nat = Some (joyp_refresh joyp (Sys.buttons s')).
Proof.
  intros Hb Hl Hj. unfold GameBoy.set_button.
  destruct (Z.ltb_spec btn 0); [lia|].
  unfold Py.bind at 1. unfold Py.modify at 1.
  set (s1 := if pressed then _ else _).
  assert (Sys.mmu s1 = Sys.mmu s) as Hm1 by (subst s1; by destruct pressed).
  assert (Sys.buttons s1 = latch btn pressed (Sys.buttons s)) as Hb1
    by (subst s1; by destruct pressed).
  unfold Py.bind at 1. rewrite io_get_in_range by (rewrite Hm1; lia).
  rewrite Hm1. change (Z.to_nat 0) with 0%nat. rewrite Hj.
  unfold joyp_refresh, Py.when, Py.bind, Py.gets, Py.ret.
  destruct (Z.eqb_spec (Z.land joyp 0x10) 0) as [H4|H4];
    destruct (Z.eqb_spec (Z.land joyp 0x20) 0) as [H5|H5];
    unfold Py.truthy; rewrite ?H4, ?H5; cbn [Z.eqb negb];
    repeat match goal with
           | H : ?x ≠ 0 |- context [?x =? 0] =>
               rewrite (proj2 (Z.eqb_neq x 0) H)
           end; cbn [negb].
  - rewrite io_set_in_range by (rewrite Hm1; lia).
    rewrite io_set_in_range by (cbn; rewrite len_insert, Hm1; lia).
    eexists. split; [reflexivity|]. cbn. split; [done|].
    rewrite list_lookup_insert_eq; [done|].
    rewrite length_insert. unfold Py.len in *. rewrite Hm1. lia.
  - rewrite io_set_in_range by (rewrite Hm1; lia).
    eexists. split; [reflexivity|]. cbn. split; [done|].
    rewrite list_lookup_insert_eq; [done|].
    unfold Py.len in *. rewrite Hm1. lia.
  - rewrite io_set_in_range by (rewrite Hm1; lia).
    eexists. split; [reflexivity|]. cbn. split; [done|].
    rewrite list_lookup_insert_eq; [done|].
    unfold Py.len in *. rewrite Hm1. lia.
  - eexists. split; [reflexivity|]. split; [done|]. by rewrite Hm1.
Qed.

(** C6, as the code has it.  A CPU write to [0xFF00] stores the whole
    written byte, low nibble included, and leaves the button latch alone.
    The low nibble is recomputed from the latch by the next [set_button],
    according to the selector bits of the stored byte, bits 7 to 4 staying
    as written. *)
Theorem C6_joypad_write s val :
  memory_ok (Sys.mmu s) →
  ∃ s1, CPU.mmu_write 0xFF00 val s = Some (tt, s1)
    ∧ Py.getitem (MMU.io (Sys.mmu s1)) 0x00 = Some (Z.land val 0xFF)
    ∧ Sys.buttons s1 = Sys.buttons s
    ∧ ∀ btn pressed, 0 ≤ btn →
        ∃ s2, GameBoy.set_button btn pressed s1 = Some (tt, s2)
          ∧ Sys.buttons s2 = latch btn pressed (Sys.buttons s)
          ∧ Py.getitem (MMU.io (Sys.mmu s2)) 0x00
            = Some (joyp_refresh (Z.land val 0xFF) (Sys.buttons s2)).
Proof.
  intros Hm. mmu_facts Hm.
  unfold CPU.mmu_write, Sys.on_mmu. rewrite write_io by (done || lia).
  eexists. split; [reflexivity|].
  set (io' := <[Z.to_nat (0xFF00 - 0xFF00) := Z.land val 0xFF]> (MMU.io (Sys.mmu s))).
  assert (Py.len io' = 0x80) as Hl' by (subst io'; by rewrite len_insert).
  assert (io' !! 0%nat = Some (Z.land val 0xFF)) as Hj.
  { subst io'. apply list_lookup_insert_eq. unfold Py.len in *. lia. }
  cbn [Sys.mmu Sys.set_mmu MMU.io MMU.set_io Sys.buttons].
  split; [|split; [done|]].
  - destruct (getitem_in_range io' 0) as [-> _]; [lia|]. done.
  - intros btn pressed Hb.
    destruct (set_button_joyp
      (Sys.set_mmu (MMU.set_io io' (Sys.mmu s)) s) btn pressed (Z.land val 0xFF))
      as (s2 & Hs2 & Hb2 & Hj2); try done.
    exists s2. split; [done|]. split; [done|].
    assert (Py.len (MMU.io (Sys.mmu s2)) > 0) as Hl2.
    { apply lookup_lt_Some in Hj2. unfold Py.len. lia. }
    destruct (getitem_in_range (MMU.io (Sys.mmu s2)) 0) as [-> _]; [lia|]. done.
Qed.

Lemma C6_witness :
  ∃ s1, CPU.mmu_write 0xFF00 0x2A GameBoy.init = Some (tt, s1)
    ∧ Py.getitem (MMU.io (Sys.mmu s1)) 0x00 = Some (Z.land 0x2A 0xFF)
    ∧ Sys.buttons s1 = Sys.buttons GameBoy.init
    ∧ ∀ btn pressed, 0 ≤ btn →
        ∃ s2, GameBoy.set_button btn pressed s1 = Some (tt, s2)
          ∧ Sys.buttons s2 = latch btn pressed (Sys.buttons GameBoy.init)
          ∧ Py.getitem (MMU.io (Sys.mmu s2)) 0x00
            = Some (joyp_refresh (Z.land 0x2A 0xFF) (Sys.buttons s2)).
Proof. apply (C6_joypad_write GameBoy.init 0x2A). vm_compute. reflexivity. Defined.

(** C6 fails as stated: with no button pressed (latch [0xFF]) and the
    direction keys selected, the CPU writes [0x2A] to [0xFF00]; the
    register then holds [0x2A], its low nibble [0xA] being the written one
    and not the [0xF] of the latch. *)
Lemma C6_counterexample :
  (s ← Py.exec (CPU.mmu_write 0xFF00 0x2A) GameBoy.init;
   Py.getitem (MMU.io (Sys.mmu s)) 0x00) = Some 0x2A
  ∧ Z.land 0x2A 0x0F = 0x0A
  ∧ Z.land (Sys.buttons GameBoy.init) 0x0F = 0x0F.
Proof. evaluate. Qed.
(** ** Background tile addressing *)

Lemma truthy_false x : x = 0 → Py.truthy x = false.
Proof. by intros ->. Qed.

Lemma truthy_true x : x ≠ 0 → Py.truthy x = true.
Proof. intros Hx. unfold Py.truthy. by rewrite (proj2 (Z.eqb_neq x 0) Hx). Qed.

(** With [LCDC.4] clear the renderer reads the pattern of signed tile [i]
    at [0x9800 + i*16]. *)
Lemma tile_addr_signed lcdc idx :
  Z.land lcdc 0x10 = 0 →
  0x8000 + PPU.tile_addr lcdc idx = 0x9800 + signed_index idx * 16.
Proof.
  intros Hl. unfold PPU.tile_addr, signed_index. rewrite truthy_false by done.
  cbn [negb andb]. destruct (idx >? 127); lia.
Qed.

(** With [LCDC.4] set it reads the pattern of tile [i] at [0x8000 + i*16]. *)
Lemma tile_addr_unsigned lcdc idx :
  Z.land lcdc 0x10 ≠ 0 →
  0x8000 + PPU.tile_addr lcdc idx = 0x8000 + idx * 16.
Proof.
  intros Hl. unfold PPU.tile_addr. rewrite truthy_true by done.
  cbn [negb andb]. lia.
Qed.

(** C2, what the code does.  With [LCDC.4] clear ([LCDC = 0x81]) the map
    byte [0x00], signed tile 0, is looked up at [0x9800], not at [0x9000];
    [0x9000] is where the map byte [0x80], signed tile -128, is looked up.
    With the tile map at [0x9C00] ([LCDC = 0x89]) and all its entries 0, a
    pattern stored at [0x9000] is not shown (the first pixel is colour 0),
    the one stored at [0x9800] is (colour 3); with [LCDC.4] set
    ([LCDC = 0x99]) the pattern stored at [0x8000] is shown. *)
Theorem C2_signed_tile_base :
  0x8000 + PPU.tile_addr 0x81 0x00 = 0x9800
  ∧ 0x8000 + PPU.tile_addr 0x81 0x80 = 0x9000
  ∧ 0x8000 + PPU.tile_addr 0x91 0x01 = 0x8010
  ∧ first_pixel 0x89 0x9000 = Some 0
  ∧ first_pixel 0x89 0x9800 = Some 3
  ∧ first_pixel 0x99 0x8000 = Some 3.
Proof. evaluate. Qed.
(** ** The PPU maintains the invariant of the machine *)

Lemma hoare_assume {St A} (P : St → Prop) (φ : Prop) (m : Py.M St A) Q :
  (φ → hoare P m Q) → hoare (λ s, P s ∧ φ) m Q.
Proof. intros Hm s [Hs Hφ]. by apply Hm. Qed.

Lemma hoare_if {St A} (P : St → Prop) (c : bool) (m1 m2 : Py.M St A) Q :
  hoare P m1 Q → hoare P m2 Q → hoare P (if c then m1 else m2) Q.
Proof. by destruct c. Qed.

Lemma io_get_ok i :
  0 ≤ i < 0x80 → hoare machine_ok (PPU.io_get i) (λ v s, machine_ok s ∧ 0 ≤ v ≤ 255).
Proof.
  intros Hi. apply hoare_try. intros s Hs. pose proof Hs as (Hm & _ & _).
  mmu_facts Hm. destruct (bytes_ok_getitem 0x80 (MMU.io (Sys.mmu s)) i) as (v & Hv & Hb);
    [done..|]. by exists v.
Qed.

Lemma vram_get_ok i :
  0 ≤ i < 0x2000 → hoare machine_ok (PPU.vram_get i) (λ v s, machine_ok s ∧ 0 ≤ v ≤ 255).
Proof.
  intros Hi. apply hoare_try. intros s Hs. pose proof Hs as (Hm & _ & _).
  mmu_facts Hm. destruct (bytes_ok_getitem 0x2000 (MMU.vram (Sys.mmu s)) i) as (v & Hv & Hb);
    [done..|]. by exists v.
Qed.

Lemma io_set_ok i v :
  0 ≤ i < 0x80 → 0 ≤ v ≤ 255 → preserves machine_ok (PPU.io_set i v).
Proof.
  intros Hi Hv. apply hoare_update. intros s (Hm & Hf & Hp). mmu_facts Hm.
  rewrite setitem_in_range by lia. cbn [mbind option_bind]. eexists. split; [done|].
  split; [|by split]. cbn [Sys.mmu Sys.set_mmu]. apply is_byte_spec in Hv.
  unfold memory_ok. destruct (Sys.mmu s). cbn in *. apply mmu_ok_intro; try done.
  by apply bytes_ok_insert.
Qed.

Lemma fb_set_ok i v :
  0 ≤ i < PPU.GB_W * PPU.GB_H → preserves machine_ok (PPU.fb_set i v).
Proof.
  intros Hi. apply hoare_update. intros s (Hm & Hf & Hp). unfold frame_ok in Hp.
  rewrite setitem_in_range by lia. cbn [mbind option_bind]. eexists. split; [done|].
  split; [done|]. split; [done|]. unfold frame_ok. cbn. by rewrite len_insert.
Qed.

Lemma ppu_get_ok {A} (r : Video.t → A) : preserves machine_ok (PPU.get r).
Proof. apply preserves_gets. Qed.

Lemma ppu_set_ok {A} (u : A → Video.t → Video.t) v :
  (∀ p, Video.framebuffer (u v p) = Video.framebuffer p) →
  preserves machine_ok (PPU.set u v).
Proof.
  intros Hu. apply hoare_modify. intros s (Hm & Hf & Hp).
  split; [done|]. split; [done|]. unfold frame_ok in *. cbn. by rewrite Hu.
Qed.

Lemma land_255_range v : 0 ≤ Z.land v 0xFF ≤ 255.
Proof. apply is_byte_spec, is_byte_land. Qed.

Lemma land_1_cases v : Z.land v 1 = 0 ∨ Z.land v 1 = 1.
Proof.
  pose proof (Z.land_ones v 1) as Hm. change (Z.ones 1) with 1 in Hm.
  change (2 ^ 1) with 2 in Hm. rewrite Hm by lia.
  pose proof (Z.mod_pos_bound v 2). lia.
Qed.

Lemma land_3_range v : 0 ≤ Z.land v 3 ≤ 255.
Proof.
  pose proof (Z.land_ones v 2) as Hm. change (Z.ones 2) with 3 in Hm.
  change (2 ^ 2) with 4 in Hm. rewrite Hm by lia.
  pose proof (Z.mod_pos_bound v 4). lia.
Qed.

(** The pattern of every tile lies within [vram], in both addressing
    modes. *)
Lemma tile_addr_range lcdc idx :
  0 ≤ idx ≤ 255 → 0 ≤ PPU.tile_addr lcdc idx ≤ 0x1FF0.
Proof.
  intros Hi. unfold PPU.tile_addr.
  destruct (Py.truthy (Z.land lcdc 0x10)); cbn [negb andb]; [lia|].
  destruct (Z.gtb_spec idx 127); lia.
Qed.

Lemma colour_range b1 b2 bit :
  0 ≤ Z.lor (Z.shiftl (Z.land (Z.shiftr b2 bit) 1) 1) (Z.land (Z.shiftr b1 bit) 1) < 4.
Proof.
  destruct (land_1_cases (Z.shiftr b2 bit)) as [->| ->];
    destruct (land_1_cases (Z.shiftr b1 bit)) as [->| ->];
    [change (0 ≤ 0 < 4)|change (0 ≤ 1 < 4)|change (0 ≤ 2 < 4)|change (0 ≤ 3 < 4)]; lia.
Qed.

Lemma render_pixel_ok lcdc scx pal tile_map tile_row tile_y ly x :
  Py.len pal = 4 → 0x1800 ≤ tile_map ≤ 0x1C00 → 0 ≤ tile_row < 32 → 0 ≤ tile_y < 8 →
  0 ≤ ly < 144 → 0 ≤ x < 160 →
  preserves machine_ok (PPU.render_pixel lcdc scx pal tile_map tile_row tile_y ly x).
Proof.
  intros Hpal Hmap Hrow Hy Hly Hx. unfold PPU.render_pixel. cbv zeta.
  pose proof (land_255_range (x + scx)) as Hmx. set (mx := Z.land (x + scx) 0xFF) in *.
  assert (0 ≤ mx / 8 < 32) by (split; [apply Z.div_pos; lia|apply Z.div_lt_upper_bound; lia]).
  pose proof (Z.mod_pos_bound mx 8).
  eapply hoare_bind; [apply vram_get_ok; lia|]. intros idx. apply hoare_assume. intros Hidx.
  pose proof (tile_addr_range lcdc idx Hidx).
  eapply hoare_bind; [apply vram_get_ok; lia|]. intros b1. apply hoare_assume. intros _.
  eapply hoare_bind; [apply vram_get_ok; lia|]. intros b2. apply hoare_assume. intros _.
  eapply hoare_bind.
  - apply hoare_try. intros s Hs.
    destruct (getitem_in_range pal
      (Z.lor (Z.shiftl (Z.land (Z.shiftr b2 (7 - mx mod 8)) 1) 1)
             (Z.land (Z.shiftr b1 (7 - mx mod 8)) 1))) as [-> [p Hp]].
    { pose proof (colour_range b1 b2 (7 - mx mod 8)). lia. }
    exists p. split; [done|]. exact Hs.
  - intros p. apply fb_set_ok. unfold PPU.GB_W, PPU.GB_H. lia.
Qed.

Lemma render_scanline_ok ly :
  0 ≤ ly < 144 → preserves machine_ok (PPU._render_scanline ly).
Proof.
  intros Hly. unfold PPU._render_scanline.
  eapply hoare_bind; [apply io_get_ok; lia|]. intros lcdc. apply hoare_assume. intros Hlcdc.
  apply preserves_if; [apply preserves_ret|].
  eapply hoare_bind; [apply io_get_ok; lia|]. intros scy. apply hoare_assume. intros Hscy.
  eapply hoare_bind; [apply io_get_ok; lia|]. intros scx. apply hoare_assume. intros Hscx.
  eapply hoare_bind; [apply io_get_ok; lia|]. intros bgp. apply hoare_assume. intros Hbgp.
  cbv zeta. apply preserves_if.
  - apply preserves_for. intros x Hx%elem_of_seqZ. unfold PPU.GB_W in Hx.
    pose proof (land_255_range (ly + scy)) as Hyy.
    apply render_pixel_ok; try done; try lia.
    + destruct (Py.truthy _); lia.
    + split; [apply Z.div_pos; lia|apply Z.div_lt_upper_bound; lia].
    + apply Z.mod_pos_bound. lia.
  - apply preserves_for. intros x Hx%elem_of_seqZ. unfold PPU.GB_W in Hx.
    apply fb_set_ok. unfold PPU.GB_W, PPU.GB_H. lia.
Qed.

Lemma ppu_step_ok cycles : preserves machine_ok (PPU.step cycles).
Proof.
  unfold PPU.step.
  eapply hoare_bind; [apply io_get_ok; lia|]. intros lcdc. apply hoare_assume. intros _.
  apply preserves_if; [apply preserves_ret|].
  apply preserves_bind; [apply ppu_get_ok|intros sc].
  apply preserves_bind; [by apply ppu_set_ok|intros _].
  apply preserves_bind; [apply ppu_get_ok|intros sc'].
  apply preserves_when.
  apply preserves_bind; [apply ppu_get_ok|intros sc''].
  apply preserves_bind; [by apply ppu_set_ok|intros _].
  eapply hoare_bind; [apply io_get_ok; lia|]. intros ly. apply hoare_assume. intros Hly.
  apply preserves_bind.
  { unfold Py.when. destruct (Z.ltb_spec ly 144); [|apply preserves_ret].
    apply render_scanline_ok. lia. }
  intros _. cbv zeta. pose proof (Z.mod_pos_bound (ly + 1) 154).
  apply preserves_bind; [apply io_set_ok; lia|intros _].
  apply preserves_when.
  apply preserves_bind; [by apply ppu_set_ok|intros _].
  eapply hoare_bind; [apply io_get_ok; lia|]. intros v. apply hoare_assume. intros Hv.
  apply io_set_ok; [lia|].
  assert (Z.lor v 0x01 = Z.land (Z.lor v 0x01) 0xFF) as ->; [|apply land_255_range].
  rewrite Z.land_lor_distr_l. change (Z.land 1 0xFF) with 1. f_equal.
  symmetry. pose proof (Z.land_ones v 8) as Hm. change (Z.ones 8) with 0xFF in Hm.
  rewrite Hm by lia. apply Z.mod_small. change (2 ^ 8) with 256. lia.
Qed.
(** ** Every state of a [GameBoy] object is well formed *)

Lemma joyp_byte joyp x : 0 ≤ Z.lor (Z.land joyp 0xF0) (Z.land x 0x0F) ≤ 255.
Proof.
  assert (Z.lor (Z.land joyp 0xF0) (Z.land x 0x0F)
          = Z.land (Z.lor (Z.land joyp 0xF0) (Z.land x 0x0F)) 0xFF) as ->;
    [|apply land_255_range].
  by rewrite Z.land_lor_distr_l, <- !Z.land_assoc.
Qed.

Lemma hoare_preserved {St A} (P : St → Prop) (m : Py.M St A) s x s' :
  preserves P m → P s → m s = Some (x, s') → P s'.
Proof.
  intros Hm Hs Hx. destruct (Hm s Hs) as (y & s'' & Hy & Hs''). congruence.
Qed.

Lemma set_button_ok btn pressed :
  0 ≤ btn → preserves machine_ok (GameBoy.set_button btn pressed).
Proof.
  intros Hb. unfold GameBoy.set_button. destruct (Z.ltb_spec btn 0); [lia|].
  apply preserves_bind.
  { apply hoare_modify. intros s Hs. by destruct pressed. }
  intros _. eapply hoare_bind; [apply io_get_ok; lia|]. intros joyp.
  apply hoare_assume. intros Hj.
  apply preserves_bind; [|intros _]; apply preserves_when;
    (apply preserves_bind; [apply preserves_gets|intros buttons]);
    (apply io_set_ok; [lia|apply joyp_byte]).
Qed.

Lemma cpu_step_ok : preserves machine_ok CPU.step.
Proof. apply step_ok. Qed.

Lemma step_frame_ok : preserves machine_ok GameBoy.step_frame.
Proof.
  unfold GameBoy.step_frame.
  apply preserves_bind; [apply preserves_gets|intros running].
  apply preserves_bind; [apply preserves_gets|intros paused].
  apply preserves_if; [apply preserves_ret|].
  apply preserves_bind; [by apply ppu_set_ok|intros _].
  apply preserves_for. intros _ _.
  apply preserves_bind; [apply ppu_get_ok|intros ready].
  apply preserves_if; [apply preserves_ret|].
  apply preserves_bind; [apply cpu_step_ok|intros cyc]. apply ppu_step_ok.
Qed.

Lemma init_ok : machine_ok GameBoy.init.
Proof.
  split; [apply reset_ok|]. split; [reflexivity|].
  unfold frame_ok. cbn [GameBoy.init Sys.ppu PPU.init Video.framebuffer].
  by apply len_zeros.
Qed.

Lemma gameboy_reset_ok s : machine_ok s → machine_ok (GameBoy.reset s).
Proof.
  intros (Hm & Hf & Hp). split; [apply reset_ok|]. by split.
Qed.

Lemma gameboy_load_rom_ok file s :
  (∀ data, file = Some data → forallb Py.is_byte data = true) →
  machine_ok s → machine_ok (snd (GameBoy.load_rom file s)).
Proof.
  intros Hfile Hs. unfold GameBoy.load_rom.
  destruct file as [data|]; [|by apply gameboy_reset_ok].
  rewrite load_rom_returns. cbn [snd]. apply gameboy_reset_ok in Hs as (Hm & Hf & Hp).
  split; [|by split]. cbn [Sys.mmu Sys.set_mmu]. apply loaded_ok. by apply Hfile.
Qed.

(** The invariant holds in every state of the machine. *)
Lemma reachable_ok s : reachable s → machine_ok s.
Proof.
  induction 1 as [|s Hr IH|s file Hr IH Hfile|s btn pressed s' Hr IH Hrun
                 |s s' Hr IH Hrun|s cyc s' Hr IH Hrun|s cycles s' Hr IH Hrun
                 |s running paused Hr IH].
  - apply init_ok.
  - by apply gameboy_reset_ok.
  - by apply gameboy_load_rom_ok.
  - destruct (Z.ltb_spec btn 0) as [Hneg|Hpos].
    + unfold GameBoy.set_button in Hrun.
      destruct (Z.ltb_spec btn 0); [done|lia].
    + eapply hoare_preserved; [by apply set_button_ok|done..].
  - eapply hoare_preserved; [apply step_frame_ok|done..].
  - eapply hoare_preserved; [apply cpu_step_ok|done..].
  - eapply hoare_preserved; [apply ppu_step_ok|done..].
  - destruct IH as (Hm & Hf & Hp). by repeat split.
Qed.

(** In every state of the machine the methods of the core return. *)
Lemma reachable_total s :
  reachable s →
  is_Some (CPU.step s) ∧ is_Some (GameBoy.step_frame s)
  ∧ (∀ cycles, is_Some (PPU.step cycles s))
  ∧ (∀ btn pressed, 0 ≤ btn → is_Some (GameBoy.set_button btn pressed s))
  ∧ (∀ addr, ∃ v, MMU.read (Sys.mmu s) addr = Some v ∧ 0 ≤ v ≤ 255).
Proof.
  intros Hs%reachable_ok. split; [|split; [|split; [|split]]].
  - destruct (cpu_step_ok s Hs) as (x & s' & -> & _). done.
  - destruct (step_frame_ok s Hs) as (x & s' & -> & _). done.
  - intros cycles. destruct (ppu_step_ok cycles s Hs) as (x & s' & -> & _). done.
  - intros btn pressed Hb.
    destruct (set_button_ok btn pressed Hb s Hs) as (x & s' & -> & _). done.
  - intros addr. apply read_byte. by destruct Hs.
Qed.

(** C7.  After [CPU.reset] the low nibble of [F] is zero, and every
    instruction leaves it zero: from a state with a well-formed memory and
    [F & 0x0F == 0], executing any opcode ([_exec op], which covers
    [POP AF] and all the flag-modifying operations) and taking any [step]
    returns with [F & 0x0F == 0], the memory being well formed again.
    Hence [F & 0x0F == 0] in every state of the machine. *)
Theorem C7_flags_low_nibble_zero :
  Z.land (Regs.f CPU.reset) 0x0F = 0
  ∧ (∀ op s, memory_ok (Sys.mmu s) → Z.land (Regs.f (Sys.cpu s)) 0x0F = 0 →
       ∃ cyc s', CPU._exec op s = Some (cyc, s')
         ∧ Z.land (Regs.f (Sys.cpu s')) 0x0F = 0 ∧ memory_ok (Sys.mmu s'))
  ∧ (∀ s, memory_ok (Sys.mmu s) → Z.land (Regs.f (Sys.cpu s)) 0x0F = 0 →
       ∃ cyc s', CPU.step s = Some (cyc, s')
         ∧ Z.land (Regs.f (Sys.cpu s')) 0x0F = 0 ∧ memory_ok (Sys.mmu s'))
  ∧ (∀ s, reachable s → Z.land (Regs.f (Sys.cpu s)) 0x0F = 0).
Proof.
  split; [reflexivity|]. split; [|split].
  - intros op s Hm Hf.
    destruct (_exec_ok (λ _, True) op s) as (cyc & s' & Hx & Hm' & Hf' & _); [by split|].
    by exists cyc, s'.
  - intros s Hm Hf.
    destruct (step_ok (λ _, True) s) as (cyc & s' & Hx & Hm' & Hf' & _); [by split|].
    by exists cyc, s'.
  - intros s (_ & Hf & _)%reachable_ok. exact Hf.
Qed.

Lemma C7_witness :
  ∃ cyc s', CPU.step GameBoy.init = Some (cyc, s')
    ∧ Z.land (Regs.f (Sys.cpu s')) 0x0F = 0 ∧ memory_ok (Sys.mmu s').
Proof.
  apply (proj1 (proj2 (proj2 C7_flags_low_nibble_zero)) GameBoy.init);
    vm_compute; reflexivity.
Defined.


(** ** CHIP-8: drawing a sprite *)

Lemma chip8_ok_elim s :
  chip8_ok s = true →
  Py.len (Chip8.memory s) = 4096 ∧ Py.len (Chip8.V s) = 16
  ∧ Py.len (Chip8.gfx s) = Chip8.W * Chip8.H.
Proof.
  unfold chip8_ok. rewrite !andb_true_iff, !bool_decide_eq_true. tauto.
Qed.

Lemma chip8_ok_intro s :
  Py.len (Chip8.memory s) = 4096 → Py.len (Chip8.V s) = 16 →
  Py.len (Chip8.gfx s) = Chip8.W * Chip8.H → chip8_ok s = true.
Proof.
  intros. unfold chip8_ok. rewrite !andb_true_iff, !bool_decide_eq_true. tauto.
Qed.

Lemma cell_range vx vy row bit : 0 ≤ cell vx vy row bit < Chip8.W * Chip8.H.
Proof.
  unfold cell, Chip8.W, Chip8.H.
  pose proof (Z.mod_pos_bound (vx mod 64 + bit) 64).
  pose proof (Z.mod_pos_bound (vy mod 32 + row) 32). lia.
Qed.

(** No cell is written twice: within 32 rows of 8 bits, distinct bits of
    the sprite land on distinct cells. *)
Lemma cell_inj vx vy row bit row' bit' :
  0 ≤ row < 32 → 0 ≤ row' < 32 → 0 ≤ bit < 8 → 0 ≤ bit' < 8 →
  cell vx vy row bit = cell vx vy row' bit' → row = row' ∧ bit = bit'.
Proof.
  unfold cell, Chip8.W, Chip8.H. intros Hr Hr' Hb Hb' Hc.
  Z.div_mod_to_equations. lia.
Qed.

Lemma plot_memory idx s : Chip8.memory (plot idx s) = Chip8.memory s.
Proof. unfold plot. by destruct (pixel s idx =? 1). Qed.

Lemma plot_I idx s : Chip8.I (plot idx s) = Chip8.I s.
Proof. unfold plot. by destruct (pixel s idx =? 1). Qed.

Lemma plot_gfx idx s :
  Chip8.gfx (plot idx s) = <[Z.to_nat idx := Z.lxor (pixel s idx) 1]> (Chip8.gfx s).
Proof. unfold plot. by destruct (pixel s idx =? 1). Qed.

Lemma plot_V idx s :
  Chip8.V (plot idx s)
  = if pixel s idx =? 1 then <[Z.to_nat 0xF := 1]> (Chip8.V s) else Chip8.V s.
Proof. unfold plot. by destruct (pixel s idx =? 1). Qed.

Lemma plot_ok idx s : chip8_ok s = true → chip8_ok (plot idx s) = true.
Proof.
  intros (Hm & HV & Hg)%chip8_ok_elim. apply chip8_ok_intro.
  - by rewrite plot_memory.
  - rewrite plot_V. destruct (_ =? 1); [by rewrite len_insert|done].
  - by rewrite plot_gfx, len_insert.
Qed.

Lemma sprite_row_plot idx s row : sprite_row (plot idx s) row = sprite_row s row.
Proof. unfold sprite_row. by rewrite plot_memory, plot_I. Qed.

(** One step of the inner loop. *)
Lemma draw_bit_plot s vx vy row bit :
  chip8_ok s = true →
  Chip8.draw_bit (vx mod Chip8.W) ((vy mod Chip8.H + row) mod Chip8.H)
    (sprite_row s row) bit s
  = Some (tt, if sprite_bit s row bit then plot (cell vx vy row bit) s else s).
Proof.
  intros Hok. pose proof Hok as (Hm & HV & Hg)%chip8_ok_elim.
  unfold Chip8.draw_bit, sprite_bit.
  destruct (Z.land (sprite_row s row) (Z.shiftr 0x80 bit) =? 0); [done|].
  cbn [negb]. fold (cell vx vy row bit). pose proof (cell_range vx vy row bit) as Hc.
  set (idx := cell vx vy row bit) in *.
  assert (Py.getitem (Chip8.gfx s) idx = Some (pixel s idx)) as Hget.
  { destruct (getitem_in_range (Chip8.gfx s) idx) as [-> [g Hgv]]; [lia|].
    unfold pixel. by rewrite Hgv. }
  unfold Py.bind at 1. unfold Chip8.gfx_get at 1, Py.try_. rewrite Hget.
  unfold plot. fold idx. destruct (pixel s idx =? 1) eqn:Hone.
  - unfold Py.when, Py.bind, Chip8.V_set, Py.update.
    rewrite setitem_in_range by lia. cbn [mbind option_bind].
    unfold Chip8.gfx_get, Py.try_. cbn [Chip8.gfx Chip8.set_V]. rewrite Hget.
    unfold Chip8.gfx_set, Py.update. cbn [Chip8.gfx Chip8.set_V].
    rewrite setitem_in_range by lia. reflexivity.
  - unfold Py.when, Py.bind, Py.ret.
    unfold Chip8.gfx_get, Py.try_. rewrite Hget.
    unfold Chip8.gfx_set, Py.update.
    rewrite setitem_in_range by lia. reflexivity.
Qed.

(** A loop whose every step is a state update is a left fold. *)
Lemma for_foldl {St A} (P : St → Prop) (l : list A) (body : A → Py.M St unit)
    (step : St → A → St) s :
  (∀ s x, P s → body x s = Some (tt, step s x)) →
  (∀ s x, P s → P (step s x)) →
  P s → Py.for_ l body s = Some (tt, foldl step s l).
Proof.
  intros Hbody Hstep. revert s. induction l as [|x l IH]; intros s Hs; [done|].
  simpl. unfold Py.bind. rewrite Hbody by done. apply IH. by apply Hstep.
Qed.

Lemma foldl_plot_inv (Q : Chip8.t → Prop) l s :
  (∀ idx s, Q s → Q (plot idx s)) → Q s → Q (foldl (λ s idx, plot idx s) s l).
Proof.
  intros Hq. revert s. induction l as [|x l IH]; intros s Hs; simpl; [done|].
  apply IH. by apply Hq.
Qed.

(** Plotting the set bits of a list of bits, one after the other. *)
Lemma foldl_bits s vx vy row bits s0 :
  foldl (λ s bit, if sprite_bit s0 row bit then plot (cell vx vy row bit) s else s) s bits
  = foldl (λ s idx, plot idx s) s
      (cell vx vy row <$> filter (λ bit, sprite_bit s0 row bit = true) bits).
Proof.
  revert s. induction bits as [|b bits IH]; intros s; [done|].
  simpl. rewrite filter_cons. destruct (sprite_bit s0 row b) eqn:Hb.
  - rewrite decide_True by done. simpl. apply IH.
  - rewrite decide_False by (by intros ?). apply IH.
Qed.

(** One step of the outer loop. *)
Lemma draw_row_plot s vx vy row :
  chip8_ok s = true →
  Chip8.draw_row (vx mod Chip8.W) (vy mod Chip8.H) row s
  = Some (tt, foldl (λ s idx, plot idx s) s (row_cells s vx vy row)).
Proof.
  intros Hok. pose proof Hok as (Hm & HV & Hg)%chip8_ok_elim.
  unfold Chip8.draw_row. unfold Py.bind at 1. unfold Py.gets at 1.
  unfold Py.bind at 1. unfold Chip8.mem_get, Py.try_.
  assert (Py.getitem (Chip8.memory s) (Z.land (Chip8.I s + row) 0x0FFF)
          = Some (sprite_row s row)) as ->.
  { pose proof (Z.land_ones (Chip8.I s + row) 12) as Hmask.
    change (Z.ones 12) with 0x0FFF in Hmask. change (2 ^ 12) with 4096 in Hmask.
    pose proof (Z.mod_pos_bound (Chip8.I s + row) 4096).
    destruct (getitem_in_range (Chip8.memory s) (Z.land (Chip8.I s + row) 0x0FFF))
      as [-> [v Hv]]; [rewrite Hmask; lia|].
    unfold sprite_row. by rewrite Hv. }
  rewrite (for_foldl
    (λ s', chip8_ok s' = true ∧ sprite_row s' row = sprite_row s row) _ _
    (λ s' bit, if sprite_bit s row bit then plot (cell vx vy row bit) s' else s')).
  - f_equal. f_equal. unfold row_cells. apply foldl_bits.
  - intros s' bit [Hok' Hrow']. rewrite <- Hrow'. rewrite draw_bit_plot by done.
    unfold sprite_bit. by rewrite Hrow'.
  - intros s' bit [Hok' Hrow']. destruct (sprite_bit s row bit); [|done].
    split; [by apply plot_ok|]. by rewrite sprite_row_plot.
  - done.
Qed.

Lemma row_cells_same s s' vx vy row :
  Chip8.memory s' = Chip8.memory s → Chip8.I s' = Chip8.I s →
  row_cells s' vx vy row = row_cells s vx vy row.
Proof.
  intros Hm Hi. unfold row_cells, sprite_bit, sprite_row. by rewrite Hm, Hi.
Qed.

Lemma sprite_cells_same s s' vx vy n :
  Chip8.memory s' = Chip8.memory s → Chip8.I s' = Chip8.I s →
  sprite_cells s' vx vy n = sprite_cells s vx vy n.
Proof.
  intros Hm Hi. unfold sprite_cells. f_equal.
  (* the two row functions agree *)
  unfold row_cells, sprite_bit, sprite_row. by rewrite Hm, Hi.
Qed.

(** Plotting the rows of a list of rows, one after the other. *)
Lemma foldl_rows s vx vy rows s0 :
  foldl (λ s row, foldl (λ s idx, plot idx s) s (row_cells s0 vx vy row)) s rows
  = foldl (λ s idx, plot idx s) s (rows ≫= row_cells s0 vx vy).
Proof.
  revert s. induction rows as [|r rows IH]; intros s; [done|].
  simpl. rewrite foldl_app. apply IH.
Qed.

(** [_draw] clears [VF] and plots the cells of the sprite in order. *)
Lemma draw_plot s vx vy n :
  chip8_ok s = true →
  Chip8._draw vx vy n s
  = Some (tt, foldl (λ s idx, plot idx s)
                (Chip8.set_V (<[Z.to_nat 0xF := 0]> (Chip8.V s)) s)
                (sprite_cells s vx vy n)).
Proof.
  intros Hok. pose proof Hok as (Hm & HV & Hg)%chip8_ok_elim.
  unfold Chip8._draw. unfold Py.bind at 1. unfold Chip8.V_set, Py.update.
  rewrite setitem_in_range by lia. cbn [mbind option_bind].
  set (s1 := Chip8.set_V _ s).
  rewrite (for_foldl
    (λ s', chip8_ok s' = true ∧ Chip8.memory s' = Chip8.memory s ∧ Chip8.I s' = Chip8.I s)
    _ _ (λ s' row, foldl (λ s idx, plot idx s) s' (row_cells s vx vy row))).
  - f_equal. f_equal. unfold sprite_cells. apply foldl_rows.
  - intros s' row (Hok' & Hm' & Hi'). rewrite draw_row_plot by done.
    by rewrite (row_cells_same s s').
  - intros s' row (Hok' & Hm' & Hi').
    apply (foldl_plot_inv (λ s', chip8_ok s' = true ∧ Chip8.memory s' = Chip8.memory s
                                  ∧ Chip8.I s' = Chip8.I s)); [|done].
    intros idx s'' (? & ? & ?). split; [by apply plot_ok|].
    by rewrite plot_memory, plot_I.
  - subst s1. split; [|done]. apply chip8_ok_intro; cbn [Chip8.memory Chip8.V Chip8.gfx Chip8.set_V];
      [done|by rewrite len_insert|done].
Qed.
(** ** CHIP-8: the display after a draw *)

Lemma plot_len idx s : Py.len (Chip8.gfx (plot idx s)) = Py.len (Chip8.gfx s).
Proof. by rewrite plot_gfx, len_insert. Qed.

Lemma pixel_plot idx j s :
  0 ≤ idx < Py.len (Chip8.gfx s) → 0 ≤ j →
  pixel (plot idx s) j
  = if bool_decide (idx = j) then Z.lxor (pixel s j) 1 else pixel s j.
Proof.
  intros Hi Hj. unfold pixel at 1. rewrite plot_gfx. case_bool_decide as Hij.
  - subst j. rewrite list_lookup_insert_eq by (unfold Py.len in Hi; lia). done.
  - rewrite list_lookup_insert_ne by lia. done.
Qed.

Lemma lxor_bit p (b1 b2 : bool) :
  Z.lxor (Z.lxor p (if b1 then 1 else 0)) (if b2 then 1 else 0)
  = Z.lxor p (if xorb b1 b2 then 1 else 0).
Proof.
  rewrite Z.lxor_assoc. f_equal. by destruct b1, b2.
Qed.

(** After a sequence of plots a cell has been toggled once per
    occurrence. *)
Lemma pixel_plots l s j :
  Forall (λ idx, 0 ≤ idx < Py.len (Chip8.gfx s)) l → 0 ≤ j →
  pixel (foldl (λ s idx, plot idx s) s l) j
  = Z.lxor (pixel s j) (if odd_hits j l then 1 else 0).
Proof.
  intros Hl Hj. revert s Hl. induction l as [|i l IH]; intros s Hl; simpl.
  - by rewrite Z.lxor_0_r.
  - apply Forall_cons in Hl as [Hi Hl]. rewrite IH.
    2:{ eapply Forall_impl; [done|]. intros idx ?. cbv beta. by rewrite plot_len. }
    rewrite pixel_plot by done.
    rewrite <- lxor_bit. f_equal. case_bool_decide; [done|]. by rewrite Z.lxor_0_r.
Qed.

Lemma plots_len l s :
  Py.len (Chip8.gfx (foldl (λ s idx, plot idx s) s l)) = Py.len (Chip8.gfx s).
Proof.
  revert s. induction l as [|i l IH]; intros s; simpl; [done|].
  by rewrite IH, plot_len.
Qed.

Lemma odd_hits_NoDup j l : NoDup l → odd_hits j l = bool_decide (j ∈ l).
Proof.
  induction 1 as [|i l Hi Hl IH]; cbn [odd_hits].
  - symmetry. apply bool_decide_eq_false_2. by intros ?%not_elem_of_nil.
  - rewrite IH. destruct (decide (i = j)) as [->|Hne].
    + rewrite (bool_decide_eq_true_2 (j = j)) by done.
      rewrite (bool_decide_eq_false_2 (j ∈ l)) by done.
      symmetry. apply bool_decide_eq_true_2. by left.
    + rewrite (bool_decide_eq_false_2 (i = j)) by done. cbn [xorb].
      apply bool_decide_ext. rewrite elem_of_cons.
      split; [tauto|intros [Heq|]; [by subst|done]].
Qed.

(** The cells of a sprite lie on the display. *)
Lemma sprite_cells_range s vx vy n :
  Forall (λ idx, 0 ≤ idx < Chip8.W * Chip8.H) (sprite_cells s vx vy n).
Proof.
  apply Forall_forall. intros idx (row & Hidx & _)%list_elem_of_bind.
  apply list_elem_of_fmap in Hidx as (bit & -> & _). apply cell_range.
Qed.

(** A sprite of at most 32 rows writes no cell twice. *)
Lemma sprite_cells_NoDup s vx vy n : n ≤ 32 → NoDup (sprite_cells s vx vy n).
Proof.
  intros Hn. unfold sprite_cells, row_cells. apply NoDup_bind.
  - intros r1 r2 idx Hr1%elem_of_seqZ Hr2%elem_of_seqZ
      (b1 & -> & [_ Hb1%elem_of_seqZ]%list_elem_of_filter)%list_elem_of_fmap
      (b2 & Hc & [_ Hb2%elem_of_seqZ]%list_elem_of_filter)%list_elem_of_fmap.
    apply cell_inj in Hc; lia.
  - intros r Hr%elem_of_seqZ. apply NoDup_fmap_2_strong.
    + intros b1 b2 [_ Hb1%elem_of_seqZ]%list_elem_of_filter
        [_ Hb2%elem_of_seqZ]%list_elem_of_filter Hc.
      apply cell_inj in Hc; lia.
    + apply NoDup_filter, NoDup_seqZ.
  - apply NoDup_seqZ.
Qed.

Lemma existsb_true {A} (f : A → bool) (l : list A) :
  existsb f l = true ↔ ∃ x, x ∈ l ∧ f x = true.
Proof.
  rewrite existsb_exists. by setoid_rewrite list_elem_of_In.
Qed.

(** The cells of the sprite are those some set bit lands on. *)
Lemma elem_of_sprite_cells s vx vy n idx :
  idx ∈ sprite_cells s vx vy n ↔ lit s vx vy n idx = true.
Proof.
  unfold sprite_cells, row_cells, lit. rewrite list_elem_of_bind, existsb_true.
  split.
  - intros (row & (bit & -> & [Hb Hbit]%list_elem_of_filter)%list_elem_of_fmap & Hrow).
    exists row. split; [done|]. apply existsb_true. exists bit. split; [done|].
    by rewrite Hb, Z.eqb_refl.
  - intros (row & Hrow & (bit & Hbit & [Hb Hc%Z.eqb_eq]%andb_true_iff)%existsb_true).
    exists row. split; [|done]. apply list_elem_of_fmap. exists bit.
    split; [done|]. by apply list_elem_of_filter.
Qed.

Lemma bool_eq_iff (b1 b2 : bool) : (b1 = true ↔ b2 = true) → b1 = b2.
Proof. destruct b1, b2; intuition congruence. Qed.

Lemma odd_hits_lit s vx vy n idx :
  n ≤ 32 → odd_hits idx (sprite_cells s vx vy n) = lit s vx vy n idx.
Proof.
  intros Hn. rewrite odd_hits_NoDup by by apply sprite_cells_NoDup.
  apply bool_eq_iff. by rewrite bool_decide_eq_true, elem_of_sprite_cells.
Qed.

(** Some cell of the sprite is set exactly when the sprite collides. *)
Lemma collision_cells s vx vy n :
  existsb (λ idx, pixel s idx =? 1) (sprite_cells s vx vy n) = collision s vx vy n.
Proof.
  apply bool_eq_iff. unfold collision. rewrite !existsb_true. split.
  - intros (idx & (row & (bit & -> & [Hb Hbit]%list_elem_of_filter)%list_elem_of_fmap
                   & Hrow)%list_elem_of_bind & Hp).
    exists row. split; [done|]. apply existsb_true. exists bit. split; [done|].
    by rewrite Hb, Hp.
  - intros (row & Hrow & (bit & Hbit & [Hb Hp]%andb_true_iff)%existsb_true).
    exists (cell vx vy row bit). split; [|done].
    apply list_elem_of_bind. exists row. split; [|done].
    apply list_elem_of_fmap. exists bit. split; [done|]. by apply list_elem_of_filter.
Qed.

Lemma plots_V_len l s :
  Py.len (Chip8.V (foldl (λ s idx, plot idx s) s l)) = Py.len (Chip8.V s).
Proof.
  revert s. induction l as [|i l IH]; intros s; simpl; [done|].
  rewrite IH, plot_V. destruct (_ =? 1); [by rewrite len_insert|done].
Qed.

(** [VF] after a sequence of plots of distinct cells: 1 as soon as one of
    them was set. *)
Lemma plots_VF l s :
  NoDup l → Forall (λ idx, 0 ≤ idx < Py.len (Chip8.gfx s)) l →
  Py.len (Chip8.V s) = 16 →
  Chip8.V (foldl (λ s idx, plot idx s) s l) !! Z.to_nat 0xF
  = if existsb (λ idx, pixel s idx =? 1) l then Some 1 else Chip8.V s !! Z.to_nat 0xF.
Proof.
  intros Hnd. revert s. induction Hnd as [|i l Hi Hnd IH]; intros s Hl HV; simpl; [done|].
  apply Forall_cons in Hl as [Hir Hl].
  rewrite IH.
  2:{ eapply Forall_impl; [done|]. intros idx ?. cbv beta. by rewrite plot_len. }
  2:{ rewrite plot_V. destruct (_ =? 1); [by rewrite len_insert|done]. }
  assert (existsb (λ idx, pixel (plot i s) idx =? 1) l
          = existsb (λ idx, pixel s idx =? 1) l) as ->.
  { apply bool_eq_iff. rewrite !existsb_true.
    split; intros (j & Hj & Hp); exists j; (split; [done|]).
    - rewrite pixel_plot in Hp; [|done|].
      + rewrite bool_decide_eq_false_2 in Hp; [done|]. by intros ->.
      + rewrite Forall_forall in Hl. apply Hl in Hj. lia.
    - rewrite pixel_plot; [|done|].
      + rewrite bool_decide_eq_false_2; [done|]. by intros ->.
      + rewrite Forall_forall in Hl. apply Hl in Hj. lia. }
  rewrite plot_V. destruct (pixel s i =? 1); simpl; [|done].
  destruct (existsb _ l); [done|].
  apply list_lookup_insert_eq. unfold Py.len in HV. lia.
Qed.
(** ** CHIP-8: the two display properties *)

Lemma gfx_eq_pixel s s' :
  Py.len (Chip8.gfx s') = Py.len (Chip8.gfx s) →
  (∀ j, 0 ≤ j → pixel s' j = pixel s j) → Chip8.gfx s' = Chip8.gfx s.
Proof.
  intros Hl Hp. apply list_eq. intros k.
  specialize (Hp (Z.of_nat k) ltac:(lia)). unfold pixel in Hp. rewrite Nat2Z.id in Hp.
  destruct (decide (k < length (Chip8.gfx s))%nat) as [Hk|Hk].
  - destruct (lookup_lt_is_Some_2 (Chip8.gfx s) k Hk) as [v Hv].
    destruct (lookup_lt_is_Some_2 (Chip8.gfx s') k) as [v' Hv'];
      [unfold Py.len in Hl; lia|].
    rewrite Hv, Hv' in *. simpl in Hp. by subst.
  - rewrite !lookup_ge_None_2; [done| |]; unfold Py.len in Hl; lia.
Qed.

Lemma draw_state_ok s vx vy n :
  chip8_ok s = true →
  let s' := foldl (λ s idx, plot idx s)
              (Chip8.set_V (<[Z.to_nat 0xF := 0]> (Chip8.V s)) s) (sprite_cells s vx vy n) in
  chip8_ok s' = true ∧ Chip8.memory s' = Chip8.memory s ∧ Chip8.I s' = Chip8.I s.
Proof.
  intros Hok. pose proof Hok as (Hm & HV & Hg)%chip8_ok_elim.
  apply (foldl_plot_inv (λ s', chip8_ok s' = true ∧ Chip8.memory s' = Chip8.memory s
                                ∧ Chip8.I s' = Chip8.I s)).
  - intros idx s'' (? & ? & ?). split; [by apply plot_ok|].
    by rewrite plot_memory, plot_I.
  - split; [|done]. apply chip8_ok_intro; cbn [Chip8.memory Chip8.V Chip8.gfx Chip8.set_V];
      [done|by rewrite len_insert|done].
Qed.

(** The display after [_draw]: every cell is XORed with the sprite bit
    that lands on it, counted with multiplicity. *)
Lemma draw_pixel s vx vy n j :
  chip8_ok s = true → 0 ≤ j →
  pixel (foldl (λ s idx, plot idx s)
           (Chip8.set_V (<[Z.to_nat 0xF := 0]> (Chip8.V s)) s) (sprite_cells s vx vy n)) j
  = Z.lxor (pixel s j) (if odd_hits j (sprite_cells s vx vy n) then 1 else 0).
Proof.
  intros Hok Hj. pose proof Hok as (Hm & HV & Hg)%chip8_ok_elim.
  rewrite pixel_plots; [done| |done].
  cbn [Chip8.gfx Chip8.set_V]. rewrite Hg. apply sprite_cells_range.
Qed.

Lemma cell_wraps vx vy row bit :
  cell vx vy row bit = (vx + bit) mod Chip8.W + (vy + row) mod Chip8.H * Chip8.W.
Proof.
  unfold cell. by rewrite !Zplus_mod_idemp_l.
Qed.

(** What [_draw(vx, vy, n)] does for a sprite of at most 32 rows. *)
Lemma draw_spec s vx vy n :
  chip8_ok s = true → n ≤ 32 →
  ∃ s', Chip8._draw vx vy n s = Some (tt, s')
    ∧ (∀ idx, 0 ≤ idx < Chip8.W * Chip8.H →
         pixel s' idx = Z.lxor (pixel s idx) (if lit s vx vy n idx then 1 else 0))
    ∧ Chip8.V s' !! Z.to_nat 0xF = Some (if collision s vx vy n then 1 else 0).
Proof.
  intros Hok Hn. pose proof Hok as (Hm & HV & Hg)%chip8_ok_elim.
  eexists. split; [by apply draw_plot|]. split.
  - intros idx Hidx. rewrite draw_pixel by (done || lia).
    by rewrite odd_hits_lit by lia.
  - rewrite plots_VF.
    + match goal with |- context [existsb ?f ?l] =>
        replace (existsb f l) with (collision s vx vy n)
          by (by rewrite <- collision_cells) end.
      destruct (collision s vx vy n); [done|].
      cbn [Chip8.V Chip8.set_V]. apply list_lookup_insert_eq. unfold Py.len in HV. lia.
    + by apply sprite_cells_NoDup.
    + cbn [Chip8.gfx Chip8.set_V]. rewrite Hg. apply sprite_cells_range.
    + cbn [Chip8.V Chip8.set_V]. by rewrite len_insert.
Qed.

(** ** CHIP-8: the lengths of the arrays are invariant *)

Section maintains_rules.
Context {St : Type}.
Implicit Types (P : St → Prop).

Lemma maintains_ret {A} P (x : A) : maintains P (Py.ret (S:=St) x).
Proof. intros s y s' Hs Hr. unfold Py.ret in Hr. by simplify_eq. Qed.

Lemma maintains_bind {A B} P (m : Py.M St A) (k : A → Py.M St B) :
  maintains P m → (∀ x, maintains P (k x)) → maintains P (Py.bind m k).
Proof.
  intros Hm Hk s y s' Hs Hr. unfold Py.bind in Hr.
  destruct (m s) as [[x s1]|] eqn:Hx; [|done].
  eapply Hk; [|done]. by eapply Hm.
Qed.

Lemma maintains_gets {A} P (g : St → A) : maintains P (Py.gets g).
Proof. intros s y s' Hs Hr. unfold Py.gets in Hr. by simplify_eq. Qed.

Lemma maintains_try {A} P (g : St → option A) : maintains P (Py.try_ g).
Proof.
  intros s y s' Hs Hr. unfold Py.try_ in Hr. destruct (g s); by simplify_eq.
Qed.

Lemma maintains_modify P (g : St → St) :
  (∀ s, P s → P (g s)) → maintains P (Py.modify g).
Proof. intros Hg s y s' Hs Hr. unfold Py.modify in Hr. simplify_eq. by apply Hg. Qed.

Lemma maintains_update P (g : St → option St) :
  (∀ s s', P s → g s = Some s' → P s') → maintains P (Py.update g).
Proof.
  intros Hg s y s' Hs Hr. unfold Py.update in Hr.
  destruct (g s) as [s1|] eqn:Hs1; simplify_eq. by eapply Hg.
Qed.

Lemma maintains_when P (c : bool) (m : Py.M St unit) :
  maintains P m → maintains P (Py.when c m).
Proof. intros Hm. destruct c; [done|]. apply maintains_ret. Qed.

Lemma maintains_if {A} P (c : bool) (m1 m2 : Py.M St A) :
  maintains P m1 → maintains P m2 → maintains P (if c then m1 else m2).
Proof. by destruct c. Qed.

Lemma maintains_for {A} P (l : list A) (body : A → Py.M St unit) :
  (∀ x, maintains P (body x)) → maintains P (Py.for_ l body).
Proof.
  intros Hb. induction l as [|x l IH]; simpl.
  - apply maintains_ret.
  - apply maintains_bind; [apply Hb|]. intros _. apply IH.
Qed.
End maintains_rules.

Create HintDb chip8 discriminated.

Lemma V_set_ok i v : maintains lengths_ok (Chip8.V_set i v).
Proof.
  apply maintains_update. intros s s' (Hm & HV & Hg)%chip8_ok_elim Hs.
  destruct (Py.setitem (Chip8.V s) i v) as [r|] eqn:Hr; simplify_eq/=.
  apply chip8_ok_intro; [done| |done]. cbn. by rewrite (setitem_len _ _ _ _ Hr).
Qed.

Lemma mem_set_ok i v : maintains lengths_ok (Chip8.mem_set i v).
Proof.
  apply maintains_update. intros s s' (Hm & HV & Hg)%chip8_ok_elim Hs.
  destruct (Py.setitem (Chip8.memory s) i v) as [r|] eqn:Hr; simplify_eq/=.
  apply chip8_ok_intro; [|done..]. cbn. by rewrite (setitem_len _ _ _ _ Hr).
Qed.

Lemma gfx_set_ok i v : maintains lengths_ok (Chip8.gfx_set i v).
Proof.
  apply maintains_update. intros s s' (Hm & HV & Hg)%chip8_ok_elim Hs.
  destruct (Py.setitem (Chip8.gfx s) i v) as [r|] eqn:Hr; simplify_eq/=.
  apply chip8_ok_intro; [done..|]. cbn. by rewrite (setitem_len _ _ _ _ Hr).
Qed.

Lemma stack_set_ok i v : maintains lengths_ok (Chip8.stack_set i v).
Proof.
  apply maintains_update. intros s s' Hs Hr.
  destruct (Py.setitem (Chip8.stack s) i v) as [r|]; by simplify_eq/=.
Qed.

Lemma clear_gfx_ok :
  maintains lengths_ok (Py.modify (Chip8.set_gfx (Py.zeros (Chip8.W * Chip8.H)))).
Proof.
  apply maintains_modify. intros s (Hm & HV & Hg)%chip8_ok_elim.
  apply chip8_ok_intro; [done..|]. cbn [Chip8.gfx Chip8.set_gfx]. by apply len_zeros.
Qed.

#[export] Hint Resolve maintains_ret maintains_bind maintains_gets maintains_try
  maintains_when maintains_if maintains_for
  V_set_ok mem_set_ok gfx_set_ok stack_set_ok clear_gfx_ok : chip8.
#[export] Hint Extern 2 (maintains lengths_ok (Py.modify _)) =>
  (apply maintains_modify; let s := fresh in let H := fresh in
   intros s H; exact H) : chip8.

(** Prove that a CHIP-8 computation keeps the lengths of the arrays. *)
Ltac chip8_lengths := cbv zeta; repeat apply maintains_if; auto 30 with chip8.

Lemma ret_ok : maintains lengths_ok Chip8._ret.
Proof. unfold Chip8._ret, Chip8.stack_get. chip8_lengths. Qed.
Lemma call_lengths addr : maintains lengths_ok (Chip8._call addr).
Proof. unfold Chip8._call. chip8_lengths. Qed.
Lemma cls_ok : maintains lengths_ok Chip8._cls.
Proof. unfold Chip8._cls. chip8_lengths. Qed.
Lemma draw_ok vx vy n : maintains lengths_ok (Chip8._draw vx vy n).
Proof.
  unfold Chip8._draw, Chip8.draw_row, Chip8.draw_bit, Chip8.mem_get, Chip8.gfx_get.
  chip8_lengths.
Qed.
Lemma skip_ok : maintains lengths_ok Chip8.skip.
Proof. unfold Chip8.skip. chip8_lengths. Qed.
#[export] Hint Resolve ret_ok call_lengths cls_ok draw_ok skip_ok : chip8.
Lemma op_8xy_ok x y n : maintains lengths_ok (Chip8._op_8xy_ x y n).
Proof. unfold Chip8._op_8xy_, Chip8.V_get. chip8_lengths. Qed.
Lemma op_ex_ok x nn : maintains lengths_ok (Chip8._op_ex__ x nn).
Proof. unfold Chip8._op_ex__, Chip8.V_get, Chip8.keys_get. chip8_lengths. Qed.
Lemma op_fx_ok x nn : maintains lengths_ok (Chip8._op_fx__ x nn).
Proof. unfold Chip8._op_fx__, Chip8.V_get, Chip8.mem_get. chip8_lengths. Qed.
#[export] Hint Resolve op_8xy_ok op_ex_ok op_fx_ok : chip8.

(** Every instruction keeps the lengths of the arrays. *)
Lemma cycle_ok rnd : maintains lengths_ok (Chip8._cycle rnd).
Proof. unfold Chip8._cycle, Chip8.V_get, Chip8.mem_get. chip8_lengths. Qed.

Lemma chip8_reset_ok : lengths_ok Chip8.reset.
Proof. vm_compute. reflexivity. Qed.

(** ** CHIP-8: the second core draws like the first *)

Lemma same_display_plot idx t s :
  same_display t s → same_display (plot_b idx t) (plot idx s).
Proof.
  intros (Hm & HV & HI & Hg). unfold plot_b, plot, pixel. rewrite Hg.
  destruct (default 0 (Chip8.gfx s !! Z.to_nat idx) =? 1);
    repeat split; cbn; congruence.
Qed.

Lemma same_display_plots l t s :
  same_display t s →
  same_display (foldl (λ t idx, plot_b idx t) t l) (foldl (λ s idx, plot idx s) s l).
Proof.
  revert t s. induction l as [|i l IH]; intros t s Hts; [done|].
  simpl. apply IH. by apply same_display_plot.
Qed.

Lemma cell_second vx vy row col :
  (vy + row) mod Chip8b.SCR_H * Chip8b.SCR_W + (vx + col) mod Chip8b.SCR_W
  = cell vx vy row col.
Proof. rewrite cell_wraps. unfold Chip8b.SCR_H, Chip8b.SCR_W, Chip8.W, Chip8.H. lia. Qed.

(** One step of the inner loop of the second core. *)
Lemma drw_col_plot t s vx vy row col :
  same_display t s → chip8_ok s = true →
  Chip8b.drw_col vx vy (sprite_row s row) row col t
  = Some (tt, if sprite_bit s row col then plot_b (cell vx vy row col) t else t).
Proof.
  intros (Hm & HV & HI & Hg) (Hlm & HlV & Hlg)%chip8_ok_elim.
  unfold Chip8b.drw_col, sprite_bit.
  destruct (Z.land (sprite_row s row) (Z.shiftr 0x80 col) =? 0); [done|].
  cbn [negb]. cbv zeta. rewrite cell_second.
  pose proof (cell_range vx vy row col) as Hc. set (idx := cell vx vy row col) in *.
  assert (Py.getitem (Chip8b.gfx t) idx
          = Some (default 0 (Chip8b.gfx t !! Z.to_nat idx))) as Hget.
  { destruct (getitem_in_range (Chip8b.gfx t) idx) as [-> [g Hgv]]; [rewrite Hg; lia|].
    by rewrite Hgv. }
  unfold Py.bind at 1. unfold Chip8b.gfx_get at 1, Py.try_. rewrite Hget.
  unfold plot_b. destruct (default 0 (Chip8b.gfx t !! Z.to_nat idx) =? 1) eqn:Hone.
  - unfold Py.when, Py.bind, Chip8b.V_set, Py.update.
    rewrite setitem_in_range by (rewrite HV; lia). cbn [mbind option_bind].
    unfold Chip8b.gfx_get, Py.try_. cbn [Chip8b.gfx Chip8b.set_V]. rewrite Hget.
    unfold Chip8b.gfx_set, Py.update. cbn [Chip8b.gfx Chip8b.set_V].
    rewrite setitem_in_range by (rewrite Hg; lia). reflexivity.
  - unfold Py.when, Py.bind, Py.ret.
    unfold Chip8b.gfx_get, Py.try_. rewrite Hget.
    unfold Chip8b.gfx_set, Py.update.
    rewrite setitem_in_range by (rewrite Hg; lia). reflexivity.
Qed.

Lemma foldl_bits_b t vx vy row bits s0 :
  foldl (λ t bit, if sprite_bit s0 row bit then plot_b (cell vx vy row bit) t else t) t bits
  = foldl (λ t idx, plot_b idx t) t
      (cell vx vy row <$> filter (λ bit, sprite_bit s0 row bit = true) bits).
Proof.
  revert t. induction bits as [|b bits IH]; intros t; [done|].
  simpl. rewrite filter_cons. destruct (sprite_bit s0 row b) eqn:Hb.
  - rewrite decide_True by done. simpl. apply IH.
  - rewrite decide_False by (by intros ?). apply IH.
Qed.

Lemma foldl_rows_b t vx vy rows s0 :
  foldl (λ t row, foldl (λ t idx, plot_b idx t) t (row_cells s0 vx vy row)) t rows
  = foldl (λ t idx, plot_b idx t) t (rows ≫= row_cells s0 vx vy).
Proof.
  revert t. induction rows as [|r rows IH]; intros t; [done|].
  simpl. rewrite foldl_app. apply IH.
Qed.

Lemma land_12_id a : 0 ≤ a < 4096 → Z.land a 0x0FFF = a.
Proof.
  intros Ha. pose proof (Z.land_ones a 12) as Hm.
  change (Z.ones 12) with 0x0FFF in Hm. change (2 ^ 12) with 4096 in Hm.
  rewrite Hm by lia. apply Z.mod_small. lia.
Qed.

(** One step of the outer loop of the second core, for a sprite row that
    lies in memory (the index [I + row] is not masked). *)
Lemma drw_row_plot t s vx vy row :
  same_display t s → chip8_ok s = true → 0 ≤ Chip8.I s + row < 4096 →
  Chip8b.drw_row vx vy row t
  = Some (tt, foldl (λ t idx, plot_b idx t) t (row_cells s vx vy row)).
Proof.
  intros Hts Hok Hrow. pose proof Hts as (Hm & HV & HI & Hg).
  pose proof Hok as (Hlm & HlV & Hlg)%chip8_ok_elim.
  unfold Chip8b.drw_row. unfold Py.bind at 1. unfold Py.gets at 1.
  unfold Py.bind at 1. unfold Chip8b.mem_get, Py.try_.
  assert (Py.getitem (Chip8b.mem t) (Chip8b.I t + row) = Some (sprite_row s row)) as ->.
  { rewrite Hm, HI.
    destruct (getitem_in_range (Chip8.memory s) (Chip8.I s + row)) as [-> [v Hv]]; [lia|].
    unfold sprite_row. by rewrite land_12_id, Hv. }
  rewrite (for_foldl
    (λ t', ∃ s', same_display t' s' ∧ chip8_ok s' = true
                 ∧ sprite_row s' row = sprite_row s row) _ _
    (λ t' bit, if sprite_bit s row bit then plot_b (cell vx vy row bit) t' else t')).
  - f_equal. f_equal. unfold row_cells. apply foldl_bits_b.
  - intros t' bit (s' & Hts' & Hok' & Hrow'). rewrite <- Hrow'.
    rewrite (drw_col_plot t' s') by done. unfold sprite_bit. by rewrite Hrow'.
  - intros t' bit (s' & Hts' & Hok' & Hrow'). destruct (sprite_bit s row bit); [|by exists s'].
    exists (plot (cell vx vy row bit) s'). split; [by apply same_display_plot|].
    split; [by apply plot_ok|]. by rewrite sprite_row_plot.
  - by exists s.
Qed.

(** A loop whose every step, on the elements of the list, is a state
    update is a left fold. *)
Lemma for_foldl_elem {St A} (P : St → Prop) (l : list A) (body : A → Py.M St unit)
    (step : St → A → St) s :
  (∀ s x, x ∈ l → P s → body x s = Some (tt, step s x)) →
  (∀ s x, x ∈ l → P s → P (step s x)) →
  P s → Py.for_ l body s = Some (tt, foldl step s l).
Proof.
  revert s. induction l as [|x l IH]; intros s Hbody Hstep Hs; [done|].
  simpl. unfold Py.bind. rewrite Hbody by (done || by left).
  apply IH.
  - intros s' y Hy. apply Hbody. by right.
  - intros s' y Hy. apply Hstep. by right.
  - apply Hstep; [by left|done].
Qed.

(** The [DXYN] branch of the second core, for a sprite that lies in
    memory: the display and the registers end as [_draw] of the first core
    leaves them. *)
Lemma drw_as_draw t x y n :
  chip8_ok (as_chip8 t) = true → 0 ≤ x ≤ 15 → 0 ≤ y ≤ 15 →
  0 ≤ Chip8b.I t → Chip8b.I t + n ≤ 4096 →
  ∃ vx vy t' s',
    Chip8b.V t !! Z.to_nat x = Some vx ∧ Chip8b.V t !! Z.to_nat y = Some vy
    ∧ Chip8b.drw x y n t = Some (tt, t')
    ∧ Chip8._draw vx vy n (as_chip8 t) = Some (tt, s')
    ∧ Chip8b.gfx t' = Chip8.gfx s' ∧ Chip8b.V t' = Chip8.V s'.
Proof.
  intros Hok Hx Hy HI0 HIn. pose proof Hok as (Hlm & HlV & Hlg)%chip8_ok_elim.
  cbn [as_chip8 Chip8.memory Chip8.V Chip8.gfx] in Hlm, HlV, Hlg.
  destruct (getitem_in_range (Chip8b.V t) x) as [Hgx [vx Hvx]]; [lia|].
  destruct (getitem_in_range (Chip8b.V t) y) as [Hgy [vy Hvy]]; [lia|].
  set (t0 := Chip8b.set_V (<[Z.to_nat 0xF := 0]> (Chip8b.V t)) t).
  set (s0 := Chip8.set_V (<[Z.to_nat 0xF := 0]> (Chip8.V (as_chip8 t))) (as_chip8 t)).
  assert (same_display t0 s0) as Hts0 by done.
  assert (chip8_ok s0 = true) as Hok0.
  { apply chip8_ok_intro; cbn [s0 Chip8.memory Chip8.V Chip8.gfx Chip8.set_V as_chip8];
      [done|by rewrite len_insert|done]. }
  exists vx, vy,
    (Chip8b.set_draw_flag true
       (foldl (λ t idx, plot_b idx t) t0 (sprite_cells (as_chip8 t) vx vy n))),
    (foldl (λ s idx, plot idx s) s0 (sprite_cells (as_chip8 t) vx vy n)).
  split; [done|]. split; [done|]. split; [|split; [by apply draw_plot|]].
  - unfold Chip8b.drw. unfold Py.bind at 1. unfold Chip8b.V_get at 1, Py.try_.
    rewrite Hgx, Hvx. unfold Py.bind at 1. unfold Chip8b.V_get at 1, Py.try_.
    rewrite Hgy, Hvy. unfold Py.bind at 1. unfold Chip8b.V_set, Py.update.
    rewrite setitem_in_range by lia. cbn [mbind option_bind]. fold t0.
    unfold Py.bind at 1.
    rewrite (for_foldl_elem
      (λ t', ∃ s', same_display t' s' ∧ chip8_ok s' = true
                   ∧ Chip8.memory s' = Chip8.memory (as_chip8 t)
                   ∧ Chip8.I s' = Chip8.I (as_chip8 t)) _ _
      (λ t' row, foldl (λ t idx, plot_b idx t) t' (row_cells (as_chip8 t) vx vy row))).
    + unfold Py.modify, sprite_cells. by rewrite foldl_rows_b.
    + intros t' row Hr%elem_of_seqZ (s' & Hts' & Hok' & Hm' & HI').
      rewrite (drw_row_plot t' s') by (done || (rewrite HI'; cbn; lia)).
      by rewrite (row_cells_same (as_chip8 t) s').
    + intros t' row _ (s' & Hts' & Hok' & Hm' & HI').
      exists (foldl (λ s idx, plot idx s) s' (row_cells (as_chip8 t) vx vy row)).
      split; [by apply same_display_plots|].
      apply (foldl_plot_inv (λ s'', chip8_ok s'' = true
               ∧ Chip8.memory s'' = Chip8.memory (as_chip8 t)
               ∧ Chip8.I s'' = Chip8.I (as_chip8 t))); [|done].
      intros idx s'' (? & ? & ?). split; [by apply plot_ok|].
      by rewrite plot_memory, plot_I.
    + by exists s0.
  - pose proof (same_display_plots (sprite_cells (as_chip8 t) vx vy n) t0 s0 Hts0)
      as (_ & HV' & _ & Hg'). by split.
Qed.

(** What the [DXYN] branch of the second core does, for a sprite of at most
    32 rows that lies in memory: it wraps like the first. *)
Lemma drw_spec t x y n :
  chip8_ok (as_chip8 t) = true → 0 ≤ x ≤ 15 → 0 ≤ y ≤ 15 →
  0 ≤ Chip8b.I t → Chip8b.I t + n ≤ 4096 → n ≤ 32 →
  ∃ vx vy t',
    Chip8b.V t !! Z.to_nat x = Some vx ∧ Chip8b.V t !! Z.to_nat y = Some vy
    ∧ Chip8b.drw x y n t = Some (tt, t')
    ∧ (∀ idx, 0 ≤ idx < Chip8b.SCR_W * Chip8b.SCR_H →
         default 0 (Chip8b.gfx t' !! Z.to_nat idx)
         = Z.lxor (default 0 (Chip8b.gfx t !! Z.to_nat idx))
             (if lit (as_chip8 t) vx vy n idx then 1 else 0))
    ∧ Chip8b.V t' !! Z.to_nat 0xF
      = Some (if collision (as_chip8 t) vx vy n then 1 else 0).
Proof.
  intros Hok Hx Hy HI0 HIn Hn.
  destruct (drw_as_draw t x y n) as (vx & vy & t' & s' & Hvx & Hvy & Hdrw & Hdraw & Hg & HV);
    [done..|].
  destruct (draw_spec (as_chip8 t) vx vy n Hok Hn) as (s'' & Hdraw' & Hpix & HVF).
  assert (s'' = s') as -> by congruence.
  exists vx, vy, t'. split; [done|]. split; [done|]. split; [done|]. split.
  - intros idx Hidx. rewrite Hg. apply (Hpix idx Hidx).
  - by rewrite HV.
Qed.

(** ** CHIP-8: the instructions CLS and DRW *)

Lemma opcode_at_elim s op :
  opcode_at s = Some op →
  ∃ hi lo, Py.getitem (Chip8.memory s) (Chip8.pc s) = Some hi
    ∧ Py.getitem (Chip8.memory s) (Chip8.pc s + 1) = Some lo
    ∧ op = Z.lor (Z.shiftl hi 8) lo.
Proof.
  unfold opcode_at. intros Hop.
  destruct (Py.getitem _ (Chip8.pc s)) as [hi|]; [|done].
  destruct (Py.getitem _ (Chip8.pc s + 1)) as [lo|]; [|done].
  cbn in Hop. exists hi, lo. by simplify_eq.
Qed.

(** The instruction [00E0] is the fetch followed by [_cls]. *)
Lemma cycle_cls s rnd :
  opcode_at s = Some 0x00E0 → Chip8._cycle rnd s = Chip8._cls (fetched s).
Proof.
  intros (hi & lo & Hhi & Hlo & Hop)%opcode_at_elim.
  unfold Chip8._cycle. unfold Py.bind at 1. unfold Py.gets at 1.
  unfold Py.bind at 1. unfold Chip8.mem_get at 1, Py.try_. rewrite Hhi.
  unfold Py.bind at 1. unfold Chip8.mem_get at 1, Py.try_. rewrite Hlo.
  cbv zeta. rewrite <- Hop. unfold Py.bind at 1. unfold Py.modify at 1.
  reflexivity.
Qed.

(** The instruction [DXYN] is the fetch followed by
    [_draw(V[x], V[y], n)]. *)
Lemma cycle_drw s rnd op :
  opcode_at s = Some op → Z.land op 0xF000 = 0xD000 →
  Chip8._cycle rnd s
  = (vx <- Chip8.V_get (op_x op) ;;
     vy <- Chip8.V_get (op_y op) ;;
     Chip8._draw vx vy (op_n op))%py (fetched s).
Proof.
  intros (hi & lo & Hhi & Hlo & Hop)%opcode_at_elim Htop.
  unfold Chip8._cycle. unfold Py.bind at 1. unfold Py.gets at 1.
  unfold Py.bind at 1. unfold Chip8.mem_get at 1, Py.try_. rewrite Hhi.
  unfold Py.bind at 1. unfold Chip8.mem_get at 1, Py.try_. rewrite Hlo.
  cbv zeta. rewrite <- Hop. unfold Py.bind at 1. unfold Py.modify at 1.
  fold (fetched s). rewrite Htop.
  destruct (Z.eqb_spec op 0x00E0) as [->|_]; [done|].
  destruct (Z.eqb_spec op 0x00EE) as [->|_]; [done|].
  reflexivity.
Qed.

(** The row count of a [DXYN] instruction is a nibble. *)
Lemma nibble_range op : 0 ≤ Z.land op 0x000F ≤ 15.
Proof.
  pose proof (Z.land_ones op 4) as Hm. change (Z.ones 4) with 0x000F in Hm.
  change (2 ^ 4) with 16 in Hm. rewrite Hm by lia.
  pose proof (Z.mod_pos_bound op 16). lia.
Qed.

Lemma op_x_range op : 0 ≤ op_x op ≤ 15.
Proof.
  unfold op_x. rewrite Z.shiftr_land. change (Z.shiftr 0x0F00 8) with 0x000F.
  apply nibble_range.
Qed.

Lemma op_y_range op : 0 ≤ op_y op ≤ 15.
Proof.
  unfold op_y. rewrite Z.shiftr_land. change (Z.shiftr 0x00F0 4) with 0x000F.
  apply nibble_range.
Qed.

Lemma V_get_in_range s i :
  Py.len (Chip8.V s) = 16 → 0 ≤ i ≤ 15 →
  ∃ v, Chip8.V s !! Z.to_nat i = Some v ∧ Chip8.V_get i s = Some (v, s).
Proof.
  intros HV Hi. destruct (getitem_in_range (Chip8.V s) i) as [Hget [v Hv]]; [lia|].
  exists v. split; [done|]. unfold Chip8.V_get, Py.try_. by rewrite Hget, Hv.
Qed.

(** The second core fetches its opcode the same way, from a list. *)
Lemma opcode_at_b_elim t op :
  opcode_at_b t = Some op →
  ∃ hi lo, Py.getitem (Chip8b.mem t) (Chip8b.pc t) = Some hi
           ∧ Py.getitem (Chip8b.mem t) (Chip8b.pc t + 1) = Some lo
           ∧ op = Z.lor (Z.shiftl hi 8) lo.
Proof.
  unfold opcode_at_b. intros Hop.
  destruct (Py.getitem _ (Chip8b.pc t)) as [hi|]; [|done].
  destruct (Py.getitem _ (Chip8b.pc t + 1)) as [lo|]; [|done].
  cbn in Hop. exists hi, lo. by simplify_eq.
Qed.

(** An opcode whose top nibble is [D] passes every test of the dispatch
    that masks with [0xF00F]. *)
Lemma drw_not_F00F op k :
  Z.land op 0xF000 = 0xD000 → Z.land k 0xF000 ≠ 0xD000 →
  (Z.land op 0xF00F =? k) = false.
Proof.
  intros Htop Hk. apply Z.eqb_neq. intros He. apply Hk. rewrite <- He.
  rewrite <- Z.land_assoc. by change (Z.land 0xF00F 0xF000) with 0xF000.
Qed.

(** In the second core, the instruction [DXYN] is the fetch followed by
    the [DXYN] branch. *)
Lemma cycle_drw_b t rnd op :
  opcode_at_b t = Some op → Z.land op 0xF000 = 0xD000 →
  Chip8b.cycle rnd t = Chip8b.drw (op_x op) (op_y op) (op_n op) (fetched_b t).
Proof.
  intros (hi & lo & Hhi & Hlo & Hop)%opcode_at_b_elim Htop.
  unfold Chip8b.cycle. unfold Py.bind at 1. unfold Py.gets at 1.
  unfold Py.bind at 1. unfold Chip8b.mem_get at 1, Py.try_. rewrite Hhi.
  unfold Py.bind at 1. unfold Chip8b.mem_get at 1, Py.try_. rewrite Hlo.
  cbv zeta. rewrite <- Hop. unfold Py.bind at 1. unfold Py.modify at 1.
  fold (fetched_b t). rewrite Htop.
  rewrite !(drw_not_F00F op) by done.
  destruct (Z.eqb_spec op 0x00E0) as [->|_]; [done|].
  destruct (Z.eqb_spec op 0x00EE) as [->|_]; [done|].
  cbn [Z.eqb Pos.eqb]. unfold op_x, op_y, op_n.
  rewrite !Z.shiftr_land. reflexivity.
Qed.

(** What a [DXYN] instruction of the second core does when its sprite
    lies in memory. *)
Lemma cycle_drw_b_spec t rnd op :
  chip8_ok (as_chip8 t) = true → opcode_at_b t = Some op →
  Z.land op 0xF000 = 0xD000 →
  0 ≤ Chip8b.I t → Chip8b.I t + op_n op ≤ 4096 →
  ∃ vx vy t',
    Chip8b.V t !! Z.to_nat (op_x op) = Some vx
    ∧ Chip8b.V t !! Z.to_nat (op_y op) = Some vy
    ∧ Chip8b.cycle rnd t = Some (tt, t')
    ∧ (∀ idx, 0 ≤ idx < Chip8b.SCR_W * Chip8b.SCR_H →
         pixel (as_chip8 t') idx
         = Z.lxor (pixel (as_chip8 t) idx)
             (if lit (as_chip8 t) vx vy (op_n op) idx then 1 else 0))
    ∧ Chip8b.V t' !! Z.to_nat 0xF
      = Some (if collision (as_chip8 t) vx vy (op_n op) then 1 else 0).
Proof.
  intros Hok Hop Htop HI0 HIn.
  pose proof (nibble_range op) as Hn. fold (op_n op) in Hn.
  destruct (drw_spec (fetched_b t) (op_x op) (op_y op) (op_n op))
    as (vx & vy & t' & Hvx & Hvy & Hdrw & Hpix & HVF);
    [done|apply op_x_range|apply op_y_range|done|done|lia|].
  exists vx, vy, t'. split; [done|]. split; [done|]. split; [|by split].
  by rewrite (cycle_drw_b t rnd op).
Qed.

(** C1, as the code has it, for both cores.  A [DXYN] instruction
    fetched by [_cycle] of the first core draws the [n]-row sprite at
    ([V[x]], [V[y]]) and returns; so does one fetched by [cycle] of the
    second core when the [n] bytes of the sprite lie in memory (its index
    [I + row] is not masked).  The starting coordinates are reduced modulo
    the display size, and the iteration wraps as well: bit [bit] of row
    [row] lands on column [(V[x] + bit) mod W] of line [(V[y] + row) mod H],
    always on the display.  No cell is written twice; every cell is XORed
    with the sprite bit landing on it; [VF] is 1 if a set pixel becomes
    unset and 0 otherwise. *)
Theorem C1_draw_wraps s t rnd op :
  chip8_ok s = true → opcode_at s = Some op →
  chip8_ok (as_chip8 t) = true → opcode_at_b t = Some op →
  0 ≤ Chip8b.I t → Chip8b.I t + op_n op ≤ 4096 →
  Z.land op 0xF000 = 0xD000 →
  (∃ vx vy s',
     Chip8.V s !! Z.to_nat (op_x op) = Some vx
     ∧ Chip8.V s !! Z.to_nat (op_y op) = Some vy
     ∧ Chip8._cycle rnd s = Some (tt, s')
     ∧ (∀ idx, 0 ≤ idx < Chip8.W * Chip8.H →
          pixel s' idx
          = Z.lxor (pixel s idx) (if lit s vx vy (op_n op) idx then 1 else 0))
     ∧ Chip8.V s' !! Z.to_nat 0xF
       = Some (if collision s vx vy (op_n op) then 1 else 0))
  ∧ (∃ vx vy t',
       Chip8b.V t !! Z.to_nat (op_x op) = Some vx
       ∧ Chip8b.V t !! Z.to_nat (op_y op) = Some vy
       ∧ Chip8b.cycle rnd t = Some (tt, t')
       ∧ (∀ idx, 0 ≤ idx < Chip8b.SCR_W * Chip8b.SCR_H →
            pixel (as_chip8 t') idx
            = Z.lxor (pixel (as_chip8 t) idx)
                (if lit (as_chip8 t) vx vy (op_n op) idx then 1 else 0))
       ∧ Chip8b.V t' !! Z.to_nat 0xF
         = Some (if collision (as_chip8 t) vx vy (op_n op) then 1 else 0))
  ∧ (∀ vx vy row bit,
       cell vx vy row bit = cell (vx mod Chip8.W) (vy mod Chip8.H) row bit
       ∧ cell vx vy row bit = (vx + bit) mod Chip8.W + (vy + row) mod Chip8.H * Chip8.W
       ∧ 0 ≤ cell vx vy row bit < Chip8.W * Chip8.H)
  ∧ (∀ vx vy row bit row' bit',
       0 ≤ row < op_n op → 0 ≤ row' < op_n op → 0 ≤ bit < 8 → 0 ≤ bit' < 8 →
       cell vx vy row bit = cell vx vy row' bit' → row = row' ∧ bit = bit').
Proof.
  intros Hok Hop Hokt Hopt HI0 HIn Htop. pose proof Hok as (Hm & HV & Hg)%chip8_ok_elim.
  pose proof (nibble_range op) as Hn. fold (op_n op) in Hn.
  split; [|split; [|split]].
  - destruct (V_get_in_range (fetched s) (op_x op) HV (op_x_range op)) as (vx & Hvx & Hgx).
    destruct (V_get_in_range (fetched s) (op_y op) HV (op_y_range op)) as (vy & Hvy & Hgy).
    destruct (draw_spec (fetched s) vx vy (op_n op)) as (s' & Hdraw & Hpix & HVF);
      [done|lia|].
    exists vx, vy, s'. split; [done|]. split; [done|]. split; [|by split].
    rewrite (cycle_drw s rnd op) by done. unfold Py.bind. by rewrite Hgx, Hgy.
  - by apply cycle_drw_b_spec.
  - intros vx vy row bit. split; [|split].
    + unfold cell. by rewrite !Zmod_mod.
    + apply cell_wraps.
    + apply cell_range.
  - intros vx vy row bit row' bit' Hr Hr' Hb Hb'. apply cell_inj; lia.
Qed.

Lemma C1_witness :
  (∃ vx vy s',
     Chip8.V about_to_draw !! Z.to_nat (op_x 0xD015) = Some vx
     ∧ Chip8.V about_to_draw !! Z.to_nat (op_y 0xD015) = Some vy
     ∧ Chip8._cycle 0 about_to_draw = Some (tt, s')
     ∧ (∀ idx, 0 ≤ idx < Chip8.W * Chip8.H →
          pixel s' idx
          = Z.lxor (pixel about_to_draw idx)
              (if lit about_to_draw vx vy (op_n 0xD015) idx then 1 else 0))
     ∧ Chip8.V s' !! Z.to_nat 0xF
       = Some (if collision about_to_draw vx vy (op_n 0xD015) then 1 else 0))
  ∧ (∃ vx vy t',
       Chip8b.V about_to_draw_b !! Z.to_nat (op_x 0xD015) = Some vx
       ∧ Chip8b.V about_to_draw_b !! Z.to_nat (op_y 0xD015) = Some vy
       ∧ Chip8b.cycle 0 about_to_draw_b = Some (tt, t')
       ∧ (∀ idx, 0 ≤ idx < Chip8b.SCR_W * Chip8b.SCR_H →
            pixel (as_chip8 t') idx
            = Z.lxor (pixel (as_chip8 about_to_draw_b) idx)
                (if lit (as_chip8 about_to_draw_b) vx vy (op_n 0xD015) idx then 1 else 0))
       ∧ Chip8b.V t' !! Z.to_nat 0xF
         = Some (if collision (as_chip8 about_to_draw_b) vx vy (op_n 0xD015)
                 then 1 else 0))
  ∧ (∀ vx vy row bit,
       cell vx vy row bit = cell (vx mod Chip8.W) (vy mod Chip8.H) row bit
       ∧ cell vx vy row bit = (vx + bit) mod Chip8.W + (vy + row) mod Chip8.H * Chip8.W
       ∧ 0 ≤ cell vx vy row bit < Chip8.W * Chip8.H)
  ∧ (∀ vx vy row bit row' bit',
       0 ≤ row < op_n 0xD015 → 0 ≤ row' < op_n 0xD015 → 0 ≤ bit < 8 → 0 ≤ bit' < 8 →
       cell vx vy row bit = cell vx vy row' bit' → row = row' ∧ bit = bit').
Proof.
  apply (C1_draw_wraps about_to_draw about_to_draw_b 0 0xD015);
    vm_compute; first [reflexivity | discriminate].
Defined.

(** C1 fails as stated: the iteration wraps, in both cores.  [D015] with
    [V0 = 62], [V1 = 30] and [I] at the font sprite of the digit 0 draws on
    the blank display a sprite whose third column is past the right edge
    and whose third row is past the bottom edge; with clipping, no bit of
    it lands on the cells (0, 30) and (62, 0), yet after the instruction
    both are set. *)
Lemma C1_counterexample :
  opcode_at about_to_draw = Some 0xD015
  ∧ lit_clipped about_to_draw 62 30 5 (0 + 30 * 64) = false
  ∧ lit_clipped about_to_draw 62 30 5 (62 + 0 * 64) = false
  ∧ Py.getitem (Chip8.gfx about_to_draw) (0 + 30 * 64) = Some 0
  ∧ Py.getitem (Chip8.gfx about_to_draw) (62 + 0 * 64) = Some 0
  ∧ (s ← Py.exec (Chip8._cycle 0) about_to_draw;
     Py.getitem (Chip8.gfx s) (0 + 30 * 64)) = Some 1
  ∧ (s ← Py.exec (Chip8._cycle 0) about_to_draw;
     Py.getitem (Chip8.gfx s) (62 + 0 * 64)) = Some 1
  ∧ opcode_at_b about_to_draw_b = Some 0xD015
  ∧ lit_clipped (as_chip8 about_to_draw_b) 62 30 5 (0 + 30 * 64) = false
  ∧ lit_clipped (as_chip8 about_to_draw_b) 62 30 5 (62 + 0 * 64) = false
  ∧ Py.getitem (Chip8b.gfx about_to_draw_b) (0 + 30 * 64) = Some 0
  ∧ Py.getitem (Chip8b.gfx about_to_draw_b) (62 + 0 * 64) = Some 0
  ∧ (t ← Py.exec (Chip8b.cycle 0) about_to_draw_b;
     Py.getitem (Chip8b.gfx t) (0 + 30 * 64)) = Some 1
  ∧ (t ← Py.exec (Chip8b.cycle 0) about_to_draw_b;
     Py.getitem (Chip8b.gfx t) (62 + 0 * 64)) = Some 1.
Proof. evaluate. Qed.

Lemma any_zeros n : Py.any (Py.zeros n) = false.
Proof.
  unfold Py.any, Py.zeros. induction (Z.to_nat n) as [|k IH]; [done|]. by simpl.
Qed.

Lemma cls_result s :
  Chip8._cls s
  = Some (tt, Chip8.set_dirty (list_to_set (Py.range (Chip8.W * Chip8.H)))
                (if Py.any (Chip8.gfx s)
                 then Chip8.set_gfx (Py.zeros (Chip8.W * Chip8.H)) s else s)).
Proof.
  unfold Chip8._cls, Py.bind, Py.gets, Py.when, Py.modify, Py.ret.
  by destruct (Py.any (Chip8.gfx s)).
Qed.

(** C8.  [_cls] run twice leaves the machine in the state that one run
    leaves; [_draw] run twice with the same arguments, hence with the same
    sprite bytes at [I] and the same coordinates, leaves the display
    buffer as it was before the first. *)
Theorem C8_cls_idempotent_draw_twice :
  (∀ s, ∃ s1, Chip8._cls s = Some (tt, s1) ∧ Chip8._cls s1 = Some (tt, s1))
  ∧ (∀ s vx vy n, chip8_ok s = true →
       ∃ s1 s2, Chip8._draw vx vy n s = Some (tt, s1)
         ∧ Chip8._draw vx vy n s1 = Some (tt, s2)
         ∧ Chip8.gfx s2 = Chip8.gfx s).
Proof.
  split.
  - intros s. eexists. split; [apply cls_result|]. rewrite cls_result.
    destruct (Py.any (Chip8.gfx s)) eqn:Hany.
    + cbn [Chip8.gfx Chip8.set_dirty Chip8.set_gfx]. by rewrite any_zeros.
    + cbn [Chip8.gfx Chip8.set_dirty]. by rewrite Hany.
  - intros s vx vy n Hok.
    destruct (draw_state_ok s vx vy n Hok) as (Hok1 & Hm1 & Hi1).
    set (s1 := foldl _ _ _) in *.
    exists s1. eexists. split; [by apply draw_plot|]. split; [by apply draw_plot|].
    rewrite (sprite_cells_same s s1) by done.
    apply gfx_eq_pixel.
    + rewrite plots_len. cbn [Chip8.gfx Chip8.set_V]. subst s1.
      by rewrite plots_len.
    + intros j Hj. rewrite (pixel_plots _ _ j); [|cbn [Chip8.gfx Chip8.set_V]|done].
      * change (pixel (Chip8.set_V _ s1) j) with (pixel s1 j).
        subst s1. rewrite draw_pixel by done.
        rewrite Z.lxor_assoc, Z.lxor_nilpotent. apply Z.lxor_0_r.
      * apply chip8_ok_elim in Hok1 as (_ & _ & ->). apply sprite_cells_range.
Qed.

Lemma C8_witness :
  ∃ s1 s2, Chip8._draw 62 30 5 font_zero = Some (tt, s1)
    ∧ Chip8._draw 62 30 5 s1 = Some (tt, s2)
    ∧ Chip8.gfx s2 = Chip8.gfx font_zero.
Proof. apply (proj2 C8_cls_idempotent_draw_twice font_zero 62 30 5). vm_compute. reflexivity. Defined.

(** ** Beyond the specification: the memory map *)

Lemma getitem_insert_eq {A} (l : list A) i v :
  0 ≤ i < Py.len l → Py.getitem (<[Z.to_nat i := v]> l) i = Some v.
Proof.
  intros Hi. destruct (getitem_in_range (<[Z.to_nat i := v]> l) i) as [-> _].
  { by rewrite len_insert. }
  apply list_lookup_insert_eq. unfold Py.len in Hi. lia.
Qed.

Lemma getitem_insert_ne {A} (l : list A) i j v :
  0 ≤ i < Py.len l → 0 ≤ j < Py.len l → i ≠ j →
  Py.getitem (<[Z.to_nat i := v]> l) j = Py.getitem l j.
Proof.
  intros Hi Hj Hne.
  destruct (getitem_in_range (<[Z.to_nat i := v]> l) j) as [-> _].
  { by rewrite len_insert. }
  destruct (getitem_in_range l j Hj) as [-> _].
  apply list_lookup_insert_ne. lia.
Qed.

(** Case analysis on the address ranges of the memory map. *)
Ltac regions :=
  repeat match goal with
         | |- context [?x <? ?y] => destruct (Z.ltb_spec x y)
         end.

(** Projections of a memory rebuilt by a setter. *)
Ltac mmu_simpl :=
  cbn [MMU.rom MMU.rom_banks MMU.vram MMU.eram MMU.wram MMU.oam MMU.io MMU.hram
       MMU.ie MMU.rom_bank MMU.ram_enabled
       MMU.set_rom MMU.set_rom_banks MMU.set_vram MMU.set_eram MMU.set_wram
       MMU.set_oam MMU.set_io MMU.set_hram MMU.set_ie MMU.set_rom_bank
       MMU.set_ram_enabled].

(** What [MMU.write] does at an address from [0x8000] up other than the
    DMA trigger: one store into one array, or nothing. *)
Lemma write_store m addr val :
  memory_ok m → 0x8000 ≤ Z.land addr 0xFFFF → Z.land addr 0xFFFF ≠ 0xFF46 →
  let a := Z.land addr 0xFFFF in
  let v := Z.land val 0xFF in
  MMU.write addr val m
  = Some (tt,
      if a <? 0xA000 then MMU.set_vram (<[Z.to_nat (a - 0x8000) := v]> (MMU.vram m)) m
      else if a <? 0xC000 then
        if MMU.ram_enabled m
        then MMU.set_eram (<[Z.to_nat (a - 0xA000) := v]> (MMU.eram m)) m else m
      else if a <? 0xE000 then MMU.set_wram (<[Z.to_nat (a - 0xC000) := v]> (MMU.wram m)) m
      else if a <? 0xFE00 then MMU.set_wram (<[Z.to_nat (a - 0xE000) := v]> (MMU.wram m)) m
      else if a <? 0xFEA0 then MMU.set_oam (<[Z.to_nat (a - 0xFE00) := v]> (MMU.oam m)) m
      else if a <? 0xFF00 then m
      else if a <? 0xFF80 then MMU.set_io (<[Z.to_nat (a - 0xFF00) := v]> (MMU.io m)) m
      else if a <? 0xFFFF then MMU.set_hram (<[Z.to_nat (a - 0xFF80) := v]> (MMU.hram m)) m
      else MMU.set_ie v m).
Proof.
  intros Hm Ha Hd a v. mmu_facts Hm. unfold MMU.write. fold a v.
  pose proof (land_16_range addr) as Hr. fold a in Hr, Ha, Hd.
  clearbody a v. regions; try lia.
  all: unfold Py.update, Py.bind, Py.when, Py.ret, Py.modify.
  all: try (by rewrite setitem_in_range by lia).
  all: try done.
  - destruct (MMU.ram_enabled m); [|done]. by rewrite setitem_in_range by lia.
  - destruct (Z.eqb_spec a 0xFF46); [done|]. cbv beta iota.
    by rewrite setitem_in_range by lia.
Qed.

(** [MMU.read] after the contents of the OAM changed, elsewhere than at
    the byte read. *)
Lemma read_set_oam m oam' addr :
  (0xFE00 ≤ Z.land addr 0xFFFF < 0xFEA0 →
   Py.getitem oam' (Z.land addr 0xFFFF - 0xFE00)
   = Py.getitem (MMU.oam m) (Z.land addr 0xFFFF - 0xFE00)) →
  MMU.read (MMU.set_oam oam' m) addr = MMU.read m addr.
Proof.
  intros Hoam. unfold MMU.read. set (a := Z.land addr 0xFFFF) in *. clearbody a.
  mmu_simpl. regions; try done. apply Hoam. lia.
Qed.

Lemma set_oam_id m : MMU.set_oam (MMU.oam m) m = m.
Proof. by destruct m. Qed.

Lemma shiftl_8 v : Z.shiftl v 8 = v * 256.
Proof. by rewrite Z.shiftl_mul_pow2 by lia. Qed.

(** The OAM DMA loop after [k] iterations: the first [k] bytes of the OAM
    are those read from the source page in the memory as it was before the
    loop. *)
Lemma dma_loop m v (k : nat) :
  memory_ok m → 0 ≤ v ≤ 255 → (k ≤ 160)%nat →
  ∃ oam',
    Py.for_ (Py.range (Z.of_nat k)) (λ i, Py.update (MMU.dma_copy (Z.shiftl v 8) i)) m
    = Some (tt, MMU.set_oam oam' m)
    ∧ memory_ok (MMU.set_oam oam' m)
    ∧ (∀ j, 0 ≤ j < Z.of_nat k → Py.getitem oam' j = MMU.read m (Z.shiftl v 8 + j))
    ∧ (∀ j, Z.of_nat k ≤ j < 0xA0 → Py.getitem oam' j = Py.getitem (MMU.oam m) j).
Proof.
  intros Hm Hv. induction k as [|k IH]; intros Hk.
  - exists (MMU.oam m). rewrite set_oam_id. split; [done|]. split; [done|].
    split; [lia|done].
  - destruct IH as (oam' & Hloop & Hok & Hlow & Hhigh); [lia|].
    rewrite for_range_S, Hloop. unfold Py.update, MMU.dma_copy.
    assert (MMU.read (MMU.set_oam oam' m) (Z.shiftl v 8 + Z.of_nat k)
            = MMU.read m (Z.shiftl v 8 + Z.of_nat k)) as Hread.
    { apply read_set_oam. rewrite shiftl_8, land_16_id by lia. intros Ha.
      replace (v * 256 + Z.of_nat k - 0xFE00) with (Z.of_nat k) by lia.
      apply Hhigh. lia. }
    rewrite Hread.
    destruct (read_byte m (Z.shiftl v 8 + Z.of_nat k) Hm) as (x & Hx & Hbx).
    rewrite Hx. cbn [mbind option_bind]. mmu_simpl.
    mmu_facts Hok. mmu_simpl.
    assert (Py.len oam' = 0xA0) as Hlen by done.
    rewrite setitem_in_range by lia. cbn [mbind option_bind].
    exists (<[Z.to_nat (Z.of_nat k) := x]> oam'). split; [done|]. split; [|split].
    + unfold memory_ok. destruct m. simpl in *. apply mmu_ok_intro; try done.
      apply bytes_ok_insert; [done|]. by apply is_byte_spec.
    + intros j Hj. destruct (decide (j = Z.of_nat k)) as [->|Hne].
      * rewrite getitem_insert_eq by lia. done.
      * rewrite getitem_insert_ne by lia. apply Hlow. lia.
    + intros j Hj. rewrite getitem_insert_ne by lia. apply Hhigh. lia.
Qed.

(** The latch of the external RAM: a write below [0x2000]. *)
Lemma write_ram_enable m addr val :
  Z.land addr 0xFFFF < 0x2000 →
  MMU.write addr val m
  = Some (tt, MMU.set_ram_enabled (Z.land val 0x0F =? 0x0A) m).
Proof.
  intros Ha. unfold MMU.write. pose proof (land_16_range addr).
  destruct (Z.ltb_spec (Z.land addr 0xFFFF) 0x2000); [|lia].
  unfold Py.modify. rewrite <- Z.land_assoc. by change (Z.land 0xFF 0x0F) with 0x0F.
Qed.

(** Two addresses of work RAM that are not mirrors of each other have
    different offsets. *)
Lemma not_mirrored a a' :
  mirrored a a' = false → 0xC000 ≤ a < 0xFE00 → 0xC000 ≤ a' < 0xFE00 →
  a' ≠ a ∧ a' ≠ a + 0x2000 ∧ a' ≠ a - 0x2000.
Proof.
  unfold mirrored. intros Hm Ha Ha'.
  destruct (Z.leb_spec 0xC000 a); [|lia]. destruct (Z.ltb_spec a 0xFE00); [|lia].
  destruct (Z.leb_spec 0xC000 a'); [|lia]. destruct (Z.ltb_spec a' 0xFE00); [|lia].
  cbn [andb] in Hm. apply Z.eqb_neq in Hm.
  repeat split; intros ->; apply Hm.
  - by rewrite Z.sub_diag.
  - by replace (a + 0x2000 - a) with 0x2000 by lia.
  - by replace (a - 0x2000 - a) with (- 0x2000) by lia.
Qed.

Lemma is_mirrored a a' :
  mirrored a a' = true →
  0xC000 ≤ a < 0xFE00 ∧ 0xC000 ≤ a' < 0xFE00
  ∧ (a' = a ∨ a' = a + 0x2000 ∨ a' = a - 0x2000).
Proof.
  unfold mirrored. rewrite !andb_true_iff, !Z.leb_le, !Z.ltb_lt, Z.eqb_eq.
  intros [[[[? ?] ?] ?] Hmod]. split; [lia|]. split; [lia|].
  pose proof (Z.div_mod (a' - a) 0x2000 ltac:(lia)) as Hd. rewrite Hmod in Hd. lia.
Qed.

(** A write to the DMA trigger [0xFF46]: the transfer, then the store of
    the byte into the register. *)
Lemma write_dma m addr val :
  memory_ok m → Z.land addr 0xFFFF = 0xFF46 →
  ∃ oam',
    MMU.write addr val m
    = Some (tt, MMU.set_io (<[Z.to_nat 0x46 := Z.land val 0xFF]> (MMU.io m))
                  (MMU.set_oam oam' m))
    ∧ memory_ok (MMU.set_oam oam' m)
    ∧ (∀ j, 0 ≤ j < 0xA0 →
         Py.getitem oam' j = MMU.read m (Z.shiftl (Z.land val 0xFF) 8 + j)).
Proof.
  intros Hm Ha. pose proof (land_255_range val) as Hv.
  destruct (dma_loop m (Z.land val 0xFF) 160 Hm Hv) as (oam' & Hloop & Hok & Hlow & _);
    [lia|].
  exists oam'. split; [|split; [done|]].
  - unfold MMU.write. rewrite Ha. cbn [Z.ltb Z.compare Pos.compare Pos.compare_cont Z.eqb Pos.eqb].
    cbv zeta. unfold Py.bind at 1. unfold Py.when.
    change (Z.of_nat 160) with 0xA0 in Hloop. rewrite Hloop.
    unfold Py.update. mmu_facts Hok. revert H0. mmu_simpl. intros Hlen.
    by rewrite setitem_in_range by (rewrite Hlen; lia).
  - intros j Hj. apply Hlow. lia.
Qed.

Lemma stored_elim m a :
  stored m a = true →
  0x8000 ≤ a ≤ 0xFFFF
  ∧ (0xA000 ≤ a < 0xC000 → MMU.ram_enabled m = true)
  ∧ ¬ 0xFEA0 ≤ a < 0xFF00.
Proof.
  unfold stored. rewrite !andb_true_iff, !negb_true_iff, !andb_false_iff,
    !negb_false_iff, !Z.leb_le, !Z.leb_gt, !Z.ltb_ge.
  intros [[[? ?] He] Hu]. split; [lia|]. split; [|lia].
  intros ?. destruct He as [[?|?]|?]; [lia|lia|done].
Qed.

(** The byte written is the byte read back. *)
Lemma write_read_same m addr val :
  memory_ok m → stored m (Z.land addr 0xFFFF) = true →
  ∃ m', MMU.write addr val m = Some (tt, m')
      ∧ MMU.read m' addr = Some (Z.land val 0xFF).
Proof.
  intros Hm Hst. pose proof (land_16_range addr) as Hr.
  apply stored_elim in Hst as (Ha & Heram & Hun).
  destruct (decide (Z.land addr 0xFFFF = 0xFF46)) as [Hd|Hd].
  - destruct (write_dma m addr val Hm Hd) as (oam' & -> & Hok & _).
    eexists. split; [done|]. unfold MMU.read. rewrite Hd. mmu_simpl.
    cbn [Z.ltb Z.compare Pos.compare Pos.compare_cont].
    mmu_facts Hok. revert H0. mmu_simpl. intros Hlen.
    apply (getitem_insert_eq _ 0x46). rewrite Hlen. lia.
  - rewrite write_store by (done || lia). eexists. split; [done|].
    mmu_facts Hm. unfold MMU.read.
    set (a := Z.land addr 0xFFFF) in *. set (v := Z.land val 0xFF). clearbody a v.
    regions; try lia; mmu_simpl.
    all: try (apply getitem_insert_eq; lia).
    + (* external RAM *)
      destruct (MMU.ram_enabled m) eqn:Hen.
      * mmu_simpl. rewrite Hen. apply getitem_insert_eq. lia.
      * specialize (Heram ltac:(lia)). done.
    + assert (a = 0xFFFF) as -> by lia. done.
Qed.

(** XX_write_then_read.  A byte written where the memory map stores it
    (video RAM, enabled external RAM, work RAM and its echo, OAM, the I/O
    registers with the DMA trigger, high RAM, IE) is the byte read back at
    that address: [write(addr, val)] returns and [read(addr)] is then
    [val & 0xFF]. *)
Theorem XX_write_then_read m addr val :
  memory_ok m → stored m (Z.land addr 0xFFFF) = true →
  ∃ m', MMU.write addr val m = Some (tt, m')
      ∧ MMU.read m' addr = Some (Z.land val 0xFF).
Proof. apply write_read_same. Qed.

Lemma XX_write_then_read_witness :
  ∃ m', MMU.write 0xC123 0x1FF MMU.reset = Some (tt, m')
      ∧ MMU.read m' 0xC123 = Some (Z.land 0x1FF 0xFF).
Proof. apply (XX_write_then_read MMU.reset 0xC123 0x1FF); vm_compute; reflexivity. Defined.

(** XX_echo_mirror.  Work RAM and its echo are one store: a byte written
    at an address of [0xC000-0xFDFF] is read back at every address of that
    range that lies at the same offset modulo 8 KiB, so [0xE000 + k] and
    [0xC000 + k] name the same byte for [k < 0x1E00]. *)
Theorem XX_echo_mirror m addr addr' val :
  memory_ok m → mirrored (Z.land addr 0xFFFF) (Z.land addr' 0xFFFF) = true →
  ∃ m', MMU.write addr val m = Some (tt, m')
      ∧ MMU.read m' addr' = Some (Z.land val 0xFF).
Proof.
  intros Hm (Ha & Ha' & Heq)%is_mirrored.
  rewrite write_store by (done || lia). eexists. split; [done|].
  mmu_facts Hm. unfold MMU.read.
  set (a := Z.land addr 0xFFFF) in *. set (a' := Z.land addr' 0xFFFF) in *.
  set (v := Z.land val 0xFF). clearbody a a' v.
  regions; try lia; mmu_simpl.
  all: match goal with
       | |- Py.getitem (<[Z.to_nat ?i := _]> _) ?j = _ =>
           replace j with i by lia; apply getitem_insert_eq; lia
       end.
Qed.

Lemma XX_echo_mirror_witness :
  ∃ m', MMU.write 0xE010 0x5A MMU.reset = Some (tt, m')
      ∧ MMU.read m' 0xC010 = Some (Z.land 0x5A 0xFF).
Proof. apply (XX_echo_mirror MMU.reset 0xE010 0xC010 0x5A); vm_compute; reflexivity. Defined.

(** The other bytes are read as before. *)
Lemma write_read_other m addr val :
  memory_ok m → 0x8000 ≤ Z.land addr 0xFFFF → Z.land addr 0xFFFF ≠ 0xFF46 →
  ∃ m', MMU.write addr val m = Some (tt, m')
      ∧ ∀ addr', Z.land addr' 0xFFFF ≠ Z.land addr 0xFFFF →
                 mirrored (Z.land addr 0xFFFF) (Z.land addr' 0xFFFF) = false →
                 MMU.read m' addr' = MMU.read m addr'.
Proof.
  intros Hm Ha Hd. rewrite write_store by done. eexists. split; [done|].
  intros addr' Hne Hmir. pose proof (not_mirrored _ _ Hmir) as Hnm.
  pose proof (land_16_range addr) as Hr. pose proof (land_16_range addr') as Hr'.
  mmu_facts Hm. unfold MMU.read.
  set (a := Z.land addr 0xFFFF) in *. set (a' := Z.land addr' 0xFFFF) in *.
  set (v := Z.land val 0xFF). clearbody a a' v.
  destruct (Z.ltb_spec a 0xA000); [|destruct (Z.ltb_spec a 0xC000);
    [|destruct (Z.ltb_spec a 0xE000); [|destruct (Z.ltb_spec a 0xFE00);
    [|destruct (Z.ltb_spec a 0xFEA0); [|destruct (Z.ltb_spec a 0xFF00);
    [|destruct (Z.ltb_spec a 0xFF80); [|destruct (Z.ltb_spec a 0xFFFF)]]]]]]].
  all: try destruct (MMU.ram_enabled m) eqn:Hen; mmu_simpl; try rewrite Hen.
  all: regions; try lia; try done.
  all: apply getitem_insert_ne; lia.
Qed.

(** XX_write_is_local.  A write at an address from [0x8000] up, the DMA
    trigger apart, changes no other byte of the address space: every
    address that is neither the one written nor a mirror of it reads as
    before. *)
Theorem XX_write_is_local m addr val :
  memory_ok m → 0x8000 ≤ Z.land addr 0xFFFF → Z.land addr 0xFFFF ≠ 0xFF46 →
  ∃ m', MMU.write addr val m = Some (tt, m')
      ∧ ∀ addr', Z.land addr' 0xFFFF ≠ Z.land addr 0xFFFF →
                 mirrored (Z.land addr 0xFFFF) (Z.land addr' 0xFFFF) = false →
                 MMU.read m' addr' = MMU.read m addr'.
Proof. apply write_read_other. Qed.

Lemma XX_write_is_local_witness :
  ∃ m', MMU.write 0xC123 0x42 MMU.reset = Some (tt, m')
      ∧ ∀ addr', Z.land addr' 0xFFFF ≠ Z.land 0xC123 0xFFFF →
                 mirrored (Z.land 0xC123 0xFFFF) (Z.land addr' 0xFFFF) = false →
                 MMU.read m' addr' = MMU.read MMU.reset addr'.
Proof. apply (XX_write_is_local MMU.reset 0xC123 0x42); first [vm_compute; reflexivity | by vm_compute]. Defined.

(** XX_oam_dma.  Writing [val] to the DMA trigger [0xFF46] copies the 160
    bytes at [(val & 0xFF) << 8] into the OAM, each byte as [read] gave it
    before the write (also when the source page is the OAM itself or the
    I/O page), and stores [val & 0xFF] in the register; nothing else
    changes. *)
Theorem XX_oam_dma m addr val :
  memory_ok m → Z.land addr 0xFFFF = 0xFF46 →
  ∃ m', MMU.write addr val m = Some (tt, m')
      ∧ (∀ i, 0 ≤ i < 0xA0 →
           MMU.read m' (0xFE00 + i) = MMU.read m (Z.shiftl (Z.land val 0xFF) 8 + i))
      ∧ MMU.io m' = <[Z.to_nat 0x46 := Z.land val 0xFF]> (MMU.io m)
      ∧ MMU.rom m' = MMU.rom m ∧ MMU.rom_banks m' = MMU.rom_banks m
      ∧ MMU.vram m' = MMU.vram m ∧ MMU.eram m' = MMU.eram m
      ∧ MMU.wram m' = MMU.wram m ∧ MMU.hram m' = MMU.hram m
      ∧ MMU.ie m' = MMU.ie m ∧ MMU.rom_bank m' = MMU.rom_bank m
      ∧ MMU.ram_enabled m' = MMU.ram_enabled m.
Proof.
  intros Hm Ha. destruct (write_dma m addr val Hm Ha) as (oam' & -> & Hok & Hoam).
  eexists. split; [done|]. split; [|by repeat split].
  intros i Hi. rewrite <- Hoam by done. unfold MMU.read.
  rewrite land_16_id by lia. mmu_simpl.
  destruct (Z.ltb_spec (0xFE00 + i) 0x4000); [lia|].
  destruct (Z.ltb_spec (0xFE00 + i) 0x8000); [lia|].
  destruct (Z.ltb_spec (0xFE00 + i) 0xA000); [lia|].
  destruct (Z.ltb_spec (0xFE00 + i) 0xC000); [lia|].
  destruct (Z.ltb_spec (0xFE00 + i) 0xE000); [lia|].
  destruct (Z.ltb_spec (0xFE00 + i) 0xFE00); [lia|].
  destruct (Z.ltb_spec (0xFE00 + i) 0xFEA0); [|lia].
  f_equal. lia.
Qed.

Lemma XX_oam_dma_witness :
  ∃ m', MMU.write 0xFF46 0xC0 MMU.reset = Some (tt, m')
      ∧ (∀ i, 0 ≤ i < 0xA0 →
           MMU.read m' (0xFE00 + i) = MMU.read MMU.reset (Z.shiftl (Z.land 0xC0 0xFF) 8 + i))
      ∧ MMU.io m' = <[Z.to_nat 0x46 := Z.land 0xC0 0xFF]> (MMU.io MMU.reset)
      ∧ MMU.rom m' = MMU.rom MMU.reset ∧ MMU.rom_banks m' = MMU.rom_banks MMU.reset
      ∧ MMU.vram m' = MMU.vram MMU.reset ∧ MMU.eram m' = MMU.eram MMU.reset
      ∧ MMU.wram m' = MMU.wram MMU.reset ∧ MMU.hram m' = MMU.hram MMU.reset
      ∧ MMU.ie m' = MMU.ie MMU.reset ∧ MMU.rom_bank m' = MMU.rom_bank MMU.reset
      ∧ MMU.ram_enabled m' = MMU.ram_enabled MMU.reset.
Proof. apply (XX_oam_dma MMU.reset 0xFF46 0xC0); vm_compute; reflexivity. Defined.

(** XX_external_ram_gate.  The external RAM answers only while its latch
    is set.  A write below [0x2000] sets the latch exactly when the low
    nibble of the value is [0xA] and leaves the RAM contents alone; while
    the latch is clear a write to [0xA000-0xBFFF] changes nothing and a
    read there gives [0xFF]; a byte written while the latch was set is
    hidden by clearing the latch and is read back once the latch is set
    again. *)
Theorem XX_external_ram_gate m e addr val :
  memory_ok m → Z.land e 0xFFFF < 0x2000 → 0xA000 ≤ Z.land addr 0xFFFF < 0xC000 →
  (∀ k, ∃ m', MMU.write e k m = Some (tt, m')
            ∧ MMU.ram_enabled m' = (Z.land k 0x0F =? 0x0A)
            ∧ MMU.eram m' = MMU.eram m)
  ∧ (MMU.ram_enabled m = false →
     MMU.write addr val m = Some (tt, m) ∧ MMU.read m addr = Some 0xFF)
  ∧ (∃ m1 m2, Py.exec (MMU.write e 0x0A ;; MMU.write addr val ;; MMU.write e 0x00)%py m
              = Some m1
            ∧ MMU.read m1 addr = Some 0xFF
            ∧ MMU.write e 0x0A m1 = Some (tt, m2)
            ∧ MMU.read m2 addr = Some (Z.land val 0xFF)).
Proof.
  intros Hm He Ha. mmu_facts Hm. split; [|split].
  - intros k. rewrite write_ram_enable by done. by eexists.
  - intros Hen. rewrite write_store by (done || lia).
    unfold MMU.read. set (a := Z.land addr 0xFFFF) in *. clearbody a.
    regions; try lia. by rewrite Hen.
  - unfold Py.exec, Py.bind. rewrite write_ram_enable by done.
    change (Z.land 0x0A 0x0F =? 0x0A) with true.
    rewrite write_store; [|unfold memory_ok; mmu_rebuild m|lia|lia].
    rewrite write_ram_enable by done. change (Z.land 0x00 0x0F =? 0x0A) with false.
    cbn [fmap option_fmap option_map snd].
    eexists _, _. split; [done|]. rewrite write_ram_enable by done.
    change (Z.land 0x0A 0x0F =? 0x0A) with true.
    split; [|split; [done|]].
    + unfold MMU.read. set (a := Z.land addr 0xFFFF) in *. clearbody a.
      regions; try lia. done.
    + unfold MMU.read. set (a := Z.land addr 0xFFFF) in *. clearbody a.
      regions; try lia. mmu_simpl. apply getitem_insert_eq. lia.
Qed.

Lemma XX_external_ram_gate_witness :
  (∀ k, ∃ m', MMU.write 0x0000 k MMU.reset = Some (tt, m')
            ∧ MMU.ram_enabled m' = (Z.land k 0x0F =? 0x0A)
            ∧ MMU.eram m' = MMU.eram MMU.reset)
  ∧ (MMU.ram_enabled MMU.reset = false →
     MMU.write 0xA000 0x77 MMU.reset = Some (tt, MMU.reset)
     ∧ MMU.read MMU.reset 0xA000 = Some 0xFF)
  ∧ (∃ m1 m2, Py.exec (MMU.write 0x0000 0x0A ;; MMU.write 0xA000 0x77 ;;
                       MMU.write 0x0000 0x00)%py MMU.reset
              = Some m1
            ∧ MMU.read m1 0xA000 = Some 0xFF
            ∧ MMU.write 0x0000 0x0A m1 = Some (tt, m2)
            ∧ MMU.read m2 0xA000 = Some (Z.land 0x77 0xFF)).
Proof.
  apply (XX_external_ram_gate MMU.reset 0x0000 0xA000 0x77);
    first [vm_compute; reflexivity | by vm_compute].
Defined.

(** ** Beyond the specification: the CPU registers *)

(** Equality of two integers bit by bit, for masks that are runs of
    ones. *)
Lemma testbit_mask v n k : 0 ≤ n → 0 ≤ k → Z.testbit (Z.land v (Z.ones k)) n = Z.testbit v n && (n <? k).
Proof. intros. by rewrite Z.land_spec, Z.testbit_ones_nonneg by lia. Qed.

Ltac bit_step :=
  first
    [ rewrite Z.lor_spec | rewrite Z.land_spec | rewrite Z.lxor_spec
    | rewrite Z.bits_0
    | match goal with
      | |- context [Z.testbit ?a ?i] => rewrite (Z.testbit_neg_r a i) by lia
      | |- context [Z.testbit (Z.shiftl ?a ?k) ?i] => rewrite (Z.shiftl_spec a k i) by lia
      | |- context [Z.testbit (Z.shiftr ?a ?k) ?i] => rewrite (Z.shiftr_spec a k i) by lia
      | |- context [Z.testbit (Z.ones ?k) ?i] => rewrite (Z.testbit_ones_nonneg k i) by lia
      | |- context [Z.testbit (2 ^ ?k) ?i] => rewrite (Z.pow2_bits_eqb k i) by lia
      | |- context [Z.testbit _ (?i - ?k)] =>
          assert_fails (assert (0 ≤ i - k) by lia);
          assert_fails (assert (i - k < 0) by lia);
          destruct (Z.lt_ge_cases (i - k) 0)
      end ].

Ltac bitblast :=
  apply Z.bits_inj'; intros ?n ?Hn;
  repeat bit_step;
  repeat match goal with
         | |- context [?x <? ?y] => destruct (Z.ltb_spec x y)
         | |- context [?x =? ?y] => destruct (Z.eqb_spec x y)
         end;
  rewrite ?andb_true_r, ?andb_false_r, ?orb_false_r, ?orb_false_l, ?orb_true_r,
    ?andb_true_l, ?andb_false_l;
  try lia; try reflexivity;
  try (f_equal; lia).

Lemma pair_round_trip v :
  Z.lor (Z.shiftl (Z.land (Z.shiftr v 8) 0xFF) 8) (Z.land v 0xFF) = Z.land v 0xFFFF.
Proof.
  change 0xFF with (Z.ones 8). change 0xFFFF with (Z.ones 16). bitblast.
Qed.

Lemma af_round_trip v :
  Z.lor (Z.shiftl (Z.land (Z.shiftr v 8) 0xFF) 8) (Z.land (Z.land v 0xF0) 0xF0)
  = Z.land v 0xFFF0.
Proof.
  change 0xFF with (Z.ones 8). change 0xF0 with (Z.shiftl (Z.ones 4) 4).
  change 0xFFF0 with (Z.shiftl (Z.ones 12) 4). bitblast.
Qed.

(** XX_register_pairs.  A register pair read after it was set holds the
    value set, reduced to 16 bits; for [AF] the low nibble of [F] is
    dropped as well, so the pair holds [v & 0xFFF0]. *)
Theorem XX_register_pairs s v :
  fst <$> (CPU.set_bc v ;; CPU.bc)%py s = Some (Z.land v 0xFFFF)
  ∧ fst <$> (CPU.set_de v ;; CPU.de)%py s = Some (Z.land v 0xFFFF)
  ∧ fst <$> (CPU.set_hl v ;; CPU.hl)%py s = Some (Z.land v 0xFFFF)
  ∧ fst <$> (CPU.set_af v ;; CPU.af)%py s = Some (Z.land v 0xFFF0).
Proof.
  repeat split; cbn; f_equal; first [apply pair_round_trip | apply af_round_trip].
Qed.

(** Testing a flag is testing a bit. *)
Lemma truthy_bit x k : 0 ≤ k → Py.truthy (Z.land x (2 ^ k)) = Z.testbit x k.
Proof.
  intros Hk. unfold Py.truthy.
  assert (Z.land x (2 ^ k) = if Z.testbit x k then 2 ^ k else 0) as ->.
  { apply Z.bits_inj'. intros n Hn. rewrite Z.land_spec, Z.pow2_bits_eqb by lia.
    destruct (Z.eqb_spec k n) as [->|Hne].
    - rewrite andb_true_r. destruct (Z.testbit x n) eqn:Hb.
      + by rewrite Z.pow2_bits_true.
      + by rewrite Z.bits_0.
    - rewrite andb_false_r. destruct (Z.testbit x k).
      + by rewrite Z.pow2_bits_false.
      + by rewrite Z.bits_0. }
  destruct (Z.testbit x k); [|done].
  apply negb_true_iff, Z.eqb_neq. pose proof (Z.pow_pos_nonneg 2 k). lia.
Qed.

(** The flags of a machine are four bits of [F]. *)
Lemma flags_bits s :
  flags s = Some ((Z.testbit (Regs.f (Sys.cpu s)) 7, Z.testbit (Regs.f (Sys.cpu s)) 6,
                   Z.testbit (Regs.f (Sys.cpu s)) 5, Z.testbit (Regs.f (Sys.cpu s)) 4), s).
Proof.
  unfold flags, CPU.zf, CPU.nf, CPU.hf, CPU.cf, CPU.get, Py.bind, Py.gets, Py.ret.
  change 0x80 with (2 ^ 7). change 0x40 with (2 ^ 6). change 0x20 with (2 ^ 5).
  change 0x10 with (2 ^ 4). by rewrite !truthy_bit by lia.
Qed.

(** XX_flag_setters.  Setting one of the flags Z, N, H, C gives that flag
    the value set and leaves the other three as they were. *)
Theorem XX_flag_setters s (v : bool) :
  fst <$> (CPU.set_zf v ;; flags)%py s = (λ '(z, n, h, c), (v, n, h, c)) <$> (fst <$> flags s)
  ∧ fst <$> (CPU.set_nf v ;; flags)%py s = (λ '(z, n, h, c), (z, v, h, c)) <$> (fst <$> flags s)
  ∧ fst <$> (CPU.set_hf v ;; flags)%py s = (λ '(z, n, h, c), (z, n, v, c)) <$> (fst <$> flags s)
  ∧ fst <$> (CPU.set_cf v ;; flags)%py s = (λ '(z, n, h, c), (z, n, h, v)) <$> (fst <$> flags s).
Proof.
  rewrite flags_bits. cbn [fmap option_fmap option_map fst].
  unfold Py.bind, CPU.set_zf, CPU.set_nf, CPU.set_hf, CPU.set_cf, CPU.get, CPU.set,
    Py.bind, Py.gets, Py.modify.
  rewrite !flags_bits. cbn [fmap option_fmap option_map fst Sys.cpu Sys.set_cpu Regs.f Regs.set_f].
  rewrite !Z.lor_spec, !Z.land_spec.
  repeat split; destruct v; cbn [Z.testbit Pos.testbit N.pred Pos.pred_N Z.to_N Pos.pred_double];
    rewrite ?andb_true_r, ?andb_false_r, ?orb_false_r, ?orb_true_r; reflexivity.
Qed.

Lemma plain_ram_elim a :
  plain_ram a = true →
  0x8000 ≤ a < 0xA000 ∨ 0xC000 ≤ a < 0xFEA0 ∨ 0xFF80 ≤ a < 0xFFFF.
Proof.
  unfold plain_ram. rewrite !orb_true_iff, !andb_true_iff, !Z.leb_le, !Z.ltb_lt. tauto.
Qed.

Lemma plain_ram_stored m a : plain_ram a = true → stored m a = true.
Proof.
  intros Ha%plain_ram_elim. unfold stored.
  rewrite !andb_true_iff, !negb_true_iff, !andb_false_iff, !negb_false_iff,
    !Z.leb_le, !Z.leb_gt, !Z.ltb_ge.
  repeat split; lia.
Qed.

Lemma plain_ram_not_mirrored a : mirrored a (a - 1) = false ∧ mirrored (a - 1) a = false.
Proof.
  unfold mirrored. rewrite !andb_false_iff, !Z.eqb_neq.
  replace (a - 1 - a) with (-1) by lia. replace (a - (a - 1)) with 1 by lia.
  split; right; done.
Qed.

Lemma land_16_succ a : Z.land (Z.land (a - 1) 0xFFFF + 1) 0xFFFF = Z.land a 0xFFFF.
Proof.
  pose proof (Z.land_ones (a - 1) 16) as H1. pose proof (Z.land_ones a 16) as H2.
  pose proof (Z.land_ones ((a - 1) mod 2 ^ 16 + 1) 16) as H3.
  change (Z.ones 16) with 0xFFFF in *. rewrite H1, H3, H2 by lia.
  rewrite Zplus_mod_idemp_l. f_equal. lia.
Qed.

(** XX_push_pop.  With the two bytes below [SP] in RAM that is always
    mapped, [pop] after [push(val)] returns [val & 0xFFFF] and leaves
    [SP] (reduced to 16 bits) and the other registers as they were. *)
Theorem XX_push_pop s val :
  memory_ok (Sys.mmu s) →
  plain_ram (Z.land (Regs.sp (Sys.cpu s) - 1) 0xFFFF) = true →
  plain_ram (Z.land (Regs.sp (Sys.cpu s) - 1) 0xFFFF - 1) = true →
  ∃ s', (CPU.push val ;; CPU.pop)%py s = Some (Z.land val 0xFFFF, s')
      ∧ Sys.cpu s' = Regs.set_sp (Z.land (Regs.sp (Sys.cpu s)) 0xFFFF) (Sys.cpu s).
Proof.
  intros Hm H1 H2. set (a1 := Z.land (Regs.sp (Sys.cpu s) - 1) 0xFFFF) in *.
  pose proof (plain_ram_elim _ H1) as Hr1. pose proof (plain_ram_elim _ H2) as Hr2.
  assert (Z.land (a1 - 1) 0xFFFF = a1 - 1) as Ha2 by (apply land_16_id; lia).
  assert (Z.land a1 0xFFFF = a1) as Ha1 by (apply land_16_id; lia).
  (* the two stores of [push] *)
  destruct (write_read_same (Sys.mmu s) a1 (Z.land (Z.shiftr val 8) 0xFF) Hm)
    as (m1 & Hw1 & Hrd1); [rewrite Ha1; by apply plain_ram_stored|].
  assert (memory_ok m1) as Hm1.
  { destruct (write_ok a1 (Z.land (Z.shiftr val 8) 0xFF) (Sys.mmu s) Hm)
      as (? & m1' & Hw1' & ?). congruence. }
  destruct (write_read_same m1 (a1 - 1) (Z.land val 0xFF) Hm1)
    as (m2 & Hw2 & Hrd2); [rewrite Ha2; by apply plain_ram_stored|].
  destruct (write_read_other m1 (a1 - 1) (Z.land val 0xFF) Hm1)
    as (m2' & Hw2' & Hother); [lia|lia|].
  assert (m2' = m2) as -> by congruence.
  assert (MMU.read m2 a1 = Some (Z.land (Z.shiftr val 8) 0xFF)) as Hhi.
  { rewrite Hother, Hrd1; [|lia|].
    - f_equal. rewrite <- Z.land_assoc. by change (Z.land 0xFF 0xFF) with 0xFF.
    - rewrite Ha1, Ha2. apply plain_ram_not_mirrored. }
  assert (Z.land (Z.land val 0xFF) 0xFF = Z.land val 0xFF) as Hlo.
  { rewrite <- Z.land_assoc. by change (Z.land 0xFF 0xFF) with 0xFF. }
  rewrite Hlo in Hrd2.
  eexists. split.
  - unfold CPU.push, CPU.pop, CPU.get, CPU.set, CPU.mmu_write, CPU.mmu_read, Sys.on_mmu,
      Py.bind, Py.gets, Py.modify, Py.try_, Py.ret.
    cbn [Sys.cpu Sys.mmu Sys.set_cpu Sys.set_mmu Regs.sp Regs.set_sp].
    fold a1. rewrite Hw1.
    cbn [Sys.cpu Sys.mmu Sys.set_cpu Sys.set_mmu Regs.sp Regs.set_sp].
    rewrite Ha2, Hw2.
    cbn [Sys.cpu Sys.mmu Sys.set_cpu Sys.set_mmu Regs.sp Regs.set_sp].
    rewrite Hrd2.
    cbn [Sys.cpu Sys.mmu Sys.set_cpu Sys.set_mmu Regs.sp Regs.set_sp].
    replace (a1 - 1 + 1) with a1 by lia. rewrite Ha1, Hhi.
    cbn [Sys.cpu Sys.mmu Sys.set_cpu Sys.set_mmu Regs.sp Regs.set_sp].
    rewrite pair_round_trip. reflexivity.
  - cbn [Sys.cpu Sys.mmu Sys.set_cpu Sys.set_mmu Regs.sp Regs.set_sp].
    unfold a1. rewrite land_16_succ. by destruct (Sys.cpu s).
Qed.

Lemma XX_push_pop_witness :
  ∃ s', (CPU.push 0x1234 ;; CPU.pop)%py GameBoy.init = Some (Z.land 0x1234 0xFFFF, s')
      ∧ Sys.cpu s'
        = Regs.set_sp (Z.land (Regs.sp (Sys.cpu GameBoy.init)) 0xFFFF) (Sys.cpu GameBoy.init).
Proof. apply (XX_push_pop GameBoy.init 0x1234); vm_compute; reflexivity. Defined.

(** ** Beyond the specification: what one CPU step does and returns *)

Create HintDb frame discriminated.

(** A property [Q] of the machine that assignments to the registers and
    writes through the MMU maintain is maintained by every method of the
    CPU. *)
Section cpu_maintains.
Context (Q : Sys.t → Prop).
Context (Q_cpu : ∀ s r, Q s → Q (Sys.set_cpu r s)).
Context (Q_write : ∀ addr val, maintains Q (CPU.mmu_write addr val)).

Lemma get_keeps {A} (r : Regs.t → A) : maintains Q (CPU.get r).
Proof. apply maintains_gets. Qed.

Lemma set_keeps {A} (u : A → Regs.t → Regs.t) v : maintains Q (CPU.set u v).
Proof. apply maintains_modify. intros s Hs. by apply Q_cpu. Qed.

Lemma mmu_read_keeps addr : maintains Q (CPU.mmu_read addr).
Proof. apply maintains_try. Qed.

#[local] Hint Resolve maintains_ret maintains_bind maintains_if maintains_when
  maintains_try get_keeps set_keeps mmu_read_keeps Q_write : frame.

Ltac keeps := cbv zeta; repeat apply maintains_if; auto 40 with frame.

Lemma zf_keeps : maintains Q CPU.zf.  Proof. unfold CPU.zf. keeps. Qed.
Lemma nf_keeps : maintains Q CPU.nf.  Proof. unfold CPU.nf. keeps. Qed.
Lemma hf_keeps : maintains Q CPU.hf.  Proof. unfold CPU.hf. keeps. Qed.
Lemma cf_keeps : maintains Q CPU.cf.  Proof. unfold CPU.cf. keeps. Qed.
Lemma set_zf_keeps v : maintains Q (CPU.set_zf v).  Proof. unfold CPU.set_zf. keeps. Qed.
Lemma set_nf_keeps v : maintains Q (CPU.set_nf v).  Proof. unfold CPU.set_nf. keeps. Qed.
Lemma set_hf_keeps v : maintains Q (CPU.set_hf v).  Proof. unfold CPU.set_hf. keeps. Qed.
Lemma set_cf_keeps v : maintains Q (CPU.set_cf v).  Proof. unfold CPU.set_cf. keeps. Qed.
#[local] Hint Resolve zf_keeps nf_keeps hf_keeps cf_keeps
  set_zf_keeps set_nf_keeps set_hf_keeps set_cf_keeps : frame.

Lemma af_keeps : maintains Q CPU.af.  Proof. unfold CPU.af. keeps. Qed.
Lemma bc_keeps : maintains Q CPU.bc.  Proof. unfold CPU.bc. keeps. Qed.
Lemma de_keeps : maintains Q CPU.de.  Proof. unfold CPU.de. keeps. Qed.
Lemma hl_keeps : maintains Q CPU.hl.  Proof. unfold CPU.hl. keeps. Qed.
Lemma set_af_keeps v : maintains Q (CPU.set_af v).  Proof. unfold CPU.set_af. keeps. Qed.
Lemma set_bc_keeps v : maintains Q (CPU.set_bc v).  Proof. unfold CPU.set_bc. keeps. Qed.
Lemma set_de_keeps v : maintains Q (CPU.set_de v).  Proof. unfold CPU.set_de. keeps. Qed.
Lemma set_hl_keeps v : maintains Q (CPU.set_hl v).  Proof. unfold CPU.set_hl. keeps. Qed.
#[local] Hint Resolve af_keeps bc_keeps de_keeps hl_keeps
  set_af_keeps set_bc_keeps set_de_keeps set_hl_keeps : frame.

Lemma fetch_keeps : maintains Q CPU.fetch.  Proof. unfold CPU.fetch. keeps. Qed.
#[local] Hint Resolve fetch_keeps : frame.
Lemma fetch16_keeps : maintains Q CPU.fetch16.  Proof. unfold CPU.fetch16. keeps. Qed.
Lemma push_keeps v : maintains Q (CPU.push v).  Proof. unfold CPU.push. keeps. Qed.
Lemma pop_keeps : maintains Q CPU.pop.  Proof. unfold CPU.pop. keeps. Qed.
Lemma _inc_keeps v : maintains Q (CPU._inc v).  Proof. unfold CPU._inc. keeps. Qed.
Lemma _dec_keeps v : maintains Q (CPU._dec v).  Proof. unfold CPU._dec. keeps. Qed.
#[local] Hint Resolve fetch16_keeps push_keeps pop_keeps _inc_keeps _dec_keeps : frame.
Lemma _add_hl_keeps v : maintains Q (CPU._add_hl v).
Proof. unfold CPU._add_hl. keeps. Qed.
Lemma _get_r_keeps r : maintains Q (CPU._get_r r).
Proof. unfold CPU._get_r. keeps. Qed.
Lemma _set_r_keeps r v : maintains Q (CPU._set_r r v).
Proof. unfold CPU._set_r. keeps. Qed.
#[local] Hint Resolve _add_hl_keeps _get_r_keeps _set_r_keeps : frame.
Lemma _alu_keeps op v : maintains Q (CPU._alu op v).
Proof. unfold CPU._alu. keeps. Qed.
Lemma jump_rel_keeps off : maintains Q (CPU.jump_rel off).
Proof. unfold CPU.jump_rel. keeps. Qed.
Lemma call_keeps target : maintains Q (CPU.call target).
Proof. unfold CPU.call. keeps. Qed.
Lemma return_keeps : maintains Q CPU.return_.
Proof. unfold CPU.return_. keeps. Qed.
#[local] Hint Resolve _alu_keeps jump_rel_keeps call_keeps return_keeps : frame.

Lemma _exec_cb_keeps op : maintains Q (CPU._exec_cb op).
Proof. unfold CPU._exec_cb. keeps. Qed.
#[local] Hint Resolve _exec_cb_keeps : frame.

Lemma _exec_keeps op : maintains Q (CPU._exec op).
Proof. unfold CPU._exec. keeps. Qed.

Lemma step_keeps : maintains Q CPU.step.
Proof. unfold CPU.step. pose proof _exec_keeps. keeps. Qed.

End cpu_maintains.

(** [MMU.write] never stores into the ROM. *)
Lemma write_keeps_rom r bs addr val :
  maintains (λ m, MMU.rom m = r ∧ MMU.rom_banks m = bs) (MMU.write addr val).
Proof.
  unfold MMU.write. cbv zeta.
  repeat apply maintains_if.
  all: try apply maintains_ret.
  all: try (apply maintains_modify; by intros m [? ?]).
  all: try (apply maintains_update; intros m m' [? ?] Hs;
            repeat case_match; simplify_option_eq; by mmu_simpl).
  - apply maintains_bind; [|intros _; apply maintains_modify; intros m [? ?];
      by destruct (MMU.rom_bank m =? 0)].
    apply maintains_modify. by intros m [? ?].
  - apply maintains_bind.
    + apply maintains_when, maintains_for. intros i. apply maintains_update.
      intros m m' [? ?] Hs. unfold MMU.dma_copy in Hs. simplify_option_eq. by mmu_simpl.
    + intros _. apply maintains_update. intros m m' [? ?] Hs.
      simplify_option_eq. by mmu_simpl.
Qed.

Lemma mmu_write_frame s0 addr val : maintains (cpu_frame s0) (CPU.mmu_write addr val).
Proof.
  intros s [] s' (Hrom & Hbanks & Hrest) Hw. unfold CPU.mmu_write, Sys.on_mmu in Hw.
  destruct (MMU.write addr val (Sys.mmu s)) as [[[] m']|] eqn:Hm; [|done].
  simplify_eq. pose proof (write_keeps_rom _ _ addr val (Sys.mmu s) tt m'
    (conj Hrom Hbanks) Hm) as [? ?].
  by split.
Qed.

Lemma set_cpu_frame s0 s r : cpu_frame s0 s → cpu_frame s0 (Sys.set_cpu r s).
Proof. done. Qed.

Lemma cpu_frame_refl s : cpu_frame s s.
Proof. by repeat split. Qed.

(** XX_cpu_step_frame.  One step of the CPU, whatever the instruction,
    returns on a well-formed machine and changes neither the cartridge ROM
    and its banks, nor the state of the PPU (framebuffer, scanline counter,
    frame flag), nor the running and paused flags, nor the button latch. *)
Theorem XX_cpu_step_frame s :
  machine_ok s →
  ∃ cyc s', CPU.step s = Some (cyc, s') ∧ cpu_frame s s'.
Proof.
  intros Hs. destruct (step_ok frame_ok s Hs) as (cyc & s' & Hstep & _).
  exists cyc, s'. split; [done|].
  apply (step_keeps (cpu_frame s) (set_cpu_frame s) (mmu_write_frame s) s cyc s');
    [apply cpu_frame_refl|done].
Qed.

Lemma XX_cpu_step_frame_witness :
  ∃ cyc s', CPU.step GameBoy.init = Some (cyc, s') ∧ cpu_frame GameBoy.init s'.
Proof.
  apply (XX_cpu_step_frame GameBoy.init).
  split; [vm_compute; reflexivity|]. split; vm_compute; reflexivity.
Defined.

(** *** The cycle counts *)

Section returns_rules.
Context {St : Type}.

Lemma returns_ret {A} (Q : A → Prop) (x : A) : Q x → returns Q (Py.ret (S:=St) x).
Proof. intros Hx s y s' Hr. unfold Py.ret in Hr. by simplify_eq. Qed.

Lemma returns_bind {A B} (Q : B → Prop) (m : Py.M St A) (k : A → Py.M St B) :
  (∀ x, returns Q (k x)) → returns Q (Py.bind m k).
Proof.
  intros Hk s y s' Hr. unfold Py.bind in Hr.
  destruct (m s) as [[x s1]|]; [|done]. by eapply Hk.
Qed.

Lemma returns_if {A} (Q : A → Prop) (c : bool) (m1 m2 : Py.M St A) :
  returns Q m1 → returns Q m2 → returns Q (if c then m1 else m2).
Proof. by destruct c. Qed.

End returns_rules.

Lemma cycle_counts_intro c :
  c = 4 ∨ c = 8 ∨ c = 12 ∨ c = 16 ∨ c = 20 ∨ c = 24 → c ∈ cycle_counts.
Proof. unfold cycle_counts. rewrite !elem_of_cons. tauto. Qed.

Ltac cycles :=
  cbv zeta;
  repeat first
    [ apply returns_if
    | apply returns_bind; intros ?
    | apply returns_ret, cycle_counts_intro; repeat case_match; lia ].

Lemma _exec_cb_cycles op : returns (.∈ cycle_counts) (CPU._exec_cb op).
Proof. unfold CPU._exec_cb. cycles. Qed.

Lemma _exec_cycles op : returns (.∈ cycle_counts) (CPU._exec op).
Proof. unfold CPU._exec. pose proof _exec_cb_cycles. cycles. Qed.

(** XX_cpu_step_cycles.  On a well-formed machine one step of the CPU
    returns, with a cycle count that is one of 4, 8, 12, 16, 20 and 24,
    and the machine is well formed again. *)
Theorem XX_cpu_step_cycles s :
  machine_ok s →
  ∃ cyc s', CPU.step s = Some (cyc, s') ∧ cyc ∈ cycle_counts ∧ machine_ok s'.
Proof.
  intros Hs. destruct (step_ok frame_ok s Hs) as (cyc & s' & Hstep & Hs').
  exists cyc, s'. split; [done|]. split; [|done].
  revert Hstep. unfold CPU.step, CPU.get, Py.bind, Py.gets.
  destruct (Regs.halted (Sys.cpu s)).
  - unfold Py.ret. intros [= <- <-]. apply cycle_counts_intro. lia.
  - destruct (CPU.fetch s) as [[op s1]|]; [|done]. apply _exec_cycles.
Qed.

Lemma XX_cpu_step_cycles_witness :
  ∃ cyc s', CPU.step GameBoy.init = Some (cyc, s') ∧ cyc ∈ cycle_counts ∧ machine_ok s'.
Proof.
  apply (XX_cpu_step_cycles GameBoy.init).
  split; [vm_compute; reflexivity|]. split; vm_compute; reflexivity.
Defined.

(** ** Beyond the specification: the arithmetic of the accumulator *)

(** Run a method of the CPU on a machine given by its fields, leaving the
    arithmetic on integers alone. *)
Ltac run_cpu s :=
  destruct s as [?m [?a ?f ?b ?c ?d ?e ?h ?l ?sp ?pc ?ime ?halted ?cycles] ?p ?run ?pau ?but];
  cbv -[Z.land Z.lor Z.lxor Z.add Z.sub Z.mul Z.gtb Z.ltb Z.eqb Z.geb Z.leb Z.testbit
        Z.shiftl Z.shiftr Z.lnot Z.le Z.lt].

(** The bits of [F] once the conditions of the flags are decided. *)
Ltac flag_bits :=
  repeat first [rewrite Z.lor_spec | rewrite Z.land_spec];
  repeat match goal with
         | |- context [if ?c then _ else _] => destruct c eqn:?
         end;
  cbn [Z.testbit Pos.testbit N.pred Pos.pred_N Z.to_N Pos.pred_double];
  rewrite ?andb_true_r, ?andb_false_r, ?orb_false_r, ?orb_true_r.

(** Run [_alu(op, v)] followed by a reading of the flags on a machine
    given by its fields. *)
Ltac run_alu op v :=
  unfold Py.bind;
  lazymatch goal with
  | |- context [CPU._alu op v ?s] =>
      let t := eval unfold CPU._alu in (CPU._alu op v s) in
      let t := eval cbn [Z.eqb Pos.eqb] in t in
      let t := eval cbv -[Z.land Z.lor Z.lxor Z.add Z.sub Z.mul Z.gtb Z.ltb Z.eqb Z.geb
                          Z.leb Z.testbit Z.shiftl Z.shiftr Z.lnot Z.le Z.lt Py.truthy] in t in
      change (CPU._alu op v s) with t
  end;
  cbv beta iota;
  try (change (Py.truthy (Z.land ?x 16)) with (Py.truthy (Z.land x (2 ^ 4)));
       rewrite truthy_bit by lia);
  lazymatch goal with |- context [flags ?st] => exists st end;
  rewrite flags_bits; cbn [Sys.cpu Regs.a Regs.f].

(** [x & 0xFF] as a remainder. *)
Ltac byte_of x :=
  let H := fresh in
  pose proof (Z.land_ones x 8 ltac:(lia)) as H;
  change (Z.ones 8) with 0xFF in H; change (2 ^ 8) with 256 in H;
  rewrite H in *; clear H;
  pose proof (Z.div_mod x 256 ltac:(lia));
  pose proof (Z.mod_pos_bound x 256 ltac:(lia)).

(** XX_alu_carry.  For a byte in [A] and a byte operand, the accumulator
    and the carry flag after [ADD], [ADC], [SUB] and [SBC] together hold
    the exact result: [A' + 256*C' = A + v (+ C)] for the additions and
    [A' - 256*C' = A - v (- C)] for the subtractions, with [A'] a byte,
    [Z] set exactly when [A'] is zero and [N] telling a subtraction.
    [CP] leaves [A] alone and sets [Z] exactly when [A = v] and [C]
    exactly when [A < v]. *)
Theorem XX_alu_carry s v z0 n0 h0 c0 :
  0 ≤ Regs.a (Sys.cpu s) ≤ 255 → 0 ≤ v ≤ 255 →
  fst <$> flags s = Some (z0, n0, h0, c0) →
  let a := Regs.a (Sys.cpu s) in
  (∃ s' h c, (CPU._alu 0 v ;; flags)%py s = Some (Regs.a (Sys.cpu s') =? 0, false, h, c, s')
     ∧ 0 ≤ Regs.a (Sys.cpu s') ≤ 255
     ∧ Regs.a (Sys.cpu s') + 256 * Py.of_bool c = a + v)
  ∧ (∃ s' h c, (CPU._alu 1 v ;; flags)%py s = Some (Regs.a (Sys.cpu s') =? 0, false, h, c, s')
     ∧ 0 ≤ Regs.a (Sys.cpu s') ≤ 255
     ∧ Regs.a (Sys.cpu s') + 256 * Py.of_bool c = a + v + Py.of_bool c0)
  ∧ (∃ s' h c, (CPU._alu 2 v ;; flags)%py s = Some (Regs.a (Sys.cpu s') =? 0, true, h, c, s')
     ∧ 0 ≤ Regs.a (Sys.cpu s') ≤ 255
     ∧ Regs.a (Sys.cpu s') - 256 * Py.of_bool c = a - v)
  ∧ (∃ s' h c, (CPU._alu 3 v ;; flags)%py s = Some (Regs.a (Sys.cpu s') =? 0, true, h, c, s')
     ∧ 0 ≤ Regs.a (Sys.cpu s') ≤ 255
     ∧ Regs.a (Sys.cpu s') - 256 * Py.of_bool c = a - v - Py.of_bool c0)
  ∧ (∃ s' h, (CPU._alu 7 v ;; flags)%py s = Some (a =? v, true, h, a <? v, s')
     ∧ Regs.a (Sys.cpu s') = a).
Proof.
  intros Ha Hv Hfl. rewrite flags_bits in Hfl. cbn [fmap option_fmap option_map fst] in Hfl.
  assert (c0 = Z.testbit (Regs.f (Sys.cpu s)) 4) as -> by congruence. clear Hfl.
  cbv zeta. unfold Py.of_bool.
  destruct s as [m [a f b c d e h l sp pc ime halted cycles] p run pau but].
  cbn [Sys.cpu Regs.a Regs.f] in *.
  repeat apply conj.
  - run_alu 0 v. exists (Z.land a 15 + Z.land v 15 >? 15), (a + v >? 255).
    split; [f_equal; f_equal; flag_bits; reflexivity|].
    byte_of (a + v). rewrite Z.gtb_ltb. destruct (Z.ltb_spec 255 (a + v)); lia.
  - run_alu 1 v. unfold Py.of_bool. set (cin := Z.testbit f 4).
    exists (Z.land a 15 + Z.land v 15 + (if cin then 1 else 0) >? 15),
      (a + v + (if cin then 1 else 0) >? 255).
    split; [f_equal; f_equal; clearbody cin; flag_bits; reflexivity|].
    byte_of (a + v + (if cin then 1 else 0)). rewrite Z.gtb_ltb.
    destruct (Z.ltb_spec 255 (a + v + (if cin then 1 else 0))); destruct cin; lia.
  - run_alu 2 v. exists (Z.land a 15 <? Z.land v 15), (a - v <? 0).
    split; [f_equal; f_equal; flag_bits; reflexivity|].
    byte_of (a - v). destruct (Z.ltb_spec (a - v) 0); lia.
  - run_alu 3 v. unfold Py.of_bool. set (cin := Z.testbit f 4).
    exists (Z.land a 15 <? Z.land v 15 + (if cin then 1 else 0)),
      (a - v - (if cin then 1 else 0) <? 0).
    split; [f_equal; f_equal; clearbody cin; flag_bits; reflexivity|].
    byte_of (a - v - (if cin then 1 else 0)).
    destruct (Z.ltb_spec (a - v - (if cin then 1 else 0)) 0); destruct cin; lia.
  - run_alu 7 v. exists (Z.land a 15 <? Z.land v 15).
    split; [|done]. f_equal. f_equal.
    assert ((Z.land (a - v) 255 =? 0) = (a =? v)) as Hz.
    { byte_of (a - v). destruct (Z.eqb_spec a v), (Z.eqb_spec ((a - v) mod 256) 0); lia. }
    assert ((a - v <? 0) = (a <? v)) as Hc.
    { destruct (Z.ltb_spec (a - v) 0), (Z.ltb_spec a v); lia. }
    rewrite <- Hz, <- Hc. flag_bits; reflexivity.
Qed.

Lemma XX_alu_carry_witness :
  let s := GameBoy.init in
  let v := 0xFF in
  let a := Regs.a (Sys.cpu s) in
  (∃ s' h c, (CPU._alu 0 v ;; flags)%py s = Some (Regs.a (Sys.cpu s') =? 0, false, h, c, s')
     ∧ 0 ≤ Regs.a (Sys.cpu s') ≤ 255
     ∧ Regs.a (Sys.cpu s') + 256 * Py.of_bool c = a + v)
  ∧ (∃ s' h c, (CPU._alu 1 v ;; flags)%py s = Some (Regs.a (Sys.cpu s') =? 0, false, h, c, s')
     ∧ 0 ≤ Regs.a (Sys.cpu s') ≤ 255
     ∧ Regs.a (Sys.cpu s') + 256 * Py.of_bool c = a + v + Py.of_bool true)
  ∧ (∃ s' h c, (CPU._alu 2 v ;; flags)%py s = Some (Regs.a (Sys.cpu s') =? 0, true, h, c, s')
     ∧ 0 ≤ Regs.a (Sys.cpu s') ≤ 255
     ∧ Regs.a (Sys.cpu s') - 256 * Py.of_bool c = a - v)
  ∧ (∃ s' h c, (CPU._alu 3 v ;; flags)%py s = Some (Regs.a (Sys.cpu s') =? 0, true, h, c, s')
     ∧ 0 ≤ Regs.a (Sys.cpu s') ≤ 255
     ∧ Regs.a (Sys.cpu s') - 256 * Py.of_bool c = a - v - Py.of_bool true)
  ∧ (∃ s' h, (CPU._alu 7 v ;; flags)%py s = Some (a =? v, true, h, a <? v, s')
     ∧ Regs.a (Sys.cpu s') = a).
Proof.
  apply (XX_alu_carry GameBoy.init 0xFF true false true true);
    first [vm_compute; reflexivity | by vm_compute].
Defined.

(** ** Beyond the specification: the PPU and the frame loop *)

Lemma fb_set_colours i v : 0 ≤ v ≤ 3 → maintains colours_ok (PPU.fb_set i v).
Proof.
  intros Hv. apply maintains_update. intros s s' Hs Hr.
  destruct (Py.setitem _ i v) as [r|] eqn:Hset; [|done]. simplify_eq/=.
  unfold Py.setitem in Hset. destruct (Py.index _ i) as [k|]; [|done]. simplify_eq/=.
  unfold colours_ok. cbn [Sys.ppu Sys.set_ppu Video.framebuffer Video.set_framebuffer].
  by apply Forall_insert.
Qed.

Lemma io_set_colours i v : maintains colours_ok (PPU.io_set i v).
Proof.
  apply maintains_update. intros s s' Hs Hr.
  destruct (Py.setitem _ i v) as [r|]; [|done]. by simplify_eq/=.
Qed.

Lemma ppu_set_colours {A} (u : A → Video.t → Video.t) v :
  (∀ p, Video.framebuffer (u v p) = Video.framebuffer p) →
  maintains colours_ok (PPU.set u v).
Proof.
  intros Hu. apply maintains_modify. intros s Hs. unfold colours_ok.
  cbn [Sys.ppu Sys.set_ppu]. by rewrite Hu.
Qed.

Lemma render_pixel_colours lcdc scx pal tile_map tile_row tile_y ly x :
  Forall (λ c, 0 ≤ c ≤ 3) pal →
  maintains colours_ok (PPU.render_pixel lcdc scx pal tile_map tile_row tile_y ly x).
Proof.
  intros Hpal. unfold PPU.render_pixel. cbv zeta.
  apply maintains_bind; [apply maintains_try|intros idx].
  apply maintains_bind; [apply maintains_try|intros b1].
  apply maintains_bind; [apply maintains_try|intros b2].
  intros s [] s' Hs Hr. unfold Py.bind, Py.try_ in Hr.
  destruct (Py.getitem pal _) as [p|] eqn:Hp; [|done].
  eapply (fb_set_colours _ p); [|done..].
  unfold Py.getitem in Hp. destruct (Py.index pal _) as [k|]; [|done]. cbn in Hp.
  rewrite Forall_lookup in Hpal. by eapply Hpal.
Qed.

Lemma land_3_bounds v : 0 ≤ Z.land v 3 ≤ 3.
Proof.
  pose proof (Z.land_ones v 2 ltac:(lia)) as Hm. change (Z.ones 2) with 3 in Hm.
  rewrite Hm. pose proof (Z.mod_pos_bound v (2 ^ 2) ltac:(lia)). change (2 ^ 2) with 4 in *. lia.
Qed.

Lemma render_scanline_colours ly : maintains colours_ok (PPU._render_scanline ly).
Proof.
  unfold PPU._render_scanline.
  apply maintains_bind; [apply maintains_try|intros lcdc].
  apply maintains_if; [apply maintains_ret|].
  apply maintains_bind; [apply maintains_try|intros scy].
  apply maintains_bind; [apply maintains_try|intros scx].
  apply maintains_bind; [apply maintains_try|intros bgp].
  cbv zeta. apply maintains_if; apply maintains_for; intros x.
  - apply render_pixel_colours. repeat constructor; apply land_3_bounds.
  - apply fb_set_colours. lia.
Qed.

Lemma ppu_step_colours cycles : maintains colours_ok (PPU.step cycles).
Proof.
  unfold PPU.step.
  apply maintains_bind; [apply maintains_try|intros lcdc].
  apply maintains_if; [apply maintains_ret|].
  apply maintains_bind; [apply maintains_gets|intros sc].
  apply maintains_bind; [by apply ppu_set_colours|intros _].
  apply maintains_bind; [apply maintains_gets|intros sc'].
  apply maintains_when.
  apply maintains_bind; [apply maintains_gets|intros sc''].
  apply maintains_bind; [by apply ppu_set_colours|intros _].
  apply maintains_bind; [apply maintains_try|intros ly].
  apply maintains_bind; [apply maintains_when, render_scanline_colours|intros _].
  cbv zeta. apply maintains_bind; [apply io_set_colours|intros _].
  apply maintains_when.
  apply maintains_bind; [by apply ppu_set_colours|intros _].
  apply maintains_bind; [apply maintains_try|intros v]. apply io_set_colours.
Qed.

Lemma cpu_step_colours : maintains colours_ok CPU.step.
Proof.
  apply step_keeps; [done|]. intros addr val s [] s' Hs Hr.
  unfold CPU.mmu_write, Sys.on_mmu in Hr.
  destruct (MMU.write addr val (Sys.mmu s)) as [[[] m']|]; [|done]. by simplify_eq.
Qed.

Lemma set_button_colours btn pressed : maintains colours_ok (GameBoy.set_button btn pressed).
Proof.
  unfold GameBoy.set_button. apply maintains_if; [by intros s x s' _ Hr|].
  apply maintains_bind; [apply maintains_modify; intros s Hs; by destruct pressed|intros _].
  apply maintains_bind; [apply maintains_try|intros joyp].
  apply maintains_bind; [|intros _]; apply maintains_when;
    (apply maintains_bind; [apply maintains_gets|intros buttons]); apply io_set_colours.
Qed.

Lemma step_frame_colours : maintains colours_ok GameBoy.step_frame.
Proof.
  unfold GameBoy.step_frame.
  apply maintains_bind; [apply maintains_gets|intros running].
  apply maintains_bind; [apply maintains_gets|intros paused].
  apply maintains_if; [apply maintains_ret|].
  apply maintains_bind; [by apply ppu_set_colours|intros _].
  apply maintains_for. intros _.
  apply maintains_bind; [apply maintains_gets|intros ready].
  apply maintains_if; [apply maintains_ret|].
  apply maintains_bind; [apply cpu_step_colours|intros cyc]. apply ppu_step_colours.
Qed.

Lemma colours_zeros n : Forall (λ c, 0 ≤ c ≤ 3) (Py.zeros n).
Proof. apply Forall_replicate. lia. Qed.

(** XX_framebuffer_colours.  In every state that a [GameBoy] object can
    reach, each cell of the framebuffer holds one of the colours 0, 1, 2
    and 3, so the palette lookup of the renderer never leaves its
    four-entry list. *)
Theorem XX_framebuffer_colours s : reachable s → colours_ok s.
Proof.
  induction 1 as [|s Hr IH|s file Hr IH Hfile|s btn pressed s' Hr IH Hrun
                 |s s' Hr IH Hrun|s cyc s' Hr IH Hrun|s cycles s' Hr IH Hrun
                 |s running paused Hr IH].
  - apply colours_zeros.
  - done.
  - unfold GameBoy.load_rom. destruct file as [data|]; [|done].
    by destruct (MMU.load_rom data _) as [[ok m]|].
  - by eapply set_button_colours.
  - by eapply step_frame_colours.
  - by eapply cpu_step_colours.
  - by eapply ppu_step_colours.
  - done.
Qed.

Lemma XX_framebuffer_colours_witness : colours_ok GameBoy.init.
Proof. apply (XX_framebuffer_colours GameBoy.init). apply reach_init. Defined.

(** *** A frame ends at the start of VBlank *)

Section ptriple_rules.
Context {St : Type}.
Implicit Types (P : St → Prop).

Lemma ptriple_bind {A B} P (m : Py.M St A) (k : A → Py.M St B) Q R :
  ptriple P m Q → (∀ x, ptriple (Q x) (k x) R) → ptriple P (Py.bind m k) R.
Proof.
  intros Hm Hk s y s' Hs Hr. unfold Py.bind in Hr.
  destruct (m s) as [[x s1]|] eqn:Hx; [|done].
  eapply Hk; [|done]. by eapply Hm.
Qed.

Lemma ptriple_conseq {A} P P' (m : Py.M St A) (Q Q' : A → St → Prop) :
  (∀ s, P' s → P s) → (∀ x s, Q x s → Q' x s) → ptriple P m Q → ptriple P' m Q'.
Proof. intros HP HQ Hm s x s' Hs Hr. eapply HQ, Hm; [by apply HP|done]. Qed.

Lemma ptriple_maintains {A} P (m : Py.M St A) : maintains P m → ptriple P m (λ _, P).
Proof. done. Qed.

Lemma ptriple_ret {A} P (x : A) (Q : A → St → Prop) :
  (∀ s, P s → Q x s) → ptriple P (Py.ret x) Q.
Proof. intros HQ s y s' Hs Hr. unfold Py.ret in Hr. simplify_eq. by apply HQ. Qed.

Lemma ptriple_if {A} P (c : bool) (m1 m2 : Py.M St A) Q :
  (c = true → ptriple P m1 Q) → (c = false → ptriple P m2 Q) →
  ptriple P (if c then m1 else m2) Q.
Proof. destruct c; auto. Qed.

Lemma ptriple_try {A} P (g : St → option A) (Q : A → St → Prop) :
  (∀ s x, P s → g s = Some x → Q x s) → ptriple P (Py.try_ g) Q.
Proof.
  intros Hg s x s' Hs Hr. unfold Py.try_ in Hr.
  destruct (g s) as [y|] eqn:Hy; simplify_eq. by apply Hg.
Qed.

Lemma ptriple_update P (g : St → option St) (Q : unit → St → Prop) :
  (∀ s s', P s → g s = Some s' → Q tt s') → ptriple P (Py.update g) Q.
Proof.
  intros Hg s x s' Hs Hr. unfold Py.update in Hr.
  destruct (g s) as [s1|] eqn:Hs1; simplify_eq. by eapply Hg.
Qed.

Lemma ptriple_modify P (g : St → St) (Q : unit → St → Prop) :
  (∀ s, P s → Q tt (g s)) → ptriple P (Py.modify g) Q.
Proof. intros Hg s x s' Hs Hr. unfold Py.modify in Hr. simplify_eq. by apply Hg. Qed.

End ptriple_rules.

Lemma fb_set_flag_down i v : maintains flag_down (PPU.fb_set i v).
Proof.
  apply maintains_update. intros s s' Hs Hr.
  destruct (Py.setitem _ i v) as [r|]; [|done]. by simplify_eq/=.
Qed.

Lemma render_scanline_flag_down ly : maintains flag_down (PPU._render_scanline ly).
Proof.
  unfold PPU._render_scanline.
  apply maintains_bind; [apply maintains_try|intros lcdc].
  apply maintains_if; [apply maintains_ret|].
  apply maintains_bind; [apply maintains_try|intros scy].
  apply maintains_bind; [apply maintains_try|intros scx].
  apply maintains_bind; [apply maintains_try|intros bgp].
  cbv zeta. apply maintains_if; apply maintains_for; intros x; [|apply fb_set_flag_down].
  unfold PPU.render_pixel. cbv zeta.
  repeat (apply maintains_bind; [apply maintains_try|intros ?]).
  apply fb_set_flag_down.
Qed.

Lemma lor_1_bit0 v : Z.testbit (Z.lor v 0x01) 0 = true.
Proof. rewrite Z.lor_spec. change (Z.testbit 1 0) with true. apply orb_true_r. Qed.

(** [PPU.step] raises the frame flag only as it enters line 144 and
    requests the VBlank interrupt. *)
Lemma ppu_step_vblank cycles :
  ptriple flag_down (PPU.step cycles) (λ _, at_vblank).
Proof.
  assert (∀ s, flag_down s → at_vblank s) as Hdown.
  { intros s [Hf _] Hr. congruence. }
  unfold PPU.step.
  eapply ptriple_bind; [apply ptriple_maintains, maintains_try|intros lcdc].
  apply ptriple_if; intros _; [by apply ptriple_ret|].
  eapply ptriple_bind; [apply ptriple_maintains, maintains_gets|intros sc].
  eapply ptriple_bind; [apply ptriple_maintains, maintains_modify; by intros s Hs|intros []].
  eapply ptriple_bind; [apply ptriple_maintains, maintains_gets|intros sc'].
  unfold Py.when. apply ptriple_if; intros _; [|by apply ptriple_ret].
  eapply ptriple_bind; [apply ptriple_maintains, maintains_gets|intros sc''].
  eapply ptriple_bind; [apply ptriple_maintains, maintains_modify; by intros s Hs|intros []].
  eapply ptriple_bind; [apply ptriple_maintains, maintains_try|intros ly].
  eapply ptriple_bind.
  { apply ptriple_maintains. apply maintains_if; [apply render_scanline_flag_down|].
    apply maintains_ret. }
  intros []. cbv zeta.
  eapply (ptriple_bind _ _ _
    (λ _ s, flag_down s
            ∧ Py.getitem (MMU.io (Sys.mmu s)) 0x44 = Some ((ly + 1) mod 154))).
  { apply ptriple_update. intros s s' [Hf Hl] Hr.
    rewrite setitem_in_range in Hr by lia. cbn [mbind option_bind] in Hr.
    apply (inj Some) in Hr as <-. unfold flag_down.
    cbn [Sys.mmu Sys.set_mmu MMU.io MMU.set_io Sys.ppu Sys.set_ppu].
    split; [split; [done|by rewrite len_insert]|].
    apply getitem_insert_eq. lia. }
  intros []. apply ptriple_if; intros Hly; [|apply ptriple_ret; intros s [? ?]; by apply Hdown].
  apply Z.eqb_eq in Hly. rewrite Hly.
  eapply (ptriple_bind _ _ _
    (λ _ s, Py.len (MMU.io (Sys.mmu s)) = 0x80
            ∧ Py.getitem (MMU.io (Sys.mmu s)) 0x44 = Some 144)).
  { apply ptriple_modify. by intros s [[? ?] ?]. }
  intros [].
  eapply (ptriple_bind _ _ _
    (λ _ s, Py.len (MMU.io (Sys.mmu s)) = 0x80
            ∧ Py.getitem (MMU.io (Sys.mmu s)) 0x44 = Some 144)).
  { by apply ptriple_try. }
  intros v. apply ptriple_update. intros s s' [Hl H44] Hr.
  rewrite setitem_in_range in Hr by lia. cbn [mbind option_bind] in Hr.
  apply (inj Some) in Hr as <-. intros _.
  cbn [Sys.mmu Sys.set_mmu MMU.io MMU.set_io]. split.
  - rewrite getitem_insert_ne by lia. done.
  - exists (Z.lor v 0x01). split; [apply getitem_insert_eq; lia|apply lor_1_bit0].
Qed.

(** One turn of the loop of [step_frame]. *)
Lemma frame_turn_vblank :
  ptriple (λ s, machine_ok s ∧ at_vblank s)
    (ready <- PPU.get Video.frame_ready ;;
     if ready then Py.ret tt else cyc <- CPU.step ;; PPU.step cyc)%py
    (λ _ s, machine_ok s ∧ at_vblank s).
Proof.
  intros s [] s' [Hok Hv] Hr.
  split.
  { eapply (hoare_preserved machine_ok); [|exact Hok|exact Hr].
    apply preserves_bind; [apply ppu_get_ok|intros ready].
    apply preserves_if; [apply preserves_ret|].
    apply preserves_bind; [apply cpu_step_ok|intros cyc]. apply ppu_step_ok. }
  unfold Py.bind, PPU.get, Py.gets in Hr.
  destruct (Video.frame_ready (Sys.ppu s)) eqn:Hready.
  { unfold Py.ret in Hr. by simplify_eq. }
  destruct (CPU.step s) as [[cyc s1]|] eqn:Hstep; [|done].
  apply (ppu_step_vblank cyc s1 tt s'); [|done]. split.
  - pose proof (step_keeps (cpu_frame s) (set_cpu_frame s) (mmu_write_frame s) s cyc s1
      (cpu_frame_refl s) Hstep) as (_ & _ & Hppu & _).
    by rewrite Hppu.
  - assert (machine_ok s1) as [Hm1 _].
    { eapply (hoare_preserved machine_ok); [apply cpu_step_ok|done..]. }
    by mmu_facts Hm1.
Qed.

Lemma ptriple_for {St A} (P : St → Prop) (l : list A) (body : A → Py.M St unit) :
  (∀ x, ptriple P (body x) (λ _, P)) → ptriple P (Py.for_ l body) (λ _, P).
Proof. intros Hb. exact (maintains_for P l body Hb). Qed.

(** XX_frame_ends_at_vblank.  [step_frame] returns on every well-formed
    machine.  It does nothing when the machine is not running or is
    paused.  Otherwise, if the frame flag is up when it returns, the beam
    is on line 144 ([LY = 144]) and the VBlank interrupt is requested
    (bit 0 of [IF]): a frame, when one is completed, ends exactly at the
    start of VBlank. *)
Theorem XX_frame_ends_at_vblank s :
  machine_ok s →
  ∃ s', GameBoy.step_frame s = Some (tt, s')
      ∧ machine_ok s'
      ∧ (Sys.running s = false ∨ Sys.paused s = true → s' = s)
      ∧ (Sys.running s = true → Sys.paused s = false → at_vblank s').
Proof.
  intros Hs. destruct (step_frame_ok s Hs) as ([] & s' & Hrun & Hs').
  exists s'. split; [done|]. split; [done|].
  unfold GameBoy.step_frame, Py.bind at 1 2, Py.gets in Hrun. split.
  - intros Hstop.
    assert (negb (Sys.running s) || Sys.paused s = true) as Hc.
    { destruct Hstop as [-> | ->]; [done|apply orb_true_r]. }
    rewrite Hc in Hrun. unfold Py.ret in Hrun. by simplify_eq.
  - intros Hr1 Hp1. rewrite Hr1, Hp1 in Hrun. cbn [negb orb] in Hrun. unfold Py.bind at 1, PPU.set, Py.modify in Hrun.
    refine (proj2 (ptriple_for (λ s, machine_ok s ∧ at_vblank s) _ _
      (λ _, frame_turn_vblank) _ tt s' _ Hrun)).
    split; [by destruct Hs as (? & ? & ?)|]. intros Hready. cbn in Hready. done.
Qed.

Lemma XX_frame_ends_at_vblank_witness :
  ∃ s', GameBoy.step_frame GameBoy.init = Some (tt, s')
      ∧ machine_ok s'
      ∧ (Sys.running GameBoy.init = false ∨ Sys.paused GameBoy.init = true → s' = GameBoy.init)
      ∧ (Sys.running GameBoy.init = true → Sys.paused GameBoy.init = false → at_vblank s').
Proof.
  apply (XX_frame_ends_at_vblank GameBoy.init).
  split; [vm_compute; reflexivity|]. split; vm_compute; reflexivity.
Defined.

(** *** What the PPU and the joypad leave alone *)

Lemma ppu_frame_refl s : ppu_frame s s.
Proof. by repeat split. Qed.

Lemma fb_set_frame s0 i v : maintains (ppu_frame s0) (PPU.fb_set i v).
Proof.
  apply maintains_update. intros s s' Hs Hr.
  destruct (Py.setitem _ i v) as [r|]; [|done]. by simplify_eq/=.
Qed.

Lemma render_scanline_frame s0 ly : maintains (ppu_frame s0) (PPU._render_scanline ly).
Proof.
  unfold PPU._render_scanline.
  apply maintains_bind; [apply maintains_try|intros lcdc].
  apply maintains_if; [apply maintains_ret|].
  apply maintains_bind; [apply maintains_try|intros scy].
  apply maintains_bind; [apply maintains_try|intros scx].
  apply maintains_bind; [apply maintains_try|intros bgp].
  cbv zeta. apply maintains_if; apply maintains_for; intros x; [|apply fb_set_frame].
  unfold PPU.render_pixel. cbv zeta.
  repeat (apply maintains_bind; [apply maintains_try|intros ?]).
  apply fb_set_frame.
Qed.

Lemma io_set_frame s0 i v :
  i = 0x44 ∨ i = 0x0F → maintains (ppu_frame s0) (PPU.io_set i v).
Proof.
  intros Hi. apply maintains_update. intros s s' Hs Hr.
  unfold Py.setitem in Hr. destruct (Py.index _ i) as [k|] eqn:Hk; [|done].
  cbn [mbind option_bind] in Hr. apply (inj Some) in Hr as <-.
  unfold Py.index in Hk. repeat case_bool_decide; simplify_eq; [|lia].
  destruct Hs as (?&?&?&?&?&?&?&?&?&?&?&?&?&?&Hio). repeat split; try done.
  intros k Hk1 Hk2. cbn [Sys.mmu Sys.set_mmu MMU.io MMU.set_io].
  rewrite list_lookup_insert_ne; [by apply Hio|]. destruct Hi as [-> | ->]; lia.
Qed.

Lemma ppu_set_frame {A} s0 (u : A → Video.t → Video.t) v : maintains (ppu_frame s0) (PPU.set u v).
Proof. apply maintains_modify. by intros s Hs. Qed.

(** XX_ppu_step_frame.  [PPU.step] returns on every well-formed machine
    and acts on the framebuffer, on its own counters and on the two I/O
    registers [LY] and [IF] only: the registers of the CPU, the ROM, the
    video RAM, the OAM, the other RAMs and I/O registers are left as they
    were.  With the LCD switched off (bit 7 of [LCDC] clear) it changes
    nothing at all. *)
Theorem XX_ppu_step_frame s cycles :
  machine_ok s →
  ∃ s', PPU.step cycles s = Some (tt, s')
      ∧ ppu_frame s s'
      ∧ (∀ lcdc, Py.getitem (MMU.io (Sys.mmu s)) 0x40 = Some lcdc →
                 Z.testbit lcdc 7 = false → s' = s).
Proof.
  intros Hs. destruct (ppu_step_ok cycles s Hs) as ([] & s' & Hrun & _).
  exists s'. split; [done|]. split.
  - enough (maintains (ppu_frame s) (PPU.step cycles)) as H
      by (eapply H; [apply ppu_frame_refl|done]).
    unfold PPU.step.
    apply maintains_bind; [apply maintains_try|intros lcdc].
    apply maintains_if; [apply maintains_ret|].
    apply maintains_bind; [apply maintains_gets|intros sc].
    apply maintains_bind; [apply ppu_set_frame|intros _].
    apply maintains_bind; [apply maintains_gets|intros sc'].
    apply maintains_when.
    apply maintains_bind; [apply maintains_gets|intros sc''].
    apply maintains_bind; [apply ppu_set_frame|intros _].
    apply maintains_bind; [apply maintains_try|intros ly].
    apply maintains_bind; [apply maintains_when, render_scanline_frame|intros _].
    cbv zeta. apply maintains_bind; [apply io_set_frame; by left|intros _].
    apply maintains_when.
    apply maintains_bind; [apply ppu_set_frame|intros _].
    apply maintains_bind; [apply maintains_try|intros v]. apply io_set_frame. by right.
  - intros lcdc Hl Hoff. unfold PPU.step, Py.bind at 1, PPU.io_get, Py.try_ in Hrun.
    rewrite Hl in Hrun. change 0x80 with (2 ^ 7) in Hrun.
    rewrite truthy_bit, Hoff in Hrun by lia. cbn [negb] in Hrun.
    unfold Py.ret in Hrun. by simplify_eq.
Qed.

Lemma XX_ppu_step_frame_witness :
  ∃ s', PPU.step 456 GameBoy.init = Some (tt, s')
      ∧ ppu_frame GameBoy.init s'
      ∧ (∀ lcdc, Py.getitem (MMU.io (Sys.mmu GameBoy.init)) 0x40 = Some lcdc →
                 Z.testbit lcdc 7 = false → s' = GameBoy.init).
Proof.
  apply (XX_ppu_step_frame GameBoy.init 456).
  split; [vm_compute; reflexivity|]. split; vm_compute; reflexivity.
Defined.

(** XX_set_button_bit.  [set_button(btn, pressed)] with [btn >= 0]
    returns on every well-formed machine and changes one bit of the button
    latch: bit [btn] becomes 0 when the button is pressed and 1 when it is
    released, and every other bit keeps its value. *)
Theorem XX_set_button_bit s btn pressed :
  machine_ok s → 0 ≤ btn →
  ∃ s', GameBoy.set_button btn pressed s = Some (tt, s')
      ∧ ∀ k, 0 ≤ k →
             Z.testbit (Sys.buttons s') k
             = if k =? btn then negb pressed else Z.testbit (Sys.buttons s) k.
Proof.
  intros Hs Hb. destruct (set_button_ok btn pressed Hb s Hs) as ([] & s' & Hrun & _).
  exists s'. split; [done|]. intros k Hk.
  assert (Sys.buttons s' = latch btn pressed (Sys.buttons s)) as ->.
  { revert Hrun. unfold GameBoy.set_button. destruct (Z.ltb_spec btn 0); [lia|].
    unfold Py.bind at 1, Py.modify.
    set (s1 := if pressed then _ else _).
    assert (Sys.buttons s1 = latch btn pressed (Sys.buttons s)) as <-.
    { unfold s1, latch. by destruct pressed. }
    generalize s1. clear. intros s1 Hrun.
    set (b := Sys.buttons s1).
    enough (maintains (λ t, Sys.buttons t = b)
              (joyp <- PPU.io_get 0x00 ;;
               Py.when (negb (Py.truthy (Z.land joyp 0x10)))
                 (buttons <- Py.gets Sys.buttons ;;
                  PPU.io_set 0x00 (Z.lor (Z.land joyp 0xF0) (Z.land buttons 0x0F))) ;;
               Py.when (negb (Py.truthy (Z.land joyp 0x20)))
                 (buttons <- Py.gets Sys.buttons ;;
                  PPU.io_set 0x00 (Z.lor (Z.land joyp 0xF0)
                                     (Z.land (Z.shiftr buttons 4) 0x0F))))%py) as H
      by (eapply H; [reflexivity|exact Hrun]).
    apply maintains_bind; [apply maintains_try|intros joyp].
    apply maintains_bind; [|intros _]; apply maintains_when;
      (apply maintains_bind; [apply maintains_gets|intros buttons]);
      apply maintains_update; intros t t' Ht Hr;
      (destruct (Py.setitem _ _ _) as [r|]; [|done]); by simplify_eq/=. }
  unfold latch. destruct pressed; cbn [negb].
  - rewrite Z.land_spec, Z.lnot_spec, Z.shiftl_spec by lia.
    destruct (Z.eqb_spec k btn) as [->|Hne].
    + rewrite Z.sub_diag. change (Z.testbit 1 0) with true. apply andb_false_r.
    + destruct (decide (k < btn)).
      * rewrite (Z.testbit_neg_r 1) by lia. apply andb_true_r.
      * rewrite (Z.bits_above_log2 1 (k - btn)) by (cbn; lia). apply andb_true_r.
  - rewrite Z.lor_spec, Z.shiftl_spec by lia.
    destruct (Z.eqb_spec k btn) as [->|Hne].
    + rewrite Z.sub_diag. change (Z.testbit 1 0) with true. apply orb_true_r.
    + destruct (decide (k < btn)).
      * rewrite (Z.testbit_neg_r 1) by lia. apply orb_false_r.
      * rewrite (Z.bits_above_log2 1 (k - btn)) by (cbn; lia). apply orb_false_r.
Qed.

Lemma XX_set_button_bit_witness :
  ∃ s', GameBoy.set_button 4 true GameBoy.init = Some (tt, s')
      ∧ ∀ k, 0 ≤ k →
             Z.testbit (Sys.buttons s') k
             = if k =? 4 then negb true else Z.testbit (Sys.buttons GameBoy.init) k.
Proof.
  apply (XX_set_button_bit GameBoy.init 4 true); [|lia].
  split; [vm_compute; reflexivity|]. split; vm_compute; reflexivity.
Defined.

(** ** Beyond the specification: the CHIP-8 machine of [chip81.0.py] *)

Lemma wf_elim s :
  wf s →
  bytes_ok 4096 (Chip8.memory s) = true ∧ bytes_ok 16 (Chip8.V s) = true
  ∧ Py.len (Chip8.memory s) = 4096 ∧ Py.len (Chip8.V s) = 16
  ∧ Py.len (Chip8.stack s) = 16 ∧ Py.len (Chip8.keys s) = 16
  ∧ Py.len (Chip8.gfx s) = Chip8.W * Chip8.H
  ∧ 0 ≤ Chip8.I s ≤ 0xFFF ∧ 0 ≤ Chip8.pc s ≤ 0xFFF ∧ 0 ≤ Chip8.sp s ≤ 16
  ∧ 0 ≤ Chip8.delay_timer s ≤ 255 ∧ 0 ≤ Chip8.sound_timer s ≤ 255
  ∧ 0 ≤ Chip8.wait_reg s ≤ 15.
Proof.
  unfold wf, chip8_wf. rewrite !andb_true_iff, !bool_decide_eq_true, !is_byte_spec.
  intros [[[[[[[[[[Hm HV] ?] ?] ?] ?] ?] ?] ?] ?] ?].
  pose proof (proj1 (proj1 (bytes_ok_spec _ _) Hm)).
  pose proof (proj1 (proj1 (bytes_ok_spec _ _) HV)).
  repeat split; try done; try lia.
Qed.

Lemma wf_intro m V I pc stack sp dt st keys gfx dirty wk wr q1 q2 :
  bytes_ok 4096 m = true → bytes_ok 16 V = true →
  Py.len stack = 16 → Py.len keys = 16 → Py.len gfx = Chip8.W * Chip8.H →
  0 ≤ I ≤ 0xFFF → 0 ≤ pc ≤ 0xFFF → 0 ≤ sp ≤ 16 → 0 ≤ dt ≤ 255 → 0 ≤ st ≤ 255 →
  0 ≤ wr ≤ 15 →
  wf (Chip8.mk m V I pc stack sp dt st keys gfx dirty wk wr q1 q2).
Proof.
  intros. unfold wf, chip8_wf. cbn.
  rewrite !andb_true_iff, !bool_decide_eq_true, !is_byte_spec. repeat split; try done; lia.
Qed.

(** Unpack the invariant of the machine [s] from [Hs]. *)
Ltac wf_facts Hs :=
  let H := fresh in
  pose proof Hs as H; apply wf_elim in H
    as (?Hmem & ?HV & ?Hlmem & ?HlV & ?Hlstack & ?Hlkeys & ?Hlgfx & ?HI & ?Hpc & ?Hsp
        & ?Hdt & ?Hst & ?Hwr).

(** Projections of a machine rebuilt by a setter. *)
Ltac chip8_simpl :=
  cbn [Chip8.memory Chip8.V Chip8.I Chip8.pc Chip8.stack Chip8.sp Chip8.delay_timer
       Chip8.sound_timer Chip8.keys Chip8.gfx Chip8.dirty Chip8.waiting_for_key
       Chip8.wait_reg Chip8.shift_uses_vy Chip8.fx55_fx65_increment_i
       Chip8.set_memory Chip8.set_V Chip8.set_I Chip8.set_pc Chip8.set_stack Chip8.set_sp
       Chip8.set_delay_timer Chip8.set_sound_timer Chip8.set_keys Chip8.set_gfx
       Chip8.set_dirty Chip8.set_waiting_for_key Chip8.set_wait_reg] in *.

(** Close the invariant of a machine rebuilt from the fields of [s]. *)
Ltac wf_rebuild s :=
  destruct s; chip8_simpl; apply wf_intro; chip8_simpl; try done; try lia.

Lemma wf_chip8_ok s : wf s → chip8_ok s = true.
Proof. intros Hs. wf_facts Hs. by apply chip8_ok_intro. Qed.

Lemma land_12_range a : 0 ≤ Z.land a 0x0FFF ≤ 0xFFF.
Proof.
  pose proof (Z.land_ones a 12 ltac:(lia)) as Hm. change (Z.ones 12) with 0x0FFF in Hm.
  rewrite Hm. pose proof (Z.mod_pos_bound a (2 ^ 12) ltac:(lia)).
  change (2 ^ 12) with 4096 in *. lia.
Qed.

Lemma land_byte_r a b : 0 ≤ b ≤ 255 → 0 ≤ Z.land a b ≤ 255.
Proof.
  intros Hb. assert (b = Z.land b 0xFF) as ->.
  { pose proof (Z.land_ones b 8 ltac:(lia)) as Hm. change (Z.ones 8) with 0xFF in Hm.
    rewrite Hm. symmetry. apply Z.mod_small. change (2 ^ 8) with 256. lia. }
  rewrite Z.land_assoc. apply land_255_range.
Qed.

Lemma land_byte_l a b : 0 ≤ a ≤ 255 → 0 ≤ Z.land a b ≤ 255.
Proof. intros Ha. rewrite Z.land_comm. by apply land_byte_r. Qed.

Lemma lor_byte a b : 0 ≤ a ≤ 255 → 0 ≤ b ≤ 255 → 0 ≤ Z.lor a b ≤ 255.
Proof.
  intros Ha Hb. assert (Z.lor a b = Z.land (Z.lor a b) 0xFF) as ->; [|apply land_255_range].
  rewrite Z.land_lor_distr_l.
  pose proof (Z.land_ones a 8 ltac:(lia)) as Hma. pose proof (Z.land_ones b 8 ltac:(lia)) as Hmb.
  change (Z.ones 8) with 0xFF in *. change (2 ^ 8) with 256 in *.
  rewrite Hma, Hmb, !Z.mod_small by lia. done.
Qed.

Lemma byte_land_ones a : 0 ≤ a ≤ 255 → a = Z.land a (Z.ones 8).
Proof.
  intros Ha. rewrite Z.land_ones by lia. symmetry. apply Z.mod_small.
  change (2 ^ 8) with 256. lia.
Qed.

Lemma lxor_byte a b : 0 ≤ a ≤ 255 → 0 ≤ b ≤ 255 → 0 ≤ Z.lxor a b ≤ 255.
Proof.
  intros Ha Hb. assert (Z.lxor a b = Z.land (Z.lxor a b) 0xFF) as ->; [|apply land_255_range].
  rewrite (byte_land_ones a Ha), (byte_land_ones b Hb). change 0xFF with (Z.ones 8).
  bitblast.
Qed.

(** *** The primitive steps *)

Lemma V_get_wf P i :
  (∀ s, P s → wf s) → 0 ≤ i ≤ 15 →
  hoare P (Chip8.V_get i) (λ v s, P s ∧ 0 ≤ v ≤ 255).
Proof.
  intros HP Hi. apply hoare_try. intros s Hs. pose proof (HP s Hs) as Hw. wf_facts Hw.
  destruct (bytes_ok_getitem 16 (Chip8.V s) i) as (v & Hv & Hb); [done|lia|].
  by exists v.
Qed.

Lemma V_set_wf i v : 0 ≤ i ≤ 15 → 0 ≤ v ≤ 255 → preserves wf (Chip8.V_set i v).
Proof.
  intros Hi Hv. apply hoare_update. intros s Hs. wf_facts Hs.
  rewrite setitem_in_range by lia. eexists. split; [done|].
  wf_rebuild s. apply bytes_ok_insert; [done|]. by apply is_byte_spec.
Qed.

Lemma mem_get_wf P i :
  (∀ s, P s → wf s) → 0 ≤ i ≤ 4095 →
  hoare P (Chip8.mem_get i) (λ v s, P s ∧ 0 ≤ v ≤ 255).
Proof.
  intros HP Hi. apply hoare_try. intros s Hs. pose proof (HP s Hs) as Hw. wf_facts Hw.
  destruct (bytes_ok_getitem 4096 (Chip8.memory s) i) as (v & Hv & Hb); [done|lia|].
  by exists v.
Qed.

Lemma mem_set_wf i v : 0 ≤ i ≤ 4095 → 0 ≤ v ≤ 255 → preserves wf (Chip8.mem_set i v).
Proof.
  intros Hi Hv. apply hoare_update. intros s Hs. wf_facts Hs.
  rewrite setitem_in_range by lia. eexists. split; [done|].
  wf_rebuild s. apply bytes_ok_insert; [done|]. by apply is_byte_spec.
Qed.

Lemma keys_get_wf i : 0 ≤ i ≤ 15 → preserves wf (Chip8.keys_get i).
Proof.
  intros Hi. apply hoare_try. intros s Hs. wf_facts Hs.
  destruct (getitem_in_range (Chip8.keys s) i) as [-> [v Hv]]; [lia|]. by exists v.
Qed.

Lemma modify_wf (g : Chip8.t → Chip8.t) : (∀ s, wf s → wf (g s)) → preserves wf (Py.modify g).
Proof. intros Hg. by apply hoare_modify. Qed.

Lemma set_pc_wf v : 0 ≤ v ≤ 0xFFF → preserves wf (Py.modify (Chip8.set_pc v)).
Proof. intros Hv. apply modify_wf. intros s Hs. wf_facts Hs. wf_rebuild s. Qed.

Lemma set_I_wf v : 0 ≤ v ≤ 0xFFF → preserves wf (Py.modify (Chip8.set_I v)).
Proof. intros Hv. apply modify_wf. intros s Hs. wf_facts Hs. wf_rebuild s. Qed.

Lemma skip_wf : preserves wf Chip8.skip.
Proof.
  unfold Chip8.skip. apply preserves_bind; [apply preserves_gets|intros p].
  apply set_pc_wf, land_12_range.
Qed.

Lemma ret_wf : preserves wf Chip8._ret.
Proof.
  intros s Hs. wf_facts Hs. unfold Chip8._ret, Py.bind, Py.gets, Py.modify.
  destruct (Z.leb_spec (Chip8.sp s) 0); [by eexists _, _|].
  unfold Chip8.stack_get, Py.try_. cbn [Chip8.sp Chip8.set_sp Chip8.stack].
  destruct (getitem_in_range (Chip8.stack s) (Chip8.sp s - 1)) as [-> [v ->]]; [lia|].
  eexists _, _. split; [done|]. pose proof (land_12_range v). wf_rebuild s.
Qed.

Lemma call_wf addr : 0 ≤ addr ≤ 0xFFF → preserves wf (Chip8._call addr).
Proof.
  intros Ha s Hs. wf_facts Hs. unfold Chip8._call, Py.bind, Py.gets, Py.modify.
  destruct (Z.geb_spec (Chip8.sp s) 16); [by eexists _, _|].
  unfold Chip8.stack_set, Py.update. rewrite setitem_in_range by lia.
  cbn [mbind option_bind]. eexists _, _. split; [done|].
  wf_rebuild s. by rewrite len_insert.
Qed.

Lemma cls_wf : preserves wf Chip8._cls.
Proof.
  unfold Chip8._cls. apply preserves_bind; [apply preserves_gets|intros g].
  apply preserves_bind; [|intros _].
  - apply preserves_when, modify_wf. intros s Hs. wf_facts Hs. wf_rebuild s.
  - apply modify_wf. intros s Hs. wf_facts Hs. wf_rebuild s.
Qed.

Lemma plot_wf idx s : wf s → wf (plot idx s).
Proof.
  intros Hs. wf_facts Hs. unfold plot. destruct (pixel s idx =? 1).
  - wf_rebuild s; [|by rewrite len_insert].
    apply bytes_ok_insert; [done|]. by apply is_byte_spec.
  - wf_rebuild s. by rewrite len_insert.
Qed.

Lemma draw_wf vx vy n : preserves wf (Chip8._draw vx vy n).
Proof.
  intros s Hs. rewrite draw_plot by (by apply wf_chip8_ok). eexists _, _. split; [done|].
  apply (foldl_plot_inv wf); [intros; by apply plot_wf|].
  wf_facts Hs. wf_rebuild s. apply bytes_ok_insert; [done|]. by apply is_byte_spec.
Qed.

(** *** The instructions *)

(** Split the conditionals at the head of a computation. *)
Ltac split_ifs :=
  repeat match goal with
         | |- hoare _ (if _ then _ else _) _ => apply hoare_if
         | |- preserves _ (if _ then _ else _) => apply hoare_if
         end.

Ltac byte_goal :=
  first [ lia | apply land_255_range | by apply lor_byte | by apply lxor_byte
        | by apply land_byte_l | by apply land_byte_r
        | (repeat case_match; lia) ].

(** Read a register, keeping the invariant and that the value is a byte. *)
Ltac get_V :=
  eapply hoare_bind; [apply V_get_wf; [done|lia]|];
  let v := fresh "v" in let Hv := fresh "Hv" in
  intros v; apply hoare_assume; intros Hv.

Ltac set_V := apply V_set_wf; [lia|byte_goal].

Lemma land_1_byte v : 0 ≤ Z.land v 0x1 ≤ 255.
Proof. destruct (land_1_cases v) as [-> | ->]; lia. Qed.

Lemma op_8xy_wf x y n :
  0 ≤ x ≤ 15 → 0 ≤ y ≤ 15 → preserves wf (Chip8._op_8xy_ x y n).
Proof.
  intros Hx Hy. unfold Chip8._op_8xy_. cbv zeta.
  split_ifs.
  - get_V. set_V.
  - get_V. get_V. set_V.
  - get_V. get_V. set_V.
  - get_V. get_V. set_V.
  - get_V. get_V. apply preserves_bind; [set_V|intros _; set_V].
  - get_V. get_V. apply preserves_bind; [set_V|intros _]. get_V. get_V. set_V.
  - apply preserves_bind; [apply preserves_gets|intros uses_vy].
    eapply hoare_bind.
    { instantiate (1 := λ v s, wf s ∧ 0 ≤ v ≤ 255).
      destruct uses_vy; apply V_get_wf; (done || lia). }
    intros src. apply hoare_assume. intros Hsrc.
    apply preserves_bind; [apply V_set_wf; [lia|apply land_1_byte]|intros _; set_V].
  - get_V. get_V. apply preserves_bind; [set_V|intros _]. get_V. get_V. set_V.
  - apply preserves_bind; [apply preserves_gets|intros uses_vy].
    eapply hoare_bind.
    { instantiate (1 := λ v s, wf s ∧ 0 ≤ v ≤ 255).
      destruct uses_vy; apply V_get_wf; (done || lia). }
    intros src. apply hoare_assume. intros Hsrc.
    apply preserves_bind; [apply V_set_wf; [lia|apply land_1_byte]|intros _; set_V].
  - apply preserves_ret.
Qed.

Lemma land_15_range v : 0 ≤ Z.land v 0xF ≤ 15.
Proof. apply nibble_range. Qed.

Lemma op_ex_wf x nn : 0 ≤ x ≤ 15 → preserves wf (Chip8._op_ex__ x nn).
Proof.
  intros Hx. unfold Chip8._op_ex__. get_V. cbv zeta. pose proof (land_15_range v).
  split_ifs.
  - apply preserves_bind; [by apply keys_get_wf|intros k]. apply preserves_when, skip_wf.
  - apply preserves_bind; [by apply keys_get_wf|intros k]. apply preserves_when, skip_wf.
  - apply preserves_ret.
Qed.

(** Read [I], keeping the invariant and the range of the value. *)
Ltac get_I :=
  eapply hoare_bind;
    [apply (hoare_gets wf Chip8.I (λ v s, wf s ∧ 0 ≤ v ≤ 0xFFF));
       intros ?s ?Hs; split; [done|]; wf_facts Hs; done|];
  let i := fresh "i" in let Hi := fresh "Hi" in
  intros i; apply hoare_assume; intros Hi.

Lemma bcd_digits v :
  0 ≤ v ≤ 255 →
  0 ≤ v / 100 ≤ 255 ∧ 0 ≤ (v / 10) mod 10 ≤ 255 ∧ 0 ≤ v mod 10 ≤ 255.
Proof.
  intros Hv. pose proof (Z.div_pos v 100). pose proof (Z.div_lt_upper_bound v 100 3).
  pose proof (Z.mod_pos_bound (v / 10) 10). pose proof (Z.mod_pos_bound v 10). lia.
Qed.

Lemma bump_I_wf x :
  preserves wf
    (inc <- Py.gets Chip8.fx55_fx65_increment_i ;;
     Py.when inc (i <- Py.gets Chip8.I ;;
                  Py.modify (Chip8.set_I (Z.land (i + x + 1) 0x0FFF))))%py.
Proof.
  apply preserves_bind; [apply preserves_gets|intros inc]. apply preserves_when.
  apply preserves_bind; [apply preserves_gets|intros i]. apply set_I_wf, land_12_range.
Qed.

Lemma op_fx_wf x nn : 0 ≤ x ≤ 15 → preserves wf (Chip8._op_fx__ x nn).
Proof.
  intros Hx. unfold Chip8._op_fx__. cbv zeta.
  split_ifs.
  - eapply hoare_bind;
      [apply (hoare_gets wf Chip8.delay_timer (λ v s, wf s ∧ 0 ≤ v ≤ 255));
         intros s Hs; split; [done|]; wf_facts Hs; done|].
    intros dt. apply hoare_assume. intros Hdt. set_V.
  - apply preserves_bind; [apply modify_wf; intros s Hs; wf_facts Hs; wf_rebuild s|intros _].
    apply preserves_bind; [apply modify_wf; intros s Hs; wf_facts Hs; wf_rebuild s|intros _].
    apply preserves_bind; [apply preserves_gets|intros p]. apply set_pc_wf, land_12_range.
  - get_V. apply modify_wf. intros s Hs. wf_facts Hs. wf_rebuild s.
  - get_V. apply modify_wf. intros s Hs. wf_facts Hs. wf_rebuild s.
  - apply preserves_bind; [apply preserves_gets|intros i]. get_V.
    apply set_I_wf, land_12_range.
  - get_V. pose proof (land_15_range v). apply set_I_wf. unfold Chip8.FONT_START. lia.
  - get_V. get_I. destruct (bcd_digits v Hv) as (? & ? & ?).
    pose proof (land_12_range (i + 1)). pose proof (land_12_range (i + 2)).
    apply preserves_bind; [apply mem_set_wf; lia|intros _].
    apply preserves_bind; [apply mem_set_wf; lia|intros _]. apply mem_set_wf; lia.
  - apply preserves_bind; [|intros _; apply bump_I_wf].
    apply preserves_for. intros k Hk%elem_of_seqZ.
    apply preserves_bind; [apply preserves_gets|intros i].
    eapply hoare_bind; [apply V_get_wf; [done|lia]|].
    intros vk. apply hoare_assume. intros Hvk.
    pose proof (land_12_range (i + k)). apply mem_set_wf; lia.
  - apply preserves_bind; [|intros _; apply bump_I_wf].
    apply preserves_for. intros k Hk%elem_of_seqZ.
    apply preserves_bind; [apply preserves_gets|intros i].
    pose proof (land_12_range (i + k)).
    eapply hoare_bind; [apply mem_get_wf; [done|lia]|].
    intros v. apply hoare_assume. intros Hv. apply V_set_wf; lia.
  - apply preserves_ret.
Qed.

Lemma cycle_wf rnd : hoare can_fetch (Chip8._cycle rnd) (λ _, wf).
Proof.
  unfold Chip8._cycle.
  eapply hoare_bind.
  { apply (hoare_gets can_fetch Chip8.pc (λ p s, wf s ∧ 0 ≤ p ≤ 0xFFE)).
    intros s [Hs Hp]. split; [done|]. wf_facts Hs. lia. }
  intros p. apply hoare_assume. intros Hp.
  eapply hoare_bind; [apply mem_get_wf; [done|lia]|].
  intros hi. apply hoare_assume. intros Hhi.
  eapply hoare_bind; [apply mem_get_wf; [done|lia]|].
  intros lo. apply hoare_assume. intros Hlo.
  cbv zeta. set (op := Z.lor (Z.shiftl hi 8) lo).
  pose proof (op_x_range op) as Hx. pose proof (op_y_range op) as Hy.
  unfold op_x, op_y in Hx, Hy.
  pose proof (land_255_range op) as Hnn. pose proof (land_12_range op) as Hnnn.
  apply preserves_bind; [apply set_pc_wf, land_12_range|intros _].
  split_ifs.
  - apply cls_wf.
  - apply ret_wf.
  - apply preserves_ret.
  - by apply set_pc_wf.
  - by apply call_wf.
  - get_V. apply preserves_when, skip_wf.
  - get_V. apply preserves_when, skip_wf.
  - get_V. get_V. apply preserves_when, skip_wf.
  - apply preserves_ret.
  - set_V.
  - get_V. set_V.
  - by apply op_8xy_wf.
  - get_V. get_V. apply preserves_when, skip_wf.
  - apply preserves_ret.
  - by apply set_I_wf.
  - get_V. apply set_pc_wf, land_12_range.
  - set_V.
  - get_V. get_V. apply draw_wf.
  - by apply op_ex_wf.
  - by apply op_fx_wf.
  - apply preserves_ret.
Qed.

(** XX_chip8_cycle_total.  From a well-formed machine whose program
    counter is not [0xFFF], [_cycle] returns whatever the opcode and the
    random byte are, and the machine is well formed again: no index leaves
    its array, every value stored in the memory or in a register is a
    byte, [I] and [pc] stay 12-bit addresses and the stack pointer stays
    between 0 and 16.  With [pc = 0xFFF] the fetch of the second opcode
    byte, [memory[0x1000]], raises [IndexError]. *)
Theorem XX_chip8_cycle_total s rnd :
  wf s →
  (Chip8.pc s ≠ 0xFFF → ∃ s', Chip8._cycle rnd s = Some (tt, s') ∧ wf s')
  ∧ (Chip8.pc s = 0xFFF → Chip8._cycle rnd s = None).
Proof.
  intros Hs. split.
  - intros Hp. destruct (cycle_wf rnd s (conj Hs Hp)) as ([] & s' & Hrun & Hs'). eauto.
  - intros Hp. wf_facts Hs. unfold Chip8._cycle, Py.bind, Py.gets, Chip8.mem_get, Py.try_.
    rewrite Hp.
    destruct (getitem_in_range (Chip8.memory s) 0xFFF) as [-> [hi ->]]; [lia|].
    unfold Py.getitem, Py.index. rewrite Hlmem.
    rewrite !bool_decide_eq_false_2 by lia. done.
Qed.

Lemma XX_chip8_cycle_total_witness :
  (Chip8.pc Chip8.reset ≠ 0xFFF →
   ∃ s', Chip8._cycle 0 Chip8.reset = Some (tt, s') ∧ wf s')
  ∧ (Chip8.pc Chip8.reset = 0xFFF → Chip8._cycle 0 Chip8.reset = None).
Proof. apply (XX_chip8_cycle_total Chip8.reset 0). vm_compute. reflexivity. Defined.

(** *** Subroutines *)

(** XX_chip8_call_ret.  With room on the stack, [_ret] after
    [_call(addr)] brings the program counter and the stack pointer back;
    only the stack cell used has changed.  A call with the stack full
    ([sp = 16]) and a return with the stack empty ([sp = 0]) are ignored:
    the machine is left exactly as it was, the program counter
    included. *)
Theorem XX_chip8_call_ret s addr :
  wf s → 0 ≤ addr ≤ 0xFFF →
  (Chip8.sp s < 16 →
   ∃ s1, Chip8._call addr s = Some (tt, s1)
       ∧ Chip8.pc s1 = addr ∧ Chip8.sp s1 = Chip8.sp s + 1
       ∧ Chip8._ret s1
         = Some (tt, Chip8.set_stack
                       (<[Z.to_nat (Chip8.sp s) := Chip8.pc s]> (Chip8.stack s)) s))
  ∧ (Chip8.sp s = 16 → Chip8._call addr s = Some (tt, s))
  ∧ (Chip8.sp s = 0 → Chip8._ret s = Some (tt, s)).
Proof.
  intros Hs Ha. wf_facts Hs. split; [|split].
  - intros Hroom. unfold Chip8._call, Py.bind, Py.gets, Py.modify.
    destruct (Z.geb_spec (Chip8.sp s) 16); [lia|].
    unfold Chip8.stack_set, Py.update. rewrite setitem_in_range by lia.
    cbn [mbind option_bind]. eexists. split; [done|]. chip8_simpl.
    split; [done|]. split; [done|].
    unfold Chip8._ret, Py.bind, Py.gets, Py.modify. chip8_simpl.
    destruct (Z.leb_spec (Chip8.sp s + 1) 0); [lia|].
    unfold Chip8.stack_get, Py.try_. chip8_simpl.
    replace (Chip8.sp s + 1 - 1) with (Chip8.sp s) by lia.
    rewrite getitem_insert_eq by lia.
    pose proof (Z.land_ones (Chip8.pc s) 12 ltac:(lia)) as Hm.
    change (Z.ones 12) with 0x0FFF in Hm. rewrite Hm, Z.mod_small by (change (2 ^ 12) with 4096; lia).
    by destruct s.
  - intros Hfull. unfold Chip8._call, Py.bind, Py.gets.
    destruct (Z.geb_spec (Chip8.sp s) 16); [done|lia].
  - intros Hempty. unfold Chip8._ret, Py.bind, Py.gets.
    destruct (Z.leb_spec (Chip8.sp s) 0); [done|lia].
Qed.

Lemma XX_chip8_call_ret_witness :
  (Chip8.sp Chip8.reset < 16 →
   ∃ s1, Chip8._call 0x300 Chip8.reset = Some (tt, s1)
       ∧ Chip8.pc s1 = 0x300 ∧ Chip8.sp s1 = Chip8.sp Chip8.reset + 1
       ∧ Chip8._ret s1
         = Some (tt, Chip8.set_stack
                       (<[Z.to_nat (Chip8.sp Chip8.reset) := Chip8.pc Chip8.reset]>
                          (Chip8.stack Chip8.reset)) Chip8.reset))
  ∧ (Chip8.sp Chip8.reset = 16 → Chip8._call 0x300 Chip8.reset = Some (tt, Chip8.reset))
  ∧ (Chip8.sp Chip8.reset = 0 → Chip8._ret Chip8.reset = Some (tt, Chip8.reset)).
Proof.
  apply (XX_chip8_call_ret Chip8.reset 0x300); [vm_compute; reflexivity|lia].
Defined.

(** *** Arithmetic with carry and borrow *)

Lemma V_get_run s i :
  wf s → 0 ≤ i ≤ 15 → Chip8.V_get i s = Some (reg s i, s) ∧ 0 ≤ reg s i ≤ 255.
Proof.
  intros Hs Hi. wf_facts Hs. unfold Chip8.V_get, Py.try_, reg.
  destruct (bytes_ok_getitem 16 (Chip8.V s) i) as (v & Hv & Hb); [done|lia|].
  rewrite Hv. destruct (getitem_in_range (Chip8.V s) i) as [Hg _]; [lia|].
  rewrite Hg in Hv. by rewrite Hv.
Qed.

Lemma V_set_run s i v :
  wf s → 0 ≤ i ≤ 15 →
  Chip8.V_set i v s = Some (tt, Chip8.set_V (<[Z.to_nat i := v]> (Chip8.V s)) s).
Proof.
  intros Hs Hi. wf_facts Hs. unfold Chip8.V_set, Py.update.
  by rewrite setitem_in_range by lia.
Qed.

Lemma reg_set_V_eq s l i v :
  0 ≤ i < Py.len l → reg (Chip8.set_V (<[Z.to_nat i := v]> l) s) i = v.
Proof.
  intros Hi. unfold reg. chip8_simpl. rewrite list_lookup_insert_eq; [done|].
  unfold Py.len in Hi. lia.
Qed.

Lemma reg_set_V_ne s l i j v :
  0 ≤ i → 0 ≤ j → i ≠ j →
  reg (Chip8.set_V (<[Z.to_nat i := v]> l) s) j = default 0 (l !! Z.to_nat j).
Proof.
  intros Hi Hj Hne. unfold reg. chip8_simpl. rewrite list_lookup_insert_ne; [done|lia].
Qed.

Lemma wf_set_V s l : wf s → bytes_ok 16 l = true → wf (Chip8.set_V l s).
Proof. intros Hs Hl. wf_facts Hs. wf_rebuild s. Qed.

(** XX_chip8_carry.  For a destination register other than [VF],
    [8XY4] leaves in [Vx] and [VF] the exact sum, [Vx' + 256*VF' = Vx +
    Vy]; [8XY5] and [8XY7] leave the exact difference with [VF] the
    complement of the borrow, [Vx' - 256*(1 - VF') = Vx - Vy] (for [8XY7],
    [Vy - Vx]) when [Vy] is not [VF] either.  The result is a byte, the
    flag is 0 or 1, and the other registers keep their values. *)
Theorem XX_chip8_carry s x y :
  wf s → 0 ≤ x < 15 → 0 ≤ y ≤ 15 →
  (∃ s', Chip8._op_8xy_ x y 0x4 s = Some (tt, s')
       ∧ reg s' x + 256 * reg s' 0xF = reg s x + reg s y
       ∧ 0 ≤ reg s' x ≤ 255 ∧ 0 ≤ reg s' 0xF ≤ 1
       ∧ ∀ k, 0 ≤ k < 15 → k ≠ x → reg s' k = reg s k)
  ∧ (y ≠ 15 →
     ∃ s', Chip8._op_8xy_ x y 0x5 s = Some (tt, s')
       ∧ reg s' x - 256 * (1 - reg s' 0xF) = reg s x - reg s y
       ∧ 0 ≤ reg s' x ≤ 255 ∧ 0 ≤ reg s' 0xF ≤ 1
       ∧ ∀ k, 0 ≤ k < 15 → k ≠ x → reg s' k = reg s k)
  ∧ (y ≠ 15 →
     ∃ s', Chip8._op_8xy_ x y 0x7 s = Some (tt, s')
       ∧ reg s' x - 256 * (1 - reg s' 0xF) = reg s y - reg s x
       ∧ 0 ≤ reg s' x ≤ 255 ∧ 0 ≤ reg s' 0xF ≤ 1
       ∧ ∀ k, 0 ≤ k < 15 → k ≠ x → reg s' k = reg s k).
Proof.
  intros Hs Hx Hy. pose proof Hs as Hs0. wf_facts Hs.
  destruct (V_get_run s x Hs) as [Hgx Hbx]; [lia|].
  destruct (V_get_run s y Hs) as [Hgy Hby]; [lia|].
  set (vx := reg s x) in *. set (vy := reg s y) in *.
  assert (∀ c : bool, wf (Chip8.set_V (<[Z.to_nat 15 := if c then 1 else 0]> (Chip8.V s)) s))
    as Hflag.
  { intros c. apply wf_set_V; [done|]. apply bytes_ok_insert; [done|]. apply is_byte_spec.
    destruct c; lia. }
  split; [|split].
  - eexists. split.
    { unfold Chip8._op_8xy_. cbn [Z.eqb Pos.eqb]. unfold Py.bind. rewrite Hgx, Hgy. cbv zeta.
      rewrite V_set_run by (done || lia). rewrite V_set_run by (apply Hflag || lia).
      reflexivity. }
    chip8_simpl. rewrite reg_set_V_eq by (rewrite len_insert; lia).
    rewrite reg_set_V_ne by lia. rewrite list_lookup_insert_eq by (unfold Py.len in HlV; lia).
    cbn [default from_option id]. byte_of (vx + vy). rewrite Z.gtb_ltb.
    split; [destruct (Z.ltb_spec 255 (vx + vy)); lia|]. split; [lia|].
    split; [destruct (Z.ltb_spec 255 (vx + vy)); lia|].
    intros k Hk Hkx. rewrite reg_set_V_ne by lia.
    rewrite list_lookup_insert_ne by lia. done.
  - intros Hy15. eexists. split.
    { unfold Chip8._op_8xy_. cbn [Z.eqb Pos.eqb]. unfold Py.bind.
      rewrite Hgx, Hgy. rewrite V_set_run by (done || lia).
      destruct (V_get_run _ x (Hflag (vx >=? vy))) as [-> _]; [lia|].
      destruct (V_get_run _ y (Hflag (vx >=? vy))) as [-> _]; [lia|].
      rewrite V_set_run by (apply Hflag || lia). reflexivity. }
    chip8_simpl. rewrite reg_set_V_eq by (rewrite len_insert; lia).
    rewrite !reg_set_V_ne by lia. rewrite list_lookup_insert_eq by (unfold Py.len in HlV; lia).
    fold (reg s x) (reg s y). fold vx vy.
    cbn [default from_option id]. byte_of (vx - vy).
    split; [destruct (Z.geb_spec vx vy); lia|]. split; [lia|].
    split; [destruct (Z.geb_spec vx vy); lia|].
    intros k Hk Hkx. rewrite reg_set_V_ne by lia.
    rewrite list_lookup_insert_ne by lia. done.
  - intros Hy15. eexists. split.
    { unfold Chip8._op_8xy_. cbn [Z.eqb Pos.eqb]. unfold Py.bind.
      rewrite Hgy, Hgx. rewrite V_set_run by (done || lia).
      destruct (V_get_run _ y (Hflag (vy >=? vx))) as [-> _]; [lia|].
      destruct (V_get_run _ x (Hflag (vy >=? vx))) as [-> _]; [lia|].
      rewrite V_set_run by (apply Hflag || lia). reflexivity. }
    chip8_simpl. rewrite reg_set_V_eq by (rewrite len_insert; lia).
    rewrite !reg_set_V_ne by lia. rewrite list_lookup_insert_eq by (unfold Py.len in HlV; lia).
    fold (reg s x) (reg s y). fold vx vy.
    cbn [default from_option id]. byte_of (vy - vx).
    split; [destruct (Z.geb_spec vy vx); lia|]. split; [lia|].
    split; [destruct (Z.geb_spec vy vx); lia|].
    intros k Hk Hkx. rewrite reg_set_V_ne by lia.
    rewrite list_lookup_insert_ne by lia. done.
Qed.

Lemma XX_chip8_carry_witness :
  let s := about_to_draw in
  (∃ s', Chip8._op_8xy_ 0 1 0x4 s = Some (tt, s')
       ∧ reg s' 0 + 256 * reg s' 0xF = reg s 0 + reg s 1
       ∧ 0 ≤ reg s' 0 ≤ 255 ∧ 0 ≤ reg s' 0xF ≤ 1
       ∧ ∀ k, 0 ≤ k < 15 → k ≠ 0 → reg s' k = reg s k)
  ∧ (1 ≠ 15 →
     ∃ s', Chip8._op_8xy_ 0 1 0x5 s = Some (tt, s')
       ∧ reg s' 0 - 256 * (1 - reg s' 0xF) = reg s 0 - reg s 1
       ∧ 0 ≤ reg s' 0 ≤ 255 ∧ 0 ≤ reg s' 0xF ≤ 1
       ∧ ∀ k, 0 ≤ k < 15 → k ≠ 0 → reg s' k = reg s k)
  ∧ (1 ≠ 15 →
     ∃ s', Chip8._op_8xy_ 0 1 0x7 s = Some (tt, s')
       ∧ reg s' 0 - 256 * (1 - reg s' 0xF) = reg s 1 - reg s 0
       ∧ 0 ≤ reg s' 0 ≤ 255 ∧ 0 ≤ reg s' 0xF ≤ 1
       ∧ ∀ k, 0 ≤ k < 15 → k ≠ 0 → reg s' k = reg s k).
Proof. apply (XX_chip8_carry about_to_draw 0 1); [vm_compute; reflexivity|lia|lia]. Defined.

(** *** Binary-coded decimal *)

Lemma mem_set_run s a v :
  wf s → 0 ≤ a ≤ 4095 →
  Chip8.mem_set a v s
  = Some (tt, Chip8.set_memory (<[Z.to_nat a := v]> (Chip8.memory s)) s).
Proof.
  intros Hs Ha. wf_facts Hs. unfold Chip8.mem_set, Py.update.
  by rewrite setitem_in_range by lia.
Qed.

Lemma wf_set_memory s l : wf s → bytes_ok 4096 l = true → wf (Chip8.set_memory l s).
Proof. intros Hs Hl. wf_facts Hs. wf_rebuild s. Qed.

Lemma land_12_mod a : Z.land a 0x0FFF = a mod 4096.
Proof. change 0x0FFF with (Z.ones 12). by rewrite Z.land_ones by lia. Qed.

(** XX_chip8_bcd.  [FX33] stores the three decimal digits of [Vx] at
    [I], [I+1] and [I+2] (addresses taken modulo 4096 after the first):
    hundreds, tens and units, each a digit, with
    [100*h + 10*t + u = Vx].  No other byte of the memory changes, nor do
    the registers and [I]. *)
Theorem XX_chip8_bcd s x :
  wf s → 0 ≤ x ≤ 15 →
  let i := Chip8.I s in
  ∃ s', Chip8._op_fx__ x 0x33 s = Some (tt, s')
      ∧ 100 * byte_at s' i + 10 * byte_at s' (Z.land (i + 1) 0x0FFF)
        + byte_at s' (Z.land (i + 2) 0x0FFF) = reg s x
      ∧ 0 ≤ byte_at s' i ≤ 2
      ∧ 0 ≤ byte_at s' (Z.land (i + 1) 0x0FFF) ≤ 9
      ∧ 0 ≤ byte_at s' (Z.land (i + 2) 0x0FFF) ≤ 9
      ∧ (∀ a, 0 ≤ a → a ≠ i → a ≠ Z.land (i + 1) 0x0FFF → a ≠ Z.land (i + 2) 0x0FFF →
              byte_at s' a = byte_at s a)
      ∧ Chip8.V s' = Chip8.V s ∧ Chip8.I s' = Chip8.I s.
Proof.
  intros Hs Hx i. pose proof Hs as Hs0. wf_facts Hs. fold i in HI.
  destruct (V_get_run s x Hs0) as [Hgx Hbx]; [lia|]. set (v := reg s x) in *.
  destruct (bcd_digits v Hbx) as (Hd2 & Hd1 & Hd0).
  pose proof (land_12_range (i + 1)) as Hi1. pose proof (land_12_range (i + 2)) as Hi2.
  assert (∀ l a d, bytes_ok 4096 l = true → 0 ≤ d ≤ 255 →
                   bytes_ok 4096 (<[Z.to_nat a := d]> l) = true) as Hins.
  { intros l a d Hl Hd. apply bytes_ok_insert; [done|]. by apply is_byte_spec. }
  eexists. split.
  { unfold Chip8._op_fx__. cbn [Z.eqb Pos.eqb]. unfold Py.bind, Py.gets. rewrite Hgx.
    fold i. rewrite mem_set_run by (done || lia).
    rewrite mem_set_run; [|apply wf_set_memory; [done|by apply Hins]|lia].
    rewrite mem_set_run; [reflexivity| |lia].
    apply wf_set_memory; [apply wf_set_memory; [done|by apply Hins]|].
    chip8_simpl. apply Hins; [by apply Hins|done]. }
  chip8_simpl. unfold byte_at. chip8_simpl.
  assert (Z.land (i + 1) 0x0FFF ≠ i ∧ Z.land (i + 2) 0x0FFF ≠ i
          ∧ Z.land (i + 2) 0x0FFF ≠ Z.land (i + 1) 0x0FFF) as (Hne1 & Hne2 & Hne3).
  { rewrite !land_12_mod.
    pose proof (Z.div_mod (i + 1) 4096 ltac:(lia)). pose proof (Z.div_mod (i + 2) 4096 ltac:(lia)).
    pose proof (Z.mod_pos_bound (i + 1) 4096 ltac:(lia)).
    pose proof (Z.mod_pos_bound (i + 2) 4096 ltac:(lia)). lia. }
  unfold Py.len in Hlmem.
  assert (∀ (l : list Z) a b d, a ≠ b → 0 ≤ a → 0 ≤ b →
            <[Z.to_nat a := d]> l !! Z.to_nat b = l !! Z.to_nat b) as Hother.
  { intros l a b d Hab Ha Hb. apply list_lookup_insert_ne. lia. }
  assert (∀ (l : list Z) a d, 0 ≤ a < Z.of_nat (length l) →
            <[Z.to_nat a := d]> l !! Z.to_nat a = Some d) as Hsame.
  { intros l a d Ha. apply list_lookup_insert_eq. lia. }
  rewrite (Hother _ _ i), (Hother _ _ i), Hsame by lia.
  rewrite (Hother _ _ (Z.land (i + 1) 0x0FFF)), Hsame by (rewrite ?length_insert; lia).
  rewrite Hsame by (rewrite ?length_insert; lia).
  cbn [default from_option id].
  pose proof (Z.div_mod v 10 ltac:(lia)). pose proof (Z.div_mod v 100 ltac:(lia)).
  pose proof (Z.div_mod (v / 10) 10 ltac:(lia)).
  pose proof (Z.mod_pos_bound v 10 ltac:(lia)). pose proof (Z.mod_pos_bound (v / 10) 10 ltac:(lia)).
  pose proof (Z.mod_pos_bound v 100 ltac:(lia)).
  assert (v / 10 / 10 = v / 100) as Hdiv by (rewrite Z.div_div by lia; done).
  assert (0 ≤ v / 100 ≤ 2).
  { split; [apply Z.div_pos; lia|]. assert (v / 100 < 3); [|lia].
    apply Z.div_lt_upper_bound; lia. }
  repeat split; try lia.
  intros a Ha Hai Ha1 Ha2. by rewrite !Hother by lia.
Qed.

Lemma XX_chip8_bcd_witness :
  let s := about_to_draw in
  let i := Chip8.I s in
  ∃ s', Chip8._op_fx__ 0 0x33 s = Some (tt, s')
      ∧ 100 * byte_at s' i + 10 * byte_at s' (Z.land (i + 1) 0x0FFF)
        + byte_at s' (Z.land (i + 2) 0x0FFF) = reg s 0
      ∧ 0 ≤ byte_at s' i ≤ 2
      ∧ 0 ≤ byte_at s' (Z.land (i + 1) 0x0FFF) ≤ 9
      ∧ 0 ≤ byte_at s' (Z.land (i + 2) 0x0FFF) ≤ 9
      ∧ (∀ a, 0 ≤ a → a ≠ i → a ≠ Z.land (i + 1) 0x0FFF → a ≠ Z.land (i + 2) 0x0FFF →
              byte_at s' a = byte_at s a)
      ∧ Chip8.V s' = Chip8.V s ∧ Chip8.I s' = Chip8.I s.
Proof. apply (XX_chip8_bcd about_to_draw 0); [vm_compute; reflexivity|lia]. Defined.

(** *** Register dump and reload *)

Lemma mem_get_run s a :
  wf s → 0 ≤ a ≤ 4095 → Chip8.mem_get a s = Some (byte_at s a, s) ∧ 0 ≤ byte_at s a ≤ 255.
Proof.
  intros Hs Ha. wf_facts Hs. unfold Chip8.mem_get, Py.try_, byte_at.
  destruct (bytes_ok_getitem 4096 (Chip8.memory s) a) as (v & Hv & Hb); [done|lia|].
  rewrite Hv. destruct (getitem_in_range (Chip8.memory s) a) as [Hg _]; [lia|].
  rewrite Hg in Hv. by rewrite Hv.
Qed.

Lemma land_12_inj i j k :
  0 ≤ j < 4096 → 0 ≤ k < 4096 → j ≠ k → Z.land (i + j) 0x0FFF ≠ Z.land (i + k) 0x0FFF.
Proof.
  intros Hj Hk Hne. rewrite !land_12_mod.
  pose proof (Z.div_mod (i + j) 4096 ltac:(lia)). pose proof (Z.div_mod (i + k) 4096 ltac:(lia)).
  pose proof (Z.mod_pos_bound (i + j) 4096 ltac:(lia)).
  pose proof (Z.mod_pos_bound (i + k) 4096 ltac:(lia)). lia.
Qed.

(** The loop of [FX55] after [n] rounds. *)
Lemma store_loop s (n : nat) :
  wf s → (n ≤ 16)%nat →
  ∃ m', Py.for_ (Py.range (Z.of_nat n))
          (λ k, i <- Py.gets Chip8.I ;; vk <- Chip8.V_get k ;;
                Chip8.mem_set (Z.land (i + k) 0x0FFF) vk)%py s
        = Some (tt, Chip8.set_memory m' s)
      ∧ bytes_ok 4096 m' = true
      ∧ (∀ k, 0 ≤ k < Z.of_nat n →
              default 0 (m' !! Z.to_nat (Z.land (Chip8.I s + k) 0x0FFF)) = reg s k)
      ∧ (∀ a, 0 ≤ a → (∀ k, 0 ≤ k < Z.of_nat n → a ≠ Z.land (Chip8.I s + k) 0x0FFF) →
              m' !! Z.to_nat a = Chip8.memory s !! Z.to_nat a).
Proof.
  intros Hs. pose proof Hs as Hs0. wf_facts Hs. induction n as [|n IH]; intros Hn.
  - exists (Chip8.memory s). split; [by destruct s|]. split; [done|]. split; [lia|done].
  - destruct IH as (m' & Hrun & Hm' & Hin & Hout); [lia|].
    rewrite for_range_S, Hrun. unfold Py.bind, Py.gets. chip8_simpl.
    assert (wf (Chip8.set_memory m' s)) as Hs1 by by apply wf_set_memory.
    destruct (V_get_run _ (Z.of_nat n) Hs1) as [Hg Hb]; [lia|]. rewrite Hg.
    change (reg (Chip8.set_memory m' s) (Z.of_nat n)) with (reg s (Z.of_nat n)) in *.
    pose proof (land_12_range (Chip8.I s + Z.of_nat n)) as Ha.
    rewrite mem_set_run by (done || lia). chip8_simpl.
    apply bytes_ok_spec in Hm' as Hm''. destruct Hm'' as [Hl' _]. unfold Py.len in Hl'.
    eexists. split; [by destruct s|]. split; [|split].
    + apply bytes_ok_insert; [done|]. by apply is_byte_spec.
    + intros k Hk. destruct (decide (k = Z.of_nat n)) as [->|Hne].
      * rewrite list_lookup_insert_eq by lia. done.
      * rewrite list_lookup_insert_ne; [apply Hin; lia|].
        pose proof (land_12_inj (Chip8.I s) (Z.of_nat n) k ltac:(lia) ltac:(lia) ltac:(lia)).
        pose proof (land_12_range (Chip8.I s + k)). lia.
    + intros a Ha0 Hne. rewrite list_lookup_insert_ne.
      * apply Hout; [done|]. intros k Hk. apply Hne. lia.
      * specialize (Hne (Z.of_nat n) ltac:(lia)). lia.
Qed.

(** The loop of [FX65] after [n] rounds. *)
Lemma load_loop s (n : nat) :
  wf s → (n ≤ 16)%nat →
  ∃ V', Py.for_ (Py.range (Z.of_nat n))
          (λ k, i <- Py.gets Chip8.I ;; v <- Chip8.mem_get (Z.land (i + k) 0x0FFF) ;;
                Chip8.V_set k v)%py s
        = Some (tt, Chip8.set_V V' s)
      ∧ bytes_ok 16 V' = true
      ∧ (∀ k, 0 ≤ k < Z.of_nat n →
              default 0 (V' !! Z.to_nat k) = byte_at s (Z.land (Chip8.I s + k) 0x0FFF))
      ∧ (∀ k, Z.of_nat n ≤ k → V' !! Z.to_nat k = Chip8.V s !! Z.to_nat k).
Proof.
  intros Hs. pose proof Hs as Hs0. wf_facts Hs. induction n as [|n IH]; intros Hn.
  - exists (Chip8.V s). split; [by destruct s|]. split; [done|]. split; [lia|done].
  - destruct IH as (V' & Hrun & HV' & Hin & Hout); [lia|].
    rewrite for_range_S, Hrun. unfold Py.bind, Py.gets. chip8_simpl.
    assert (wf (Chip8.set_V V' s)) as Hs1 by by apply wf_set_V.
    pose proof (land_12_range (Chip8.I s + Z.of_nat n)) as Ha.
    destruct (mem_get_run _ (Z.land (Chip8.I s + Z.of_nat n) 0x0FFF) Hs1) as [Hg Hb]; [lia|].
    rewrite Hg.
    change (byte_at (Chip8.set_V V' s)) with (byte_at s) in *.
    rewrite V_set_run by (done || lia). chip8_simpl.
    apply bytes_ok_spec in HV' as HV''. destruct HV'' as [Hl' _]. unfold Py.len in Hl'.
    eexists. split; [by destruct s|]. split; [|split].
    + apply bytes_ok_insert; [done|]. by apply is_byte_spec.
    + intros k Hk. destruct (decide (k = Z.of_nat n)) as [->|Hne].
      * rewrite list_lookup_insert_eq by lia. done.
      * rewrite list_lookup_insert_ne by lia. apply Hin. lia.
    + intros k Hk. rewrite list_lookup_insert_ne by lia. apply Hout. lia.
Qed.

(** XX_chip8_store_load.  [FX55] writes [V0..Vx] to the [x+1] bytes at
    [I] (addresses modulo 4096) and changes no other byte and no
    register; [I] moves past the block only under the increment quirk.
    [FX65] run later on that memory with [I] back at the block restores
    [V0..Vx] and leaves the registers above [Vx] and the memory alone. *)
Theorem XX_chip8_store_load s x :
  wf s → 0 ≤ x ≤ 15 →
  ∃ s1, Chip8._op_fx__ x 0x55 s = Some (tt, s1)
      ∧ wf s1 ∧ Chip8.V s1 = Chip8.V s
      ∧ Chip8.I s1 = (if Chip8.fx55_fx65_increment_i s
                      then Z.land (Chip8.I s + x + 1) 0x0FFF else Chip8.I s)
      ∧ (∀ k, 0 ≤ k ≤ x → byte_at s1 (Z.land (Chip8.I s + k) 0x0FFF) = reg s k)
      ∧ (∀ a, 0 ≤ a → (∀ k, 0 ≤ k ≤ x → a ≠ Z.land (Chip8.I s + k) 0x0FFF) →
              byte_at s1 a = byte_at s a)
      ∧ ∀ s2, wf s2 → Chip8.memory s2 = Chip8.memory s1 → Chip8.I s2 = Chip8.I s →
          ∃ s3, Chip8._op_fx__ x 0x65 s2 = Some (tt, s3)
              ∧ (∀ k, 0 ≤ k ≤ x → reg s3 k = reg s k)
              ∧ (∀ k, x < k → reg s3 k = reg s2 k)
              ∧ Chip8.memory s3 = Chip8.memory s2.
Proof.
  intros Hs Hx.
  destruct (store_loop s (Z.to_nat (x + 1)) Hs ltac:(lia)) as (m' & Hrun & Hm' & Hin & Hout).
  rewrite Z2Nat.id in Hrun, Hin, Hout by lia.
  assert (∃ s1, Chip8._op_fx__ x 0x55 s = Some (tt, s1)
              ∧ Chip8.memory s1 = m' ∧ Chip8.V s1 = Chip8.V s
              ∧ Chip8.I s1 = (if Chip8.fx55_fx65_increment_i s
                              then Z.land (Chip8.I s + x + 1) 0x0FFF else Chip8.I s)
              ∧ wf s1) as (s1 & Hs1 & Hmem1 & HV1 & HI1 & Hwf1).
  { unfold Chip8._op_fx__. cbn [Z.eqb Pos.eqb]. unfold Py.bind at 1. rewrite Hrun.
    unfold Py.bind, Py.gets, Py.when, Py.modify, Py.ret. chip8_simpl.
    pose proof (wf_set_memory s m' Hs Hm') as Hw.
    destruct (Chip8.fx55_fx65_increment_i s) eqn:Hinc.
    - replace (Chip8.fx55_fx65_increment_i (Chip8.set_memory m' s)) with true
        by (by destruct s).
      eexists. split; [done|]. chip8_simpl. repeat split; try by destruct s.
      pose proof (land_12_range (Chip8.I s + x + 1)). wf_facts Hw.
      destruct s; chip8_simpl. apply wf_intro; chip8_simpl; try done; lia.
    - replace (Chip8.fx55_fx65_increment_i (Chip8.set_memory m' s)) with false
        by (by destruct s).
      eexists. split; [done|]. repeat split; try done; by destruct s. }
  exists s1. split; [done|]. split; [done|]. split; [done|]. split; [done|].
  split; [|split].
  - intros k Hk. unfold byte_at. rewrite Hmem1. apply Hin. lia.
  - intros a Ha Hne. unfold byte_at. rewrite Hmem1, Hout; [done..|].
    intros k Hk. apply Hne. lia.
  - intros s2 Hs2 Hmem2 HI2.
    destruct (load_loop s2 (Z.to_nat (x + 1)) Hs2 ltac:(lia)) as (V' & Hrun2 & HV' & Hin2 & Hout2).
    rewrite Z2Nat.id in Hrun2, Hin2, Hout2 by lia.
    assert (∃ s3, Chip8._op_fx__ x 0x65 s2 = Some (tt, s3)
                ∧ Chip8.V s3 = V' ∧ Chip8.memory s3 = Chip8.memory s2)
      as (s3 & Hs3 & HV3 & Hmem3).
    { unfold Chip8._op_fx__. cbn [Z.eqb Pos.eqb]. unfold Py.bind at 1. rewrite Hrun2.
      unfold Py.bind, Py.gets, Py.when, Py.modify, Py.ret.
      destruct (Chip8.fx55_fx65_increment_i (Chip8.set_V V' s2));
        (eexists; split; [done|]); by destruct s2. }
    exists s3. split; [done|]. split; [|split; [|done]].
    + intros k Hk. unfold reg at 1. rewrite HV3, Hin2 by lia.
      unfold byte_at. rewrite Hmem2, Hmem1, HI2. apply Hin. lia.
    + intros k Hk. unfold reg. rewrite HV3, Hout2 by lia. done.
Qed.

Lemma XX_chip8_store_load_witness :
  let s := about_to_draw in
  ∃ s1, Chip8._op_fx__ 3 0x55 s = Some (tt, s1)
      ∧ wf s1 ∧ Chip8.V s1 = Chip8.V s
      ∧ Chip8.I s1 = (if Chip8.fx55_fx65_increment_i s
                      then Z.land (Chip8.I s + 3 + 1) 0x0FFF else Chip8.I s)
      ∧ (∀ k, 0 ≤ k ≤ 3 → byte_at s1 (Z.land (Chip8.I s + k) 0x0FFF) = reg s k)
      ∧ (∀ a, 0 ≤ a → (∀ k, 0 ≤ k ≤ 3 → a ≠ Z.land (Chip8.I s + k) 0x0FFF) →
              byte_at s1 a = byte_at s a)
      ∧ ∀ s2, wf s2 → Chip8.memory s2 = Chip8.memory s1 → Chip8.I s2 = Chip8.I s →
          ∃ s3, Chip8._op_fx__ 3 0x65 s2 = Some (tt, s3)
              ∧ (∀ k, 0 ≤ k ≤ 3 → reg s3 k = reg s k)
              ∧ (∀ k, 3 < k → reg s3 k = reg s2 k)
              ∧ Chip8.memory s3 = Chip8.memory s2.
Proof. apply (XX_chip8_store_load about_to_draw 3); [vm_compute; reflexivity|lia]. Defined.

(** ** The second CHIP-8 core: stack, keys, loading and timers *)

(** The fetch of [cycle], for the opcode [op] at [pc]. *)
Ltac fetch_b Hop :=
  let hi := fresh "hi" in let lo := fresh "lo" in
  let Hhi := fresh "Hhi" in let Hlo := fresh "Hlo" in let Hval := fresh "Hval" in
  pose proof Hop as (hi & lo & Hhi & Hlo & Hval)%opcode_at_b_elim;
  unfold Chip8b.cycle; unfold Py.bind at 1; unfold Py.gets at 1;
  unfold Py.bind at 1; unfold Chip8b.mem_get at 1, Py.try_; rewrite Hhi;
  unfold Py.bind at 1; unfold Chip8b.mem_get at 1, Py.try_; rewrite Hlo;
  cbv zeta; rewrite <- Hval; unfold Py.bind at 1; unfold Py.modify at 1;
  clear hi lo Hhi Hlo Hval.

Lemma index_cases {A} (l : list A) i :
  (- Py.len l ≤ i < Py.len l ∧ Py.index l i = Some (Z.to_nat (i mod Py.len l)))
  ∨ (¬ - Py.len l ≤ i < Py.len l ∧ Py.index l i = None).
Proof.
  unfold Py.index. repeat case_bool_decide.
  - left. split; [lia|]. by rewrite Z.mod_small by lia.
  - left. split; [lia|]. do 2 f_equal.
    rewrite <- (Z.mod_add i 1 (Py.len l)) by lia. rewrite Z.mod_small by lia. lia.
  - right. split; [lia|done].
Qed.

(** [00EE] and [2NNN] are the fetch followed by their branches. *)
Lemma cycle_ret_b t rnd :
  opcode_at_b t = Some 0x00EE →
  Chip8b.cycle rnd t
  = (q <- Py.gets Chip8b.sp ;; Py.modify (Chip8b.set_sp (q - 1)) ;;
     q <- Py.gets Chip8b.sp ;; ra <- Chip8b.stack_get q ;;
     Py.modify (Chip8b.set_pc ra))%py (fetched_b t).
Proof. intros Hop. fetch_b Hop. reflexivity. Qed.

Lemma cycle_call_b t rnd op :
  opcode_at_b t = Some op → Z.land op 0xF000 = 0x2000 →
  Chip8b.cycle rnd t
  = (q <- Py.gets Chip8b.sp ;; ra <- Py.gets Chip8b.pc ;; Chip8b.stack_set q ra ;;
     Py.modify (Chip8b.set_sp (q + 1)) ;;
     Py.modify (Chip8b.set_pc (Z.land op 0x0FFF)))%py (fetched_b t).
Proof.
  intros Hop Htop. fetch_b Hop. rewrite Htop.
  destruct (Z.eqb_spec op 0x00E0) as [->|_]; [done|].
  destruct (Z.eqb_spec op 0x00EE) as [->|_]; [done|].
  reflexivity.
Qed.

(** XX_second_core_stack.  In the second core the stack pointer is not
    checked.  [00EE] decrements [sp] and jumps to [stack[sp]] with
    Python's indexing: it succeeds for [-15 <= sp <= 16], so on the empty
    stack ([sp = 0]) it takes the address of slot 15 and leaves [sp = -1];
    outside that range it raises.  [2NNN] stores the address of the next
    instruction in [stack[sp]] for [-16 <= sp <= 15] and raises otherwise,
    so at depth 16. *)
Theorem XX_second_core_stack t rnd op :
  Py.len (Chip8b.stack t) = 16 → opcode_at_b t = Some op →
  let sp := Chip8b.sp t in
  (op = 0x00EE →
     (-15 ≤ sp ≤ 16 →
      ∃ ra, Chip8b.stack t !! Z.to_nat ((sp - 1) mod 16) = Some ra
          ∧ Chip8b.cycle rnd t
            = Some (tt, Chip8b.set_pc ra (Chip8b.set_sp (sp - 1) (fetched_b t))))
     ∧ (¬ -15 ≤ sp ≤ 16 → Chip8b.cycle rnd t = None))
  ∧ (Z.land op 0xF000 = 0x2000 →
     (-16 ≤ sp ≤ 15 →
      Chip8b.cycle rnd t
      = Some (tt, Chip8b.set_pc (Z.land op 0x0FFF)
                    (Chip8b.set_sp (sp + 1)
                       (Chip8b.set_stack
                          (<[Z.to_nat (sp mod 16) := Chip8b.pc t + 2]> (Chip8b.stack t))
                          (fetched_b t)))))
     ∧ (¬ -16 ≤ sp ≤ 15 → Chip8b.cycle rnd t = None)).
Proof.
  intros Hlen Hop sp. split.
  - intros ->. rewrite (cycle_ret_b t rnd Hop).
    unfold Py.bind, Py.gets, Py.modify, Chip8b.stack_get, Py.try_, Py.getitem.
    cbn [Chip8b.sp Chip8b.stack Chip8b.set_sp Chip8b.set_pc fetched_b].
    fold sp. destruct (index_cases (Chip8b.stack t) (sp - 1)) as [[Hr Hi]|[Hr Hi]];
      rewrite Hlen in *; rewrite Hi; cbn [mbind option_bind]; (split; [|intros; try done; lia]).
    + intros _. destruct (lookup_lt_is_Some_2 (Chip8b.stack t) (Z.to_nat ((sp - 1) mod 16)))
        as [ra Hra].
      { unfold Py.len in Hlen. pose proof (Z.mod_pos_bound (sp - 1) 16 ltac:(lia)). lia. }
      exists ra. split; [done|]. rewrite Hra. by destruct t.
    + intros ?. lia.
  - intros Htop. rewrite (cycle_call_b t rnd op Hop Htop).
    unfold Py.bind, Py.gets, Py.modify, Chip8b.stack_set, Py.update, Py.setitem.
    cbn [Chip8b.sp Chip8b.stack Chip8b.pc Chip8b.set_sp Chip8b.set_pc fetched_b].
    fold sp. destruct (index_cases (Chip8b.stack t) sp) as [[Hr Hi]|[Hr Hi]];
      rewrite Hlen in *; rewrite Hi; cbn [mbind option_bind]; (split; [|intros; try done; lia]).
    + intros _. by destruct t.
    + intros ?. lia.
Qed.

Lemma XX_second_core_stack_witness :
  let t := Chip8b.set_mem (<[Z.to_nat 0x200 := 0x00]> (<[Z.to_nat 0x201 := 0xEE]>
                             (Chip8b.mem Chip8b.init))) Chip8b.init in
  let sp := Chip8b.sp t in
  (0x00EE = 0x00EE →
     (-15 ≤ sp ≤ 16 →
      ∃ ra, Chip8b.stack t !! Z.to_nat ((sp - 1) mod 16) = Some ra
          ∧ Chip8b.cycle 0 t
            = Some (tt, Chip8b.set_pc ra (Chip8b.set_sp (sp - 1) (fetched_b t))))
     ∧ (¬ -15 ≤ sp ≤ 16 → Chip8b.cycle 0 t = None))
  ∧ (Z.land 0x00EE 0xF000 = 0x2000 →
     (-16 ≤ sp ≤ 15 →
      Chip8b.cycle 0 t
      = Some (tt, Chip8b.set_pc (Z.land 0x00EE 0x0FFF)
                    (Chip8b.set_sp (sp + 1)
                       (Chip8b.set_stack
                          (<[Z.to_nat (sp mod 16) := Chip8b.pc t + 2]> (Chip8b.stack t))
                          (fetched_b t)))))
     ∧ (¬ -16 ≤ sp ≤ 15 → Chip8b.cycle 0 t = None)).
Proof.
  apply (XX_second_core_stack
           (Chip8b.set_mem (<[Z.to_nat 0x200 := 0x00]> (<[Z.to_nat 0x201 := 0xEE]>
                              (Chip8b.mem Chip8b.init))) Chip8b.init) 0 0x00EE);
    vm_compute; reflexivity.
Defined.

(** *** Waiting for a key *)

Lemma first_pressed_from (ks : list Z) (m : Z) :
  (fst <$> head (filter (λ iv, Py.truthy (snd iv) = true)
                        (zip (seqZ m (Py.len ks)) ks)) = None
   ↔ ∀ k v, ks !! k = Some v → v = 0)
  ∧ ∀ k v, ks !! k = Some v → v ≠ 0 →
           (∀ j w, (j < k)%nat → ks !! j = Some w → w = 0) →
           fst <$> head (filter (λ iv, Py.truthy (snd iv) = true)
                                (zip (seqZ m (Py.len ks)) ks)) = Some (m + Z.of_nat k).
Proof.
  revert m. induction ks as [|v0 ks IH]; intros m.
  - split; [split; [intros _ k v Hk; done|done]|]. intros k v Hk. done.
  - unfold Py.len. cbn [length]. rewrite seqZ_cons by lia.
    replace (Z.pred (Z.of_nat (S (length ks)))) with (Py.len ks) by (unfold Py.len; lia).
    cbn [zip zip_with]. rewrite filter_cons. cbn [snd].
    destruct (IH (Z.succ m)) as [IHn IHs].
    destruct (decide (Py.truthy v0 = true)) as [Ht|Ht].
    + assert (v0 ≠ 0) as Hv0.
      { intros ->. done. }
      split.
      * split; [done|]. intros Hall. specialize (Hall 0%nat v0 eq_refl). done.
      * intros [|k] v Hk Hv Hbefore.
        -- cbn. f_equal. lia.
        -- specialize (Hbefore 0%nat v0 ltac:(lia) eq_refl). done.
    + assert (v0 = 0) as ->.
      { unfold Py.truthy in Ht. destruct (Z.eqb_spec v0 0); [done|]. by destruct Ht. }
      split.
      * rewrite IHn. split.
        -- intros Hall [|k] v Hk; [by simplify_eq/=|]. by eapply Hall.
        -- intros Hall k v Hk. by apply (Hall (S k)).
      * intros [|k] v Hk Hv Hbefore; [by simplify_eq/=|].
        rewrite (IHs k v Hk Hv).
        -- f_equal. lia.
        -- intros j w Hj Hw. apply (Hbefore (S j) w); [lia|done].
Qed.

Lemma first_pressed_none ks :
  (∀ k v, ks !! k = Some v → v = 0) → Chip8b.first_pressed ks = None.
Proof. intros H. by apply (first_pressed_from ks 0). Qed.

Lemma first_pressed_least ks k v :
  ks !! k = Some v → v ≠ 0 → (∀ j w, (j < k)%nat → ks !! j = Some w → w = 0) →
  Chip8b.first_pressed ks = Some (Z.of_nat k).
Proof.
  intros Hk Hv Hb. unfold Chip8b.first_pressed, Py.range.
  by rewrite (proj2 (first_pressed_from ks 0) k v Hk Hv Hb).
Qed.

Lemma mask_F0FF op k :
  Z.land op 0xF0FF = k → Z.land op 0xF000 = Z.land k 0xF000 ∧ Z.land op 0xF00F = Z.land k 0xF00F.
Proof.
  intros <-. rewrite <- !Z.land_assoc.
  by change (Z.land 0xF0FF 0xF000) with 0xF000; change (Z.land 0xF0FF 0xF00F) with 0xF00F.
Qed.

Lemma cycle_key_b t rnd op :
  opcode_at_b t = Some op → Z.land op 0xF0FF = 0xF00A →
  Chip8b.cycle rnd t
  = (ks <- Py.gets Chip8b.keys ;;
     match Chip8b.first_pressed ks with
     | None => q <- Py.gets Chip8b.pc ;; Py.modify (Chip8b.set_pc (q - 2))
     | Some pressed => Chip8b.V_set (Z.land (Z.shiftr op 8) 0xF) pressed
     end)%py (fetched_b t).
Proof.
  intros Hop Hm. fetch_b Hop. destruct (mask_F0FF op _ Hm) as [H1 H2].
  rewrite Hm, H1, H2.
  destruct (Z.eqb_spec op 0x00E0) as [->|_]; [done|].
  destruct (Z.eqb_spec op 0x00EE) as [->|_]; [done|].
  reflexivity.
Qed.

(** XX_second_core_key_wait.  [FX0A] of the second core polls the keys.
    While none is down the instruction leaves the machine exactly as it
    was, the program counter back on the instruction; once a key is down
    [Vx] receives the least index of a pressed key and execution goes
    on. *)
Theorem XX_second_core_key_wait t rnd op :
  Py.len (Chip8b.V t) = 16 → opcode_at_b t = Some op → Z.land op 0xF0FF = 0xF00A →
  ((∀ k v, Chip8b.keys t !! k = Some v → v = 0) → Chip8b.cycle rnd t = Some (tt, t))
  ∧ ∀ k v, Chip8b.keys t !! k = Some v → v ≠ 0 →
      (∀ j w, (j < k)%nat → Chip8b.keys t !! j = Some w → w = 0) →
      Chip8b.cycle rnd t
      = Some (tt, Chip8b.set_V
                    (<[Z.to_nat (Z.land (Z.shiftr op 8) 0xF) := Z.of_nat k]> (Chip8b.V t))
                    (fetched_b t)).
Proof.
  intros Hlen Hop Hm. rewrite (cycle_key_b t rnd op Hop Hm).
  split; unfold Py.bind at 1; unfold Py.gets at 1;
    change (Chip8b.keys (fetched_b t)) with (Chip8b.keys t).
  - intros Hnone. rewrite (first_pressed_none _ Hnone).
    unfold Py.bind, Py.gets, Py.modify. destruct t. unfold fetched_b, Chip8b.set_pc; cbn.
    do 3 f_equal. lia.
  - intros k v Hk Hv Hb. rewrite (first_pressed_least _ k v Hk Hv Hb).
    unfold Chip8b.V_set, Py.update. change (Chip8b.V (fetched_b t)) with (Chip8b.V t).
    pose proof (land_15_range (Z.shiftr op 8)) as Hx.
    rewrite setitem_in_range by lia. done.
Qed.

Lemma XX_second_core_key_wait_witness :
  let t := Chip8b.set_mem (<[Z.to_nat 0x200 := 0xF3]> (<[Z.to_nat 0x201 := 0x0A]>
                             (Chip8b.mem Chip8b.init))) Chip8b.init in
  ((∀ k v, Chip8b.keys t !! k = Some v → v = 0) → Chip8b.cycle 0 t = Some (tt, t))
  ∧ ∀ k v, Chip8b.keys t !! k = Some v → v ≠ 0 →
      (∀ j w, (j < k)%nat → Chip8b.keys t !! j = Some w → w = 0) →
      Chip8b.cycle 0 t
      = Some (tt, Chip8b.set_V
                    (<[Z.to_nat (Z.land (Z.shiftr 0xF30A 8) 0xF) := Z.of_nat k]> (Chip8b.V t))
                    (fetched_b t)).
Proof.
  apply (XX_second_core_key_wait
           (Chip8b.set_mem (<[Z.to_nat 0x200 := 0xF3]> (<[Z.to_nat 0x201 := 0x0A]>
                              (Chip8b.mem Chip8b.init))) Chip8b.init) 0 0xF30A);
    vm_compute; reflexivity.
Defined.

(** *** Loading a program *)

Lemma set_mem_set_mem m m' t : Chip8b.set_mem m' (Chip8b.set_mem m t) = Chip8b.set_mem m' t.
Proof. by destruct t. Qed.

Lemma set_mem_id t : Chip8b.set_mem (Chip8b.mem t) t = t.
Proof. by destruct t. Qed.

Lemma mem_set_run_b t a v :
  0 ≤ a < Py.len (Chip8b.mem t) →
  Chip8b.mem_set a v t = Some (tt, Chip8b.set_mem (<[Z.to_nat a := v]> (Chip8b.mem t)) t).
Proof. intros Ha. unfold Chip8b.mem_set, Py.update. by rewrite setitem_in_range. Qed.

(** The first loop of [load_rom] after [n] rounds. *)
Lemma clear_loop_b t (n : nat) :
  Py.len (Chip8b.mem t) = 4096 → 0x200 + Z.of_nat n ≤ 4096 →
  ∃ m', Py.for_ (seqZ 0x200 (Z.of_nat n)) (λ i, Chip8b.mem_set i 0) t
        = Some (tt, Chip8b.set_mem m' t)
      ∧ Py.len m' = 4096
      ∧ ∀ a, 0 ≤ a →
          m' !! Z.to_nat a
          = if bool_decide (0x200 ≤ a < 0x200 + Z.of_nat n) then Some 0
            else Chip8b.mem t !! Z.to_nat a.
Proof.
  intros Hlen. induction n as [|n IH]; intros Hn.
  - exists (Chip8b.mem t). rewrite set_mem_id. split; [done|]. split; [done|].
    intros a Ha. by rewrite bool_decide_eq_false_2 by lia.
  - destruct IH as (m' & Hrun & Hl & Hm'); [lia|].
    rewrite seqZ_S, for_app, Hrun. cbn [Py.for_]. unfold Py.bind.
    rewrite mem_set_run_b by (cbn; lia). cbn [Chip8b.mem Chip8b.set_mem].
    rewrite set_mem_set_mem. eexists. split; [done|]. split; [by rewrite len_insert|].
    intros a Ha. destruct (decide (a = 0x200 + Z.of_nat n)) as [->|Hne].
    + rewrite list_lookup_insert_eq by (unfold Py.len in Hl; lia).
      by rewrite bool_decide_eq_true_2 by lia.
    + rewrite list_lookup_insert_ne by lia. rewrite Hm' by done.
      repeat case_bool_decide; done || lia.
Qed.

(** Its second loop over the bytes [d]. *)
Lemma copy_loop_b t (d : list Z) :
  Py.len (Chip8b.mem t) = 4096 →
  ∃ m', Py.for_ (zip (Py.range (Py.len d)) d) (λ ib,
          Py.when (0x200 + ib.1 <? 4096) (Chip8b.mem_set (0x200 + ib.1) ib.2)) t
        = Some (tt, Chip8b.set_mem m' t)
      ∧ Py.len m' = 4096
      ∧ ∀ a, 0 ≤ a < 4096 →
          m' !! Z.to_nat a
          = if bool_decide (0x200 ≤ a < 0x200 + Py.len d) then d !! Z.to_nat (a - 0x200)
            else Chip8b.mem t !! Z.to_nat a.
Proof.
  intros Hlen. induction d as [|b d IH] using rev_ind.
  - exists (Chip8b.mem t). rewrite set_mem_id. split; [done|]. split; [done|].
    intros a Ha. rewrite bool_decide_eq_false_2; [done|]. unfold Py.len. cbn. lia.
  - destruct IH as (m' & Hrun & Hl & Hm').
    unfold Py.range in *. unfold Py.len at 1. rewrite length_app. cbn [length].
    replace (length d + 1)%nat with (S (length d)) by lia.
    rewrite seqZ_S, zip_with_app by (rewrite length_seqZ; lia).
    fold (Py.len d). rewrite for_app, Hrun. cbn [zip_with Py.for_ fst snd]. unfold Py.bind.
    assert (Py.len (d ++ [b]) = Py.len d + 1) as Hld.
    { unfold Py.len. rewrite length_app. cbn. lia. }
    rewrite Z.add_0_l. destruct (Z.ltb_spec (0x200 + Py.len d) 4096) as [Hin|Hout];
      cbn [Py.when].
    + rewrite mem_set_run_b by (cbn [Chip8b.mem Chip8b.set_mem]; unfold Py.len in *; lia).
      cbn [Chip8b.mem Chip8b.set_mem]. rewrite set_mem_set_mem.
      eexists. split; [done|]. split; [by rewrite len_insert|].
      intros a Ha. rewrite Hld. destruct (decide (a = 0x200 + Py.len d)) as [->|Hne].
      * rewrite list_lookup_insert_eq by (unfold Py.len in *; lia).
        rewrite bool_decide_eq_true_2 by (unfold Py.len; lia).
        replace (0x200 + Py.len d - 0x200) with (Py.len d) by lia.
        unfold Py.len. rewrite Nat2Z.id. by rewrite lookup_app_r, Nat.sub_diag by lia.
      * rewrite list_lookup_insert_ne by (unfold Py.len in *; lia). rewrite Hm' by done.
        repeat case_bool_decide; try done; try lia.
        rewrite lookup_app_l; [done|]. unfold Py.len in *. lia.
    + unfold Py.ret. exists m'. split; [done|]. split; [done|].
      intros a Ha. rewrite Hm', Hld by done.
      repeat case_bool_decide; try done; try lia.
      rewrite lookup_app_l; [done|]. unfold Py.len in *. lia.
Qed.

(** XX_second_core_load_rom.  [load_rom] of the second core never
    fails and changes the memory only: the bytes below [0x200] (the font)
    are kept, the program area receives the bytes of the file, cut at the
    end of the memory without an error, and zeros after them. *)
Theorem XX_second_core_load_rom t data :
  Py.len (Chip8b.mem t) = 4096 →
  ∃ m', load_rom_b data t = Some (tt, Chip8b.set_mem m' t)
      ∧ Py.len m' = 4096
      ∧ ∀ a, 0 ≤ a < 4096 →
          m' !! Z.to_nat a
          = if a <? 0x200 then Chip8b.mem t !! Z.to_nat a
            else Some (default 0 (data !! Z.to_nat (a - 0x200))).
Proof.
  intros Hlen. unfold load_rom_b.
  destruct (clear_loop_b t (Z.to_nat (4096 - 0x200)) Hlen ltac:(lia)) as (m1 & Hrun1 & Hl1 & Hm1).
  rewrite Z2Nat.id in Hrun1, Hm1 by lia.
  destruct (copy_loop_b (Chip8b.set_mem m1 t) data Hl1) as (m2 & Hrun2 & Hl2 & Hm2).
  cbn [Chip8b.mem Chip8b.set_mem] in Hm2. rewrite set_mem_set_mem in Hrun2.
  exists m2. unfold Py.bind. rewrite Hrun1. split; [exact Hrun2|]. split; [done|].
  intros a Ha. rewrite Hm2 by done. rewrite Hm1 by lia.
  destruct (Z.ltb_spec a 0x200).
  - rewrite bool_decide_eq_false_2 by lia. by rewrite bool_decide_eq_false_2 by lia.
  - case_bool_decide as Hd.
    + destruct (lookup_lt_is_Some_2 data (Z.to_nat (a - 0x200))) as [v Hv].
      { unfold Py.len in Hd. lia. }
      by rewrite Hv.
    + rewrite bool_decide_eq_true_2 by lia.
      rewrite lookup_ge_None_2; [done|]. unfold Py.len in Hd. lia.
Qed.

Lemma XX_second_core_load_rom_witness :
  ∃ m', load_rom_b [0x12; 0x00] Chip8b.init = Some (tt, Chip8b.set_mem m' Chip8b.init)
      ∧ Py.len m' = 4096
      ∧ ∀ a, 0 ≤ a < 4096 →
          m' !! Z.to_nat a
          = if a <? 0x200 then Chip8b.mem Chip8b.init !! Z.to_nat a
            else Some (default 0 ([0x12; 0x00] !! Z.to_nat (a - 0x200))).
Proof. apply (XX_second_core_load_rom Chip8b.init [0x12; 0x00]). vm_compute. reflexivity. Defined.

(** *** Timers *)

Lemma tick_timers_b_run t :
  tick_timers_b t
  = Some (tt, Chip8b.set_sound (if Chip8b.sound t >? 0 then Chip8b.sound t - 1 else Chip8b.sound t)
                (Chip8b.set_delay
                   (if Chip8b.delay t >? 0 then Chip8b.delay t - 1 else Chip8b.delay t) t)).
Proof.
  unfold tick_timers_b, Py.bind, Py.gets, Py.when, Py.modify, Py.ret.
  destruct t as [? ? ? ? ? ? delay sound ? ? ?]. cbn.
  destruct (delay >? 0); cbn; destruct (sound >? 0); done.
Qed.

Lemma count_down d (n : nat) :
  0 ≤ d →
  Z.max 0 ((if d >? 0 then d - 1 else d) - Z.of_nat n) = Z.max 0 (d - Z.of_nat (S n))
  ∧ 0 ≤ (if d >? 0 then d - 1 else d).
Proof.
  intros Hd. destruct (Z.gtb_spec d 0).
  - split; [f_equal|]; lia.
  - split; [|lia]. rewrite !Z.max_l by lia. done.
Qed.

(** XX_second_core_timers.  [tick_timers] counts both timers down and
    stops at zero: from non-negative timers, [n] ticks leave
    [max 0 (delay - n)] and [max 0 (sound - n)], and nothing else
    changes. *)
Theorem XX_second_core_timers t (n : nat) :
  0 ≤ Chip8b.delay t → 0 ≤ Chip8b.sound t →
  ticks_b n t
  = Some (tt, Chip8b.set_sound (Z.max 0 (Chip8b.sound t - Z.of_nat n))
                (Chip8b.set_delay (Z.max 0 (Chip8b.delay t - Z.of_nat n)) t)).
Proof.
  unfold ticks_b. revert t. induction n as [|n IH]; intros t Hd Hs.
  - cbn [replicate Py.for_]. unfold Py.ret. destruct t; cbn in *.
    unfold Chip8b.set_sound, Chip8b.set_delay; cbn.
    rewrite !Z.max_r by lia. do 3 f_equal; lia.
  - cbn [replicate Py.for_]. unfold Py.bind. rewrite tick_timers_b_run.
    destruct t as [? ? ? ? ? ? delay sound ? ? ?]. cbn in Hd, Hs.
    destruct (count_down delay n Hd) as [Hcd Hd'].
    destruct (count_down sound n Hs) as [Hcs Hs'].
    rewrite IH by done.
    unfold Chip8b.set_sound, Chip8b.set_delay; cbn. by rewrite Hcd, Hcs.
Qed.

Lemma XX_second_core_timers_witness :
  ticks_b 5 (Chip8b.set_delay 3 Chip8b.init)
  = Some (tt, Chip8b.set_sound (Z.max 0 (Chip8b.sound (Chip8b.set_delay 3 Chip8b.init) - Z.of_nat 5))
                (Chip8b.set_delay
                   (Z.max 0 (Chip8b.delay (Chip8b.set_delay 3 Chip8b.init) - Z.of_nat 5))
                   (Chip8b.set_delay 3 Chip8b.init))).
Proof. apply (XX_second_core_timers (Chip8b.set_delay 3 Chip8b.init) 5); by vm_compute. Defined.

(** ** The shell of the first CHIP-8 machine: rendering *)

Lemma forallb_elem_of {A} (f : A → bool) (l : list A) :
  forallb f l = true ↔ ∀ x, x ∈ l → f x = true.
Proof.
  induction l as [|y l IH]; cbn [forallb].
  - split; [|done]. intros _ x Hx. by apply elem_of_nil in Hx.
  - rewrite andb_true_iff, IH. split.
    + intros [Hy Hl] x [->|Hx]%elem_of_cons; [done|by apply Hl].
    + intros Hall. split; [apply Hall; by left|]. intros x Hx. apply Hall. by right.
Qed.

Lemma covered_spec scr s :
  covered scr s ↔
  Py.len scr = Chip8.W * Chip8.H
  ∧ Py.len (Chip8.gfx s) = Chip8.W * Chip8.H
  ∧ (∀ idx, idx ∈ Chip8.dirty s → 0 ≤ idx < Chip8.W * Chip8.H)
  ∧ ∀ idx, 0 ≤ idx < Chip8.W * Chip8.H → idx ∉ Chip8.dirty s →
           scr !! Z.to_nat idx = Some (Py.truthy (pixel s idx)).
Proof.
  unfold covered, covered_b. rewrite !andb_true_iff, !bool_decide_eq_true, !forallb_elem_of.
  split.
  - intros [[[H1 H2] H3] H4]. split; [done|]. split; [done|]. split.
    + intros idx Hi. eapply bool_decide_eq_true_1, H3. by apply elem_of_elements.
    + intros idx Hi Hd. specialize (H4 idx). rewrite orb_true_iff, !bool_decide_eq_true in H4.
      destruct H4 as [H4|H4]; [|done|done].
      unfold Py.range. apply elem_of_seqZ. lia.
  - intros (H1 & H2 & H3 & H4). repeat split; try done.
    + intros idx Hi%elem_of_elements. apply bool_decide_eq_true_2. by apply H3.
    + intros idx Hi%elem_of_seqZ. rewrite orb_true_iff, !bool_decide_eq_true.
      destruct (decide (idx ∈ Chip8.dirty s)); [by left|right]. apply H4; [lia|done].
Qed.

(** An operation that leaves the display and the dirty set alone. *)
Lemma covered_frame scr s s' :
  Chip8.gfx s' = Chip8.gfx s → Chip8.dirty s' = Chip8.dirty s →
  covered scr s → covered scr s'.
Proof.
  intros Hg Hd. rewrite !covered_spec. unfold pixel. rewrite Hg, Hd. done.
Qed.

Create HintDb screen discriminated.

Section covered_rules.
Context (scr : list bool).

Lemma V_set_covered i v : maintains (covered scr) (Chip8.V_set i v).
Proof.
  apply maintains_update. intros s s' Hs Hr.
  destruct (Py.setitem (Chip8.V s) i v) as [r|]; simplify_eq/=.
  by apply (covered_frame scr s).
Qed.

Lemma mem_set_covered i v : maintains (covered scr) (Chip8.mem_set i v).
Proof.
  apply maintains_update. intros s s' Hs Hr.
  destruct (Py.setitem (Chip8.memory s) i v) as [r|]; simplify_eq/=.
  by apply (covered_frame scr s).
Qed.

Lemma stack_set_covered i v : maintains (covered scr) (Chip8.stack_set i v).
Proof.
  apply maintains_update. intros s s' Hs Hr.
  destruct (Py.setitem (Chip8.stack s) i v) as [r|]; simplify_eq/=.
  by apply (covered_frame scr s).
Qed.

(** Flipping a cell and marking it dirty. *)
Lemma plot_covered idx v :
  0 ≤ idx < Chip8.W * Chip8.H →
  maintains (covered scr)
    (Chip8.gfx_set idx v ;; Py.modify (λ s, Chip8.set_dirty ({[ idx ]} ∪ Chip8.dirty s) s))%py.
Proof.
  intros Hi s x s' Hs Hr. apply covered_spec in Hs as (H1 & H2 & H3 & H4).
  unfold Py.bind, Chip8.gfx_set, Py.update, Py.modify in Hr.
  rewrite setitem_in_range in Hr by lia. cbn [mbind option_bind] in Hr.
  apply (inj Some) in Hr. apply (f_equal snd) in Hr. cbn [snd] in Hr. subst s'.
  apply covered_spec. unfold pixel. chip8_simpl. split; [done|]. split; [|split].
  - by rewrite len_insert.
  - intros j [->%elem_of_singleton|Hj]%elem_of_union; [done|]. by apply H3.
  - intros j Hj Hd. apply not_elem_of_union in Hd as [Hne%not_elem_of_singleton Hd].
    rewrite list_lookup_insert_ne by lia. by apply H4.
Qed.

Lemma cls_covered : maintains (covered scr) Chip8._cls.
Proof.
  intros s x s' Hs Hr. apply covered_spec in Hs as (H1 & H2 & H3 & H4).
  assert (∀ idx : Z, idx ∈ (list_to_set (Py.range (Chip8.W * Chip8.H)) : gset Z)
                     ↔ 0 ≤ idx < Chip8.W * Chip8.H) as Hall.
  { intros idx. rewrite elem_of_list_to_set. unfold Py.range. rewrite elem_of_seqZ. lia. }
  unfold Chip8._cls, Py.bind, Py.gets, Py.when, Py.modify, Py.ret in Hr.
  apply covered_spec.
  destruct (Py.any (Chip8.gfx s)); apply (inj Some) in Hr; apply (f_equal snd) in Hr;
    cbn [snd] in Hr; subst s'; chip8_simpl;
    (split; [done|]; split; [done || apply len_zeros; done|]; split; [intros idx; apply Hall|]);
    intros idx Hi Hd; destruct Hd; by apply Hall.
Qed.

#[local] Hint Resolve maintains_ret maintains_bind maintains_gets maintains_try
  maintains_when maintains_if maintains_for
  V_set_covered mem_set_covered stack_set_covered cls_covered : screen.
#[local] Hint Extern 2 (maintains (covered _) (Py.modify _)) =>
  (apply maintains_modify; let s := fresh in let H := fresh in
   intros s H; apply (covered_frame _ s); [reflexivity..|exact H]) : screen.

Ltac keeps_screen := cbv zeta; repeat apply maintains_if; auto 30 with screen.

Lemma draw_bit_covered x0 y sprite bit :
  0 ≤ y < Chip8.H → maintains (covered scr) (Chip8.draw_bit x0 y sprite bit).
Proof.
  intros Hy. unfold Chip8.draw_bit. cbv zeta. apply maintains_if; [keeps_screen|].
  unfold Chip8.gfx_get.
  apply maintains_bind; [keeps_screen|]. intros g.
  apply maintains_bind; [keeps_screen|]. intros _.
  apply maintains_bind; [keeps_screen|]. intros g'.
  apply plot_covered.
  pose proof (Z.mod_pos_bound (x0 + bit) Chip8.W ltac:(done)).
  unfold Chip8.W, Chip8.H in *. lia.
Qed.

Lemma draw_covered vx vy n : maintains (covered scr) (Chip8._draw vx vy n).
Proof.
  unfold Chip8._draw. cbv zeta. apply maintains_bind; [keeps_screen|]. intros _.
  apply maintains_for. intros row. unfold Chip8.draw_row, Chip8.mem_get.
  apply maintains_bind; [keeps_screen|]. intros i.
  apply maintains_bind; [keeps_screen|]. intros sprite. cbv zeta.
  apply maintains_for. intros bit. apply draw_bit_covered.
  apply Z.mod_pos_bound. done.
Qed.

Lemma ret_covered : maintains (covered scr) Chip8._ret.
Proof. unfold Chip8._ret, Chip8.stack_get. keeps_screen. Qed.
Lemma call_covered addr : maintains (covered scr) (Chip8._call addr).
Proof. unfold Chip8._call. keeps_screen. Qed.
Lemma skip_covered : maintains (covered scr) Chip8.skip.
Proof. unfold Chip8.skip. keeps_screen. Qed.
#[local] Hint Resolve ret_covered call_covered draw_covered skip_covered : screen.
Lemma op_8xy_covered x y n : maintains (covered scr) (Chip8._op_8xy_ x y n).
Proof. unfold Chip8._op_8xy_, Chip8.V_get. keeps_screen. Qed.
Lemma op_ex_covered x nn : maintains (covered scr) (Chip8._op_ex__ x nn).
Proof. unfold Chip8._op_ex__, Chip8.V_get, Chip8.keys_get. keeps_screen. Qed.
Lemma op_fx_covered x nn : maintains (covered scr) (Chip8._op_fx__ x nn).
Proof. unfold Chip8._op_fx__, Chip8.V_get, Chip8.mem_get. keeps_screen. Qed.
#[local] Hint Resolve op_8xy_covered op_ex_covered op_fx_covered : screen.

(** Every instruction marks dirty the cells it changes. *)
Lemma cycle_covered rnd : maintains (covered scr) (Chip8._cycle rnd).
Proof. unfold Chip8._cycle, Chip8.V_get, Chip8.mem_get. keeps_screen. Qed.

End covered_rules.

(** A computation of the machine that keeps the screen covered keeps the
    shell in step. *)
Lemma on_vm_synced {A} (m : Chip8.M A) :
  (∀ scr, maintains (covered scr) m) → maintains synced (Shell.on_vm m).
Proof.
  intros Hm sh x sh' Hs Hr. unfold Shell.on_vm in Hr.
  destruct (m (Shell.vm sh)) as [[y s']|] eqn:Hrun; [|done].
  apply (inj Some) in Hr. apply (f_equal snd) in Hr. cbn [snd] in Hr. subst sh'.
  unfold synced. cbn [Shell.screen Shell.vm Shell.set_vm]. by eapply Hm.
Qed.

Lemma on_vm_frame_synced (g : Chip8.t → Chip8.t) :
  (∀ s, Chip8.gfx (g s) = Chip8.gfx s) → (∀ s, Chip8.dirty (g s) = Chip8.dirty s) →
  maintains synced (Shell.on_vm (Py.modify g)).
Proof.
  intros Hg Hd. apply on_vm_synced. intros scr. apply maintains_modify.
  intros s. by apply covered_frame.
Qed.

Lemma run_cycles_synced rnd ks : maintains synced (Shell.run_cycles rnd ks).
Proof.
  induction ks as [|k ks IH]; cbn [Shell.run_cycles]; [apply maintains_ret|].
  apply maintains_bind; [apply maintains_gets|]. intros w.
  apply maintains_if; [apply maintains_ret|].
  apply maintains_bind; [|done]. apply on_vm_synced. intros scr. apply cycle_covered.
Qed.

(** The loop of [_render_dirty] over the cells [l]. *)
Lemma render_loop l sh :
  Py.len (Shell.screen sh) = Chip8.W * Chip8.H →
  Py.len (Chip8.gfx (Shell.vm sh)) = Chip8.W * Chip8.H →
  (∀ x, x ∈ l → 0 ≤ x < Chip8.W * Chip8.H) →
  ∃ scr', Py.for_ l (λ idx, g <- Shell.on_vm (Chip8.gfx_get idx) ;;
                            Shell.paint idx (Py.truthy g))%py sh
          = Some (tt, Shell.set_screen scr' sh)
        ∧ Py.len scr' = Chip8.W * Chip8.H
        ∧ ∀ idx, 0 ≤ idx →
            scr' !! Z.to_nat idx
            = if bool_decide (idx ∈ l) then Some (Py.truthy (pixel (Shell.vm sh) idx))
              else Shell.screen sh !! Z.to_nat idx.
Proof.
  revert sh. induction l as [|x l IH]; intros sh Hscr Hgfx Hl.
  - exists (Shell.screen sh). split; [by destruct sh|]. split; [done|].
    intros idx Hi. rewrite bool_decide_eq_false_2; [done|]. apply not_elem_of_nil.
  - assert (0 ≤ x < Chip8.W * Chip8.H) as Hx by (apply Hl; by left).
    cbn [Py.for_]. unfold Py.bind at 1. unfold Py.bind at 1.
    unfold Shell.on_vm at 1, Chip8.gfx_get, Py.try_.
    destruct (getitem_in_range (Chip8.gfx (Shell.vm sh)) x) as [Hget [g Hg]]; [lia|].
    rewrite Hget, Hg. unfold Shell.paint, Py.update.
    cbn [Shell.screen Shell.set_vm]. rewrite setitem_in_range by lia.
    cbn [mbind option_bind].
    replace (Shell.set_vm (Shell.vm sh) sh) with sh by (by destruct sh).
    destruct (IH (Shell.set_screen (<[Z.to_nat x := Py.truthy g]> (Shell.screen sh)) sh))
      as (scr' & Hrun & Hlen & Hlook).
    { cbn [Shell.screen Shell.set_screen]. by rewrite len_insert. }
    { done. }
    { intros y Hy. apply Hl. by right. }
    exists scr'. split; [etrans; [exact Hrun|by destruct sh]|]. split; [done|].
    intros idx Hi. rewrite Hlook by done.
    cbn [Shell.screen Shell.vm Shell.set_screen].
    destruct (decide (idx ∈ l)) as [Hin|Hnin].
    + rewrite !bool_decide_eq_true_2; [done| by right |done].
    + rewrite (bool_decide_eq_false_2 (idx ∈ l)) by done.
      destruct (decide (idx = x)) as [->|Hne].
      * rewrite bool_decide_eq_true_2 by (by left).
        unfold Py.len in Hscr. rewrite list_lookup_insert_eq by lia.
        unfold pixel. by rewrite Hg.
      * rewrite bool_decide_eq_false_2.
        -- by rewrite list_lookup_insert_ne by lia.
        -- intros [?|?]%elem_of_cons; done.
Qed.

(** [_render_dirty] paints exactly the dirty cells and empties the set. *)
Lemma render_dirty_run sh :
  Py.len (Shell.screen sh) = Chip8.W * Chip8.H →
  Py.len (Chip8.gfx (Shell.vm sh)) = Chip8.W * Chip8.H →
  (∀ x, x ∈ Chip8.dirty (Shell.vm sh) → 0 ≤ x < Chip8.W * Chip8.H) →
  ∃ scr', Shell._render_dirty sh
          = Some (tt, Shell.set_vm (Chip8.set_dirty ∅ (Shell.vm sh)) (Shell.set_screen scr' sh))
        ∧ Py.len scr' = Chip8.W * Chip8.H
        ∧ ∀ idx, 0 ≤ idx →
            scr' !! Z.to_nat idx
            = if bool_decide (idx ∈ Chip8.dirty (Shell.vm sh))
              then Some (Py.truthy (pixel (Shell.vm sh) idx))
              else Shell.screen sh !! Z.to_nat idx.
Proof.
  intros Hscr Hgfx Hd.
  destruct (render_loop (elements (Chip8.dirty (Shell.vm sh))) sh Hscr Hgfx)
    as (scr' & Hrun & Hlen & Hlook).
  { intros x Hx%elem_of_elements. by apply Hd. }
  exists scr'. split; [|split; [done|]].
  - unfold Shell._render_dirty. unfold Py.bind at 1. unfold Py.gets at 1.
    unfold Py.bind at 1. rewrite Hrun. reflexivity.
  - intros idx Hi. rewrite Hlook by done.
    destruct (decide (idx ∈ Chip8.dirty (Shell.vm sh))) as [Hin|Hnin].
    + rewrite !bool_decide_eq_true_2; [done|done|by apply elem_of_elements].
    + rewrite !bool_decide_eq_false_2; [done|done|by rewrite elem_of_elements].
Qed.

Lemma shows_synced sh :
  Py.len (Shell.screen sh) = Chip8.W * Chip8.H →
  Py.len (Chip8.gfx (Shell.vm sh)) = Chip8.W * Chip8.H →
  shows sh → synced sh.
Proof.
  intros Hscr Hgfx [Hd Hs]. apply covered_spec. rewrite Hd.
  split; [done|]. split; [done|]. split.
  - intros idx Hi. by apply elem_of_empty in Hi.
  - intros idx Hi _. by apply Hs.
Qed.

Lemma render_dirty_shows sh :
  synced sh →
  ∃ sh', Shell._render_dirty sh = Some (tt, sh') ∧ shows sh' ∧ synced sh'
       ∧ Shell.vm sh' = Chip8.set_dirty ∅ (Shell.vm sh)
       ∧ Shell.running sh' = Shell.running sh ∧ Shell.paused sh' = Shell.paused sh.
Proof.
  intros (Hscr & Hgfx & Hd & Hs)%covered_spec.
  destruct (render_dirty_run sh Hscr Hgfx Hd) as (scr' & Hrun & Hlen & Hlook).
  eexists. split; [exact Hrun|].
  assert (shows (Shell.set_vm (Chip8.set_dirty ∅ (Shell.vm sh)) (Shell.set_screen scr' sh)))
    as Hshows.
  { split; [done|]. intros idx Hi. cbn [Shell.vm Shell.screen Shell.set_vm Shell.set_screen].
    rewrite Hlook by lia. change (pixel (Chip8.set_dirty ∅ (Shell.vm sh)) idx)
      with (pixel (Shell.vm sh) idx).
    case_bool_decide; [done|]. by apply Hs. }
  split; [done|]. split; [|done]. by apply shows_synced.
Qed.

Lemma synced_shows sh : synced sh → Chip8.dirty (Shell.vm sh) = ∅ → shows sh.
Proof.
  intros (Hscr & Hgfx & Hd & Hs)%covered_spec He. split; [done|].
  intros idx Hi. apply Hs; [done|]. rewrite He. apply not_elem_of_empty.
Qed.

Lemma keys_set_covered scr key v : maintains (covered scr) (Shell.keys_set key v).
Proof.
  apply maintains_update. intros s s' Hs Hr.
  destruct (Py.setitem (Chip8.keys s) key v) as [r|]; simplify_eq/=.
  by apply (covered_frame scr s).
Qed.

Lemma tick_synced rnd sh sh' :
  synced sh → Shell._tick rnd sh = Some (tt, sh') →
  synced sh' ∧ (Shell.running sh = true → shows sh').
Proof.
  intros Hs Hr. unfold Shell._tick in Hr. unfold Py.bind at 1, Py.gets at 1 in Hr.
  destruct (Shell.running sh) eqn:Hrun; cbn [negb] in Hr.
  - unfold Py.bind at 1, Py.gets at 1 in Hr. unfold Py.bind at 1 in Hr.
    match type of Hr with
    | match ?m sh with _ => _ end = _ =>
        assert (maintains synced m) as Hm; [|destruct (m sh) as [[[] sh1]|] eqn:Hwork; [|done]]
    end.
    { apply maintains_when.
      apply maintains_bind; [apply run_cycles_synced|]. intros _.
      apply maintains_bind; [apply maintains_gets|]. intros dt.
      apply maintains_bind; [apply maintains_when; by apply on_vm_frame_synced|]. intros _.
      apply maintains_bind; [apply maintains_gets|]. intros st.
      apply maintains_when. by apply on_vm_frame_synced. }
    pose proof (Hm sh tt sh1 Hs Hwork) as Hs1.
    unfold Py.bind, Py.gets, Py.when, Py.ret in Hr.
    case_bool_decide as Hd; cbn [negb] in Hr.
    + simplify_eq. split; [done|]. intros _. by apply synced_shows.
    + destruct (render_dirty_shows sh1 Hs1) as (sh2 & Hrd & Hshows & Hs2 & _).
      rewrite Hrd in Hr. by simplify_eq.
  - unfold Py.ret in Hr. by simplify_eq.
Qed.

Lemma on_key_press_synced ks ch : maintains synced (Shell.on_key_press ks ch).
Proof.
  unfold Shell.on_key_press. apply maintains_if.
  - unfold Shell.toggle_pause. apply maintains_bind; [apply maintains_gets|]. intros p.
    apply maintains_modify. by intros [].
  - destruct (Shell.lookup_key ch Shell.KEYMAP) as [key|]; [|apply maintains_ret].
    apply maintains_bind.
    { apply on_vm_synced. intros scr. apply keys_set_covered. }
    intros _. apply maintains_bind; [apply maintains_gets|]. intros w.
    apply maintains_when. apply maintains_bind.
    { apply on_vm_synced. intros scr. apply maintains_bind; [apply maintains_gets|].
      intros r. apply V_set_covered. }
    intros _. apply maintains_bind; [by apply on_vm_frame_synced|]. intros _.
    apply on_vm_synced. intros scr. apply maintains_bind; [apply maintains_gets|].
    intros p. apply maintains_modify. intros s. by apply covered_frame.
Qed.

Lemma on_key_release_synced ch : maintains synced (Shell.on_key_release ch).
Proof.
  unfold Shell.on_key_release.
  destruct (Shell.lookup_key ch Shell.KEYMAP) as [key|]; [|apply maintains_ret].
  apply on_vm_synced. intros scr. apply keys_set_covered.
Qed.

(** XX_screen_in_step.  The shell keeps the screen in step with the
    display: if every cell that is not marked dirty is painted in the
    colour of its pixel, this still holds after a tick, a key press or a
    key release, and after a tick of a running shell the dirty set is
    empty and every cell of the screen shows its pixel. *)
Theorem XX_screen_in_step sh :
  synced sh →
  (∀ rnd sh', Shell._tick rnd sh = Some (tt, sh') →
     synced sh' ∧ (Shell.running sh = true → shows sh'))
  ∧ (∀ ks ch sh', Shell.on_key_press ks ch sh = Some (tt, sh') → synced sh')
  ∧ (∀ ch sh', Shell.on_key_release ch sh = Some (tt, sh') → synced sh').
Proof.
  intros Hs. split; [|split].
  - intros rnd sh' Hr. by apply (tick_synced rnd sh).
  - intros ks ch sh' Hr. by apply (on_key_press_synced ks ch sh tt sh').
  - intros ch sh' Hr. by apply (on_key_release_synced ch sh tt sh').
Qed.

Lemma XX_screen_in_step_witness :
  (∀ rnd sh', Shell._tick rnd Shell.init = Some (tt, sh') →
     synced sh' ∧ (Shell.running Shell.init = true → shows sh'))
  ∧ (∀ ks ch sh', Shell.on_key_press ks ch Shell.init = Some (tt, sh') → synced sh')
  ∧ (∀ ch sh', Shell.on_key_release ch Shell.init = Some (tt, sh') → synced sh').
Proof. apply (XX_screen_in_step Shell.init). vm_compute. reflexivity. Defined.

(** ** The shell of the first CHIP-8 machine: waiting for a key *)

(** An instruction of the [F] group is the fetch followed by
    [_op_fx__]. *)
Lemma cycle_fx s rnd op :
  opcode_at s = Some op → Z.land op 0xF000 = 0xF000 →
  Chip8._cycle rnd s = Chip8._op_fx__ (op_x op) (Z.land op 0x00FF) (fetched s).
Proof.
  intros (hi & lo & Hhi & Hlo & Hop)%opcode_at_elim Htop.
  unfold Chip8._cycle. unfold Py.bind at 1. unfold Py.gets at 1.
  unfold Py.bind at 1. unfold Chip8.mem_get at 1, Py.try_. rewrite Hhi.
  unfold Py.bind at 1. unfold Chip8.mem_get at 1, Py.try_. rewrite Hlo.
  cbv zeta. rewrite <- Hop. unfold Py.bind at 1. unfold Py.modify at 1.
  fold (fetched s). rewrite Htop.
  destruct (Z.eqb_spec op 0x00E0) as [->|_]; [done|].
  destruct (Z.eqb_spec op 0x00EE) as [->|_]; [done|].
  reflexivity.
Qed.

Lemma rewind_pc p : 0 ≤ p ≤ 0xFFF → Z.land (Z.land (p + 2) 0x0FFF - 2) 0x0FFF = p.
Proof.
  intros Hp. rewrite !land_12_mod, Zminus_mod_idemp_l.
  replace (p + 2 - 2) with p by lia. apply Z.mod_small. lia.
Qed.

Section key_wait.
Import String.StringSyntax.
#[local] Open Scope string_scope.

Lemma lookup_key_range ch key :
  Shell.lookup_key ch Shell.KEYMAP = Some key → 0 ≤ key ≤ 15.
Proof.
  unfold Shell.KEYMAP. cbn [Shell.lookup_key].
  repeat (destruct (String.eqb _ ch); [intros [= <-]; lia|]). done.
Qed.

(** The machine once [FX0A] has run: it waits for a key for [Vx], the
    program counter is back on the instruction. *)
Lemma cycle_key_wait s rnd op :
  wf s → opcode_at s = Some op → Z.land op 0xF0FF = 0xF00A →
  Chip8._cycle rnd s
  = Some (tt, Chip8.set_pc (Chip8.pc s)
                (Chip8.set_wait_reg (op_x op) (Chip8.set_waiting_for_key true s))).
Proof.
  intros Hs Hop Hm. wf_facts Hs. destruct (mask_F0FF op _ Hm) as [H1 _].
  rewrite (cycle_fx s rnd op Hop H1).
  assert (Z.land op 0x00FF = 0x0A) as ->.
  { replace (Z.land op 0x00FF) with (Z.land (Z.land op 0xF0FF) 0x00FF); [by rewrite Hm|].
    rewrite <- Z.land_assoc. done. }
  unfold Chip8._op_fx__. cbn [Z.eqb Pos.eqb]. unfold Py.bind, Py.modify, Py.gets, fetched.
  chip8_simpl. rewrite rewind_pc by done. by destruct s.
Qed.

(** A tick of a running shell whose machine waits for a key. *)
Lemma tick_waiting rnd sh :
  synced sh → Shell.running sh = true → Shell.paused sh = false →
  Chip8.waiting_for_key (Shell.vm sh) = true →
  let s := Shell.vm sh in
  let s1 := if Chip8.delay_timer s >? 0
            then Chip8.set_delay_timer (Chip8.delay_timer s - 1) s else s in
  let s2 := if Chip8.sound_timer s >? 0
            then Chip8.set_sound_timer (Chip8.sound_timer s - 1) s1 else s1 in
  ∃ sh', Shell._tick rnd sh = Some (tt, sh') ∧ shows sh'
       ∧ Shell.vm sh' = Chip8.set_dirty ∅ s2.
Proof.
  intros Hs Hrun Hp Hw s s1 s2.
  assert (Shell._tick rnd sh
          = (d <- Py.gets (λ sh, Chip8.dirty (Shell.vm sh)) ;;
             Py.when (negb (bool_decide (d = ∅))) Shell._render_dirty)%py
              (Shell.set_vm s2 sh)) as ->.
  { unfold Shell._tick. unfold Py.bind at 1, Py.gets at 1. rewrite Hrun. cbn [negb].
    unfold Py.bind at 1, Py.gets at 1. rewrite Hp. cbn [negb Py.when].
    unfold Py.bind at 1. unfold Py.bind at 1.
    change (Py.range 9) with (0 :: Py.slice (Py.range 9) 1 9).
    cbn [Shell.run_cycles]. unfold Py.bind at 1, Py.gets at 1. rewrite Hw.
    unfold Py.ret at 1. unfold Py.bind at 1, Py.gets at 1.
    unfold Py.bind at 1. fold s.
    assert (Py.when (Chip8.delay_timer s >? 0)
              (Shell.on_vm (Py.modify (Chip8.set_delay_timer (Chip8.delay_timer s - 1)))) sh
            = Some (tt, Shell.set_vm s1 sh)) as ->.
    { subst s1. destruct (Chip8.delay_timer s >? 0); [done|]. by destruct sh. }
    unfold Py.bind at 1, Py.gets at 1. cbn [Shell.vm Shell.set_vm].
    assert (Chip8.sound_timer s1 = Chip8.sound_timer s) as ->.
    { subst s1. destruct (Chip8.delay_timer s >? 0); [|done]. by destruct s. }
    assert (Py.when (Chip8.sound_timer s >? 0)
              (Shell.on_vm (Py.modify (Chip8.set_sound_timer (Chip8.sound_timer s - 1))))
              (Shell.set_vm s1 sh)
            = Some (tt, Shell.set_vm s2 sh)) as ->.
    { subst s2. destruct (Chip8.sound_timer s >? 0); [|done]. by destruct sh. }
    reflexivity. }
  assert (Chip8.gfx s2 = Chip8.gfx s ∧ Chip8.dirty s2 = Chip8.dirty s) as [Hg Hd].
  { subst s1 s2. destruct (Chip8.delay_timer s >? 0), (Chip8.sound_timer s >? 0);
      by destruct s. }
  assert (synced (Shell.set_vm s2 sh)) as Hs2.
  { unfold synced. cbn [Shell.vm Shell.screen Shell.set_vm]. by apply (covered_frame _ s). }
  unfold Py.bind, Py.gets, Py.when, Py.ret. case_bool_decide as He; cbn [negb].
  - eexists. split; [done|]. split; [by apply synced_shows|].
    cbn [Shell.vm Shell.set_vm] in *. clear Hg Hd Hs2. clearbody s2.
    destruct s2; chip8_simpl. by subst.
  - destruct (render_dirty_shows _ Hs2) as (sh' & Hr & Hshows & _ & Hvm & _).
    exists sh'. by rewrite Hr.
Qed.

(** XX_chip8_key_wait.  [FX0A] makes the first core wait: the
    instruction leaves the program counter on itself and records the
    register; a tick of the running shell then executes no instruction
    (only the timers count down, stopping at zero); the press of a key of
    the pad stores the key in [Vx], marks it down, ends the wait and moves
    the program counter past the instruction. *)
Theorem XX_chip8_key_wait sh rnd op :
  wf (Shell.vm sh) → synced sh → Shell.running sh = true → Shell.paused sh = false →
  opcode_at (Shell.vm sh) = Some op → Z.land op 0xF0FF = 0xF00A →
  let s := Shell.vm sh in
  let x := op_x op in
  let s1 := Chip8.set_pc (Chip8.pc s)
              (Chip8.set_wait_reg x (Chip8.set_waiting_for_key true s)) in
  Chip8._cycle rnd s = Some (tt, s1)
  ∧ (∀ rnd', ∃ sh', Shell._tick rnd' (Shell.set_vm s1 sh) = Some (tt, sh')
       ∧ shows sh'
       ∧ Chip8.waiting_for_key (Shell.vm sh') = true
       ∧ Chip8.pc (Shell.vm sh') = Chip8.pc s
       ∧ Chip8.V (Shell.vm sh') = Chip8.V s
       ∧ Chip8.memory (Shell.vm sh') = Chip8.memory s
       ∧ Chip8.delay_timer (Shell.vm sh')
         = (if Chip8.delay_timer s >? 0 then Chip8.delay_timer s - 1 else Chip8.delay_timer s)
       ∧ Chip8.sound_timer (Shell.vm sh')
         = (if Chip8.sound_timer s >? 0 then Chip8.sound_timer s - 1 else Chip8.sound_timer s))
  ∧ (∀ ks ch key, ks ≠ "space" → Shell.lookup_key ch Shell.KEYMAP = Some key →
       ∃ sh', Shell.on_key_press ks ch (Shell.set_vm s1 sh) = Some (tt, sh')
       ∧ Chip8.waiting_for_key (Shell.vm sh') = false
       ∧ Chip8.pc (Shell.vm sh') = Z.land (Chip8.pc s + 2) 0x0FFF
       ∧ Chip8.V (Shell.vm sh') = <[Z.to_nat x := key]> (Chip8.V s)
       ∧ Chip8.keys (Shell.vm sh') = <[Z.to_nat key := 1]> (Chip8.keys s)
       ∧ Chip8.memory (Shell.vm sh') = Chip8.memory s).
Proof.
  intros Hwf Hs Hrun Hp Hop Hm s x s1. pose proof Hwf as Hwf0. wf_facts Hwf.
  fold s in HlV, Hlkeys, Hpc, HI.
  split; [by apply cycle_key_wait|]. split.
  - intros rnd'.
    destruct (tick_waiting rnd' (Shell.set_vm s1 sh)) as (sh' & Hr & Hshows & Hvm).
    { unfold synced. cbn [Shell.vm Shell.screen Shell.set_vm]. by apply (covered_frame _ s). }
    { done. } { done. } { done. }
    exists sh'. split; [done|]. split; [done|]. rewrite Hvm.
    cbn [Shell.vm Shell.set_vm]. subst s1. chip8_simpl.
    destruct (Chip8.delay_timer s >? 0), (Chip8.sound_timer s >? 0); by destruct s.
  - intros ks ch key Hks Hkey. pose proof (lookup_key_range ch key Hkey) as Hk.
    pose proof (op_x_range op) as Hx. fold x in Hx.
    unfold Shell.on_key_press. rewrite (proj2 (String.eqb_neq ks "space") Hks), Hkey.
    unfold Py.bind at 1. unfold Shell.on_vm at 1, Shell.keys_set, Py.update.
    cbn [Shell.vm Shell.set_vm]. subst s1. chip8_simpl.
    rewrite setitem_in_range by lia. cbn [mbind option_bind].
    unfold Py.bind at 1, Py.gets at 1. cbn [Shell.vm Shell.set_vm]. chip8_simpl.
    cbn [Py.when]. unfold Py.bind at 1. unfold Shell.on_vm at 1.
    unfold Py.bind at 1, Py.gets at 1. cbn [Shell.vm Shell.set_vm]. chip8_simpl.
    unfold Chip8.V_set, Py.update. chip8_simpl. rewrite setitem_in_range by lia.
    cbn [mbind option_bind]. unfold Py.bind, Shell.on_vm, Py.gets, Py.modify.
    cbn [Shell.vm Shell.set_vm]. chip8_simpl.
    eexists. split; [done|]. cbn [Shell.vm Shell.set_vm]. chip8_simpl. done.
Qed.

Lemma XX_chip8_key_wait_witness :
  let sh := Shell.set_vm
              (Chip8.set_memory (<[Z.to_nat 0x200 := 0xF3]> (<[Z.to_nat 0x201 := 0x0A]>
                                   (Chip8.memory Chip8.reset))) Chip8.reset) Shell.init in
  let sh := Shell.set_paused false sh in
  let s := Shell.vm sh in
  let x := op_x 0xF30A in
  let s1 := Chip8.set_pc (Chip8.pc s)
              (Chip8.set_wait_reg x (Chip8.set_waiting_for_key true s)) in
  Chip8._cycle 0 s = Some (tt, s1)
  ∧ (∀ rnd', ∃ sh', Shell._tick rnd' (Shell.set_vm s1 sh) = Some (tt, sh')
       ∧ shows sh'
       ∧ Chip8.waiting_for_key (Shell.vm sh') = true
       ∧ Chip8.pc (Shell.vm sh') = Chip8.pc s
       ∧ Chip8.V (Shell.vm sh') = Chip8.V s
       ∧ Chip8.memory (Shell.vm sh') = Chip8.memory s
       ∧ Chip8.delay_timer (Shell.vm sh')
         = (if Chip8.delay_timer s >? 0 then Chip8.delay_timer s - 1 else Chip8.delay_timer s)
       ∧ Chip8.sound_timer (Shell.vm sh')
         = (if Chip8.sound_timer s >? 0 then Chip8.sound_timer s - 1 else Chip8.sound_timer s))
  ∧ (∀ ks ch key, ks ≠ "space" → Shell.lookup_key ch Shell.KEYMAP = Some key →
       ∃ sh', Shell.on_key_press ks ch (Shell.set_vm s1 sh) = Some (tt, sh')
       ∧ Chip8.waiting_for_key (Shell.vm sh') = false
       ∧ Chip8.pc (Shell.vm sh') = Z.land (Chip8.pc s + 2) 0x0FFF
       ∧ Chip8.V (Shell.vm sh') = <[Z.to_nat x := key]> (Chip8.V s)
       ∧ Chip8.keys (Shell.vm sh') = <[Z.to_nat key := 1]> (Chip8.keys s)
       ∧ Chip8.memory (Shell.vm sh') = Chip8.memory s).
Proof.
  apply (XX_chip8_key_wait
           (Shell.set_paused false
              (Shell.set_vm
                 (Chip8.set_memory (<[Z.to_nat 0x200 := 0xF3]> (<[Z.to_nat 0x201 := 0x0A]>
                                      (Chip8.memory Chip8.reset))) Chip8.reset) Shell.init))
           0 0xF30A); vm_compute; reflexivity.
Defined.

End key_wait.

(** ** The shell of the first CHIP-8 machine: loading a program *)

(** The copy loop of [load_rom] over the bytes [d]. *)
Lemma rom_copy_loop sh (d : list Z) :
  Py.len (Chip8.memory (Shell.vm sh)) = 4096 → Py.len d ≤ 4096 - 0x200 →
  ∃ m', Py.for_ (zip (Py.range (Py.len d)) d) (λ ib,
          Shell.on_vm (Chip8.mem_set (0x200 + ib.1) ib.2)) sh
        = Some (tt, Shell.set_vm (Chip8.set_memory m' (Shell.vm sh)) sh)
      ∧ Py.len m' = 4096
      ∧ ∀ a, 0 ≤ a →
          m' !! Z.to_nat a
          = if bool_decide (0x200 ≤ a < 0x200 + Py.len d) then d !! Z.to_nat (a - 0x200)
            else Chip8.memory (Shell.vm sh) !! Z.to_nat a.
Proof.
  intros Hlen. induction d as [|b d IH] using rev_ind; intros Hd.
  - exists (Chip8.memory (Shell.vm sh)). split; [by destruct sh as [[] ? ? ?]|].
    split; [done|]. intros a Ha. rewrite bool_decide_eq_false_2; [done|].
    unfold Py.len. cbn. lia.
  - assert (Py.len (d ++ [b]) = Py.len d + 1) as Hld.
    { unfold Py.len. rewrite length_app. cbn. lia. }
    destruct IH as (m' & Hrun & Hl & Hm'); [lia|].
    unfold Py.range in *. unfold Py.len at 1. rewrite length_app. cbn [length].
    replace (length d + 1)%nat with (S (length d)) by lia.
    rewrite seqZ_S, zip_with_app by (rewrite length_seqZ; lia).
    fold (Py.len d). rewrite for_app, Hrun. cbn [zip_with Py.for_ fst snd]. unfold Py.bind.
    rewrite Z.add_0_l. unfold Shell.on_vm, Chip8.mem_set, Py.update.
    cbn [Shell.vm Shell.set_vm]. chip8_simpl.
    rewrite setitem_in_range by (unfold Py.len in *; lia).
    cbn [mbind option_bind]. unfold Py.ret.
    eexists. split; [by destruct sh as [[] ? ? ?]|]. split; [by rewrite len_insert|].
    intros a Ha. rewrite Hld. destruct (decide (a = 0x200 + Py.len d)) as [->|Hne].
    + rewrite list_lookup_insert_eq by (unfold Py.len in *; lia).
      rewrite bool_decide_eq_true_2 by (unfold Py.len; lia).
      replace (0x200 + Py.len d - 0x200) with (Py.len d) by lia.
      unfold Py.len. rewrite Nat2Z.id. by rewrite lookup_app_r, Nat.sub_diag by lia.
    + rewrite list_lookup_insert_ne by (unfold Py.len in *; lia). rewrite Hm' by done.
      repeat case_bool_decide; try done; try lia.
      rewrite lookup_app_l; [done|]. unfold Py.len in *. lia.
Qed.

Lemma all_cells idx :
  idx ∈ (list_to_set (Py.range (Chip8.W * Chip8.H)) : gset Z) ↔ 0 ≤ idx < Chip8.W * Chip8.H.
Proof. rewrite elem_of_list_to_set. unfold Py.range. rewrite elem_of_seqZ. lia. Qed.

Lemma pixel_zeros s idx :
  Chip8.gfx s = Py.zeros (Chip8.W * Chip8.H) → pixel s idx = 0.
Proof.
  intros Hg. unfold pixel. rewrite Hg. unfold Py.zeros.
  destruct (replicate _ 0 !! Z.to_nat idx) as [v|] eqn:Hv; [|done].
  by apply lookup_replicate in Hv as [-> _].
Qed.

Lemma bind_run {St A B} (m : Py.M St A) (k : A → Py.M St B) s x s' :
  m s = Some (x, s') → Py.bind m k s = k x s'.
Proof. intros Hm. unfold Py.bind. by rewrite Hm. Qed.

Lemma on_vm_modify_run (g : Chip8.t → Chip8.t) sh :
  Shell.on_vm (Py.modify g) sh = Some (tt, Shell.set_vm (g (Shell.vm sh)) sh).
Proof. reflexivity. Qed.

(** Clearing the display, marking the cells [d] and rendering. *)
Lemma clear_render sh g d :
  Py.len (Shell.screen sh) = Chip8.W * Chip8.H → Py.len g = Chip8.W * Chip8.H →
  (∀ x, x ∈ d → 0 ≤ x < Chip8.W * Chip8.H) →
  ∃ scr', (Shell.on_vm (Py.modify (Chip8.set_gfx g)) ;;
           Shell.on_vm (Py.modify (Chip8.set_dirty d)) ;;
           Shell._render_dirty)%py sh
          = Some (tt, Shell.set_vm
                        (Chip8.set_dirty ∅ (Chip8.set_dirty d (Chip8.set_gfx g (Shell.vm sh))))
                        (Shell.set_screen scr' sh))
        ∧ Py.len scr' = Chip8.W * Chip8.H
        ∧ ∀ idx, 0 ≤ idx →
            scr' !! Z.to_nat idx
            = if bool_decide (idx ∈ d) then Some (Py.truthy (default 0 (g !! Z.to_nat idx)))
              else Shell.screen sh !! Z.to_nat idx.
Proof.
  intros Hscr Hg Hd.
  destruct (render_dirty_run
              (Shell.set_vm (Chip8.set_dirty d (Chip8.set_gfx g (Shell.vm sh))) sh))
    as (scr' & Hrun & Hlen & Hlook); [done|done|done|].
  exists scr'. split; [|split; [done|]].
  - rewrite (bind_run _ _ _ _ _ (on_vm_modify_run _ sh)).
    rewrite (bind_run _ _ _ _ _ (on_vm_modify_run _ _)). cbv beta.
    cbn [Shell.vm Shell.set_vm Shell.screen Shell.running Shell.paused].
    etrans; [exact Hrun|]. by destruct sh.
  - intros idx Hi. by rewrite Hlook.
Qed.

Lemma render_full_clear_run sh :
  Py.len (Shell.screen sh) = Chip8.W * Chip8.H →
  ∃ scr', Shell._render_full_clear sh
          = Some (tt, Shell.set_vm
                        (Chip8.set_dirty ∅
                           (Chip8.set_dirty (list_to_set (Py.range (Chip8.W * Chip8.H)))
                              (Chip8.set_gfx (Py.zeros (Chip8.W * Chip8.H)) (Shell.vm sh))))
                        (Shell.set_screen scr' sh))
        ∧ ∀ idx, 0 ≤ idx < Chip8.W * Chip8.H → scr' !! Z.to_nat idx = Some false.
Proof.
  intros Hscr.
  destruct (clear_render sh (Py.zeros (Chip8.W * Chip8.H))
              (list_to_set (Py.range (Chip8.W * Chip8.H))) Hscr)
    as (scr' & Hrun & Hlen & Hlook).
  { by apply len_zeros. }
  { intros x. apply all_cells. }
  exists scr'. split; [exact Hrun|]. intros idx Hi. rewrite Hlook by lia.
  rewrite bool_decide_eq_true_2 by (by apply all_cells).
  unfold Py.zeros. destruct (replicate _ 0 !! Z.to_nat idx) as [v|] eqn:Hv; [|done].
  by apply lookup_replicate in Hv as [-> _].
Qed.

(** XX_chip8_load_rom.  [load_rom] of the first core refuses a file of
    more than 3584 bytes with an exception and leaves the shell as it
    was.  A shorter file is loaded into a machine that is reset: its bytes
    lie from [0x200] on, the rest of the memory is that of a reset machine
    (the font, zeros elsewhere), the registers and the display are
    cleared, the program counter is [0x200], the emulation is no longer
    paused nor waiting for a key, and the screen shows the cleared
    display. *)
Theorem XX_chip8_load_rom sh data :
  Py.len (Shell.screen sh) = Chip8.W * Chip8.H →
  (4096 - 0x200 < Py.len data → Shell.load_rom data sh = None)
  ∧ (Py.len data ≤ 4096 - 0x200 →
     ∃ sh', Shell.load_rom data sh = Some (tt, sh')
       ∧ shows sh'
       ∧ Shell.paused sh' = false ∧ Shell.running sh' = Shell.running sh
       ∧ Chip8.pc (Shell.vm sh') = 0x200 ∧ Chip8.sp (Shell.vm sh') = 0
       ∧ Chip8.I (Shell.vm sh') = 0 ∧ Chip8.V (Shell.vm sh') = Py.zeros 16
       ∧ Chip8.delay_timer (Shell.vm sh') = 0 ∧ Chip8.sound_timer (Shell.vm sh') = 0
       ∧ Chip8.gfx (Shell.vm sh') = Py.zeros (Chip8.W * Chip8.H)
       ∧ Chip8.waiting_for_key (Shell.vm sh') = false
       ∧ (∀ a, 0 ≤ a →
            Chip8.memory (Shell.vm sh') !! Z.to_nat a
            = if bool_decide (0x200 ≤ a < 0x200 + Py.len data)
              then data !! Z.to_nat (a - 0x200)
              else Chip8.memory Chip8.reset !! Z.to_nat a)
       ∧ (bytes_ok (Py.len data) data = true → 0 ≤ Chip8.wait_reg (Shell.vm sh) ≤ 15 →
          wf (Shell.vm sh'))).
Proof.
  intros Hscr. split.
  - intros Hbig. unfold Shell.load_rom. cbv zeta.
    destruct (Z.gtb_spec (Py.len data) (4096 - 0x200)); [done|lia].
  - intros Hfit.
    assert (Chip8.memory (Shell.reset_vm (Shell.vm sh)) = Chip8.memory Chip8.reset)
      as Hmem0 by reflexivity.
    destruct (rom_copy_loop (Shell.set_vm (Shell.reset_vm (Shell.vm sh)) sh) data)
      as (m' & Hrun & Hlen & Hm'); [vm_compute; reflexivity|done|].
    cbn [Shell.vm Shell.set_vm] in Hrun, Hm'. rewrite Hmem0 in Hm'.
    destruct (render_full_clear_run
                (Shell.set_vm
                   (Chip8.set_waiting_for_key false
                      (Chip8.set_memory m' (Shell.reset_vm (Shell.vm sh))))
                   (Shell.set_paused false sh)) Hscr) as (scr' & Hrfc & Hlook).
    exists (Shell.set_vm
              (Chip8.set_dirty ∅
                 (Chip8.set_dirty (list_to_set (Py.range (Chip8.W * Chip8.H)))
                    (Chip8.set_gfx (Py.zeros (Chip8.W * Chip8.H))
                       (Chip8.set_waiting_for_key false
                          (Chip8.set_memory m' (Shell.reset_vm (Shell.vm sh)))))))
              (Shell.set_screen scr' (Shell.set_paused false sh))).
    split.
    { unfold Shell.load_rom. cbv zeta.
      destruct (Z.gtb_spec (Py.len data) (4096 - 0x200)); [lia|].
      unfold Shell.reset. rewrite (bind_run _ _ _ _ _ (on_vm_modify_run _ sh)). cbv beta.
      rewrite (bind_run _ _ _ _ _ Hrun). cbv beta.
      rewrite (bind_run _ _ _ tt (Shell.set_paused false
                 (Shell.set_vm (Chip8.set_memory m' (Shell.reset_vm (Shell.vm sh))) sh)))
        by reflexivity.
      cbv beta. rewrite (bind_run _ _ _ _ _ (on_vm_modify_run _ _)). cbv beta.
      cbn [Shell.vm Shell.screen Shell.running Shell.paused
           Shell.set_vm Shell.set_paused Shell.set_screen].
      etrans; [exact Hrfc|]. reflexivity. }
    cbn [Shell.vm Shell.screen Shell.running Shell.paused
         Shell.set_vm Shell.set_paused Shell.set_screen].
    chip8_simpl. split; [|do 10 (split; [reflexivity|]); split].
    + split; [reflexivity|]. intros idx Hi. cbn [Shell.vm Shell.screen Shell.set_vm].
      rewrite Hlook by done. rewrite pixel_zeros; [done|reflexivity].
    + intros a Ha. by rewrite Hm'.
    + intros Hbytes Hwr.
      assert (bytes_ok 4096 m' = true) as Hbm.
      { apply bytes_ok_spec. split; [done|]. intros k v Hk.
        specialize (Hm' (Z.of_nat k) ltac:(lia)). rewrite Nat2Z.id, Hk in Hm'.
        case_bool_decide.
        - apply bytes_ok_spec in Hbytes as [_ Hb]. by eapply Hb.
        - assert (bytes_ok 4096 (Chip8.memory Chip8.reset) = true) as Hr
            by (vm_compute; reflexivity).
          apply bytes_ok_spec in Hr as [_ Hb]. by eapply Hb. }
      unfold wf, chip8_wf. chip8_simpl. unfold Shell.reset_vm. chip8_simpl.
      rewrite Hbm, (bool_decide_eq_true_2 (0 ≤ Chip8.wait_reg (Shell.vm sh) ≤ 15)) by done.
      vm_compute. reflexivity.
Qed.

Lemma XX_chip8_load_rom_witness :
  let sh := Shell.init in
  let data := [0x12; 0x00] in
  (4096 - 0x200 < Py.len data → Shell.load_rom data sh = None)
  ∧ (Py.len data ≤ 4096 - 0x200 →
     ∃ sh', Shell.load_rom data sh = Some (tt, sh')
       ∧ shows sh'
       ∧ Shell.paused sh' = false ∧ Shell.running sh' = Shell.running sh
       ∧ Chip8.pc (Shell.vm sh') = 0x200 ∧ Chip8.sp (Shell.vm sh') = 0
       ∧ Chip8.I (Shell.vm sh') = 0 ∧ Chip8.V (Shell.vm sh') = Py.zeros 16
       ∧ Chip8.delay_timer (Shell.vm sh') = 0 ∧ Chip8.sound_timer (Shell.vm sh') = 0
       ∧ Chip8.gfx (Shell.vm sh') = Py.zeros (Chip8.W * Chip8.H)
       ∧ Chip8.waiting_for_key (Shell.vm sh') = false
       ∧ (∀ a, 0 ≤ a →
            Chip8.memory (Shell.vm sh') !! Z.to_nat a
            = if bool_decide (0x200 ≤ a < 0x200 + Py.len data)
              then data !! Z.to_nat (a - 0x200)
              else Chip8.memory Chip8.reset !! Z.to_nat a)
       ∧ (bytes_ok (Py.len data) data = true → 0 ≤ Chip8.wait_reg (Shell.vm sh) ≤ 15 →
          wf (Shell.vm sh'))).
Proof. apply (XX_chip8_load_rom Shell.init [0x12; 0x00]). vm_compute. reflexivity. Defined.
